(* ===== verification/_CoqProject ===== *)
-Q . S2P
Prelude.v
Bytes.v
Prog.v
Platform.v
Ffbase.v
Vec.v
Unix.v
Win.v
StringW.v
Error.v
Path.v
Time.v
Perf.v
PathInfo.v
TimerQueue.v
FileUnix.v
FileWin.v
Socket.v
SocketWin.v
Queue.v
Sync.v
Stamps.v
KCall.v
DirScan.v
DirScanWin.v
Dir.v
Environ.v
EnvironWin.v
NetConf.v
NetConfWin.v
Process.v
Pipe.v
Netlink.v
FileMon.v
Timer.v
TimerThread.v
Std.v
Signal.v
WinReg.v
Volume.v
Dylib.v
SysInfo.v
Backtrace.v
Server.v
TestLib.v
MsgRouter.v
EchoServer.v
