(* ===== verification/Prelude.v ===== *)
(** * ffos: a verification library of the FFOS headers

    FFOS (src/FFOS/*.h) is a header-only C library that gives one interface to the system services of
    Linux, Android, FreeBSD, macOS and Windows.  Each header holds the code of every system, selected by
    the preprocessor; two programs (src/examples/tcp-echo-server.c, tcp-msg-router.c) use it.  This
    library models the code of all headers and both programs and proves what makes them correct.

    ** How the code is modelled

    - C values.  An integer of [w] bits is a [Z]; every conversion and every operation that can wrap is
      written out ([u32], [s32], [u64], ... of this file).  A byte is a [Z], a string the list of its bytes
      (a C string: the bytes before its NUL), a wide string the list of its UTF-16 units, a pointer to a
      heap block, a descriptor or a handle its number (0 or -1 where C has NULL, -1).
    - System calls.  A function that calls the system is a [prog] (Prog.v): a finite tree of calls.
      Unix.v and Win.v declare the calls ([unixE], [winE]), each with its arguments and the type of its
      answer (the return value, with the data stored through pointer arguments).  A loop is a [loop] with
      fuel.  A program that would read or write outside of an object, use a freed one or fail an assertion
      ends in [Halt]; [never] as a postcondition says that this does not happen.
    - What the system answers.  [wp env p Q F s] holds when every run of [p] from the state [s] of the
      environment ends in [Q], or stops as [F] allows.  [ustep] and [wstep] are the general environments:
      they follow only the resources (descriptors, handles, sockets, heap blocks, directory streams, names
      removed, data transferred) and leave every answer open, so that a theorem holds whatever fails.
      [ustep_total] and [wstep_total] show that they always allow an answer; [wp_sound] that [wp] speaks of
      the executions of [run].  A theorem about the result uses an environment that specifies the calls
      concerned: [dir_env], [find_env] (directory entries), [mk_env] (existing directories), [wait_env] (a
      child process), [console_env], [term_env] (terminals), [kq_env], [sig_env] (signals), [reg_env],
      [enum_env] (registry), [ps_env] (process list), [clock_env], [counters_env], [vol_env], [dl_env],
      [map_env], [mod_env], [post_env], [params_env], [stamp_env], [test_env], [cpp_env] (the
      headers of the system), [net_env] (sockets and connections),
      [io_step] (overlapped operations), the open-file and long-name marks.  [marked env] adds to an
      environment whether a certain call has been made; environments that say whether a call has failed
      let a theorem allow an error only then.
    - Concurrency.  TimerThread.v interleaves the code of two threads, action by action, over the memory
      they share; it assumes that SetEvent() and PostQueuedCompletionStatus() on open objects succeed, and
      follows that no event is closed while the thread can still use it.  Queue.v interleaves the calls of
      the thread that posts and of the one that waits and consumes ([pnext]: one call of a program); a
      post can stand between any two calls of the other side.  In KCall.v the two sides of a queue take
      turns: the worker's and the owner's functions run one after the other.
    - Systems.  Where the source has a function per system the model has a definition per system: no suffix
      for UNIX or Linux, [_win], [_bsd], [_apple]; where it selects a few lines, the system is an argument.

    ** The ffbase library

    ffbase is another repository.  What the code uses of it is a class of operations, and its documented
    behaviour a class of laws that only theorems assume; each class of laws has an instance (Ref...), which
    the witnesses use.  Strings [FfStr]; converters [FfUni] with [FfUniLaws], [FfWtouLaws], [FfUtf16Laws],
    [FfWtouText], [FfUtf16Ascii]; copies [FfCopyz]; time sums [FfTimeOps]; the red-black tree [Rbt]; the ring
    [RingQueue]; growing vectors and strings [VecLib] (Vec.v: with the heap block that a vector owns), [FfVec_ops],
    [WVecPush], [WVecAlloc], [NameGrow], [BtFmt], [FmtGrow], [RegLib]; removal from a slice [RmSwap]; searches [BinFind], [BitFind];
    sorting and wildcards [DirLib]; formatting [FmtLib].  [NtLayout] is the layout of a Windows structure.

    ** The parts

    - base.h, detect-os.h, detect-compiler.h, compiler-gcc.h: Platform.v: what the preprocessor makes of them.
    - path.h: Path.v ([ffpath_normalize] and the splitting functions on buffers), PathInfo.v (what the
      system says of a path).
    - time.h: Time.v (conversions, the UNIX clock), PathInfo.v (the clock of Windows); Stamps.v: the time
      stamps of all components that produce or take them.
    - timerqueue.h: TimerQueue.v: the heap of nodes, the insertion callback, [fftimerqueue_process] with
      timer functions that change the queue.
    - string.h: StringW.v.  error.h: Error.v.
    - file.h: FileUnix.v, FileWin.v.  filemap.h: SysInfo.v.  dir.h: Dir.v.  dirscan.h: DirScan.v,
      DirScanWin.v.  filemon.h: FileMon.v.  volume.h: Volume.v.
    - socket.h: Socket.v (addresses, I/O vectors, UNIX), SocketWin.v.  kqtask.h: Socket.v, SocketWin.v.
      netconf.h: NetConf.v, NetConfWin.v.  netlink.h: Netlink.v.
    - queue.h: Queue.v.  kcall.h: KCall.v.  timer.h: Timer.v, TimerThread.v (the thread of Windows).
      signal.h: Signal.v.
    - semaphore.h, thread.h: Sync.v.  process.h: Process.v.  pipe.h: Pipe.v.  perf.h: Perf.v.
    - std.h: Std.v.  environ.h: Environ.v, EnvironWin.v.  dylib.h: Dylib.v.  backtrace.h: Backtrace.v.
      sysconf.h, random.h: SysInfo.v.  winreg.h: WinReg.v.
    - tcp-msg-router.c, tcp-echo-server.c: MsgRouter.v, EchoServer.v, on Server.v (the network, the log and
      the abstract server).  test.h: TestLib.v.
    - Prelude.v, Bytes.v (integers in memory), Prog.v, Ffbase.v, Vec.v, Unix.v, Win.v are what all of them use.

    ** What the theorems show

    - Refinement: path normalisation computes a stack of components; the timer queue is a sorted list on a
      wrapping clock; the two servers implement an abstract server.
    - Type: every time stamp is well-formed and stands for the instant it is made from, whatever conversion,
      setter, clock or file it comes from, and so is the deadline of ffthread_join(); the deadline of
      ffsem_wait() is the right instant but not always well-formed (Sync.v).
    - Functional behaviour on every branch: expired timers, whole files, directory scans, asynchronous
      calls (one, and any number in the order of their submission), command lines, child processes, environment strings, registry enumerations, signal
      subscriptions, DNS configuration, waiting for a process.
    - Round trips: socket addresses, keys of a terminal, inotify events, registry texts, signal sets; netlink
      messages, of whose bodies the code drops the last four bytes.
    - Memory safety and resources: on every path, whatever fails, what a function allocated or opened is
      returned or released, and no access leaves its object.
    - Platform: base.h defines exactly the macros of the system and the compiler, and the feature macros before
      the first header that looks at them.
    - Termination and liveness: loops end with the stated fuel; the timer thread and its owner never block
      each other; a posted event is reported at the next wait, however the two threads are interleaved.
    - Examples and lemmas that show behaviour which the code does not intend (a leak, a lost character, a
      loop without end) stand next to the definitions they are about.

    ** Fuel

    Fuel is an argument; each theorem says how much is enough: the number of bytes (DNS file, templates) or
    of entries (directories, registry, process list) and one; two for a size that the system reports on the
    first attempt; the number of interruptions and one for a wait; the number of events the system has for
    a server.  Running out of fuel is a [Halt], which these theorems exclude.

    ** Not modelled

    ffos-extern.h holds storage for global variables, which are arguments here: there is no behaviour to state.
    What is left of the other headers are prototypes, names of types and comments.
    test/test.c is the test program; some of its facts are Examples here.  The text that a format string
    produces belongs to ffbase.  Undefined behaviour of C is modelled where it is an access outside of an
    object; a signed overflow is taken as wrapping, as the supported compilers implement it.
*)
From stdpp Require Export base list gmap strings.
From Stdlib Require Export ZArith Lia.
#[global] Open Scope Z_scope.

(** ** Machine integers

    A [w]-bit integer is a [Z]; the C conversions are the wrap-around functions below
    (two's complement, as every compiler the repository supports implements them). *)

Definition uwrap (w x : Z) : Z := x mod 2 ^ w.
Definition swrap (w x : Z) : Z := (x + 2 ^ (w - 1)) mod 2 ^ w - 2 ^ (w - 1).

Definition u8 : Z → Z := uwrap 8.
Definition u16 : Z → Z := uwrap 16.
Definition u32 : Z → Z := uwrap 32.
Definition u64 : Z → Z := uwrap 64.
Definition s32 : Z → Z := swrap 32.
Definition s64 : Z → Z := swrap 64.

Definition is_u32 (x : Z) : Prop := 0 ≤ x < 2 ^ 32.
Definition is_u64 (x : Z) : Prop := 0 ≤ x < 2 ^ 64.
Definition is_s32 (x : Z) : Prop := - 2 ^ 31 ≤ x < 2 ^ 31.
Definition is_s64 (x : Z) : Prop := - 2 ^ 63 ≤ x < 2 ^ 63.

(** C truth values: an [int] used as a condition, a condition used as an [int]. *)
Definition truthy (x : Z) : bool := negb (x =? 0).
Definition b2z (b : bool) : Z := if b then 1 else 0.

(** [flags & mask] as a condition. *)
Definition has (flags mask : Z) : bool := negb (Z.land flags mask =? 0).

Lemma uwrap_range w x : 0 ≤ w → 0 ≤ uwrap w x < 2 ^ w.
Proof. intros Hw. apply Z.mod_pos_bound. apply Z.pow_pos_nonneg; lia. Qed.

Lemma uwrap_small w x : 0 ≤ x < 2 ^ w → uwrap w x = x.
Proof. apply Z.mod_small. Qed.

Lemma u32_range x : is_u32 (u32 x).
Proof. apply uwrap_range; lia. Qed.

Lemma u64_range x : is_u64 (u64 x).
Proof. apply uwrap_range; lia. Qed.

Lemma u32_small x : is_u32 x → u32 x = x.
Proof. apply uwrap_small. Qed.

Lemma u64_small x : is_u64 x → u64 x = x.
Proof. apply uwrap_small. Qed.

Lemma s32_small x : is_s32 x → s32 x = x.
Proof.
  unfold is_s32, s32, swrap. change (2 ^ (32 - 1)) with (2 ^ 31). intros H.
  rewrite Z.mod_small; lia.
Qed.

(** A signed integer passed through an unsigned one. *)
Lemma s32_u32 x : is_s32 x → s32 (u32 x) = x.
Proof.
  intros H. unfold is_s32 in H. unfold s32, u32, swrap, uwrap. rewrite Zplus_mod_idemp_l.
  rewrite Z.mod_small by lia. lia.
Qed.

Lemma s64_small x : is_s64 x → s64 x = x.
Proof.
  unfold is_s64, s64, swrap. change (2 ^ (64 - 1)) with (2 ^ 63). intros H.
  rewrite Z.mod_small; lia.
Qed.

(** [(hi << n) | lo] is arithmetic when [lo] has [n] bits. *)
Lemma lor_shiftl_add hi lo n : 0 ≤ n → 0 ≤ lo < 2 ^ n → Z.lor (Z.shiftl hi n) lo = hi * 2 ^ n + lo.
Proof.
  intros Hn Hlo. rewrite <- Z.shiftl_mul_pow2 by done.
  destruct (Z.eq_dec lo 0) as [->|Hne]; [rewrite Z.lor_0_r; lia|].
  rewrite <- Z.add_lor_land. enough (Z.land (Z.shiftl hi n) lo = 0) by lia.
  apply Z.bits_inj'. intros k Hk. rewrite Z.land_spec, Z.bits_0.
  destruct (Z.ltb_spec k n) as [Hkn|Hkn]; [by rewrite Z.shiftl_spec_low|].
  rewrite (Z.bits_above_log2 lo k), andb_false_r; [done|lia|].
  apply Z.log2_lt_pow2; [lia|]. apply Z.lt_le_trans with (2 ^ n); [lia|].
  apply Z.pow_le_mono_r; lia.
Qed.

(** ** Bytes and strings

    A byte is a [Z] in [0, 256); a C string is the list of its bytes before the
    terminating NUL, an [ffstr] the list of the [len] bytes it delimits. *)



Fixpoint bytes_of (s : string) : list Z :=
  match s with
  | EmptyString => []
  | String a s' => Z.of_N (Ascii.N_of_ascii a) :: bytes_of s'
  end.

Abbreviation SLASH := 47%Z (only parsing).
Abbreviation BSLASH := 92%Z (only parsing).
Abbreviation DOT := 46%Z (only parsing).
Abbreviation COLON := 58%Z (only parsing).

(** [mem_write buf at src]: [memcpy(&buf[at], src, n)]; [None] when a byte would be stored
    outside of the buffer. *)
Definition mem_write (buf : list Z) (at_ : nat) (src : list Z) : option (list Z) :=
  if decide (at_ + length src ≤ length buf)%nat
  then Some (take at_ buf ++ src ++ drop (at_ + length src) buf)
  else None.

Lemma mem_write_ok buf at_ src :
  (at_ + length src ≤ length buf)%nat →
  ∃ buf', mem_write buf at_ src = Some buf' ∧ length buf' = length buf ∧
    take (at_ + length src) buf' = take at_ buf ++ src.
Proof.
  intros H. unfold mem_write. rewrite decide_True by done.
  eexists; split; [done|]. split.
  - rewrite !length_app, length_take, length_drop. lia.
  - rewrite app_assoc, take_app_length'; [done|].
    rewrite length_app, length_take. lia.
Qed.

(** The C string at the start of a buffer. *)
Fixpoint strz (l : list Z) : list Z :=
  match l with [] => [] | c :: l => if c =? 0 then [] else c :: strz l end.

Lemma strz_app n l : Forall (λ c, c ≠ 0) n → strz (n ++ 0 :: l) = n.
Proof. induction 1 as [|c n Hc _ IH]; cbn; [done|]. by rewrite (proj2 (Z.eqb_neq _ _) Hc), IH. Qed.

(** ** Generic list lemmas *)

Lemma concat_snoc {A} (ls : list (list A)) l : concat (ls ++ [l]) = concat ls ++ l.
Proof. rewrite concat_app. simpl. by rewrite app_nil_r. Qed.

Lemma take_take_le {A} (l : list A) (n m : nat) :
  (n ≤ m)%nat → take n (take m l) = take n l.
Proof. intros. rewrite take_take. by rewrite Nat.min_l. Qed.

Lemma Forall_filter_sub {A} (P Q : A → Prop) `{!∀ x, Decision (P x)} (l : list A) :
  Forall Q l → Forall Q (filter P l).
Proof.
  induction 1 as [|x l Hx _ IH]; [constructor|]. rewrite filter_cons.
  case_decide; [by constructor|done].
Qed.

Lemma filter_all {A} (P : A → Prop) `{!∀ x, Decision (P x)} (l : list A) :
  (∀ x, x ∈ l → P x) → filter P l = l.
Proof.
  induction l as [|x l IH]; intros Hl; [done|].
  rewrite filter_cons_True, IH; set_solver.
Qed.

Lemma filter_none {A} (P : A → Prop) `{!∀ x, Decision (P x)} (l : list A) :
  (∀ x, x ∈ l → ¬ P x) → filter P l = [].
Proof.
  induction l as [|x l IH]; intros Hl; [done|].
  rewrite filter_cons_False, IH; set_solver.
Qed.

(** Predicates that agree on the members of the list. *)
Lemma list_filter_iff' {A} (P Q : A → Prop) `{!∀ x, Decision (P x), !∀ x, Decision (Q x)} (l : list A) :
  (∀ x, x ∈ l → P x ↔ Q x) → filter P l = filter Q l.
Proof.
  induction l as [|x l IH]; intros Hl; [done|]. rewrite !filter_cons.
  rewrite IH by set_solver. specialize (Hl x). do 2 case_decide; set_solver.
Qed.

Create HintDb ffos.
Create Rewrite HintDb ffos_len.
#[export] Hint Resolve u32_range u64_range : ffos.
#[export] Hint Rewrite @concat_app @fmap_app @length_app : ffos_len.

(** ** Tactics *)

(** Case analysis on the boolean tests of a goal, with the arithmetic facts they stand for. *)
Ltac zify_bools :=
  repeat match goal with
  | H : (_ =? _) = true |- _ => apply Z.eqb_eq in H
  | H : (_ =? _) = false |- _ => apply Z.eqb_neq in H
  | H : (_ <? _) = true |- _ => apply Z.ltb_lt in H
  | H : (_ <? _) = false |- _ => apply Z.ltb_ge in H
  | H : (_ <=? _) = true |- _ => apply Z.leb_le in H
  | H : (_ <=? _) = false |- _ => apply Z.leb_gt in H
  | H : (_ && _)%bool = true |- _ => apply andb_true_iff in H as [??]
  | H : (_ || _)%bool = false |- _ => apply orb_false_iff in H as [??]
  | H : negb _ = true |- _ => apply negb_true_iff in H
  | H : negb _ = false |- _ => apply negb_false_iff in H
  end.

(** Linear arithmetic with divisions and remainders by constants. *)
Ltac dlia := Z.to_euclidean_division_equations; lia.

(** The premise of [H] as a goal; then [H] without it. *)
Ltac premise H :=
  match type of H with ?A → _ => let a := fresh in assert (a : A); [|specialize (H a); clear a] end.
