(* ===== verification/Bytes.v ===== *)
(** * Integers in memory

    Little-endian integers of [n] bytes, and reads of them at an offset of an object: a read that
    does not lie inside of the object has no value.  An [ffstr] that delimits a part of an object is
    its offset and its length ([span]); the length is a [size_t] and wraps. *)
From S2P Require Import Prelude.

Fixpoint le (n : nat) (x : Z) : list Z :=
  match n with O => [] | S n => x mod 256 :: le n (x / 256) end.
Fixpoint un_le (l : list Z) : Z :=
  match l with [] => 0 | b :: l => b + 256 * un_le l end.

Lemma length_le n : ∀ x, length (le n x) = n.
Proof. induction n as [|n IH]; intros x; cbn; [done|]. by rewrite IH. Qed.

Lemma un_le_le n : ∀ x, 0 ≤ x < 256 ^ Z.of_nat n → un_le (le n x) = x.
Proof.
  induction n as [|n IH]; intros x Hx; cbn -[Z.mul Z.pow Z.of_nat] in *; [lia|].
  rewrite Nat2Z.inj_succ, Z.pow_succ_r in Hx by lia.
  rewrite IH; [pose proof (Z.div_mod x 256); lia|].
  split; [apply Z.div_pos; lia|]. apply Z.div_lt_upper_bound; lia.
Qed.

(** The integer of [n] bytes at an offset. *)
Definition rd (n : nat) (mem : list Z) (off : Z) : option Z :=
  if (0 <=? off) && (off + Z.of_nat n <=? Z.of_nat (length mem))
  then Some (un_le (take n (drop (Z.to_nat off) mem))) else None.

Lemma rd_at n pre x post off : off = Z.of_nat (length pre) → 0 ≤ x < 256 ^ Z.of_nat n →
  rd n (pre ++ le n x ++ post) off = Some x.
Proof.
  intros -> Hx. unfold rd. rewrite !length_app, length_le.
  rewrite (proj2 (Z.leb_le _ _)), (proj2 (Z.leb_le _ _)) by lia. cbn [andb]. f_equal.
  rewrite Nat2Z.id, drop_app_length. rewrite take_app_length' by by rewrite length_le. by apply un_le_le.
Qed.

Lemma rd_field n pre x mem off : (∃ post, mem = pre ++ le n x ++ post) → off = Z.of_nat (length pre) →
  0 ≤ x < 256 ^ Z.of_nat n → rd n mem off = Some x.
Proof. intros [post ->]. apply rd_at. Qed.

(** A part of an object. *)
Record span := Span { sp_off : Z; sp_len : Z }.
(** [ffstr_shift] *)
Definition shift (s : span) (n : Z) : span := Span (sp_off s + n) (u64 (sp_len s - n)).
(** Its bytes, if it lies inside. *)
Definition span_bytes (mem : list Z) (s : span) : option (list Z) :=
  if (0 <=? sp_off s) && (sp_off s + sp_len s <=? Z.of_nat (length mem))
  then Some (take (Z.to_nat (sp_len s)) (drop (Z.to_nat (sp_off s)) mem)) else None.

Lemma span_bytes_at pre d post s : sp_off s = Z.of_nat (length pre) → sp_len s = Z.of_nat (length d) →
  span_bytes (pre ++ d ++ post) s = Some d.
Proof.
  intros Ho Hl. unfold span_bytes. rewrite Ho, Hl, !length_app.
  rewrite (proj2 (Z.leb_le _ _)), (proj2 (Z.leb_le _ _)) by lia. cbn [andb].
  by rewrite !Nat2Z.id, drop_app_length, take_app_length.
Qed.

(** [x & ~3] *)
Definition align4 (x : Z) : Z := Z.ldiff (x + 3) 3.
Lemma align4_spec x : align4 x = 4 * ((x + 3) / 4).
Proof.
  unfold align4. change 3 with (Z.ones 2) at 2. rewrite Z.ldiff_ones_r by lia.
  rewrite Z.shiftl_mul_pow2, Z.shiftr_div_pow2 by lia. change (2 ^ 2) with 4. lia.
Qed.
Definition padding (n : nat) : list Z := replicate (Z.to_nat (align4 (Z.of_nat n) - Z.of_nat n)) 0.
Lemma length_padding n : Z.of_nat (n + length (padding n)) = align4 (Z.of_nat n).
Proof. unfold padding. rewrite length_replicate, align4_spec. dlia. Qed.

(** ** 16-bit units *)

Fixpoint units_of (l : list Z) : list Z :=
  match l with a :: b :: l => un_le [a; b] :: units_of l | _ => [] end.
Definition units_bytes (u : list Z) : list Z := concat (map (le 2) u).

Lemma units_of_bytes u : Forall (λ x, 0 ≤ x < 65536) u → units_of (units_bytes u) = u.
Proof.
  induction 1 as [|x u Hx _ IH]; [done|].
  change (un_le (le 2 x) :: units_of (units_bytes u) = x :: u). by rewrite IH, un_le_le.
Qed.

Lemma length_units_bytes u : length (units_bytes u) = (2 * length u)%nat.
Proof. unfold units_bytes. induction u as [|x u IH]; [done|]. cbn [map concat]. rewrite length_app, length_le, IH. cbn [length]. lia. Qed.

Lemma units_bytes_app u v : units_bytes (u ++ v) = units_bytes u ++ units_bytes v.
Proof. unfold units_bytes. by rewrite map_app, concat_app. Qed.
