(* ===== verification/Prog.v ===== *)
(** * Programs that call the operating system

    A C function that performs system calls is a [prog]: a finite tree whose nodes are calls
    (an event type indexed by the type of the response) and whose leaves are results.  What a
    call answers is decided by the environment: a deterministic handler ([run]) or a
    nondeterministic specification of the operating system ([wp]). *)
From S2P Require Import Prelude.

(** Why a program stopped without a result. *)
Inductive halt :=
  | OutOfFuel      (* a loop ran out of the fuel it was given *)
  | AssertFail     (* assert(0), FF_ASSERT *)
  | OutOfBounds    (* an access outside of an object *)
  | Exited.        (* the process or its image is gone: _exit(), abort() *)

Inductive prog (E : Type → Type) (A : Type) : Type :=
  | Ret (a : A)
  | Vis {X : Type} (e : E X) (k : X → prog E A)
  | Halt (h : halt).
Arguments Ret {E A} a.
Arguments Vis {E A X} e k.
Arguments Halt {E A} h.

Fixpoint bind {E A B} (p : prog E A) (f : A → prog E B) : prog E B :=
  match p with
  | Ret a => f a
  | Vis e k => Vis e (λ x, bind (k x) f)
  | Halt h => Halt h
  end.

Declare Scope prog_scope.
Delimit Scope prog_scope with prog.
#[global] Open Scope prog_scope.

Notation "'let*' x ':=' c1 'in' c2" := (bind c1 (λ x, c2))
  (at level 100, x binder, c1 at next level, c2 at level 200, right associativity) : prog_scope.
Notation "'let!' x ':=' e 'in' c2" := (Vis e (λ x, c2))
  (at level 100, x binder, e at next level, c2 at level 200, right associativity) : prog_scope.
Notation "'do!' e 'in' c2" := (Vis e (λ _, c2))
  (at level 100, e at next level, c2 at level 200, right associativity) : prog_scope.
Notation "'do*' c1 'in' c2" := (bind c1 (λ _, c2))
  (at level 100, c1 at next level, c2 at level 200, right associativity) : prog_scope.

(** A single call, its response being the result. *)
Definition call {E : Type → Type} {X} (e : E X) : prog E X := Vis e Ret.

(** [do { body } while (again)]: [body] returns [inl s] to go round again with [s]. *)
Fixpoint loop {E S A} (fuel : nat) (body : S → prog E (S + A)) (s : S) : prog E A :=
  match fuel with
  | O => Halt OutOfFuel
  | Datatypes.S fuel' =>
      bind (body s) (λ r, match r with inl s' => loop fuel' body s' | inr a => Ret a end)
  end.

(** ** Execution against a deterministic environment *)

Inductive outcome (A : Type) := Done (a : A) | Stopped (h : halt).
Arguments Done {A} a.
Arguments Stopped {A} h.

Fixpoint run {E A S} (h : S → ∀ X, E X → X * S) (p : prog E A) (s : S) : outcome A * S :=
  match p with
  | Ret a => (Done a, s)
  | Vis e k => let '(x, s') := h s _ e in run h (k x) s'
  | Halt w => (Stopped w, s)
  end.

(** ** Weakest preconditions against a nondeterministic environment

    [step s e x s']: from environment state [s], call [e] may answer [x] and lead to [s'].
    [wp step p Q F s] holds when every execution of [p] from [s] ends with a result and a
    state in [Q], or stops for a reason that [F] allows. *)
Definition env (E : Type → Type) (S : Type) : Type := S → ∀ X, E X → X → S → Prop.

Fixpoint wp {E A S} (step : env E S) (p : prog E A)
    (Q : A → S → Prop) (F : halt → S → Prop) (s : S) : Prop :=
  match p with
  | Ret a => Q a s
  | Vis e k => ∀ x s', step s _ e x s' → wp step (k x) Q F s'
  | Halt h => F h s
  end.

(** No reason to stop is allowed. *)
Definition never {S} (h : halt) (s : S) : Prop := False.

Lemma wp_bind {E A B S} (step : env E S) (p : prog E A) (f : A → prog E B) Q F s :
  wp step p (λ a s', wp step (f a) Q F s') F s → wp step (bind p f) Q F s.
Proof. revert s. induction p; simpl; eauto. Qed.

Lemma wp_bind_inv {E A B S} (step : env E S) (p : prog E A) (f : A → prog E B) Q F s :
  wp step (bind p f) Q F s → wp step p (λ a s', wp step (f a) Q F s') F s.
Proof. revert s. induction p; simpl; eauto. Qed.

Lemma wp_mono {E A S} (step : env E S) (p : prog E A) (Q Q' : A → S → Prop) (F F' : halt → S → Prop) s :
  wp step p Q F s → (∀ a s', Q a s' → Q' a s') → (∀ h s', F h s' → F' h s') →
  wp step p Q' F' s.
Proof. intros H HQ HF. revert s H. induction p; simpl; eauto. Qed.

(** An environment that allows fewer answers. *)
Lemma wp_env {E A S} (step step' : env E S) (p : prog E A) Q F s :
  (∀ s X (e : E X) x s', step s X e x s' → step' s X e x s') → wp step' p Q F s → wp step p Q F s.
Proof. intros Hs. revert s. induction p; simpl; eauto. Qed.

(** Loop rule: an invariant indexed by the fuel that is left. *)
Lemma wp_loop {E S A W} (step : env E W) (body : S → prog E (S + A)) (Inv : nat → S → W → Prop) Q F :
  (∀ w s, Inv O s w → F OutOfFuel w) →
  (∀ n s w, Inv (Datatypes.S n) s w →
    wp step (body s) (λ r w', match r with inl s' => Inv n s' w' | inr a => Q a w' end) F w) →
  ∀ n s w, Inv n s w → wp step (loop n body s) Q F w.
Proof.
  intros H0 HS n. induction n as [|n IH]; intros s w HI; simpl; [eauto|].
  apply wp_bind. eapply wp_mono; [apply HS, HI| |auto].
  intros [s'|a] w'; simpl; auto.
Qed.

(** A handler refines a specification when every answer it gives is allowed. *)
Definition refines {E S} (h : S → ∀ X, E X → X * S) (step : env E S) : Prop :=
  ∀ s X (e : E X), step s X e (h s X e).1 (h s X e).2.

(** Soundness: what [wp] promises holds of every execution in an environment that refines the
    specification. *)
Lemma wp_sound {E A S} (h : S → ∀ X, E X → X * S) (step : env E S) (p : prog E A) Q F s :
  refines h step → wp step p Q F s →
  match run h p s with (Done a, s') => Q a s' | (Stopped w, s') => F w s' end.
Proof.
  intros Hr. revert s. induction p as [a|X e k IH|w]; intros s Hwp; simpl in *; auto.
  pose proof (Hr s X e) as Hs. destruct (h s X e) as [x s']. apply IH, Hwp, Hs.
Qed.

Lemma run_bind {E A B S} (h : S → ∀ X, E X → X * S) (p : prog E A) (f : A → prog E B) s :
  run h (bind p f) s =
    match run h p s with (Done a, s') => run h (f a) s' | (Stopped w, s') => (Stopped w, s') end.
Proof.
  revert s. induction p as [a|X e k IH|w]; intros s; simpl; auto.
  destruct (h s X e) as [x s']. apply IH.
Qed.

(** ** Single steps, for programs that run side by side *)

(** [p] makes its next call and is [p'] then. *)
Definition pnext {E S A} (step : env E S) (p : prog E A) (s : S) (p' : prog E A) (s' : S) : Prop :=
  match p with Vis e k => ∃ x, step s _ e x s' ∧ p' = k x | _ => False end.

(** An environment whose state also says whether a call with an answer marked by [m] has been made. *)
Definition marked {E S} (m : ∀ X, E X → X → bool) (step : env E S) : env E (S * bool) :=
  λ s X e x s', step s.1 X e x s'.1 ∧ s'.2 = s.2 || m X e x.

(** What holds in the environment holds in the marked one. *)
Lemma wp_marked {E S A} m (step : env E S) (p : prog E A) Q F s :
  wp step p Q F s.1 → wp (marked m step) p (λ a s', Q a s'.1) (λ h s', F h s'.1) s.
Proof. revert s. induction p as [a|X e k IH|h]; intros s H; cbn in *; [done| |done]. intros x s' [H1 _]. apply IH, H, H1. Qed.
