(* ===== verification/Platform.v ===== *)
(** * FFOS/base.h, detect-os.h, detect-compiler.h, compiler-gcc.h: the platform, as the preprocessor finds it

    The state is the table of macros and that of type names; a header that is not of this library is an event,
    whose answer is the table of macros it leaves.  [None]: an #error. *)
From S2P Require Import Prelude Prog.

(** ** The preprocessor *)

(** The replacement of a macro: nothing, a number, another macro, other text. *)
Inductive body := Empty | Int (n : Z) | Name (x : string) | Text (t : string).
Abbreviation macros := (gmap string body).
Record pp := PP { defs : macros; types : gmap string string }.

Inductive cppE : Type → Type := | include (h : string) (m : macros) : cppE macros.

Definition defined (m : macros) (x : string) : bool := bool_decide (is_Some (m !! x)).
Definition define (x : string) (b : body) (m : macros) : macros := <[x := b]> m.
(** #ifndef x / #define x b / #endif *)
Definition define_once (x : string) (b : body) (m : macros) : macros := if defined m x then m else define x b m.
Definition typedef (x t : string) (s : pp) : pp := PP (defs s) (<[x := t]> (types s)).
Definition upd (f : macros → macros) (s : pp) : pp := PP (f (defs s)) (types s).
Definition read_header (h : string) (s : pp) : prog cppE pp :=
  let! m := include h (defs s) in Ret (PP m (types s)).
Fixpoint read_headers (l : list string) (s : pp) : prog cppE pp :=
  match l with [] => Ret s | h :: l => let* s := read_header h s in read_headers l s end.

(** The number that a macro stands for. *)
Fixpoint value (fuel : nat) (m : macros) (x : string) : option Z :=
  match fuel, m !! x with
  | S fuel, Some (Name y) => value fuel m y
  | S _, Some (Int n) => Some n
  | _, _ => None
  end.

(** ** The headers *)

Definition detect_os (m : macros) : prog cppE (option macros) :=
  if defined m "__linux__" then
    let m := define "FF_LINUX" Empty (define "FF_UNIX" Empty m) in
    Ret (Some (if defined m "ANDROID" then define "FF_ANDROID" Empty m else define "FF_LINUX_MAINLINE" Empty m))
  else if defined m "__APPLE__" && defined m "__MACH__" then
    Ret (Some (define "FF_APPLE" Empty (define "FF_UNIX" Empty m)))
  else if defined m "__unix__" then
    let! m := include "sys/param.h" (define "FF_UNIX" Empty m) in
    Ret (Some (if defined m "BSD" then define "FF_BSD" Empty m else m))
  else if defined m "_WIN32" || defined m "_WIN64" || defined m "__CYGWIN__" then
    Ret (Some (define "FF_WIN" (Name "FF_WIN_APIVER") (define_once "FF_WIN_APIVER" (Int 1536) m)))
  else Ret None.

Definition detect_compiler (m : macros) : option macros :=
  if defined m "__clang__" then Some (define "FF_CLANG" Empty m)
  else if defined m "__MINGW32__" || defined m "__MINGW64__" then Some (define "FF_MINGW" Empty m)
  else if defined m "__GNUC__" then Some (define "FF_GCC" Empty m)
  else None.

(** The attribute of an exported symbol; 34 is the quotation mark. *)
Definition visibility_default : string :=
  let q := String (Ascii.ascii_of_N 34) "" in
  ("__attribute__((visibility(" ++ q ++ "default" ++ q ++ ")))")%string.

Definition compiler_gcc (s : pp) : pp :=
  let s := typedef "uint64" "unsigned long long" (typedef "int64" "long long" s) in
  let s := upd (define "FFINL" (Text "inline")) (upd (define "FF_FUNC" (Name "__func__")) s) in
  let s :=
    if defined (defs s) "FF_MINGW" then
      upd (define "FF_IMP" (Text "__declspec(dllimport)")) (upd (define "FF_EXP" (Text "__declspec(dllexport)")) s)
    else upd (define "FF_IMP" Empty) (upd (define "FF_EXP" (Text visibility_default)) s) in
  let s := upd (define "ffbit_ffs32" (Text "(i) __builtin_ffs(i)")) s in
  if defined (defs s) "FF_64" then upd (define "ffbit_ffs64" (Text "(i) __builtin_ffsll(i)")) s else s.

(** The feature macros that the systems' headers look at. *)
Definition base_features_linux (m : macros) : macros :=
  define_once "_LARGEFILE64_SOURCE" (Int 1) (define_once "_GNU_SOURCE" Empty m).
Definition base_features_win (m : macros) : macros :=
  define "OEMRESOURCE" Empty (define "_CRT_RAND_S" Empty (define "_CRT_SECURE_NO_WARNINGS" Empty
    (define "NOMINMAX" Empty (define "_WIN32_WINNT" (Name "FF_WIN_APIVER") m)))).

(** The part of base.h that depends on the system. *)
Definition base_system (s : pp) : prog cppE pp :=
  let s := if defined (defs s) "FF_LINUX" then upd base_features_linux s else s in
  if defined (defs s) "FF_UNIX" then
    let* s := read_headers ["stdlib.h"; "unistd.h"; "string.h"; "errno.h"] s in
    Ret (typedef "ffsyschar" "char" (typedef "fffd" "int" s))
  else
    let* s := read_headers ["winsock2.h"; "ws2tcpip.h"] (upd base_features_win s) in
    Ret (typedef "ffsyschar" "wchar_t" (typedef "fffd" "HANDLE" s)).

Definition base (s : pp) : prog cppE (option pp) :=
  if defined (defs s) "_FFOS_BASE_H" then Ret (Some s) else
  let s := upd (define "_FFOS_BASE_H" Empty) s in
  let* m := detect_os (defs s) in
  match m with None => Ret None | Some m =>
  let* s := base_system (PP m (types s)) in
  let* s := read_header "ffbase/base.h" s in
  match detect_compiler (defs s) with None => Ret None | Some m =>
  let s := compiler_gcc (PP m (types s)) in
  Ret (Some (typedef "ffbool" "int" (typedef "ffint8" "signed char" s)))
  end end.

(** ** What the platform is *)

Inductive os := Linux | Apple | OtherUnix | Windows.
#[export] Instance os_eq_dec : EqDecision os.
Proof. solve_decision. Defined.
Definition os_of (m : macros) : option os :=
  if defined m "__linux__" then Some Linux
  else if defined m "__APPLE__" && defined m "__MACH__" then Some Apple
  else if defined m "__unix__" then Some OtherUnix
  else if defined m "_WIN32" || defined m "_WIN64" || defined m "__CYGWIN__" then Some Windows else None.

Definition os_names := ["FF_UNIX"; "FF_LINUX"; "FF_ANDROID"; "FF_LINUX_MAINLINE"; "FF_APPLE"; "FF_WIN"].
Definition os_macros (o : os) (android : bool) : list string :=
  match o with
  | Linux => ["FF_UNIX"; "FF_LINUX"; if android then "FF_ANDROID" else "FF_LINUX_MAINLINE"]
  | Apple => ["FF_UNIX"; "FF_APPLE"]
  | OtherUnix => ["FF_UNIX"]
  | Windows => ["FF_WIN"]
  end.
Definition os_headers (o : os) : list string :=
  match o with
  | Windows => ["winsock2.h"; "ws2tcpip.h"; "ffbase/base.h"]
  | OtherUnix => ["sys/param.h"; "stdlib.h"; "unistd.h"; "string.h"; "errno.h"; "ffbase/base.h"]
  | _ => ["stdlib.h"; "unistd.h"; "string.h"; "errno.h"; "ffbase/base.h"]
  end.
(** The feature macros of the system. *)
Definition os_features (o : os) : list string :=
  match o with
  | Linux => ["_GNU_SOURCE"; "_LARGEFILE64_SOURCE"]
  | Windows => ["_WIN32_WINNT"; "NOMINMAX"; "_CRT_SECURE_NO_WARNINGS"; "_CRT_RAND_S"; "OEMRESOURCE"]
  | _ => []
  end.
(** The version of the system's interface: what the compiler is told, else that of Windows Vista. *)
Definition apiver (m : macros) : option Z :=
  match m !! "FF_WIN_APIVER" with None => Some 1536 | Some (Int n) => Some n | _ => None end.

Definition compiler_predefined := ["__clang__"; "__MINGW32__"; "__MINGW64__"; "__GNUC__"].
Definition compiler_names := ["FF_CLANG"; "FF_MINGW"; "FF_GCC"].
Definition compiler_of (m : macros) : option string :=
  if defined m "__clang__" then Some "FF_CLANG"
  else if defined m "__MINGW32__" || defined m "__MINGW64__" then Some "FF_MINGW"
  else if defined m "__GNUC__" then Some "FF_GCC" else None.

(** ** The other headers

    They leave the macros of this library and those the compiler predefines, and keep feature macros defined
    (some are defined again); the headers of Windows define _WIN32_WINNT only when it is not defined. *)
Definition kept : list string :=
  "_FFOS_BASE_H" :: "FF_BSD" :: "FF_WIN_APIVER" :: "_WIN32_WINNT" :: os_names ++ compiler_names ++
  compiler_predefined.
Definition keep_defined : list string := flat_map os_features [Linux; Windows].

Definition cpp_env : env cppE (list (string * macros)) := λ tr X e,
  match e in cppE X return X → list (string * macros) → Prop with
  | include h m => λ m' tr', tr' = tr ++ [(h, m)] ∧
      (∀ x, x ∈ kept → (x = "_WIN32_WINNT" → defined m x = true) → m' !! x = m !! x) ∧
      (∀ x, x ∈ keep_defined → defined m x = true → defined m' x = true)
  end.

Lemma defined_define x y b m : defined (define x b m) y = String.eqb x y || defined m y.
Proof.
  unfold defined, define. destruct (String.eqb_spec x y) as [->|H].
  - rewrite lookup_insert_eq. done.
  - by rewrite lookup_insert_ne.
Qed.
Lemma defined_once x y b m : defined (define_once x b m) y = String.eqb x y || defined m y.
Proof.
  unfold define_once. destruct (defined m x) eqn:E; [|apply defined_define].
  destruct (String.eqb_spec x y) as [<-|H]; [done|done].
Qed.
Lemma defined_eq m m' x : m !! x = m' !! x → defined m x = defined m' x.
Proof. unfold defined. by intros ->. Qed.

(** What is known of the macros [m] while base.h is read on [o], from the macros [m0]. *)
Definition known (o : os) (m0 m : macros) : Prop :=
  defined m "_FFOS_BASE_H" = true ∧
  (∀ x, x ∈ os_names → defined m x = bool_decide (x ∈ os_macros o (defined m0 "ANDROID"))) ∧
  (defined m "FF_BSD" = true → o = OtherUnix) ∧
  (∀ x, x ∈ compiler_predefined → defined m x = defined m0 x) ∧
  (∀ x, x ∈ compiler_names → defined m x = false) ∧
  (o = Windows → m !! "FF_WIN" = Some (Name "FF_WIN_APIVER") ∧
     ∀ n, apiver m0 = Some n → m !! "FF_WIN_APIVER" = Some (Int n)).
Definition configured (o : os) (m : macros) : Prop :=
  (∀ x, x ∈ os_features o → defined m x = true) ∧
  (o = Windows → m !! "_WIN32_WINNT" = Some (Name "FF_WIN_APIVER")).

(** A closed decidable statement. *)
Ltac by_compute := by apply (bool_decide_unpack _); vm_compute.

Lemma in_kept x : x ∈ os_names ∨ x ∈ compiler_predefined ∨ x ∈ compiler_names →
  x ∈ kept ∧ x ≠ "_WIN32_WINNT".
Proof.
  intros H. assert (Forall (λ y, y ∈ kept ∧ y ≠ "_WIN32_WINNT") (os_names ++ compiler_predefined ++ compiler_names)) as HF
    by by_compute.
  rewrite Forall_forall in HF. apply HF. rewrite !elem_of_app. tauto.
Qed.

Lemma in_features o x : x ∈ os_features o → x ∈ keep_defined.
Proof. intros H. unfold keep_defined. cbn. destruct o; cbn in H; set_solver. Qed.

Lemma known_eq o m0 m m' : (∀ x, x ∈ kept → x ≠ "_WIN32_WINNT" → m' !! x = m !! x) → known o m0 m → known o m0 m'.
Proof.
  intros E (H1 & H2 & H3 & H4 & H5 & H6).
  assert (∀ x, x ∈ kept → x ≠ "_WIN32_WINNT" → defined m' x = defined m x) as D by (intros; apply defined_eq; auto).
  unfold known. split_and!.
  - rewrite D; [done|by_compute|done].
  - intros x Hx. rewrite D; [auto|apply in_kept; auto..].
  - rewrite D; [done|by_compute|done].
  - intros x Hx. rewrite D; [auto|apply in_kept; auto..].
  - intros x Hx. rewrite D; [auto|apply in_kept; auto..].
  - intros Ho. rewrite (E "FF_WIN"), (E "FF_WIN_APIVER") by (done || by_compute). auto.
Qed.

(** Another header changes nothing of this; nor does the definition of a feature macro. *)
Lemma header_known o m0 m m' :
  (∀ x, x ∈ kept → (x = "_WIN32_WINNT" → defined m x = true) → m' !! x = m !! x) →
  (∀ x, x ∈ keep_defined → defined m x = true → defined m' x = true) →
  (known o m0 m → known o m0 m') ∧ (configured o m → configured o m').
Proof.
  intros Hk Hd. split.
  - apply known_eq. intros; apply Hk; done.
  - intros [H1 H2]. split.
    + intros x Hx. apply Hd; [by eapply in_features|auto].
    + intros Ho. rewrite Hk; [auto|by_compute|]. intros _. unfold defined. by rewrite H2.
Qed.

Lemma define_known o m0 m x b : bool_decide (x ∈ kept) = false ∨ x = "_WIN32_WINNT" →
  known o m0 m → known o m0 (define x b m).
Proof.
  intros Hx. apply known_eq. intros y Hy Hn. unfold define. apply lookup_insert_ne. intros <-.
  destruct Hx as [Hx| ->]; [|done]. by apply bool_decide_eq_false in Hx.
Qed.
Lemma define_once_known o m0 m x b : bool_decide (x ∈ kept) = false → known o m0 m → known o m0 (define_once x b m).
Proof. intros Hx HK. unfold define_once. destruct (defined m x); [done|]. apply define_known; auto. Qed.

Lemma headers_wp o m0 l : ∀ s tr, known o m0 (defs s) → configured o (defs s) →
  wp cpp_env (read_headers l s) (λ s' tr', known o m0 (defs s') ∧ configured o (defs s') ∧ types s' = types s ∧
    ∃ new, tr' = tr ++ new ∧ map fst new = l ∧ Forall (λ i, known o m0 i.2 ∧ configured o i.2) new) never tr.
Proof.
  induction l as [|h l IH]; intros s tr HK HC; cbn [read_headers].
  { split_and!; try done. exists []. by rewrite app_nil_r. }
  cbn. intros m' tr' (-> & Hk & Hd). destruct (header_known o m0 (defs s) m' Hk Hd) as [HK' HC'].
  eapply wp_mono; [apply IH; cbn; auto| |done]. intros s' tr' (H1 & H2 & H3 & new & -> & H4 & H5).
  split_and!; try done. exists ((h, defs s) :: new). rewrite <- app_assoc. cbn. rewrite H4. split_and!; [done|done|].
  by constructor.
Qed.

(** Before base.h is read. *)
Definition fresh (m : macros) : Prop :=
  ∀ x, x ∈ "_FFOS_BASE_H" :: "FF_BSD" :: os_names ++ compiler_names → defined m x = false.

(** What is defined after some definitions, from what was; a statement about every name of a list. *)
Ltac look := rewrite ?defined_define, ?defined_once, ?defined_define; cbn -[defined bool_decide];
  repeat match goal with H : defined ?m ?x = ?b |- context [defined ?m ?x] => rewrite H end;
  rewrite ?orb_false_r; try done.
Ltac by_name := apply (proj1 (Forall_forall _ _)); repeat first [apply Forall_nil_2 | apply Forall_cons_2]; look.

Lemma fresh_names m : fresh m → Forall (λ x, defined m x = false) ("_FFOS_BASE_H" :: "FF_BSD" :: os_names ++ compiler_names).
Proof. intros H. apply Forall_forall. exact H. Qed.

Lemma apiver_once m n : apiver m = Some n → define_once "FF_WIN_APIVER" (Int 1536) m !! "FF_WIN_APIVER" = Some (Int n).
Proof.
  unfold apiver, define_once, defined, define. destruct (m !! "FF_WIN_APIVER") as [b|] eqn:E.
  - rewrite bool_decide_eq_true_2 by done. by destruct b; intros [= ->].
  - rewrite bool_decide_eq_false_2 by by intros []. intros [= <-]. apply lookup_insert_eq.
Qed.

Lemma bsd_known m0 m : known OtherUnix m0 m → known OtherUnix m0 (define "FF_BSD" Empty m).
Proof.
  intros (H1 & H2 & H3 & H4 & H5 & H6).
  assert (∀ x, x ∈ os_names ++ compiler_predefined ++ compiler_names → defined (define "FF_BSD" Empty m) x = defined m x) as E.
  { unfold os_names, compiler_predefined, compiler_names. cbn [app]. by_name. }
  unfold known. split_and!; try done; [look|intros x Hx; rewrite E by (rewrite !elem_of_app; auto); auto..].
Qed.

Lemma detect_os_wp m0 tr : fresh m0 →
  wp cpp_env (detect_os (define "_FFOS_BASE_H" Empty m0)) (λ r tr',
    match os_of m0 with
    | None => r = None
    | Some o => ∃ m new, r = Some m ∧ known o m0 m ∧ tr' = tr ++ new ∧
        map fst new = (if decide (o = OtherUnix) then ["sys/param.h"] else [])
    end) never tr.
Proof.
  intros HF%fresh_names. unfold os_names, compiler_names in HF. cbn [app] in HF.
  rewrite !Forall_cons in HF.
  destruct_and! HF.
  unfold detect_os, os_of. rewrite !defined_define. cbn -[defined define kept keep_defined].
  destruct (defined m0 "__linux__") eqn:EL.
  - eexists _, []. rewrite app_nil_r. split_and!; try done. clear EL.
    destruct (defined m0 "ANDROID") eqn:EA; unfold known; split_and!; try done; look; by_name.
  - destruct (_ && _) eqn:EA; [|destruct (defined m0 "__unix__") eqn:EU; [|destruct (_ || _ || _) eqn:EW; [|done]]].
    + eexists _, []. rewrite app_nil_r. split_and!; try done.
      unfold known; split_and!; try done; look; by_name.
    + cbn -[defined define kept keep_defined]. intros m tr' (-> & Hk & Hd).
      assert (known OtherUnix m0 (define "FF_UNIX" Empty (define "_FFOS_BASE_H" Empty m0))) as HK
        by (unfold known; split_and!; try done; look; by_name).
      apply (header_known _ _ _ _ Hk Hd) in HK.
      eexists _, [_]. split_and!; [done| |done|done]. destruct (defined m "BSD"); [by apply bsd_known|done].
    + eexists _, []. rewrite app_nil_r. split_and!; try done.
      unfold known; split_and!; try done; look; try by_name.
      intros _. unfold define at 1 3. split; [apply lookup_insert_eq|].
      intros n Hn. rewrite lookup_insert_ne by done. apply apiver_once. unfold apiver, define in *. by rewrite lookup_insert_ne.
Qed.

(** The feature macros are defined before the first header of Linux and Windows. *)
Lemma features_linux_known m0 m : known Linux m0 m →
  known Linux m0 (base_features_linux m) ∧ configured Linux (base_features_linux m).
Proof.
  intros HK. unfold base_features_linux. split; [repeat apply define_once_known; by try by_compute|].
  split; [|done]. cbn [os_features]. by_name.
Qed.
Lemma features_win_known m0 m : known Windows m0 m →
  known Windows m0 (base_features_win m) ∧ configured Windows (base_features_win m).
Proof.
  intros HK. unfold base_features_win. split.
  - repeat (apply define_known; [first [left; by_compute|by right]|]). done.
  - split; [cbn [os_features]; by_name|]. intros _. unfold define. do 4 (rewrite lookup_insert_ne by done).
    apply lookup_insert_eq.
Qed.

(** What compiler-gcc.h leaves as it is. *)
Definition gcc_names := ["FF_FUNC"; "FFINL"; "FF_EXP"; "FF_IMP"; "ffbit_ffs32"; "ffbit_ffs64"].
Lemma compiler_gcc_defs s x : (x ∉ gcc_names) → defs (compiler_gcc s) !! x = defs s !! x.
Proof.
  unfold gcc_names. rewrite !not_elem_of_cons. intros (?&?&?&?&?&?&_). unfold compiler_gcc.
  destruct (defined _ "FF_MINGW"), (defined _ "FF_64"); cbn -[lookup]; unfold define; by rewrite !lookup_insert_ne by done.
Qed.
Lemma compiler_gcc_known o m0 s : known o m0 (defs s) → known o m0 (defs (compiler_gcc s)).
Proof.
  apply known_eq. intros x Hx _. apply compiler_gcc_defs.
  assert (Forall (.∉ gcc_names) kept) as HF by by_compute. rewrite Forall_forall in HF. auto.
Qed.

Definition sys_headers (o : os) : list string :=
  if decide (o = Windows) then ["winsock2.h"; "ws2tcpip.h"] else ["stdlib.h"; "unistd.h"; "string.h"; "errno.h"].
Definition os_types (o : os) (t : gmap string string) : gmap string string :=
  if decide (o = Windows) then <["ffsyschar" := "wchar_t"]> (<["fffd" := "HANDLE"]> t)
  else <["ffsyschar" := "char"]> (<["fffd" := "int"]> t).

Lemma base_system_wp o m0 s tr : known o m0 (defs s) →
  wp cpp_env (base_system s) (λ s' tr', known o m0 (defs s') ∧ configured o (defs s') ∧ types s' = os_types o (types s) ∧
    ∃ new, tr' = tr ++ new ∧ map fst new = sys_headers o ∧ Forall (λ i, known o m0 i.2 ∧ configured o i.2) new) never tr.
Proof.
  intros HK. assert (HK' := HK). destruct HK' as (_ & H & _). unfold base_system.
  rewrite (H "FF_LINUX") by by_compute.
  set (s1 := if bool_decide _ then upd base_features_linux s else s).
  assert (known o m0 (defs s1) ∧ (o ≠ Windows → configured o (defs s1)) ∧ types s1 = types s) as (HK1 & HC1 & HT1).
  { destruct o; cbn in s1; subst s1; cbn [upd defs types]; split_and!; try done; intros;
    first [by apply (features_linux_known m0)|split; [|done]; by intros x Hx%elem_of_nil]. }
  assert (HK' := HK1). destruct HK' as (_ & H1 & _). rewrite (H1 "FF_UNIX") by by_compute.
  assert (∀ s2 sl a b, known o m0 (defs s2) → configured o (defs s2) → types s2 = types s → sl = sys_headers o →
    (if decide (o = Windows) then a = "wchar_t" ∧ b = "HANDLE" else a = "char" ∧ b = "int") →
    wp cpp_env (let* s := read_headers sl s2 in Ret (typedef "ffsyschar" a (typedef "fffd" b s)))
      (λ s' tr', known o m0 (defs s') ∧ configured o (defs s') ∧ types s' = os_types o (types s) ∧
    ∃ new, tr' = tr ++ new ∧ map fst new = sys_headers o ∧ Forall (λ i, known o m0 i.2 ∧ configured o i.2) new) never tr) as Hgo.
  { intros s2 sl a b HK2 HC2 HT2 -> Hab. apply wp_bind. eapply wp_mono; [by apply headers_wp| |done].
    intros s3 tr3 (H3 & H4 & H5 & H6). cbn. split_and!; try done. unfold os_types. rewrite H5, HT2.
    destruct (decide _), Hab; by subst. }
  destruct o; cbn -[read_headers]; apply Hgo; auto; first [done|by apply (features_win_known m0)].
Qed.

Lemma compiler_gcc_types s : types (compiler_gcc s) = <["uint64" := "unsigned long long"]> (<["int64" := "long long"]> (types s)).
Proof. unfold compiler_gcc. by destruct (defined _ "FF_MINGW"), (defined _ "FF_64"). Qed.
Lemma system_types o c m s t : types s = os_types o t →
  types (typedef "ffbool" "int" (typedef "ffint8" "signed char" (compiler_gcc (PP (define c Empty m) (types s))))) !! "fffd" =
    Some (if decide (o = Windows) then "HANDLE" else "int") ∧
  types (typedef "ffbool" "int" (typedef "ffint8" "signed char" (compiler_gcc (PP (define c Empty m) (types s))))) !! "ffsyschar" =
    Some (if decide (o = Windows) then "wchar_t" else "char").
Proof.
  intros HT. cbn [typedef types]. rewrite compiler_gcc_types. cbn [types]. rewrite HT.
  do 8 (rewrite lookup_insert_ne by done). unfold os_types. destruct (decide (o = Windows)).
  all: split; [rewrite lookup_insert_ne by done|]; apply lookup_insert_eq.
Qed.

Section base_ok.
Variables (m0 : macros) (Hf : fresh m0).

(** The macros of the platform when base.h has been read. *)
Definition settled (o : os) (c : string) (m : macros) : Prop :=
  (∀ x, x ∈ os_names → defined m x = bool_decide (x ∈ os_macros o (defined m0 "ANDROID"))) ∧
  (defined m "FF_BSD" = true → o = OtherUnix) ∧
  (∀ x, x ∈ compiler_names → defined m x = String.eqb x c) ∧
  (o = Windows → ∀ n, apiver m0 = Some n → value 2 m "FF_WIN" = Some n).

Lemma known_configured o m : known o m0 m → configured o m →
  (∀ x, x ∈ os_features o → defined m x = true) ∧
  (o = Windows → ∀ n, apiver m0 = Some n → value 2 m "_WIN32_WINNT" = Some n).
Proof.
  intros (_ & _ & _ & _ & _ & H) [H1 H2]. split; [done|]. intros Ho n Hn.
  destruct (H Ho) as [_ H3]. cbn [value]. rewrite H2 by done. by rewrite (H3 n).
Qed.

Lemma detect_compiler_ok o m : known o m0 m →
  match compiler_of m0 with
  | None => detect_compiler m = None
  | Some c => detect_compiler m = Some (define c Empty m) ∧ c ∈ compiler_names
  end.
Proof.
  intros (_ & _ & _ & H & _). unfold detect_compiler, compiler_of.
  rewrite !H by by_compute. destruct (defined m0 "__clang__"); [split; [done|by_compute]|].
  destruct (_ || _); [split; [done|by_compute]|]. destruct (defined m0 "__GNUC__"); [split; [done|by_compute]|done].
Qed.

Definition os_kept := os_names ++ ["FF_BSD"; "FF_WIN_APIVER"].
Lemma known_settled o c m t : c ∈ compiler_names → known o m0 m → settled o c (defs (compiler_gcc (PP (define c Empty m) t))).
Proof.
  intros Hc (H1 & H2 & H3 & H4 & H5 & H6).
  assert (∀ x, x ∈ os_kept ++ compiler_names →
    defs (compiler_gcc (PP (define c Empty m) t)) !! x = define c Empty m !! x) as E.
  { intros x Hx. apply (compiler_gcc_defs (PP _ _)).
    assert (Forall (.∉ gcc_names) (os_kept ++ compiler_names)) as HF by by_compute.
    rewrite Forall_forall in HF. auto. }
  assert (∀ x, x ∈ os_kept → define c Empty m !! x = m !! x) as Ec.
  { intros x Hx. apply lookup_insert_ne. intros <-.
    assert (Forall (.∉ os_kept) compiler_names) as HF by by_compute.
    rewrite Forall_forall in HF. by apply (HF c). }
  assert (∀ x, x ∈ os_kept →
    defs (compiler_gcc (PP (define c Empty m) t)) !! x = m !! x) as E'.
  { intros x Hx. rewrite E, Ec by (rewrite ?elem_of_app; auto). done. }
  unfold settled. split_and!.
  - intros x Hx. rewrite (defined_eq _ _ _ (E' x ltac:(unfold os_kept; rewrite elem_of_app; auto))). auto.
  - rewrite (defined_eq _ _ _ (E' "FF_BSD" ltac:(by_compute))). auto.
  - intros x Hx. rewrite (defined_eq _ _ _ (E x ltac:(rewrite elem_of_app; auto))).
    rewrite defined_define, H5 by done. rewrite orb_false_r. apply String.eqb_sym.
  - intros Ho n Hn. destruct (H6 Ho) as [H7 H8]. cbn [value]. rewrite (E' "FF_WIN") by by_compute. rewrite H7.
    rewrite (E' "FF_WIN_APIVER") by by_compute. by rewrite (H8 n).
Qed.

(** base.h on any platform, whatever else the system's headers define: it fails exactly when the system or the
    compiler is not one of those listed; otherwise exactly the macros of the platform are defined; the system's
    headers are read in order, each after the feature macros that it needs; FF_WIN is the version that the
    compiler was told, which the headers of Windows see too, or else 0x0600; reading it again does nothing. *)
Theorem base_ok s tr : defs s = m0 →
  wp cpp_env (base s) (λ r tr',
    match os_of m0, compiler_of m0 with
    | Some o, Some c => ∃ s' new, r = Some s' ∧ base s' = Ret (Some s') ∧ settled o c (defs s') ∧
        types s' !! "fffd" = Some (if decide (o = Windows) then "HANDLE" else "int") ∧
        types s' !! "ffsyschar" = Some (if decide (o = Windows) then "wchar_t" else "char") ∧
        tr' = tr ++ new ∧ map fst new = os_headers o ∧
        Forall (λ i, (∀ x, x ∈ os_features o → defined i.2 x = true) ∧
          (o = Windows → ∀ n, apiver m0 = Some n → value 2 i.2 "_WIN32_WINNT" = Some n)) new
    | _, _ => r = None
    end) never tr.
Proof using Hf.
  intros Hm. unfold base. rewrite Hm, Hf by by_compute. apply wp_bind. cbn [upd defs types]. rewrite Hm.
  eapply wp_mono; [by apply detect_os_wp| |done]. intros r tr1. cbn beta.
  destruct (os_of m0) as [o|]; [|by intros ->]. intros (m & new & -> & HK & -> & Hnew). apply wp_bind.
  eapply wp_mono; [by apply (base_system_wp o m0)| |done].
  intros s1 tr1 (HK1 & HC1 & HT1 & new1 & -> & Hnew1 & HF1). cbn [read_header bind wp]. intros m2 tr2 (-> & Hk & Hd).
  apply (header_known o m0 _ _ Hk Hd) in HK1 as HK2. cbn [defs types].
  pose proof (detect_compiler_ok o m2 HK2) as Hc. destruct (compiler_of m0) as [c|]; [|by rewrite Hc].
  destruct Hc as [-> Hc]. cbn [wp]. eexists _, (new ++ new1 ++ [_]). split; [done|].
  destruct (system_types o c m2 s1 _ HT1) as [HT2 HT3]. split_and!; [|by apply known_settled|exact HT2|exact HT3| | |].
  - cbn [typedef defs]. rewrite (defined_eq _ (define c Empty m2) "_FFOS_BASE_H") by (apply (compiler_gcc_defs (PP _ _)); by_compute).
    rewrite defined_define. destruct HK2 as [-> _]. by rewrite orb_true_r.
  - by rewrite <- !app_assoc.
  - rewrite !map_app, Hnew, Hnew1. by destruct o.
  - rewrite !Forall_app, Forall_singleton. split; [|split].
    + destruct (decide (o = OtherUnix)) as [->|]; [|by destruct new].
      apply Forall_true. intros i. split; [by intros x Hx%elem_of_nil|done].
    + eapply Forall_impl; [exact HF1|]. intros i [Hi1 Hi2]. by apply (known_configured o).
    + by apply (known_configured o).
Qed.
End base_ok.

(** MinGW told to use the interface of Windows 7. *)
Definition mingw : macros := {[ "_WIN32" := Int 1; "__MINGW32__" := Int 1; "__GNUC__" := Int 13; "FF_WIN_APIVER" := Int 1537 ]}.

Lemma base_ok_witness : fresh mingw ∧
  wp cpp_env (base (PP mingw ∅)) (λ r _, ∃ s', r = Some s' ∧ defined (defs s') "FF_MINGW" = true ∧
    defined (defs s') "FF_UNIX" = false ∧ value 2 (defs s') "FF_WIN" = Some 1537) never [].
Proof.
  assert (fresh mingw) as HF by (unfold fresh; apply (proj1 (Forall_forall _ _)); by_compute). split; [exact HF|].
  eapply wp_mono; [by apply (base_ok mingw HF)| |done].
  intros r tr. change (os_of mingw) with (Some Windows). change (compiler_of mingw) with (Some "FF_MINGW"). intros (s' & _ & -> & _ & (H1 & _ & H2 & H3) & _).
  exists s'. split; [done|]. rewrite (H2 "FF_MINGW"), (H1 "FF_UNIX") by by_compute. split_and!; [done|done|by apply H3].
Defined.

(** The third test of detect-os.h takes Cygwin, whose compiler predefines __unix__, before the fourth asks for it. *)
Example cygwin_is_unix : os_of {[ "__unix__" := Int 1; "__CYGWIN__" := Int 1 ]} = Some OtherUnix.
Proof. reflexivity. Qed.
