(* ===== verification/Ffbase.v ===== *)
(** * The ffbase library, as the code relies on it

    ffbase (base types and algorithms) is a separate repository: its functions are parameters
    of the model.  Each group is a class of operations with a class of laws that state their
    documented behaviour; a component's definitions take the operations, its theorems the laws.
    [Ref...] instances are concrete functions used to evaluate definitions on concrete inputs:
    they show that the laws can hold together. *)
From S2P Require Import Prelude.

(** ** Positions: index or -1 *)

Definition idx (o : option nat) : Z :=
  match o with Some i => Z.of_nat i | None => -1 end.

(** [r] is the position of the first (last) byte of [s] satisfying [p], -1 if there is none. *)
Definition is_first (p : Z → bool) (s : list Z) (r : Z) : Prop :=
  (r = -1 ∧ Forall (λ c, p c = false) s) ∨
  (∃ i c, r = Z.of_nat i ∧ s !! i = Some c ∧ p c = true ∧ Forall (λ c, p c = false) (take i s)).
Definition is_last (p : Z → bool) (s : list Z) (r : Z) : Prop :=
  (r = -1 ∧ Forall (λ c, p c = false) s) ∨
  (∃ i c, r = Z.of_nat i ∧ s !! i = Some c ∧ p c = true ∧ Forall (λ c, p c = false) (drop (S i) s)).

Definition mem_ch (any : list Z) (c : Z) : bool := existsb (Z.eqb c) any.

Fixpoint find_first (p : Z → bool) (s : list Z) : option nat :=
  match s with
  | [] => None
  | c :: s' => if p c then Some O else S <$> find_first p s'
  end.
Fixpoint find_last (p : Z → bool) (s : list Z) : option nat :=
  match s with
  | [] => None
  | c :: s' => match find_last p s' with
               | Some i => Some (S i)
               | None => if p c then Some O else None
               end
  end.

Lemma find_first_spec p s : is_first p s (idx (find_first p s)).
Proof.
  induction s as [|c s IH]; simpl; [left; auto|].
  destruct (p c) eqn:Hc.
  { right. by exists O, c. }
  destruct IH as [[Hr HF]|(i & d & Hr & Hi & Hd & HF)]; destruct (find_first p s); simpl in *; try lia.
  - left. auto.
  - assert (i = n) as -> by lia. right. exists (S n), d. split_and!; [lia|auto..]. simpl. auto.
Qed.

Lemma find_first_app p s r : Forall (λ c, p c = false) s →
  find_first p (s ++ r) = (λ i, (length s + i)%nat) <$> find_first p r.
Proof.
  induction 1 as [|c s Hc Hs IH]; cbn; [by destruct (find_first p r)|].
  rewrite Hc, IH. by destruct (find_first p r).
Qed.

Lemma find_last_spec p s : is_last p s (idx (find_last p s)).
Proof.
  induction s as [|c s IH]; simpl; [left; auto|].
  destruct IH as [[Hr HF]|(i & d & Hr & Hi & Hd & HF)]; destruct (find_last p s); simpl in *; try lia.
  - destruct (p c) eqn:Hc; [right|left; auto]. exists O, c. auto.
  - assert (i = n) as -> by lia. right. exists (S n), d. split_and!; [lia|auto..].
Qed.

Lemma is_first_unique p s r : is_first p s r → r = idx (find_first p s).
Proof.
  pose proof (find_first_spec p s) as H'. revert H'. generalize (idx (find_first p s)). intros r'.
  intros [[-> HF']|(i' & c' & -> & Hi' & Hc' & HF')] [[-> HF]|(i & c & -> & Hi & Hc & HF)]; auto.
  - rewrite Forall_lookup in HF'. apply HF' in Hi. congruence.
  - rewrite Forall_lookup in HF. apply HF in Hi'. congruence.
  - destruct (decide (i < i')%nat).
    { rewrite Forall_lookup in HF'. rewrite (HF' i c) in Hc; [done|]. by rewrite lookup_take_lt. }
    destruct (decide (i' < i)%nat); [|lia].
    rewrite Forall_lookup in HF. rewrite (HF i' c') in Hc'; [done|]. by rewrite lookup_take_lt.
Qed.

Lemma is_last_unique p s r : is_last p s r → r = idx (find_last p s).
Proof.
  pose proof (find_last_spec p s) as H'. revert H'. generalize (idx (find_last p s)). intros r'.
  intros [[-> HF']|(i' & c' & -> & Hi' & Hc' & HF')] [[-> HF]|(i & c & -> & Hi & Hc & HF)]; auto.
  - rewrite Forall_lookup in HF'. apply HF' in Hi. congruence.
  - rewrite Forall_lookup in HF. apply HF in Hi'. congruence.
  - destruct (decide (i' < i)%nat).
    { rewrite Forall_lookup in HF'. rewrite (HF' (i - S i')%nat c) in Hc; [done|].
      rewrite lookup_drop. by replace (S i' + (i - S i'))%nat with i by lia. }
    destruct (decide (i < i')%nat); [|lia].
    rewrite Forall_lookup in HF. rewrite (HF (i' - S i)%nat c') in Hc'; [done|].
    rewrite lookup_drop. by replace (S i + (i' - S i))%nat with i' by lia.
Qed.

(** ** Strings: [ffs_*], [ffstr_*], [ffsz_*] *)

(** The result of a split: position of the separator (negative: none), left and right part. *)
Abbreviation split_res := (Z * list Z * list Z)%type.

Class FfStr := {
  ffs_rfindchar : list Z → Z → Z;
  ffs_rfindany : list Z → list Z → Z;
  ffstr_findchar : list Z → Z → Z;
  ffsz_findchar : list Z → Z → Z;
  ffs_split : list Z → Z → split_res;
  ffstr_splitby : list Z → Z → split_res;
  ffstr_splitbyany : list Z → list Z → split_res;
  ffstr_skipany : list Z → list Z → list Z;
  ffstr_rskipchar : list Z → Z → list Z;
  ffstr_eqz : list Z → list Z → bool;
  ffsz_match : list Z → list Z → bool;
  ffstr_add2 : list Z → Z → list Z → list Z;
}.

Definition split_at (s : list Z) (i : option nat) : split_res :=
  match i with
  | Some n => (Z.of_nat n, take n s, drop (S n) s)
  | None => (-1, s, [])
  end.

Class FfStrLaws (F : FfStr) : Prop := {
  rfindchar_law s c : is_last (Z.eqb c) s (ffs_rfindchar s c);
  rfindany_law s any : is_last (mem_ch any) s (ffs_rfindany s any);
  findchar_law s c : is_first (Z.eqb c) s (ffstr_findchar s c);
  sz_findchar_law s c : is_first (Z.eqb c) s (ffsz_findchar s c);
  split_law s n : (n < length s)%nat → ffs_split s (Z.of_nat n) = split_at s (Some n);
  splitby_law s c : ∃ o, is_first (Z.eqb c) s (idx o) ∧ ffstr_splitby s c = split_at s o;
  splitbyany_law s any : ∃ o, is_first (mem_ch any) s (idx o) ∧ ffstr_splitbyany s any = split_at s o;
  skipany_law s any : ∃ l, s = l ++ ffstr_skipany s any ∧ Forall (λ c, mem_ch any c = true) l ∧
    ∀ c, head (ffstr_skipany s any) = Some c → mem_ch any c = false;
  rskipchar_law s c : ∃ l, s = ffstr_rskipchar s c ++ l ∧ Forall (λ d, d = c) l ∧
    last (ffstr_rskipchar s c) ≠ Some c;
  eqz_law s z : ffstr_eqz s z = true ↔ s = z;
  match_law z s : ffsz_match z s = true ↔ s `prefix_of` z;
  add2_law out cap s : Z.of_nat (length out) ≤ cap →
    ffstr_add2 out cap s = out ++ take (Z.to_nat cap - length out) s;
}.

(** What the laws determine. *)
Section laws.
Context `{F : FfStr, L : !FfStrLaws F}.

Lemma rfindchar_eq s c : ffs_rfindchar s c = idx (find_last (Z.eqb c) s).
Proof. apply is_last_unique, rfindchar_law. Qed.
Lemma rfindany_eq s any : ffs_rfindany s any = idx (find_last (mem_ch any) s).
Proof. apply is_last_unique, rfindany_law. Qed.
Lemma findchar_eq s c : ffstr_findchar s c = idx (find_first (Z.eqb c) s).
Proof. apply is_first_unique, findchar_law. Qed.

Lemma idx_inj o o' : idx o = idx o' → o = o'.
Proof. destruct o, o'; simpl; intros; f_equal; lia. Qed.

Lemma splitbyany_eq s any : ffstr_splitbyany s any = split_at s (find_first (mem_ch any) s).
Proof.
  destruct (splitbyany_law s any) as (o & Ho & ->).
  by rewrite (idx_inj o (find_first (mem_ch any) s)) by by apply is_first_unique.
Qed.
Lemma splitby_eq s c : ffstr_splitby s c = split_at s (find_first (Z.eqb c) s).
Proof.
  destruct (splitby_law s c) as (o & Ho & ->).
  by rewrite (idx_inj o (find_first (Z.eqb c) s)) by by apply is_first_unique.
Qed.

Lemma strip_unique (p : Z → bool) pre l s r :
  pre ++ s = l ++ r → Forall (λ c, p c = true) pre → Forall (λ c, p c = true) l →
  (∀ c, head s = Some c → p c = false) → (∀ c, head r = Some c → p c = false) → r = s.
Proof.
  intros E Hp. revert l E. induction Hp as [|c pre Hc Hp IH]; intros [|d l] E Hl Hs Hr; cbn in *; [done| | |].
  - subst s. apply Forall_cons in Hl as [Hd _]. specialize (Hs d eq_refl). congruence.
  - subst r. specialize (Hr c eq_refl). congruence.
  - injection E as -> E. apply Forall_cons in Hl as [_ Hl]. by eapply IH.
Qed.

(** Dropping the last bytes [c] of a string that ends with something else before them. *)
Lemma rskipchar_eq n k c : last n ≠ Some c → ffstr_rskipchar (n ++ replicate k c) c = n.
Proof.
  intros Hn. destruct (rskipchar_law (n ++ replicate k c) c) as (l & E & Hl & Hr).
  apply (f_equal reverse) in E. rewrite !reverse_app in E. apply (inj reverse).
  assert (Hrep : ∀ m, Forall (λ d, (d =? c) = true) (reverse m) ↔ Forall (λ d, d = c) m).
  { intros m. rewrite Forall_reverse, !Forall_forall. split; intros H x Hx; apply H in Hx; lia. }
  assert (Hhd : ∀ m, last m ≠ Some c → ∀ d, head (reverse m) = Some d → (d =? c) = false).
  { intros m Hm d. rewrite head_reverse. intros Hd. apply Z.eqb_neq. congruence. }
  eapply (strip_unique (λ d, d =? c)); [exact E|apply Hrep; by apply Forall_replicate|by apply Hrep|by apply Hhd..].
Qed.

Lemma eqz_decide s z : ffstr_eqz s z = bool_decide (s = z).
Proof.
  destruct (ffstr_eqz s z) eqn:E; symmetry.
  - apply bool_decide_eq_true. by apply eqz_law.
  - apply bool_decide_eq_false. intros H. apply eqz_law in H. congruence.
Qed.
Lemma eqz_nil s : ffstr_eqz s [] = bool_decide (s = []).
Proof. rewrite eqz_decide. by apply bool_decide_ext. Qed.
End laws.

(** A concrete instance. *)
Fixpoint strip (p : Z → bool) (s : list Z) : list Z :=
  match s with [] => [] | c :: s' => if p c then strip p s' else s end.

Lemma strip_spec p s : ∃ l, s = l ++ strip p s ∧ Forall (λ c, p c = true) l ∧
  ∀ c, head (strip p s) = Some c → p c = false.
Proof.
  induction s as [|c s IH]; simpl; [by exists []|].
  destruct (p c) eqn:Hc.
  - destruct IH as (l & Hs & HF & Hh). exists (c :: l). simpl. split_and!; auto. by f_equal.
  - exists []. split_and!; auto. intros d [= <-]. done.
Qed.

#[export] Instance RefStr : FfStr := {|
  ffs_rfindchar s c := idx (find_last (Z.eqb c) s);
  ffs_rfindany s any := idx (find_last (mem_ch any) s);
  ffstr_findchar s c := idx (find_first (Z.eqb c) s);
  ffsz_findchar s c := idx (find_first (Z.eqb c) s);
  ffs_split s n := split_at s (if n <? 0 then None else Some (Z.to_nat n));
  ffstr_splitby s c := split_at s (find_first (Z.eqb c) s);
  ffstr_splitbyany s any := split_at s (find_first (mem_ch any) s);
  ffstr_skipany s any := strip (mem_ch any) s;
  ffstr_rskipchar s c := rev (strip (λ d, d =? c) (rev s));
  ffstr_eqz s z := bool_decide (s = z);
  ffsz_match z s := bool_decide (take (length s) z = s);
  ffstr_add2 out cap s := out ++ take (Z.to_nat cap - length out) s;
|}.

#[export] Instance RefStrLaws : FfStrLaws RefStr.
Proof.
  split; simpl; intros.
  - apply find_last_spec.
  - apply find_last_spec.
  - apply find_first_spec.
  - apply find_first_spec.
  - destruct (Z.ltb_spec (Z.of_nat n) 0); [lia|]. by rewrite Nat2Z.id.
  - eexists; split; [apply find_first_spec|done].
  - eexists; split; [apply find_first_spec|done].
  - apply strip_spec.
  - destruct (strip_spec (λ d, d =? c) (rev s)) as (l & Hs & HF & Hh).
    exists (rev l). split_and!.
    + rewrite <- rev_app_distr, <- Hs. by rewrite rev_involutive.
    + apply Forall_rev. eapply Forall_impl; [apply HF|].
      intros d Hd. by apply Z.eqb_eq.
    + destruct (strip (λ d, d =? c) (rev s)) as [|d r] eqn:E; simpl; [done|].
      rewrite last_snoc. intros [= ->]. specialize (Hh c eq_refl). simpl in Hh. lia.
  - apply bool_decide_eq_true.
  - rewrite bool_decide_eq_true. split.
    + intros <-. apply prefix_take.
    + intros [k ->]. by rewrite take_app_length.
  - done.
Qed.
