(* ===== verification/Vec.v ===== *)
(** * The vectors of ffbase

    A vector is its heap block (0: none yet) and what it holds.  Its growth belongs to ffbase: the class
    [VecLib] is the call, [VecLaws] what it promises about the block.  Freeing is a call of this code. *)
From S2P Require Import Prelude Prog.

(** The block of a vector, or nothing, besides the blocks [M]. *)
Definition owned (p : Z) : gset Z := if p =? 0 then ∅ else {[p]}.
Definition holds (M : gset Z) (p : Z) (mem : gset Z) : Prop := mem = owned p ∪ M ∧ owned p ## M ∧ 0 ≤ p.

Lemma holds_none M : holds M 0 M.
Proof. unfold holds, owned. cbn. split_and!; [set_solver|set_solver|lia]. Qed.
Lemma holds_some M p mem : holds M p mem → 0 < p → mem = {[p]} ∪ M ∧ (p ∉ M).
Proof.
  unfold holds, owned. intros (-> & Hd & _) Hp. rewrite (proj2 (Z.eqb_neq p 0)) in * by lia. set_solver.
Qed.
(** Two vectors: either can be taken for the vector, and the other for the rest. *)
Definition holds2 (M : gset Z) (p q : Z) (mem : gset Z) : Prop := holds (owned q ∪ M) p mem ∧ owned q ## M ∧ 0 ≤ q.
Lemma holds2_swap M p q mem : holds2 M p q mem → holds2 M q p mem.
Proof. unfold holds2, holds. intros ((-> & Hd & Hp) & Hq & Hz). split_and!; try done; set_solver. Qed.
(** The second block is no longer the vector's: it belongs to the rest. *)
Lemma holds2_hand_over M n p q mem : holds2 (owned n ∪ M) p q mem → owned n ## M →
  holds2 (owned n ∪ (owned q ∪ M)) p 0 mem ∧ owned n ## owned q ∪ M.
Proof.
  unfold holds2, holds. intros ((-> & D1 & Hp) & D2 & Hq) D. assert (owned 0 = ∅) as -> by done.
  split_and!; try done; set_solver.
Qed.
Lemma holds2_none M q mem : holds M q mem → holds2 M 0 q mem.
Proof. unfold holds2, holds. intros (-> & Hd & Hq). split_and!; try done; unfold owned at 1; cbn; set_solver. Qed.

Class VecLib (E : Type → Type) := { ffvec_grow : Z → Z → Z → prog E (Z * bool) }.  (* block, bytes used, bytes needed *)

Section vec.
Context {E : Type → Type} `{V : VecLib E} (free : Z → E unit).

Context {A : Type}.
Record vec := DVec { v_ptr : Z; v_data : list A }.
Definition vec_null : vec := DVec 0 [].

(** Room for more: the vector with the block it now has, and whether there is room. *)
Definition vec_grow (v : vec) (used need : Z) : prog E (vec * bool) :=
  let* '(p, ok) := ffvec_grow (v_ptr v) used need in Ret (DVec p (v_data v), ok).
Definition vec_free (v : vec) : prog E unit :=
  if v_ptr v =? 0 then Ret tt else call (free (v_ptr v)).

Context {S : Type} (step : env E S) (mem : S → gset Z) (same : S → S → Prop) {oom : S → Prop}.

(** Growing keeps the other blocks; a vector with room has a block; without room, memory has run out. *)
Class VecLaws : Prop := {
  grow_law M p used need s : holds M p (mem s) →
    wp step (ffvec_grow p used need) (λ '(p', ok) s', same s s' ∧ holds M p' (mem s') ∧ if ok : bool then 0 < p' else oom s') never s;
}.
Context `{L : !VecLaws}.

Lemma vec_grow_wp M v used need s : holds M (v_ptr v) (mem s) →
  wp step (vec_grow v used need) (λ '(v', ok) s', same s s' ∧ holds M (v_ptr v') (mem s') ∧
    v_data v' = v_data v ∧ (ok = true → 0 < v_ptr v')) never s.
Proof.
  intros H. unfold vec_grow. apply wp_bind. eapply wp_mono; [by apply (grow_law M)| |done].
  intros [p ok] s' (H1 & H2 & H3). cbn. split_and!; [done..|]. by intros ->.
Qed.

Lemma vec_free_wp M v s :
  (∀ p u s', step s _ (free p) u s' → same s s' ∧ mem s' = mem s ∖ {[p]}) → same s s → holds M (v_ptr v) (mem s) →
  wp step (vec_free v) (λ _ s', same s s' ∧ mem s' = M) never s.
Proof.
  intros Hf Hr (Hm & Hd & _). unfold vec_free, owned in *. destruct (v_ptr v =? 0); cbn.
  - split; [done|]. rewrite Hm. set_solver.
  - intros u s' [H1 H2]%Hf. split; [done|]. rewrite H2, Hm. set_solver.
Qed.
End vec.
Arguments VecLaws {E V S} step mem same oom.
Arguments vec A : clear implicits.
Arguments vec_grow {E V A} v used need.
Arguments vec_free {E} free {A} v.
Abbreviation dvec := (vec Z).    (* of bytes or offsets *)

(** *** A concrete vector: every growth is a new block *)

Section ref_vec.
Context {E : Type → Type} (alloc : Z → E Z) (free : Z → E unit).
Definition ref_grow (p used need : Z) : prog E (Z * bool) :=
  let! p' := alloc (used + need) in
  if p' =? 0 then Ret (p, false) else
  do* if p =? 0 then Ret tt else call (free p) in Ret (p', true).

Context {S : Type} (step : env E S) (mem : S → gset Z) (same : S → S → Prop) (oom : S → Prop).
Lemma ref_grow_laws :
  (∀ s n r s', step s _ (alloc n) r s' → same s s' ∧
     ((r = 0 ∧ mem s' = mem s ∧ oom s') ∨ (0 < r ∧ (r ∉ mem s) ∧ mem s' = {[r]} ∪ mem s))) →
  (∀ s p u s', step s _ (free p) u s' → same s s' ∧ mem s' = mem s ∖ {[p]}) →
  (∀ s1 s2 s3, same s1 s2 → same s2 s3 → same s1 s3) →
  @VecLaws E {| ffvec_grow := ref_grow |} S step mem same oom.
Proof.
  intros Ha Hf Ht. split. intros M p used n s (Hm & Hd & Hp). cbn.
  intros p' s1 [Hs Hm1]%Ha. destruct Hm1 as [(-> & Hm1 & Ho)|(Hp' & Hni & Hm1)].
  { cbn. rewrite Hm1. by split_and!. }
  rewrite (proj2 (Z.eqb_neq p' 0)) by lia. rewrite Hm in Hni, Hm1. unfold owned in *.
  assert (∀ m, m = {[p']} ∪ M → holds M p' m) as HN.
  { intros m ->. unfold holds, owned. rewrite (proj2 (Z.eqb_neq p' 0)) by lia. clear -Hni Hp'. split_and!; [done|set_solver|lia]. }
  destruct (p =? 0) eqn:E0; cbn.
  - split_and!; [done|apply HN; rewrite Hm1; set_solver|lia].
  - intros u s2 [Hs2 Hm2]%Hf. split_and!; [eauto| |lia]. apply HN. rewrite Hm2, Hm1. clear -Hd Hni. set_solver.
Qed.
End ref_vec.

(** Where memory that runs out leaves no trace. *)
Lemma alloc_no_trace (r : Z) (m' m : gset Z) (Q : Prop) : (r = 0 ∧ m' = m) ∨ Q → (r = 0 ∧ m' = m ∧ True) ∨ Q.
Proof. tauto. Qed.

