(* ===== verification/Unix.v ===== *)
(** * The UNIX calls the code performs

    [unixE]: one constructor per C library or system call, with its arguments, indexed by what it
    answers (the return value, with the data it stores through its pointer arguments).
    [errno] is read and assigned through calls too.  [ustep] specifies the resources: which
    descriptors, heap blocks and directory streams are open.  It leaves every answer open, success
    or any failure: a theorem by [wp ustep] holds for every behaviour of the system. *)
From S2P Require Import Prelude Prog Vec.

(** The UNIX systems the sources distinguish (FF_LINUX with and without FF_ANDROID, FF_BSD, FF_APPLE). *)
Inductive unix_os := Linux | Android | BSD | Apple.
#[export] Instance unix_os_eq : EqDecision unix_os.
Proof. solve_decision. Defined.
Definition is_linux (os : unix_os) : bool :=
  match os with Linux | Android => true | BSD | Apple => false end.

(** Constants of the C library (Linux, x86-64). *)
Definition EPERM := 1.
Definition ENOENT := 2.
Definition EINTR := 4.
Definition EAGAIN := 11.
Definition EBUSY := 16.
Definition EEXIST := 17.
Definition EINVAL := 22.
Definition ENFILE := 23.
Definition EMFILE := 24.
Definition ERANGE := 34.
Definition ENOSYS := 38.
Definition EOVERFLOW := 75.
Definition EMSGSIZE := 90.
Definition ETIMEDOUT := 110.
Definition EINPROGRESS := 115.
Definition O_RDONLY := 0.
Definition O_WRONLY := 1.
Definition O_RDWR := 2.
Definition O_CREAT := 64.
Definition O_EXCL := 128.
Definition O_TRUNC := 512.
Definition O_APPEND := 1024.
Definition O_NONBLOCK := 2048.
Definition O_DIRECT := 16384.
Definition O_LARGEFILE := 32768.
Definition O_NOATIME := 262144.
Definition S_IFMT := 61440.
Definition S_IFDIR := 16384.
Definition S_IFCHR := 8192.

Record timespec := TimeSpec { tv_sec : Z; tv_nsec : Z }.
Record timeval := TimeVal { tvv_sec : Z; tvv_usec : Z }.
Record itimerspec := ITimerSpec { it_interval : timespec; it_value : timespec }.
Record stat := Stat { st_mode : Z; st_size : Z; st_ino : Z; st_uid : Z; st_mtim : timespec }.
Record siginfo := SigInfo { si_pid : Z; si_code : Z; si_status : Z }.
Record rusage := RUsage { ru_utime : timeval; ru_stime : timeval; ru_minflt : Z; ru_majflt : Z;
  ru_maxrss : Z; ru_inblock : Z; ru_oublock : Z; ru_nvcsw : Z; ru_nivcsw : Z }.
Record termios := Termios { c_lflag : Z; c_cc_vtime : Z; c_cc_vmin : Z }.
Record epoll_event := EpollEvent { ee_events : Z; ee_data : Z }.
Record kevent_t := KEvent { ke_ident : Z; ke_filter : Z; ke_flags : Z; ke_fflags : Z; ke_data : Z; ke_udata : Z }.

(** [struct tm]: the broken-down fields, then the ones the code reads or writes. *)
Record tm := Tm { tm_fields : list Z; tm_isdst : Z; tm_gmtoff : Z }.
#[export] Instance tm_inhabited : Inhabited tm := populate (Tm [] 0 0).
#[export] Instance timespec_inhabited : Inhabited timespec := populate (TimeSpec 0 0).
#[export] Instance timeval_inhabited : Inhabited timeval := populate (TimeVal 0 0).
#[export] Instance stat_inhabited : Inhabited stat := populate (Stat 0 0 0 0 inhabitant).
#[export] Instance siginfo_inhabited : Inhabited siginfo := populate (SigInfo 0 0 0).
#[export] Instance rusage_inhabited : Inhabited rusage :=
  populate (RUsage inhabitant inhabitant 0 0 0 0 0 0 0).
#[export] Instance termios_inhabited : Inhabited termios := populate (Termios 0 0 0).
#[export] Instance epoll_inhabited : Inhabited epoll_event := populate (EpollEvent 0 0).

(** A C string argument; NULL is [None] where it is allowed. *)
Abbreviation cstr := (list Z).

Inductive unixE : Type → Type :=
  (* errno, heap *)
  | get_errno : unixE Z
  | set_errno (e : Z) : unixE unit
  | ffmem_alloc (n : Z) : unixE Z                        (* 0: NULL *)
  | ffmem_free (p : Z) : unixE unit
  (* files *)
  | u_open (name : cstr) (flags mode : Z) : unixE Z
  | u_close (fd : Z) : unixE Z
  | u_dup (fd : Z) : unixE Z
  | u_dup2 (fd fd2 : Z) : unixE Z
  | u_unlink (name : cstr) : unixE Z
  | u_rename (old new : cstr) : unixE Z
  | u_link (old new : cstr) : unixE Z
  | u_symlink (target path : cstr) : unixE Z
  | u_read (fd n : Z) : unixE (Z * list Z)
  | u_write (fd : Z) (d : list Z) : unixE Z
  | u_pread (fd n off : Z) : unixE (Z * list Z)
  | u_pwrite (fd : Z) (d : list Z) (off : Z) : unixE Z
  | u_lseek (fd off whence : Z) : unixE Z
  | u_ftruncate (fd len : Z) : unixE Z
  | u_stat (name : cstr) : unixE (Z * stat)
  | u_lstat (name : cstr) : unixE (Z * stat)
  | u_fstat (fd : Z) : unixE (Z * stat)
  | u_chmod (name : cstr) (mode : Z) : unixE Z
  | u_fchmod (fd mode : Z) : unixE Z
  | u_fchown (fd uid gid : Z) : unixE Z
  | u_utimensat (name : cstr) (t0 t1 : timespec) : unixE Z
  | u_futimens (fd : Z) (t0 t1 : timespec) : unixE Z
  | u_utimes (name : cstr) (t0 t1 : timeval) : unixE Z
  | u_futimes (fd : Z) (t0 t1 : timeval) : unixE Z
  | u_posix_fadvise (fd off len advice : Z) : unixE Z
  | u_fcntl (fd cmd arg : Z) : unixE Z
  | u_ioctl_fionbio (fd nonblock : Z) : unixE Z
  | u_mmap (size prot flags fd off : Z) : unixE Z
  | u_munmap (p sz : Z) : unixE Z
  | u_statfs (name : cstr) : unixE (Z * Z)               (* result, f_bsize *)
  (* directories *)
  | u_mkdir (name : cstr) (mode : Z) : unixE Z
  | u_rmdir (name : cstr) : unixE Z
  | u_opendir (name : cstr) : unixE Z                    (* 0: NULL *)
  | u_fdopendir (fd : Z) : unixE Z
  | u_readdir (dir : Z) : unixE (option cstr)            (* d_name *)
  | u_closedir (dir : Z) : unixE Z
  | u_chdir (name : cstr) : unixE Z
  | u_getcwd (cap : Z) : unixE (option cstr)
  | u_readlink (name : cstr) (cap : Z) : unixE (Z * list Z)
  | u_realpath (name : cstr) : unixE (option cstr)
  | u_sysctl_pathname (cap : Z) : unixE (Z * list Z)      (* KERN_PROC_PATHNAME of this process *)
  | u_NSGetExecutablePath (cap : Z) : unixE (Z * cstr)
  (* processes, signals *)
  | u_vfork : unixE Z
  | u_execve (name : cstr) (argv env : list cstr) : unixE Z
  | u_exit (status : Z) : unixE unit
  | u_waitid (pid options : Z) : unixE (Z * siginfo)
  | u_kill (pid sig : Z) : unixE Z
  | u_getpid : unixE Z
  | u_sigaction (sig handler flags : Z) : unixE Z
  | u_sigaltstack (sp size : Z) : unixE Z
  | u_sigprocmask (how : Z) (sigs : list Z) : unixE Z
  | u_signalfd (sigs : list Z) (flags : Z) : unixE Z
  | u_read_siginfo (fd : Z) : unixE (Z * (Z * Z))        (* read(): size; ssi_signo, ssi_pid *)
  | u_getrusage (who : Z) : unixE (Z * rusage)
  | u_clock_gettime (clock : Z) : unixE (Z * timespec)
  | u_tzset : unixE (Z * Z)                              (* timezone, daylight *)
  | u_time : unixE Z
  | u_gmtime_r (t : Z) : unixE tm
  | u_localtime_r (t : Z) : unixE tm
  | u_mktime (t : tm) : unixE (Z * tm)
  (* threads, semaphores *)
  | u_pthread_attr_init : unixE Z
  | u_pthread_attr_setstacksize (n : Z) : unixE Z
  | u_pthread_attr_destroy : unixE Z
  | u_pthread_create (with_attr : bool) (proc param : Z) : unixE (Z * Z)
  | u_pthread_join (t : Z) : unixE (Z * Z)
  | u_pthread_tryjoin_np (t : Z) : unixE (Z * Z)
  | u_pthread_timedjoin_np (t : Z) (ts : timespec) : unixE (Z * Z)
  | u_pthread_detach (t : Z) : unixE Z
  | u_gettid : unixE Z
  | u_pthread_threadid_np : unixE (Z * Z)
  | u_pthread_getthreadid_np : unixE Z
  | u_usleep (usec : Z) : unixE Z
  | u_sem_init (sem value : Z) : unixE Z
  | u_sem_destroy (sem : Z) : unixE Z
  | u_sem_open (name : cstr) (flags mode value : Z) : unixE Z   (* 0: SEM_FAILED *)
  | u_sem_close (sem : Z) : unixE Z
  | u_sem_unlink (name : cstr) : unixE Z
  | u_sem_post (sem : Z) : unixE Z
  | u_sem_wait (sem : Z) : unixE Z
  | u_sem_trywait (sem : Z) : unixE Z
  | u_sem_timedwait (sem : Z) (ts : timespec) : unixE Z
  (* sockets and pipes: an address is its bytes *)
  | u_socket (domain type proto : Z) : unixE Z
  | u_bind (sk : Z) (addr : list Z) : unixE Z
  | u_listen (sk n : Z) : unixE Z
  | u_connect (sk : Z) (addr : list Z) : unixE Z
  | u_accept (sk cap : Z) : unixE (Z * (Z * list Z))      (* socket; size of the address, bytes stored *)
  | u_accept4 (sk cap flags : Z) : unixE (Z * (Z * list Z))
  | u_shutdown (sk how : Z) : unixE Z
  | u_getsockname (sk cap : Z) : unixE (Z * (Z * list Z))
  | u_setsockopt (sk level name val : Z) : unixE Z
  | u_getsockopt (sk level name : Z) : unixE (Z * Z)
  | u_recv (sk cap flags : Z) : unixE (Z * list Z)
  | u_recvfrom (sk cap flags : Z) : unixE (Z * list Z * (Z * list Z))
  | u_send (sk : Z) (d : list Z) (flags : Z) : unixE Z
  | u_sendto (sk : Z) (d : list Z) (flags : Z) (addr : list Z) : unixE Z
  | u_writev (sk : Z) (iov : list (list Z)) : unixE Z
  | u_sendmsg (sk : Z) (addr : list Z) (iov : list (list Z)) : unixE Z
  | u_recvmsg (sk cap : Z) : unixE (Z * list Z * Z)       (* size, data, msg_flags *)
  | u_getaddrinfo (name : cstr) (flags socktype : Z) : unixE (Z * Z)
  | u_freeaddrinfo (a : Z) : unixE unit
  | u_gai_strerror (e : Z) : unixE cstr
  | u_pipe2 (flags : Z) : unixE (Z * (Z * Z))
  (* kernel queues, timers, file monitors, terminals *)
  | u_epoll_create (n : Z) : unixE Z
  | u_epoll_ctl (kq op fd events data : Z) : unixE Z
  | u_epoll_wait (kq cap timeout : Z) : unixE (Z * list epoll_event)
  | u_eventfd (v flags : Z) : unixE Z
  | u_read64 (fd : Z) : unixE (Z * Z)
  | u_write64 (fd v : Z) : unixE Z
  | u_timerfd_create (clock flags : Z) : unixE Z
  | u_timerfd_settime (fd : Z) (its : itimerspec) : unixE Z
  | u_kqueue : unixE Z
  | u_kevent_change (kq : Z) (evs : list kevent_t) : unixE Z
  | u_kevent_wait (kq cap : Z) (timeout : timespec) : unixE (Z * list kevent_t)
  | u_inotify_init1 (flags : Z) : unixE Z
  | u_inotify_add_watch (fm : Z) (path : cstr) (events : Z) : unixE Z
  | u_inotify_rm_watch (fm wd : Z) : unixE Z
  (* modules, system information *)
  | u_dlopen (name : cstr) (flags : Z) : unixE Z          (* 0: NULL *)
  | u_dlclose (dl : Z) : unixE unit
  | u_dlsym (dl : Z) (name : list Z) : unixE Z
  | u_dlerror : unixE cstr
  | u_backtrace (n : Z) : unixE (list Z)
  | u_dladdr (addr : Z) (info : Z * cstr) : unixE (Z * (Z * cstr))   (* dli_fbase, dli_fname: before and after *)
  | u_sysconf (id : Z) : unixE Z
  | u_srandom (seed : Z) : unixE unit
  | u_random : unixE Z
  | u_strerror_r (code cap : Z) : unixE (Z * (bool * list Z))   (* result; whether it is the buffer; text *)
  | u_strerror (code : Z) : unixE cstr
  | u_tcgetattr (fd : Z) : unixE (Z * termios)
  | u_tcsetattr (fd : Z) (t : termios) : unixE Z.

(** Shorthands: the last error and an error return. *)
Definition fail {A} (e : Z) (a : A) : prog unixE A := do! set_errno e in Ret a.

(** ** Resources *)

(** Data transferred by read() and write(). *)
Inductive io := IoRead (fd : Z) (d : list Z) | IoWrite (fd : Z) (d : list Z).

Record ustate := UState {
  us_errno : Z;
  us_fds : gset Z;      (* open descriptors *)
  us_mem : gset Z;      (* allocated heap blocks *)
  us_dirs : gset Z;     (* open directory streams *)
  us_unlinked : gset (list Z);   (* names removed by unlink() *)
  us_io : list io;               (* successful reads and writes, oldest first *)
}.

(** Nothing but [errno] changed. *)
Definition same (s s' : ustate) : Prop :=
  us_fds s' = us_fds s ∧ us_mem s' = us_mem s ∧ us_dirs s' = us_dirs s ∧
  us_unlinked s' = us_unlinked s ∧ us_io s' = us_io s.

(** read() and its like: an error, or at most the bytes asked for. *)
Definition read_ok (n : Z) (r : Z * list Z) : Prop :=
  r = (-1, []) ∨ (0 ≤ r.1 ≤ n ∧ Z.of_nat (length r.2) = r.1).

(** A call that returns a new descriptor or -1. *)
Definition new_fd (s : ustate) (r : Z) (s' : ustate) : Prop :=
  us_mem s' = us_mem s ∧ us_dirs s' = us_dirs s ∧ us_unlinked s' = us_unlinked s ∧ us_io s' = us_io s ∧
  ((r = -1 ∧ us_fds s' = us_fds s) ∨ (0 ≤ r ∧ (r ∉ us_fds s) ∧ us_fds s' = {[r]} ∪ us_fds s)).

Definition ustep : env unixE ustate := λ s X e,
  match e in unixE X return X → ustate → Prop with
  | get_errno => λ r s', r = us_errno s ∧ s' = s
  | set_errno e => λ _ s', us_errno s' = e ∧ same s s'
  | ffmem_alloc n => λ r s', us_fds s' = us_fds s ∧ us_dirs s' = us_dirs s ∧ us_unlinked s' = us_unlinked s ∧ us_io s' = us_io s ∧
      ((r = 0 ∧ us_mem s' = us_mem s) ∨ (0 < r ∧ (r ∉ us_mem s) ∧ us_mem s' = {[r]} ∪ us_mem s))
  | ffmem_free p => λ _ s', us_errno s' = us_errno s ∧ us_fds s' = us_fds s ∧ us_dirs s' = us_dirs s ∧
      us_unlinked s' = us_unlinked s ∧ us_io s' = us_io s ∧
      us_mem s' = (us_mem s ∖ {[p]})
  | u_open _ _ _ | u_dup _ | u_socket _ _ _ | u_epoll_create _ | u_eventfd _ _
  | u_timerfd_create _ _ | u_signalfd _ _ | u_kqueue | u_inotify_init1 _ => λ r s', new_fd s r s'
  | u_accept _ _ | u_accept4 _ _ _ => λ r s', new_fd s r.1 s'
  | u_pipe2 _ => λ r s', us_mem s' = us_mem s ∧ us_dirs s' = us_dirs s ∧ us_unlinked s' = us_unlinked s ∧ us_io s' = us_io s ∧
      ((r.1 = -1 ∧ us_fds s' = us_fds s) ∨
       (r.1 = 0 ∧ 0 ≤ r.2.1 ∧ 0 ≤ r.2.2 ∧ r.2.1 ≠ r.2.2 ∧ (r.2.1 ∉ us_fds s) ∧ (r.2.2 ∉ us_fds s) ∧
        us_fds s' = {[r.2.1; r.2.2]} ∪ us_fds s))
  | u_close fd => λ _ s', us_mem s' = us_mem s ∧ us_dirs s' = us_dirs s ∧ us_unlinked s' = us_unlinked s ∧ us_io s' = us_io s ∧
      us_fds s' = (us_fds s ∖ {[fd]})
  | u_opendir _ => λ r s', us_fds s' = us_fds s ∧ us_mem s' = us_mem s ∧ us_unlinked s' = us_unlinked s ∧ us_io s' = us_io s ∧
      ((r = 0 ∧ us_dirs s' = us_dirs s) ∨ (0 < r ∧ (r ∉ us_dirs s) ∧ us_dirs s' = {[r]} ∪ us_dirs s))
  | u_fdopendir fd => λ r s', us_mem s' = us_mem s ∧ us_unlinked s' = us_unlinked s ∧ us_io s' = us_io s ∧
      ((r = 0 ∧ us_dirs s' = us_dirs s ∧ us_fds s' = us_fds s) ∨
       (0 < r ∧ (r ∉ us_dirs s) ∧ us_dirs s' = {[r]} ∪ us_dirs s ∧ us_fds s' = (us_fds s ∖ {[fd]})))
  | u_closedir d => λ _ s', us_fds s' = us_fds s ∧ us_mem s' = us_mem s ∧ us_unlinked s' = us_unlinked s ∧ us_io s' = us_io s ∧
      us_dirs s' = (us_dirs s ∖ {[d]})
  | u_getpid => λ _ s', s' = s
  | u_unlink name => λ _ s', us_fds s' = us_fds s ∧ us_mem s' = us_mem s ∧ us_dirs s' = us_dirs s ∧
      us_unlinked s' = {[name]} ∪ us_unlinked s ∧ us_io s' = us_io s
  | u_read fd n | u_pread fd n _ => λ r s', us_fds s' = us_fds s ∧ us_mem s' = us_mem s ∧
      us_dirs s' = us_dirs s ∧ us_unlinked s' = us_unlinked s ∧ read_ok n r ∧
      us_io s' = if r.1 =? -1 then us_io s else us_io s ++ [IoRead fd r.2]
  | u_write fd d | u_pwrite fd d _ => λ r s', us_fds s' = us_fds s ∧ us_mem s' = us_mem s ∧
      us_dirs s' = us_dirs s ∧ us_unlinked s' = us_unlinked s ∧
      (r = -1 ∨ 0 ≤ r ≤ Z.of_nat (length d)) ∧
      us_io s' = if r =? -1 then us_io s else us_io s ++ [IoWrite fd (take (Z.to_nat r) d)]
  | u_read64 _ => λ r s', (r.1 = -1 ∨ r.1 = 8) ∧ same s s'
  | _ => λ _ s', same s s'
  end.

Lemma same_refl s : same s s.
Proof. done. Qed.
#[export] Hint Resolve same_refl : ffos.

(** The specification allows some answer to every call: [wp ustep] is never vacuous. *)
Lemma ustep_total s X (e : unixE X) : ∃ x s', ustep s X e x s'.
Proof.
  destruct e; simpl;
    try (exists inhabitant, s; done);
    try (exists (-1), s; unfold new_fd, same; simpl; by auto 10);
    try (exists (-1, inhabitant), s; unfold new_fd, read_ok, same; simpl; by auto 10);
    try (exists 0, s; by auto 10);
    try (exists (us_errno s), s; done).
  - exists tt, (UState e (us_fds s) (us_mem s) (us_dirs s) (us_unlinked s) (us_io s)). done.
  - exists tt, (UState (us_errno s) (us_fds s) (us_mem s ∖ {[p]}) (us_dirs s) (us_unlinked s) (us_io s)). done.
  - exists 0, (UState (us_errno s) (us_fds s ∖ {[fd]}) (us_mem s) (us_dirs s) (us_unlinked s) (us_io s)). done.
  - exists 0, (UState (us_errno s) (us_fds s) (us_mem s) (us_dirs s) ({[name]} ∪ us_unlinked s) (us_io s)). done.
  - exists 0, (UState (us_errno s) (us_fds s) (us_mem s) (us_dirs s ∖ {[dir]}) (us_unlinked s) (us_io s)). done.
Qed.

Lemma same_trans s1 s2 s3 : same s1 s2 → same s2 s3 → same s1 s3.
Proof. unfold same. intros (?&?&?&?&?) (?&?&?&?&?). split_and!; congruence. Qed.

(** A descriptor of the same state up to [errno]. *)
Lemma new_fd_of s s1 r s2 s3 : same s s1 → new_fd s1 r s2 → same s2 s3 → new_fd s r s3.
Proof.
  intros (A1 & A2 & A3 & A4 & A5) (B1 & B2 & B3 & B4 & B5) (C1 & C2 & C3 & C4 & C5).
  unfold new_fd. rewrite C1, C2, C3, C4, C5. split_and!; [congruence..|]. rewrite <- A1. exact B5.
Qed.

(** Closing the descriptor that was opened. *)
Lemma closed_fd s s1 p s2 s3 s4 : new_fd s p s1 → p ≠ -1 → same s1 s2 →
  ustep s2 _ (u_close p) s3 s4 → new_fd s (-1) s4.
Proof.
  intros (A1 & A2 & A3 & A4 & A5) Hp (B1 & B2 & B3 & B4 & B5) (C1 & C2 & C3 & C4 & C5).
  unfold new_fd. split_and!; [congruence..|]. left. split; [done|].
  destruct A5 as [[? _]|(_ & An & A5)]; [done|]. rewrite C5, B1, A5. clear -An. set_solver.
Qed.

(** *** Vectors *)

(** Growing a vector leaves everything but the heap (and errno) alone. *)
Definition but_mem (s s' : ustate) : Prop :=
  us_fds s' = us_fds s ∧ us_dirs s' = us_dirs s ∧ us_unlinked s' = us_unlinked s ∧ us_io s' = us_io s.
Abbreviation UVecLaws := (VecLaws ustep us_mem but_mem (λ _, True)).
Lemma but_mem_refl s : but_mem s s.
Proof. done. Qed.
Lemma but_mem_trans s1 s2 s3 : but_mem s1 s2 → but_mem s2 s3 → but_mem s1 s3.
Proof. unfold but_mem. intros (? & ? & ? & ?) (? & ? & ? & ?). split_and!; congruence. Qed.
#[export] Hint Resolve but_mem_refl : ffos.

#[export] Instance RefUVec : VecLib unixE := {| ffvec_grow := ref_grow ffmem_alloc ffmem_free |}.
#[export] Instance RefUVecLaws : UVecLaws.
Proof.
  apply ref_grow_laws.
  - intros s n r s' (? & ? & ? & ? & ?). split; [done|by apply alloc_no_trace].
  - by intros s p u s' (_ & ? & ? & ? & ? & ?).
  - apply but_mem_trans.
Qed.

Lemma ufree_wp {A} M (v : vec A) s : holds M (v_ptr v) (us_mem s) →
  wp ustep (vec_free ffmem_free v) (λ _ s', but_mem s s' ∧ us_mem s' = M) never s.
Proof.
  intros H. apply (vec_free_wp ffmem_free ustep us_mem but_mem M); [|apply but_mem_refl|exact H].
  by intros p u s2 (_ & ? & ? & ? & ? & ?).
Qed.
