(* ===== verification/Win.v ===== *)
(** * The Windows calls the code performs

    As [Unix.v]: [winE] has a constructor per Windows API function (and the heap functions of
    ffbase), [wstep] specifies which handles, sockets and heap blocks are open, leaving every
    answer open.  A BOOL is a [bool]; a wide string is the list of its UTF-16 units. *)
From S2P Require Import Prelude Prog Vec.

Abbreviation wstr := (list Z).

Record filetime := FileTime { dwLow : Z; dwHigh : Z }.
(** The fields shared by WIN32_FILE_ATTRIBUTE_DATA, WIN32_FIND_DATAW and BY_HANDLE_FILE_INFORMATION. *)
Record fileattr := FileAttr {
  fa_attr : Z; fa_ctime : filetime; fa_atime : filetime; fa_mtime : filetime;
  fa_size_hi : Z; fa_size_lo : Z; fa_index_hi : Z; fa_index_lo : Z }.
Record finddata := FindData { fd_info : fileattr; cFileName : wstr }.

(** [struct ffwinreg_info] of winreg.h: what RegQueryInfoKeyW() says of a key. *)
Record reginfo := RegInfo {
  subkeys : Z; values : Z; max_subkey_len : Z; max_valname_len : Z; max_val_len : Z; ri_mtime : filetime }.

(** INPUT_RECORD: the kind of the event and the bytes of its union. *)
Record input_record := InputRecord { EventType : Z; ir_event : list Z }.

#[export] Instance filetime_inhabited : Inhabited filetime := populate (FileTime 0 0).
#[export] Instance fileattr_inhabited : Inhabited fileattr :=
  populate (FileAttr 0 inhabitant inhabitant inhabitant 0 0 0 0).
#[export] Instance reginfo_inhabited : Inhabited reginfo := populate (RegInfo 0 0 0 0 0 inhabitant).
#[export] Instance finddata_inhabited : Inhabited finddata := populate (FindData inhabitant []).

(** Constants of the Windows headers. *)
Definition INVALID_HANDLE_VALUE : Z := -1.
Definition ERROR_FILE_NOT_FOUND := 2.
Definition ERROR_PATH_NOT_FOUND := 3.
Definition ERROR_ACCESS_DENIED := 5.
Definition ERROR_INVALID_DATA := 13.
Definition ERROR_NO_MORE_FILES := 18.
Definition ERROR_NOT_READY := 21.
Definition ERROR_HANDLE_EOF := 38.
Definition ERROR_NOT_SUPPORTED := 50.
Definition ERROR_FILE_EXISTS := 80.
Definition ERROR_INVALID_PARAMETER := 87.
Definition ERROR_BROKEN_PIPE := 109.
Definition ERROR_INVALID_NAME := 123.
Definition ERROR_BUSY := 170.
Definition ERROR_ALREADY_EXISTS := 183.
Definition ERROR_NO_DATA := 232.
Definition ERROR_MORE_DATA := 234.
Definition WAIT_TIMEOUT := 258.
Definition ERROR_NO_MORE_ITEMS := 259.
Definition ERROR_PIPE_CONNECTED := 535.
Definition ERROR_IO_INCOMPLETE := 996.
Definition ERROR_IO_PENDING := 997.
Definition WSAEWOULDBLOCK := 10035.
Definition WSAETIMEDOUT := 10060.
Definition GENERIC_READ := 2147483648.
Definition GENERIC_WRITE := 1073741824.
Definition CREATE_NEW := 1.
Definition OPEN_EXISTING := 3.
Definition OPEN_ALWAYS := 4.
Definition TRUNCATE_EXISTING := 5.
Definition FILE_SHARE_READ := 1.
Definition FILE_SHARE_WRITE := 2.
Definition FILE_SHARE_DELETE := 4.
Definition FILE_GENERIC_READ := 1179785.
Definition FILE_GENERIC_WRITE := 1179926.
Definition FILE_WRITE_DATA := 2.
Definition FILE_ATTRIBUTE_DIRECTORY := 16.
Definition FILE_ATTRIBUTE_NORMAL := 128.
Definition FILE_FLAG_BACKUP_SEMANTICS := 33554432.
Definition FILE_FLAG_DELETE_ON_CLOSE := 67108864.
Definition FILE_FLAG_NO_BUFFERING := 536870912.
Definition FILE_FLAG_OVERLAPPED := 1073741824.
Definition FILE_FLAG_FIRST_PIPE_INSTANCE := 524288.
Definition WAIT_OBJECT_0 := 0.
Definition INFINITE := 4294967295.

Inductive winE : Type → Type :=
  | GetLastError : winE Z
  | SetLastError (e : Z) : winE unit
  | w_alloc (n : Z) : winE Z                              (* ffmem_alloc; 0: NULL *)
  | w_free (p : Z) : winE unit                            (* ffmem_free *)
  | w_alloc_utow (sz : list Z) : winE (Z * wstr)          (* ffsz_alloc_utow *)
  (* files and directories *)
  | GetFileAttributesExW (name : wstr) : winE (bool * fileattr)
  | GetFileInformationByHandle (h : Z) : winE (bool * fileattr)
  | GetFileSizeEx (h : Z) : winE (bool * Z)
  | SetFileTime (h : Z) (mtime : filetime) : winE bool
  | SetFileAttributesW (name : wstr) (attr : Z) : winE bool
  | SetFileInformationByHandle (h attr : Z) : winE bool
  | GetFileAttributesW (name : wstr) : winE Z
  | MoveFileExW (old new : wstr) (flags : Z) : winE bool
  | DeleteFileW (name : wstr) : winE bool
  | CreateHardLinkW (new old : wstr) : winE bool
  | GetLongPathNameW (name : wstr) (cap : Z) : winE (Z * wstr)
  | wcsicmp (a b : wstr) : winE Z
  | CreateFileW (name : wstr) (access share creation flags : Z) : winE Z
  | DuplicateHandle (h : Z) : winE (bool * Z)
  | CloseHandle (h : Z) : winE bool
  | SetFilePointerEx (h pos method : Z) : winE (bool * Z)
  | SetEndOfFile (h : Z) : winE bool
  | WriteFile (h : Z) (d : list Z) (ovl : option Z) : winE (bool * Z)      (* ovl: file offset *)
  | ReadFile (h n : Z) (ovl : option Z) : winE (bool * (Z * list Z))
  | GetDiskFreeSpaceW (name : wstr) : winE (bool * (Z * Z * (Z * Z)))   (* sectors per cluster, bytes per sector; clusters: free, total *)
  | CreateDirectoryW (name : wstr) : winE bool
  | RemoveDirectoryW (name : wstr) : winE bool
  | FindFirstFileW (name : wstr) : winE (Z * finddata)
  | FindNextFileW (h : Z) : winE (bool * finddata)
  | FindClose (h : Z) : winE bool
  | CreateFileMapping (h access max_hi max_lo : Z) : winE Z
  | MapViewOfFile (h prot off_hi off_lo size : Z) : winE Z
  | UnmapViewOfFile (p : Z) : winE bool
  (* overlapped operations: ovl is the identity of the OVERLAPPED object *)
  | GetOverlappedResult (ovl : Z) : winE (bool * Z)
  | ReadFile_ovl (h cap ovl : Z) : winE (bool * list Z)
  | WriteFile_ovl (h : Z) (d : list Z) (ovl : Z) : winE bool
  | ReadDirectoryChangesW (h cap events ovl : Z) : winE Z
  (* sockets *)
  | w_socket (domain type proto : Z) : winE Z
  | w_closesocket (sk : Z) : winE Z
  | w_ioctlsocket (sk nonblock : Z) : winE Z
  | w_bind (sk : Z) (addr : list Z) : winE Z
  | w_connect (sk : Z) (addr : list Z) : winE Z
  | w_accept (sk cap : Z) : winE (Z * (Z * list Z))         (* socket; size of the address, bytes stored *)
  | w_recv (sk cap flags : Z) : winE (Z * list Z)
  | w_recvfrom (sk cap flags : Z) : winE (Z * list Z * (Z * list Z))
  | w_send (sk : Z) (buf : list Z) (len flags : Z) : winE Z
  | w_sendto (sk : Z) (buf : list Z) (len flags : Z) (addr : list Z) : winE Z
  | w_setsockopt (sk level name val : Z) : winE Z
  | w_getsockopt (sk level name : Z) : winE (Z * Z)
  | WSASend (sk : Z) (iov : list (list Z)) : winE (Z * Z)
  | WSARecvFrom (sk cap ovl : Z) : winE Z
  | WSAStartup : winE Z
  | WSAIoctl_getfunc (sk guid : Z) : winE Z
  | ConnectEx (sk : Z) (addr : list Z) (ovl : Z) : winE bool
  | AcceptEx (lsk csk ovl : Z) : winE bool
  | GetAcceptExSockaddrs (ovl : Z) : winE (Z * list Z * list Z)   (* family of peer, local, peer *)
  | DisconnectEx (sk : Z) : winE bool
  | GetAddrInfoW (name : wstr) (flags : Z) : winE (Z * Z)
  | FreeAddrInfoW (a : Z) : winE unit
  (* pipes *)
  | CreatePipe : winE (bool * (Z * Z))
  | SetNamedPipeHandleState (h mode : Z) : winE bool
  | CreateNamedPipeW (name : wstr) (openmode pipemode : Z) : winE Z
  | ConnectNamedPipe (h : Z) (ovl : option Z) : winE bool
  | DisconnectNamedPipe (h : Z) : winE bool
  (* processes, threads, synchronisation *)
  | GetProcessId (h : Z) : winE Z
  | SetHandleInformation (h inherit : Z) : winE bool
  | CreateProcessW (name cmdln : wstr) (inherit : bool) (hin hout herr : option Z) : winE (bool * (Z * Z))
  | WaitForSingleObject (h ms : Z) : winE Z
  | GetExitCodeProcess (h : Z) : winE Z
  | TerminateProcess (h code : Z) : winE bool
  | GetCurrentProcess : winE Z
  | GetCurrentProcessId : winE Z
  | ExitProcess (status : Z) : winE unit
  | GetModuleFileNameW (cap : Z) : winE (Z * wstr)          (* of the program itself *)
  (* volumes *)
  | FindFirstVolumeW (cap : Z) : winE (Z * wstr)
  | FindNextVolumeW (h cap : Z) : winE (bool * wstr)
  | FindVolumeClose (h : Z) : winE bool
  | GetDriveTypeW (name : wstr) : winE Z
  | GetVolumeInformationW (name : wstr) (cap : Z) : winE (bool * wstr)        (* name of the file system *)
  | GetVolumePathNamesForVolumeNameW (name : wstr) (cap : Z) : winE (bool * (Z * wstr))  (* size, names *)
  | SetVolumeMountPointW (mount disk : wstr) : winE bool
  | DeleteVolumeMountPointW (mount : wstr) : winE bool
  (* modules *)
  | LoadLibraryExW (name : wstr) (flags : Z) : winE Z
  | FreeLibrary (dl : Z) : winE bool
  | GetModuleHandleW (name : wstr) : winE Z                   (* of a library that is loaded *)
  | GetProcAddress (dl : Z) (name : list Z) : winE Z
  | CaptureStackBackTrace (n : Z) : winE (list Z)
  | GetModuleHandleExW (addr : Z) : winE (bool * Z)         (* from an address, without a reference *)
  | GetModuleFileNameW_of (dl cap : Z) : winE (Z * wstr)
  (* counters *)
  | QueryPerformanceFrequency : winE Z
  | QueryPerformanceCounter : winE Z
  | GetProcessTimes : winE (bool * (filetime * filetime))   (* of this process: kernel, user *)
  | GetThreadTimes : winE (bool * (filetime * filetime))
  | GetProcessIoCounters : winE (bool * (Z * Z))            (* operations: read, write *)
  | GetProcessMemoryInfo : winE (bool * (Z * Z))            (* page faults, peak working set *)
  | NtQuerySystemInformation (cap : Z) : winE (Z * (Z * list Z))   (* status, size, data *)
  | GetNativeSystemInfo : winE (Z * Z)                      (* allocation granularity, processors *)
  | rand_s : winE Z
  | GetCurrentDirectoryW (cap : Z) : winE (Z * wstr)
  | CreateThread (stack proc param : Z) : winE Z
  | GetExitCodeThread (h : Z) : winE Z
  | w_Sleep (ms : Z) : winE unit
  | GetCurrentThreadId : winE Z
  | CreateSemaphoreW (name : option wstr) (value max : Z) : winE Z
  | OpenSemaphoreW (name : wstr) : winE Z
  | ReleaseSemaphore (h n : Z) : winE bool
  | CreateEvent : winE Z
  | SetEvent (h : Z) : winE bool
  | CreateWaitableTimer : winE Z
  | SetWaitableTimer (h due period : Z) : winE bool
  | CancelWaitableTimer (h : Z) : winE bool
  | WaitForSingleObjectEx (h : Z) : winE Z
  | CreateIoCompletionPort (h kq data : Z) : winE Z
  | GetQueuedCompletionStatusEx (kq cap ms : Z) : winE (bool * list Z)
  | GetQueuedCompletionStatus (kq ms : Z) : winE (bool * (Z * Z))       (* completion key, OVERLAPPED *)
  | PostQueuedCompletionStatus (kq data : Z) : winE bool
  (* registry *)
  | RegCreateKeyExW (hk : Z) (path : wstr) (opts : Z) : winE (Z * (Z * Z))
  | RegOpenKeyExW (hk : Z) (path : wstr) (opts : Z) : winE (Z * Z)
  | RegCloseKey (k : Z) : winE Z
  | RegQueryInfoKeyW (k : Z) : winE (Z * reginfo)
  | RegQueryValueExW (k : Z) (name : wstr) (cap : Z) : winE (Z * (Z * Z * list Z))  (* type, size, data *)
  | RegSetValueExW (k : Z) (name : wstr) (type : Z) (d : list Z) : winE Z
  | RegDeleteKeyW (k : Z) (subkey : wstr) : winE Z
  | RegDeleteKeyValueW (k : Z) (subkey name : wstr) : winE Z
  | RegEnumKeyExW (k idx cap : Z) : winE (Z * wstr)
  | RegEnumValueW (k idx ncap vcap : Z) : winE (Z * (wstr * Z * list Z))            (* name, type, data *)
  (* environment, console, clock *)
  | ExpandEnvironmentStringsW (src : wstr) : winE wstr
  | GetUserDefaultLocaleName (cap : Z) : winE (Z * wstr)    (* length with the NUL, name *)
  | GetLocaleInfoW (lctype cap : Z) : winE (Z * wstr)
  | SendMessageTimeout (param : wstr) (ms : Z) : winE Z     (* WM_SETTINGCHANGE to all windows *)
  | GetNetworkParams (size : Z) : winE (Z * (Z * list (list Z)))   (* error, size; strings of DnsServerList *)
  | GetConsoleMode (h : Z) : winE (bool * Z)
  | SetConsoleMode (h mode : Z) : winE bool
  | ReadConsoleW (h n : Z) : winE (bool * wstr)
  | WriteConsoleW (h : Z) (d : wstr) : winE bool
  | GetStdHandle (n : Z) : winE Z
  | SetConsoleCtrlHandler (handler : Z) (add : bool) : winE bool
  | SetUnhandledExceptionFilter (handler : Z) : winE unit
  | GetNumberOfConsoleInputEvents (h : Z) : winE (bool * Z)
  | ReadConsoleInput (h n : Z) : winE (bool * list input_record)
  | GetSystemTimeAsFileTime : winE filetime
  | GetSystemTimePreciseAsFileTime : winE filetime
  | w_tzset : winE (Z * Z)                                  (* timezone, daylight *)
  | w_time : winE Z
  | w_gmtime_s (t : Z) : winE (list Z)                      (* the fields of struct tm but tm_isdst *)
  | w_mktime (fields : list Z) (isdst : Z) : winE (Z * Z)   (* time, tm_isdst *)
  | FormatMessageW (code cap : Z) : winE (Z * wstr).

Definition wfail {A} (e : Z) (a : A) : prog winE A := do! SetLastError e in Ret a.

Record wstate := WState {
  ws_err : Z;
  ws_handles : gset Z;     (* open handles: files, searches, events, processes... *)
  ws_socks : gset Z;       (* open sockets *)
  ws_mem : gset Z;
}.

Definition wsame (s s' : wstate) : Prop :=
  ws_handles s' = ws_handles s ∧ ws_socks s' = ws_socks s ∧ ws_mem s' = ws_mem s.

(** A call that returns a new handle, or the value [bad]. *)
Definition new_handle (bad : Z) (s : wstate) (r : Z) (s' : wstate) : Prop :=
  ws_socks s' = ws_socks s ∧ ws_mem s' = ws_mem s ∧
  ((r = bad ∧ ws_handles s' = ws_handles s) ∨
   (0 < r ∧ (r ∉ ws_handles s) ∧ ws_handles s' = {[r]} ∪ ws_handles s)).

Definition new_sock (s : wstate) (r : Z) (s' : wstate) : Prop :=
  ws_handles s' = ws_handles s ∧ ws_mem s' = ws_mem s ∧
  ((r = -1 ∧ ws_socks s' = ws_socks s) ∨
   (0 < r ∧ (r ∉ ws_socks s) ∧ ws_socks s' = {[r]} ∪ ws_socks s)).

Definition new_mem (s : wstate) (r : Z) (s' : wstate) : Prop :=
  ws_handles s' = ws_handles s ∧ ws_socks s' = ws_socks s ∧
  ((r = 0 ∧ ws_mem s' = ws_mem s) ∨ (0 < r ∧ (r ∉ ws_mem s) ∧ ws_mem s' = {[r]} ∪ ws_mem s)).

(** An error code (0: success) and the key it opens. *)
Definition new_key (s : wstate) (r k : Z) (s' : wstate) : Prop :=
  ws_socks s' = ws_socks s ∧ ws_mem s' = ws_mem s ∧
  ((r ≠ 0 ∧ ws_handles s' = ws_handles s) ∨
   (r = 0 ∧ 0 < k ∧ (k ∉ ws_handles s) ∧ ws_handles s' = {[k]} ∪ ws_handles s)).

Definition wstep : env winE wstate := λ s X e,
  match e in winE X return X → wstate → Prop with
  | GetLastError => λ r s', r = ws_err s ∧ s' = s
  | SetLastError e => λ _ s', ws_err s' = e ∧ wsame s s'
  | w_alloc _ => λ r s', new_mem s r s'
  | w_alloc_utow _ => λ r s', new_mem s r.1 s'
  | w_free p => λ _ s', ws_handles s' = ws_handles s ∧ ws_socks s' = ws_socks s ∧
      ws_err s' = ws_err s ∧ ws_mem s' = (ws_mem s ∖ {[p]})
  | CreateFileW _ _ _ _ _ | CreateNamedPipeW _ _ _ => λ r s', new_handle INVALID_HANDLE_VALUE s r s'
  | FindFirstFileW _ | FindFirstVolumeW _ => λ r s', new_handle INVALID_HANDLE_VALUE s r.1 s'
  | CreateSemaphoreW _ _ _ | OpenSemaphoreW _ | CreateEvent | CreateWaitableTimer
  | CreateThread _ _ _ => λ r s', new_handle 0 s r s'
  | CloseHandle h | FindClose h | FindVolumeClose h => λ _ s', ws_socks s' = ws_socks s ∧ ws_mem s' = ws_mem s ∧
      ws_handles s' = (ws_handles s ∖ {[h]})
  | CreatePipe | CreateProcessW _ _ _ _ _ _ => λ r s', ws_socks s' = ws_socks s ∧ ws_mem s' = ws_mem s ∧
      ((r.1 = false ∧ ws_handles s' = ws_handles s) ∨
       (r.1 = true ∧ 0 < r.2.1 ∧ 0 < r.2.2 ∧ r.2.1 ≠ r.2.2 ∧ (r.2.1 ∉ ws_handles s) ∧
        (r.2.2 ∉ ws_handles s) ∧ ws_handles s' = {[r.2.1; r.2.2]} ∪ ws_handles s))
  | RegCreateKeyExW _ _ _ => λ r s', new_key s r.1 r.2.1 s'
  | RegOpenKeyExW _ _ _ => λ r s', new_key s r.1 r.2 s'
  | RegCloseKey k => λ _ s', ws_socks s' = ws_socks s ∧ ws_mem s' = ws_mem s ∧
      ws_handles s' = (ws_handles s ∖ {[k]})
  | w_socket _ _ _ => λ r s', new_sock s r s'
  | w_accept _ _ => λ r s', new_sock s r.1 s'
  | w_closesocket sk => λ _ s', ws_handles s' = ws_handles s ∧ ws_mem s' = ws_mem s ∧
      ws_socks s' = (ws_socks s ∖ {[sk]})
  | _ => λ _ s', wsame s s'
  end.

Lemma wstep_total s X (e : winE X) : ∃ x s', wstep s X e x s'.
Proof.
  destruct e; simpl;
    try (exists inhabitant, s; done);
    try (exists (-1), s; unfold new_handle, new_sock; by auto);
    try (exists (-1, inhabitant), s; unfold new_handle, new_sock; simpl; by auto);
    try (exists 0, s; unfold new_handle, new_mem; by auto 10);
    try (exists (0, inhabitant), s; unfold new_mem; simpl; by auto 10);
    try (exists (5, inhabitant), s; unfold new_key; simpl; by auto 10);
    try (exists (false, inhabitant), s; simpl; by auto 10);
    try (exists (ws_err s), s; done).
  - exists tt, (WState e (ws_handles s) (ws_socks s) (ws_mem s)). done.
  - exists tt, (WState (ws_err s) (ws_handles s) (ws_socks s) (ws_mem s ∖ {[p]})). done.
  - exists true, (WState (ws_err s) (ws_handles s ∖ {[h]}) (ws_socks s) (ws_mem s)). done.
  - exists true, (WState (ws_err s) (ws_handles s ∖ {[h]}) (ws_socks s) (ws_mem s)). done.
  - exists 0, (WState (ws_err s) (ws_handles s) (ws_socks s ∖ {[sk]}) (ws_mem s)). done.
  - exists true, (WState (ws_err s) (ws_handles s ∖ {[h]}) (ws_socks s) (ws_mem s)). done.
  - exists 0, (WState (ws_err s) (ws_handles s ∖ {[k]}) (ws_socks s) (ws_mem s)). done.
Qed.

Lemma wsame_refl s : wsame s s.
Proof. done. Qed.
Lemma wsame_trans s1 s2 s3 : wsame s1 s2 → wsame s2 s3 → wsame s1 s3.
Proof. unfold wsame. intros (? & ? & ?) (? & ? & ?). split_and!; congruence. Qed.
#[export] Hint Resolve wsame_refl wsame_trans : ffos.

(** *** Vectors *)
#[export] Instance RefWVec : VecLib winE := {| ffvec_grow := ref_grow w_alloc w_free |}.
