(* ===== verification/StringW.v ===== *)
(** * FFOS/string.h: UTF-8 and wide strings (Windows)

    The converters are ffbase's (class [FfUni]).  A wide string that the code obtained is its
    units and the heap block that holds them; 0 stands for the caller's own (stack) buffer. *)
From S2P Require Import Prelude Prog Win.

(** A converter's result: what it returned (negative: error) and the units it stored. *)
Class FfUni := {
  ffsz_utow : Z → list Z → Z * list Z;            (* capacity in units, string; stores the NUL *)
  ffutf8_to_utf16 : Z → list Z → Z * list Z;      (* capacity in bytes (0: no buffer); bytes returned *)
  ffsz_wtou : Z → list Z → Z * list Z;
  ffs_wtou : Z → list Z → Z * list Z;
}.

(** What ffsz_utow() answers when it is asked for the size (NULL, 0), and the units of a string. *)
Definition utow_size `{FfUni} (s : list Z) : Z := (ffsz_utow 0 s).1.
Definition utow_units `{FfUni} (s : list Z) : list Z := (ffsz_utow (utow_size s) s).2.

(** Its documented behaviour: the size, the NUL included, is not positive for a string that is not
    UTF-8; a buffer of that size receives the units; the conversion keeps ASCII characters. *)
Class FfUniLaws (U : FfUni) : Prop := {
  utow_fits s cap : 0 < utow_size s ≤ cap → ffsz_utow cap s = (utow_size s, utow_units s);
  utow_length s : 0 < utow_size s → Z.of_nat (length (utow_units s)) + 1 = utow_size s;
  utow_ascii s c : 0 < utow_size s → 0 < c < 128 → c ∈ utow_units s ↔ c ∈ s;
  utow_no_nul s : 0 < utow_size s → Forall (λ c, c ≠ 0) (utow_units s);
}.

(** A converter that knows ASCII only. *)
Definition ascii_utow (cap : Z) (s : list Z) : Z * list Z :=
  if negb (bool_decide (Forall (λ c, 0 < c < 128) s)) then (0, []) else
  if (cap =? 0) || (Z.of_nat (length s) <? cap) then (Z.of_nat (length s) + 1, s) else (0, []).
(** Strings with a length; a unit takes [k] bytes of the capacity. *)
Definition ascii_conv (k cap : Z) (s : list Z) : Z * list Z :=
  if negb (bool_decide (Forall (λ c, 0 ≤ c < 128) s)) then (-1, []) else
  if cap =? 0 then (k * Z.of_nat (length s), [])
  else if k * Z.of_nat (length s) <=? cap then (k * Z.of_nat (length s), s) else (-1, []).
Definition RefUni : FfUni := {|
  ffsz_utow := ascii_utow; ffutf8_to_utf16 := ascii_conv 2;
  ffsz_wtou cap s := (if Z.of_nat (length s) <? cap then Z.of_nat (length s) + 1 else -1, s);
  ffs_wtou := ascii_conv 1 |}.

Lemma ref_uni_size s :
  @utow_size RefUni s = if bool_decide (Forall (λ c, 0 < c < 128) s) then Z.of_nat (length s) + 1 else 0.
Proof. unfold utow_size. cbn. unfold ascii_utow. by destruct (bool_decide _). Qed.

Lemma ref_uni_units s : 0 < @utow_size RefUni s → @utow_units RefUni s = s.
Proof.
  unfold utow_units. rewrite ref_uni_size. cbn. unfold ascii_utow.
  destruct (bool_decide _); cbn; [|lia]. intros _.
  rewrite (proj2 (Z.ltb_lt _ _)) by lia. by rewrite orb_true_r.
Qed.

#[export] Instance RefUniLaws : FfUniLaws RefUni.
Proof.
  split.
  - intros s cap Hs. rewrite ref_uni_units by lia. rewrite ref_uni_size in *. cbn. unfold ascii_utow.
    destruct (bool_decide _) eqn:E; cbn; [|lia]. rewrite (proj2 (Z.ltb_lt _ _)) by lia. by rewrite orb_true_r.
  - intros s Hs. rewrite ref_uni_units by done. rewrite ref_uni_size in *. destruct (bool_decide _); lia.
  - intros s c Hs _. by rewrite ref_uni_units.
  - intros s Hs. rewrite ref_uni_units by done. rewrite ref_uni_size in Hs.
    destruct (bool_decide _) eqn:E; [|lia]. apply bool_decide_eq_true in E.
    eapply Forall_impl; [exact E|]. cbn. lia.
Qed.

(** ** Strings with a length *)

(** What the code asks of the converter to UTF-8: the size of a text, at most 4 bytes per unit; a buffer that is large
    enough receives it, and one that is too small is an error. *)
Definition wtou_size `{FfUni} (u : list Z) : Z := (ffs_wtou 0 u).1.
Definition utf8 `{FfUni} (u : list Z) : list Z := (ffs_wtou (wtou_size u) u).2.
Class FfWtouLaws (U : FfUni) : Prop := {
  wtou_fits u cap : 0 ≤ wtou_size u ≤ cap → ffs_wtou cap u = (wtou_size u, utf8 u);
  wtou_small u cap : 0 < cap < wtou_size u → (ffs_wtou cap u).1 < 0;
  wtou_length u : 0 ≤ wtou_size u → Z.of_nat (length (utf8 u)) = wtou_size u;
  wtou_bound u : wtou_size u ≤ 4 * Z.of_nat (length u);
}.

Definition utf16_size `{FfUni} (s : list Z) : Z := (ffutf8_to_utf16 0 s).1.
Definition utf16 `{FfUni} (s : list Z) : list Z := (ffutf8_to_utf16 (utf16_size s) s).2.
(** The converter to UTF-16: a buffer that is large enough receives the units, 2 bytes each, and they are converted back
    to the same text. *)
Class FfUtf16Laws (U : FfUni) : Prop := {
  utf16_fits s cap : 0 ≤ utf16_size s ≤ cap → ffutf8_to_utf16 cap s = (utf16_size s, utf16 s);
  utf16_small s cap : 0 < cap < utf16_size s → (ffutf8_to_utf16 cap s).1 < 0;
  utf16_cap s cap : 0 < cap → (ffutf8_to_utf16 cap s).1 ≤ cap;
  utf16_nil : utf16_size [] = 0;
  utf16_length s : 0 ≤ utf16_size s → 2 * Z.of_nat (length (utf16 s)) = utf16_size s;
  utf16_range s : 0 ≤ utf16_size s → Forall (λ x, 0 ≤ x < 65536) (utf16 s);
  utf16_inv s : 0 ≤ utf16_size s → 0 ≤ wtou_size (utf16 s) ∧ utf8 (utf16 s) = s;
}.

(** A converter of ASCII text satisfies what the proofs ask for. *)
Lemma ref_wtou_size u :
  @wtou_size RefUni u = if bool_decide (Forall (λ c, 0 ≤ c < 128) u) then Z.of_nat (length u) else -1.
Proof.
  unfold wtou_size. cbn. unfold ascii_conv. destruct (bool_decide _); cbn [negb]; [|done].
  change (0 =? 0) with true. cbv iota. cbn [fst]. lia.
Qed.
Lemma ref_utf8 u : bool_decide (Forall (λ c, 0 ≤ c < 128) u) = true → @utf8 RefUni u = u.
Proof.
  intros Hb. unfold utf8. rewrite ref_wtou_size, Hb. cbn [ffs_wtou RefUni]. unfold ascii_conv. rewrite Hb. cbn [negb].
  destruct (Z.eqb_spec (Z.of_nat (length u)) 0) as [E|E]; [by destruct u|].
  by rewrite (proj2 (Z.leb_le _ _)) by lia.
Qed.

#[export] Instance RefWtouLaws : FfWtouLaws RefUni.
Proof.
  pose proof ref_wtou_size as HS. pose proof ref_utf8 as HU.
  split.
  - intros u cap Hc. rewrite HS in *. destruct (bool_decide _) eqn:E; [|lia]. rewrite HU by done.
    cbn [ffs_wtou RefUni]. unfold ascii_conv. rewrite E. cbn [negb]. destruct (Z.eqb_spec cap 0) as [->|].
    + destruct u; [done|cbn in Hc; lia].
    + rewrite (proj2 (Z.leb_le _ _)) by lia. f_equal. lia.
  - intros u cap Hc. rewrite HS in Hc. destruct (bool_decide _) eqn:E; [|lia]. cbn [ffs_wtou RefUni].
    unfold ascii_conv. rewrite E. cbn [negb]. rewrite (proj2 (Z.eqb_neq cap 0)), (proj2 (Z.leb_gt _ _)) by lia. cbn. lia.
  - intros u Hc. rewrite HS in *. destruct (bool_decide _) eqn:E; [by rewrite HU|lia].
  - intros u. rewrite HS. destruct (bool_decide _); lia.
Qed.

#[export] Instance RefUtf16Laws : FfUtf16Laws RefUni.
Proof.
  assert (∀ s, @utf16_size RefUni s = if bool_decide (Forall (λ c, 0 ≤ c < 128) s) then 2 * Z.of_nat (length s) else -1) as HS.
  { intros s. unfold utf16_size. cbn [ffutf8_to_utf16 RefUni]. unfold ascii_conv. by destruct (bool_decide _). }
  assert (∀ s, bool_decide (Forall (λ c, 0 ≤ c < 128) s) = true → @utf16 RefUni s = s) as HU.
  { intros u Hb. unfold utf16. rewrite HS, Hb. cbn [ffutf8_to_utf16 RefUni]. unfold ascii_conv. rewrite Hb. cbn [negb].
    destruct (Z.eqb_spec (2 * Z.of_nat (length u)) 0) as [E|E]; [by destruct u|].
    by rewrite (proj2 (Z.leb_le _ _)) by lia. }
  split.
  - intros u cap Hc. rewrite HS in *. destruct (bool_decide _) eqn:E; [|lia]. rewrite HU by done.
    cbn [ffutf8_to_utf16 RefUni]. unfold ascii_conv. rewrite E. cbn [negb]. destruct (Z.eqb_spec cap 0) as [->|].
    + destruct u; [done|cbn in Hc; lia].
    + by rewrite (proj2 (Z.leb_le _ _)) by lia.
  - intros u cap Hc. rewrite HS in Hc. destruct (bool_decide _) eqn:E; [|lia]. cbn [ffutf8_to_utf16 RefUni].
    unfold ascii_conv. rewrite E. cbn [negb]. rewrite (proj2 (Z.eqb_neq cap 0)), (proj2 (Z.leb_gt _ _)) by lia. cbn. lia.
  - intros u cap Hc. cbn [ffutf8_to_utf16 RefUni]. unfold ascii_conv. destruct (negb _); [cbn; lia|].
    rewrite (proj2 (Z.eqb_neq cap 0)) by lia. destruct (Z.leb_spec (2 * Z.of_nat (length u)) cap); cbn; lia.
  - by rewrite HS.
  - intros u Hc. rewrite HS in *. destruct (bool_decide _) eqn:E; [by rewrite HU|lia].
  - intros u Hc. rewrite HS in Hc. destruct (bool_decide _) eqn:E; [|lia]. rewrite HU by done.
    apply bool_decide_eq_true in E. eapply Forall_impl; [exact E|]. cbn. lia.
  - intros u Hc. rewrite HS in Hc. destruct (bool_decide _) eqn:E; [|lia]. rewrite HU by done.
    unfold utf8, wtou_size. cbn [ffs_wtou RefUni]. unfold ascii_conv at 1 3. rewrite E. cbn [negb Z.eqb fst].
    split; [lia|]. unfold ascii_conv. rewrite E. cbn [negb].
    destruct (Z.eqb_spec (1 * Z.of_nat (length u)) 0) as [E0|E0]; [by destruct u|].
    by rewrite (proj2 (Z.leb_le _ _)) by lia.
Qed.

(** [len == -1]: the source is NUL-terminated. *)
Definition NTS : Z := 2 ^ 64 - 1.

Record wbuf := WBuf { w_str : list Z; w_ptr : Z }.
(** [if (w != ws) ffmem_free(w)] *)
Definition wbuf_free {A} (w : wbuf) (k : prog winE A) : prog winE A :=
  if w_ptr w =? 0 then k else do! w_free (w_ptr w) in k.

Section string.
Context `{FfUni}.

Definition ff_utow (cap : Z) (src : list Z) (len : Z) (flags : Z) : prog winE (Z * list Z) :=
  if negb (flags =? 0) then Halt AssertFail else
  let '(r, d) := if len =? NTS then ffsz_utow cap src
                 else let '(r, d) := ffutf8_to_utf16 (u64 (cap * 2)) (take (Z.to_nat len) src) in
                      (Z.quot r 2, d) in
  Ret (if 0 <=? r then r else 0, d).

Definition _ffs_utow (cap : Z) (src : list Z) : Z * list Z :=
  let '(r, d) := ffutf8_to_utf16 (u64 (cap * 2)) src in
  if r <=? 0 then (r, d) else (Z.quot r 2, d).

(** [dst]: the capacity of the caller's buffer, if any. *)
Definition ffs_utow (dst : option Z) (s : list Z) (len : Z) : prog winE (option (wbuf * Z)) :=
  let* r := match dst with
            | Some cap => let* '(wlen, d) := ff_utow cap s len 0 in
                          Ret (if negb (wlen =? 0) || (len =? 0) then Some (WBuf d 0, wlen) else None)
            | None => Ret None
            end in
  match r with
  | Some w => Ret (Some w)
  | None =>
      let wlen := if len =? NTS then Z.of_nat (length s) + 1 else u64 (len + 1) in
      let! p := w_alloc (u64 (wlen * 2)) in
      if p =? 0 then Ret None else
      let* '(wlen, d) := ff_utow wlen s len 0 in
      if wlen =? 0 then do! w_free p in Ret None else Ret (Some (WBuf d p, wlen))
  end.

Definition ff_wtou (cap : Z) (src : list Z) (len : Z) (flags : Z) : prog winE (Z * list Z) :=
  if negb (flags =? 0) then Halt AssertFail else
  let '(r, d) := if len =? NTS then ffsz_wtou cap src else ffs_wtou cap (take (Z.to_nat len) src) in
  Ret (if 0 <=? r then r else 0, d).

Definition ffsz_alloc_buf_utow (cap : option Z) (sz : list Z) : prog winE (option wbuf) :=
  let r := match cap with Some c => ffsz_utow c sz | None => (0, []) end in
  if 0 <? r.1 then Ret (Some (WBuf r.2 0)) else
  let! '(p, d) := w_alloc_utow sz in
  Ret (if p =? 0 then None else Some (WBuf d p)).

(** Returns the block and the number of units written. *)
Definition ffs_alloc_utow_addcap (s : list Z) (add_chars : Z) : prog winE (option (wbuf * Z)) :=
  let n := (_ffs_utow 0 s).1 in
  if n <? 0 then Ret None else
  let n := n + add_chars in
  let! p := w_alloc (u64 (n * 2)) in
  if p =? 0 then Ret None else
  let '(r, d) := _ffs_utow n s in
  Ret (Some (WBuf d p, r)).

Definition ffs_alloc_buf_utow (cap : option Z) (s : list Z) : prog winE (option (wbuf * Z)) :=
  let r := match cap with Some c => ffutf8_to_utf16 (u64 (c * 2)) s | None => (-1, []) end in
  if 0 <=? r.1 then Ret (Some (WBuf r.2 0, Z.quot r.1 2)) else
  let r := (ffutf8_to_utf16 0 s).1 in
  let! p := w_alloc (u64 r) in
  if p =? 0 then Ret None else
  let '(r, d) := ffutf8_to_utf16 (u64 r) s in
  if r <? 0 then do! w_free p in Ret None else
  Ret (Some (WBuf d p, Z.quot r 2)).
End string.

Section utow.
Context `{U : FfUni, !FfUtf16Laws U}.
Lemma utow_conv cap s : 0 ≤ utf16_size s ≤ u64 (cap * 2) →
  _ffs_utow cap s = (Z.of_nat (length (utf16 s)), utf16 s).
Proof.
  intros Hc. unfold _ffs_utow. rewrite utf16_fits by done.
  assert (2 * Z.of_nat (length (utf16 s)) = utf16_size s) as Hl by (apply utf16_length; lia).
  rewrite <- Hl. destruct (Z.leb_spec (2 * Z.of_nat (length (utf16 s))) 0).
  - f_equal. lia.
  - rewrite Z.quot_div_nonneg by lia. f_equal. dlia.
Qed.

Lemma utow_count s :
  (_ffs_utow 0 s).1 = if utf16_size s <? 0 then utf16_size s else Z.of_nat (length (utf16 s)).
Proof.
  unfold _ffs_utow. change (u64 (0 * 2)) with 0. pose proof (utf16_length s) as Hl. unfold utf16_size in *.
  destruct (ffutf8_to_utf16 0 s) as [r d0] eqn:E. cbn [fst snd] in *.
  destruct (Z.ltb_spec r 0); [by rewrite (proj2 (Z.leb_le r 0)) by lia|].
  destruct (Z.leb_spec r 0); cbn [fst]; [lia|]. rewrite <- Hl, Z.quot_div_nonneg by lia. dlia.
Qed.
End utow.

(** ** Memory: a returned block is new and the only one allocated; on failure nothing is. *)

(** What a conversion leaves allocated. *)
Definition owns (s : wstate) (w : option wbuf) (s' : wstate) : Prop :=
  ws_handles s' = ws_handles s ∧ ws_socks s' = ws_socks s ∧
  match w with
  | Some b => (w_ptr b = 0 ∧ ws_mem s' = ws_mem s) ∨
      (0 < w_ptr b ∧ (w_ptr b ∉ ws_mem s) ∧ ws_mem s' = {[w_ptr b]} ∪ ws_mem s)
  | None => ws_mem s' = ws_mem s
  end.

Lemma alloc_buf_utow_owns `{FfUni} cap sz s :
  wp wstep (ffsz_alloc_buf_utow cap sz) (λ w s', owns s w s') never s.
Proof.
  unfold ffsz_alloc_buf_utow. destruct (0 <? _); [cbn; split_and!; auto|].
  simpl. intros [p d] s' (? & ? & Hm). cbn in *. destruct Hm as [[-> ?]|(? & ? & ?)].
  - by split_and!.
  - rewrite (proj2 (Z.eqb_neq p 0)) by lia. split_and!; auto.
Qed.

Lemma ffs_alloc_buf_utow_owns `{FfUni} cap sz s :
  wp wstep (ffs_alloc_buf_utow cap sz) (λ w s', owns s (fst <$> w) s') never s.
Proof.
  unfold ffs_alloc_buf_utow. destruct (0 <=? _); [cbn; split_and!; auto|].
  simpl. intros p s1 (E1 & E2 & Hm). destruct Hm as [[-> Hm]|(Hp & Hni & Hm)]; [cbn; by split_and!|].
  rewrite (proj2 (Z.eqb_neq p 0)) by lia. destruct (ffutf8_to_utf16 (u64 _) sz) as [r d].
  destruct (r <? 0); cbn.
  - intros _ s2 (F1 & F2 & _ & F4). split_and!; [congruence..|]. rewrite F4, Hm. clear -Hni. set_solver.
  - split_and!; auto.
Qed.

(** Freeing what a conversion allocated. *)
Lemma wbuf_free_wp {A} (w : wbuf) (k : prog winE A) Q F s s1 s2 :
  owns s (Some w) s1 → ws_handles s2 = ws_handles s1 → ws_socks s2 = ws_socks s1 → ws_mem s2 = ws_mem s1 →
  (∀ s3, wsame s s3 → ws_err s3 = ws_err s2 → wp wstep k Q F s3) →
  wp wstep (wbuf_free w k) Q F s2.
Proof.
  intros (Hh & Hk & Hm) E1 E2 E3 Hwp. unfold wbuf_free. destruct Hm as [[-> Hm]|(Hp & Hni & Hm)].
  - simpl. apply Hwp; [|done]. unfold wsame. split_and!; congruence.
  - rewrite (proj2 (Z.eqb_neq _ _)) by lia. intros [] s3 (F1 & F2 & F3 & F4). apply Hwp; [|done].
    unfold wsame. split_and!; [congruence..|]. rewrite F4, E3, Hm. set_solver.
Qed.

(** From the conversion of one name to its release. *)
Lemma with_name_wp `{FfUni} {A} cap (name : list Z) (k : wbuf → prog winE A) (d : A) Q s :
  (∀ s', wsame s s' → Q d s') →
  (∀ w s1, owns s (Some w) s1 → wp wstep (k w) Q never s1) →
  wp wstep (let* w := ffsz_alloc_buf_utow cap name in
            match w with None => Ret d | Some w => k w end) Q never s.
Proof.
  intros Hd Hk. apply wp_bind. eapply wp_mono; [apply alloc_buf_utow_owns| |done].
  intros [w|] s1 Ho; [by apply Hk|]. apply Hd. by destruct Ho as (? & ? & ?).
Qed.

(** Calls that change no resource, then the release. *)
Lemma release_wp {A} (w : wbuf) (a : A) (Q : A → wstate → Prop) s s1 s2 :
  owns s (Some w) s1 → wsame s1 s2 → (∀ s', wsame s s' → Q a s') →
  wp wstep (wbuf_free w (Ret a)) Q never s2.
Proof.
  intros Ho (E1 & E2 & E3) HQ. eapply wbuf_free_wp; [exact Ho|done..|].
  intros s3 Hs _. by apply HQ.
Qed.

(** A new handle, then the release. *)
Lemma release_handle_wp bad (w : wbuf) p s s1 s2 : owns s (Some w) s1 → new_handle bad s1 p s2 →
  wp wstep (wbuf_free w (Ret p)) (λ p s', new_handle bad s p s') never s2.
Proof.
  intros (F1 & F2 & Hm) (E1 & E2 & E3). unfold wbuf_free. destruct Hm as [[-> Hm]|(Hp & Hni & Hm)].
  - cbn. unfold new_handle. rewrite <- F1, <- F2, <- Hm. auto.
  - rewrite (proj2 (Z.eqb_neq _ _)) by lia. cbn [wp]. intros ? s4 (G1 & G2 & _ & G4).
    unfold new_handle. rewrite G1, G2, <- F1, <- F2, G4, E2, Hm. split_and!; [done|clear -Hni; set_solver|done].
Qed.

Lemma new_handle_none bad s s' : wsame s s' → new_handle bad s bad s'.
Proof. intros (? & ? & ?). unfold new_handle. auto. Qed.
