(* ===== verification/Error.v ===== *)
(** * FFOS/error.h: error codes and their messages *)
From S2P Require Import Prelude Prog Ffbase Unix Win StringW.

(** ** Codes *)

Definition fferr_last_win : prog winE Z := let! e := GetLastError in Ret (s32 e).
Definition fferr_set_win (code : Z) : prog winE unit := call (SetLastError (u32 code)).
Definition fferr_again_win (code : Z) : bool := code =? WSAEWOULDBLOCK.
Definition fferr_exist_win (code : Z) : bool := (code =? ERROR_FILE_EXISTS) || (code =? ERROR_ALREADY_EXISTS).
Definition fferr_notexist_win (code : Z) : bool :=
  (code =? ERROR_FILE_NOT_FOUND) || (code =? ERROR_PATH_NOT_FOUND) || (code =? ERROR_NOT_READY) || (code =? ERROR_INVALID_NAME).
Definition fferr_fdlimit_win (code : Z) : bool := false.

Definition fferr_last : prog unixE Z := call get_errno.
Definition fferr_set (code : Z) : prog unixE unit := call (set_errno code).
Definition fferr_exist (code : Z) : bool := code =? EEXIST.
Definition fferr_notexist (code : Z) : bool := code =? ENOENT.
Definition fferr_fdlimit (code : Z) : bool := (code =? EMFILE) || (code =? ENFILE).

(** ** Messages *)

(** ffbase: copy a string and its NUL into a buffer: what was returned, and the buffer. *)
Class FfCopyz := { ffsz_copyz : list Z → list Z → Z * list Z }.

#[export] Instance RefCopyz : FfCopyz := {|
  ffsz_copyz buf sz :=
    if Z.of_nat (length sz) <? Z.of_nat (length buf) then (Z.of_nat (length sz), sz ++ 0 :: drop (S (length sz)) buf)
    else (Z.of_nat (length buf), take (length buf - 1) sz ++ [0]) |}.

(** Bytes stored at the start of a buffer. *)
Definition store_at {E} (buf d : list Z) : prog E (list Z) :=
  if Z.of_nat (length d) <=? Z.of_nat (length buf) then Ret (d ++ drop (length d) buf) else Halt OutOfBounds.

Definition DOT := 46.
Definition SPACE := 32.
Definition unit_at (ws : wstr) (i : Z) : Z := default 0 (ws !! Z.to_nat i).

Section messages.
Context `{FfUni, FfCopyz}.

(** [buffer]: its bytes, [cap] of them. *)
Definition fferr_str_win (code : Z) (buffer : list Z) : prog winE (Z * list Z) :=
  let cap := Z.of_nat (length buffer) in
  if cap =? 0 then Ret (-1, buffer) else
  let! '(n, ws) := FormatMessageW code 256 in
  if n =? 0 then Ret (0, (ffsz_copyz buffer (bytes_of "unknown error")).2) else
  (* cut the trailing ". " *)
  let n := if (2 <? n) && (unit_at ws (n - 2) =? DOT) && (unit_at ws (n - 1) =? SPACE) then n - 2 else n in
  let ws := take (Z.to_nat n) ws ++ [0] in
  let '(r, d) := ffs_wtou cap ws in
  let* buffer := store_at buffer d in
  if r <=? 0 then
    let r := (ffs_wtou 0 ws).1 in
    Ret (-1, if cap <? u32 r then <[Z.to_nat (cap - 1) := 0]> buffer else buffer)
  else Ret (0, buffer).

(** [_fferr_buffer]: 1024 bytes. *)
Definition fferr_strptr_win (code : Z) (_fferr_buffer : list Z) : prog winE (list Z) :=
  let* '(_, b) := fferr_str_win code _fferr_buffer in Ret b.

(** [gnu]: strerror_r() returns the text, which may be elsewhere; otherwise an error number. *)
Definition fferr_str (gnu : bool) (code : Z) (buffer : list Z) : prog unixE (Z * list Z) :=
  let cap := Z.of_nat (length buffer) in
  if cap =? 0 then Ret (-1, buffer) else
  let! '(e, (in_buffer, text)) := u_strerror_r code cap in
  if gnu then
    if in_buffer : bool then let* b := store_at buffer (text ++ [0]) in Ret (0, b) else
    let '(n, b) := ffsz_copyz buffer text in Ret (if cap =? n then -1 else 0, b)
  else
    let* b := store_at buffer (text ++ [0]) in
    Ret (if e =? ERANGE then -1 else 0, b).

Definition fferr_strptr_unix : Z → prog unixE (list Z) := λ code, call (u_strerror code).
End messages.

(** ** Properties *)

(** The documented behaviour of the copy: all of the string and its NUL, or, if they do not fit, as much
    as fits before a NUL, and the capacity is returned. *)
Class FfCopyzLaws (C : FfCopyz) : Prop := {
  copyz_law buf sz : buf ≠ [] → Forall (λ c, c ≠ 0) sz →
    if Z.of_nat (length sz) <? Z.of_nat (length buf)
    then (ffsz_copyz buf sz).1 < Z.of_nat (length buf) ∧
         (ffsz_copyz buf sz).2 = sz ++ 0 :: drop (S (length sz)) buf
    else ffsz_copyz buf sz = (Z.of_nat (length buf), take (length buf - 1) sz ++ [0]);
}.

(** More of the converter to UTF-8: it stays within the buffer, stores at least a byte per unit, and keeps a final NUL. *)
Class FfWtouText (U : FfUni) : Prop := {
  wtou_within u cap : 0 ≤ cap → Z.of_nat (length (ffs_wtou cap u).2) ≤ cap;
  wtou_min u : 0 ≤ wtou_size u → Z.of_nat (length u) ≤ wtou_size u;
  wtou_range u : - 2 ^ 31 ≤ wtou_size u;
  wtou_bad u cap : wtou_size u < 0 → (ffs_wtou cap u).1 < 0;
  wtou_nul u : 0 ≤ wtou_size (u ++ [0]) → utf8 (u ++ [0]) = utf8 u ++ [0];
}.

(** A C string in a buffer: the bytes before the first NUL. *)
Definition c_string (buf : list Z) : option (list Z) := (λ i, take i buf) <$> find_first (Z.eqb 0) buf.

Lemma c_string_nul s r : Forall (λ c, c ≠ 0) s → c_string (s ++ 0 :: r) = Some s.
Proof.
  intros Hs. unfold c_string. rewrite find_first_app.
  - cbn. rewrite take_app_le, take_ge by lia. done.
  - eapply Forall_impl; [exact Hs|]. cbn. by intros [] Hc.
Qed.

Lemma c_string_some buf : 0 ∈ buf → is_Some (c_string buf).
Proof.
  intros Hin. unfold c_string. destruct (find_first_spec (Z.eqb 0) buf) as [[_ HF]|(i & c & E & _)].
  - rewrite Forall_forall in HF. apply list_elem_of_In in Hin. apply list_elem_of_In, HF in Hin. done.
  - destruct (find_first _ buf); [by eexists|cbn in E; lia].
Qed.

Lemma copyz_string `{C : FfCopyz, !FfCopyzLaws C} buf sz : buf ≠ [] → Forall (λ c, c ≠ 0) sz →
  length (ffsz_copyz buf sz).2 = length buf ∧ is_Some (c_string (ffsz_copyz buf sz).2) ∧
  (Z.of_nat (length sz) < Z.of_nat (length buf) → c_string (ffsz_copyz buf sz).2 = Some sz) ∧
  ((ffsz_copyz buf sz).1 = Z.of_nat (length buf) ↔ Z.of_nat (length buf) ≤ Z.of_nat (length sz)).
Proof.
  intros Hb Hs. pose proof (copyz_law buf sz Hb Hs) as HL.
  destruct (Z.ltb_spec (Z.of_nat (length sz)) (Z.of_nat (length buf))) as [Hlt|Hge].
  - destruct HL as [H1 H2]. rewrite H2, c_string_nul by done. rewrite length_app. cbn. rewrite length_drop.
    split_and!; [lia|by eexists|done|lia].
  - rewrite HL. cbn [fst snd]. rewrite c_string_nul by by apply Forall_take. rewrite length_app, length_take. cbn [length].
    destruct buf; [done|]. cbn in *. split_and!; [lia|by eexists|lia|lia].
Qed.

(** The messages of the system: the text of a code, if it has one, at most 255 units before the NUL. *)
Definition message_env (text : Z → option wstr) : env winE unit := λ _ X e,
  match e in winE X return X → unit → Prop with
  | FormatMessageW code cap => λ '(n, ws) _,
      match text code with
      | Some t => ws = t ∧ n = Z.of_nat (length t) ∧ 0 < n < cap
      | None => n = 0
      end
  | _ => λ _ _, True
  end.

(** The message without the final ". ". *)
Definition cut_message (t : wstr) : wstr :=
  let n := (length t - 2)%nat in if bool_decide (2 < length t)%nat && bool_decide (drop n t = [DOT; SPACE]) then take n t else t.

Lemma cut_units t : let n := Z.of_nat (length t) in
  take (Z.to_nat (if (2 <? n) && (unit_at t (n - 2) =? DOT) && (unit_at t (n - 1) =? SPACE) then n - 2 else n)) t = cut_message t.
Proof.
  cbn zeta. unfold cut_message. destruct (Z.ltb_spec 2 (Z.of_nat (length t))) as [Hn|Hn]; cbn [andb].
  2:{ rewrite bool_decide_eq_false_2 by lia. cbn [andb]. apply take_ge. lia. }
  rewrite (bool_decide_eq_true_2 (2 < length t)%nat) by lia. cbn [andb].
  assert (∃ p a b, t = p ++ [a; b]) as (p & a & b & ->).
  { exists (take (length t - 2) t). destruct (drop (length t - 2) t) as [|a [|b [|c l]]] eqn:E;
      try (apply (f_equal length) in E; rewrite length_drop in E; cbn in E; lia).
    exists a, b. by rewrite <- E, take_drop. }
  assert (∀ k, (p ++ [a; b]) !! (length p + k)%nat = [a; b] !! k) as HL.
  { intros k. rewrite lookup_app_r by lia. f_equal. lia. }
  rewrite length_app. cbn [length]. unfold unit_at.
  replace (Z.to_nat (Z.of_nat (length p + 2) - 2)) with (length p + 0)%nat by lia.
  replace (Z.to_nat (Z.of_nat (length p + 2) - 1)) with (length p + 1)%nat by lia.
  rewrite !HL. cbn [lookup list_lookup default from_option id]. replace (length p + 2 - 2)%nat with (length p) by lia.
  rewrite drop_app_length, take_app_length.
  replace (if (a =? DOT) && (b =? SPACE) then _ else _)
    with (Z.of_nat (if (a =? DOT) && (b =? SPACE) then length p else (length p + 2)%nat)) by (destruct ((a =? DOT) && _); lia).
  rewrite Nat2Z.id. destruct (Z.eqb_spec a DOT) as [->|Ha]; [destruct (Z.eqb_spec b SPACE) as [->|Hb]|]; cbn [andb].
  - rewrite bool_decide_eq_true_2 by done. apply take_app_length.
  - rewrite bool_decide_eq_false_2 by congruence. apply take_ge. rewrite length_app. cbn. lia.
  - rewrite bool_decide_eq_false_2 by congruence. apply take_ge. rewrite length_app. cbn. lia.
Qed.

Lemma store_at_wp {E W} (st : env E W) buf d (Q : list Z → W → Prop) s :
  Z.of_nat (length d) ≤ Z.of_nat (length buf) → Q (d ++ drop (length d) buf) s → wp st (store_at buf d) Q never s.
Proof. intros Hd HQ. unfold store_at. by rewrite (proj2 (Z.leb_le _ _)). Qed.

Lemma length_store {A} (buf d : list A) : (length d ≤ length buf)%nat → length (d ++ drop (length d) buf) = length buf.
Proof. rewrite length_app, length_drop. lia. Qed.

Section message_laws.
Context `{U : FfUni, !FfWtouLaws U, !FfWtouText U, C : FfCopyz, !FfCopyzLaws C}.

(** The branch of the code for a text that does not fit. *)
Lemma str_too_long text t buffer u :
  buffer ≠ [] → Z.of_nat (length (ffs_wtou (Z.of_nat (length buffer)) u).2) ≤ Z.of_nat (length buffer) →
  (ffs_wtou (Z.of_nat (length buffer)) u).1 ≤ 0 →
  Z.of_nat (length buffer) < u32 (wtou_size u) ∧ Z.of_nat (length buffer) < 2 ^ 31 →
  wp (message_env text) (let '(r, d) := ffs_wtou (Z.of_nat (length buffer)) u in
    let* buffer' := store_at buffer d in
    if r <=? 0 then
      let r := (ffs_wtou 0 u).1 in
      Ret (-1, if Z.of_nat (length buffer) <? u32 r then <[Z.to_nat (Z.of_nat (length buffer) - 1) := 0]> buffer' else buffer')
    else Ret (0, buffer'))
  (λ '(r, b) _, length b = length buffer ∧ is_Some (c_string b) ∧ r = -1 ∧ (r = 0 → c_string b = Some (utf8 (cut_message t)))) never tt.
Proof using Type.
  intros Hb Hw Hr [Hu _]. destruct (ffs_wtou _ u) as [r d]; cbn [fst snd] in *. apply wp_bind, store_at_wp; [done|].
  rewrite (proj2 (Z.leb_le r 0)) by done. fold (wtou_size u). rewrite (proj2 (Z.ltb_lt _ _)) by done. cbn [wp].
  rewrite length_insert, length_store by lia. split_and!; [done| |done|done].
  apply c_string_some. apply list_elem_of_lookup. exists (Z.to_nat (Z.of_nat (length buffer) - 1)).
  apply list_lookup_insert_eq. rewrite length_store by lia. destruct buffer; cbn in *; [done|lia].
Qed.

Lemma length_cut t : (length (cut_message t) ≤ length t)%nat.
Proof using Type. unfold cut_message. destruct (_ && _); [rewrite length_take; lia|done]. Qed.

(** C40: the message of an error code, for every code and every buffer.  Nothing is written outside of
    the buffer, which always holds a terminated string afterwards; the call succeeds exactly when the
    system's message, its final dot cut off, fits with its NUL, and then the string is this message. *)
Theorem error_str_ok text code buffer :
  buffer ≠ [] → Z.of_nat (length buffer) < 2 ^ 31 →
  let u := from_option cut_message [] (text code) ++ [0] in
  Forall (λ c, c ≠ 0) (utf8 (from_option cut_message [] (text code))) →
  wp (message_env text) (fferr_str_win code buffer) (λ '(r, b) _,
    length b = length buffer ∧ is_Some (c_string b) ∧
    match text code with
    | Some t => r = (if (0 <=? wtou_size u) && (wtou_size u <=? Z.of_nat (length buffer)) then 0 else -1) ∧
                (r = 0 → c_string b = Some (utf8 (cut_message t)))
    | None => r = 0
    end) never tt.
Proof.
  intros Hb Hl u Hz. unfold fferr_str_win.
  assert (0 < Z.of_nat (length buffer)) as Hpos by (destruct buffer; cbn in *; [done|lia]).
  rewrite (proj2 (Z.eqb_neq _ 0)) by lia. cbn -[unit_at ffs_wtou store_at take u32]. intros [n ws] [] Hmsg.
  destruct (text code) as [t|] eqn:Et; cbn [from_option] in *.
  2:{ subst n. cbn. destruct (copyz_string buffer (bytes_of "unknown error")) as (E1 & E2 & _); [done|by repeat constructor|].
      auto. }
  destruct Hmsg as (-> & -> & Hn). rewrite (proj2 (Z.eqb_neq _ 0)) by lia. rewrite cut_units. fold u.
  pose proof (wtou_within u (Z.of_nat (length buffer)) ltac:(lia)) as Hw.
  assert (0 < Z.of_nat (length u)) as Hlu by (unfold u; rewrite length_app; cbn; lia).
  destruct (Z.leb_spec 0 (wtou_size u)) as [H0|H0]; cbn [andb].
  - pose proof (wtou_min u H0). destruct (Z.leb_spec (wtou_size u) (Z.of_nat (length buffer))) as [Hf|Hf].
    + rewrite wtou_fits in * by lia. cbn [snd] in Hw. apply wp_bind, store_at_wp; [done|].
      rewrite (proj2 (Z.leb_gt _ _)) by lia. cbn [wp]. rewrite length_store by lia.
      unfold u in H0 |- *. rewrite wtou_nul by done. rewrite <- (app_assoc _ [0]). cbn [app]. rewrite c_string_nul by done.
      split_and!; [done|by eexists|done|done].
    + eapply str_too_long; [done|exact Hw| |split; [|exact Hl]].
      * apply Z.lt_le_incl, wtou_small. lia.
      * rewrite u32_small; [done|]. pose proof (wtou_bound u) as Hbd. pose proof (length_cut t).
        unfold is_u32, u in *. rewrite length_app in Hbd. cbn [length] in Hbd. lia.
  - eapply str_too_long; [done|exact Hw| |split; [|exact Hl]].
    + by apply Z.lt_le_incl, wtou_bad.
    + pose proof (wtou_range u). unfold u32, uwrap. rewrite <- (Z.mod_add _ 1) by lia. rewrite Z.mod_small; lia.
Qed.
End message_laws.

(** *** UNIX *)

(** strerror_r(): a text in the buffer, cut off if need be, or anywhere else, or an error number. *)
Definition strerror_env (gnu : bool) (text : list Z) : env unixE unit := λ _ X e,
  match e in unixE X return X → unit → Prop with
  | u_strerror_r _ cap => λ '(e, (in_buffer, t)) _,
      if gnu && negb in_buffer then t = text
      else t `prefix_of` text ∧ Z.of_nat (length t) < cap ∧ (gnu = false → e = 0 → t = text)
  | _ => λ _ _, True
  end.

(** On UNIX the buffer holds a terminated string too; with the GNU function a success does not tell that it
    is complete when the function itself has written to the buffer. *)
Lemma error_str_unix `{C : FfCopyz, !FfCopyzLaws C} gnu text code buffer :
  buffer ≠ [] → Forall (λ c, c ≠ 0) text →
  wp (strerror_env gnu text) (fferr_str gnu code buffer) (λ '(r, b) _,
    length b = length buffer ∧ ∃ t, c_string b = Some t) never tt.
Proof.
  intros Hb Hz. unfold fferr_str.
  assert (0 < Z.of_nat (length buffer)) as Hpos by (destruct buffer; cbn in *; [done|lia]).
  rewrite (proj2 (Z.eqb_neq _ 0)) by lia. cbn -[store_at]. intros [e [inb t]] [] Ht.
  assert (t `prefix_of` text → Z.of_nat (length t) < Z.of_nat (length buffer) → ∀ k : Z,
    wp (strerror_env gnu text) (let* b := store_at buffer (t ++ [0]) in Ret (k, b))
      (λ '(r, b) _, length b = length buffer ∧ ∃ t, c_string b = Some t) never tt) as HS.
  { intros [x ->] Hl k. apply Forall_app in Hz as [Hz _].
    apply wp_bind, store_at_wp; [rewrite length_app; cbn; lia|]. cbn [wp].
    split; [apply length_store; rewrite length_app; cbn; lia|]. exists t.
    rewrite <- (app_assoc _ [0]). cbn [app]. by apply c_string_nul. }
  destruct gnu, inb; cbn [andb negb] in Ht; try (destruct Ht as (? & ? & _); by apply HS).
  subst t. pose proof (copyz_string buffer text Hb Hz) as (E1 & E2 & _).
  destruct (ffsz_copyz buffer text) as [n b]. cbn. by split.
Qed.

(** ** Instances *)

#[export] Instance RefCopyzLaws : FfCopyzLaws RefCopyz.
Proof. split. intros buf sz _ _. cbn. by destruct (Z.ltb_spec (Z.of_nat (length sz)) (Z.of_nat (length buf))). Qed.

#[export] Instance RefWtouText : FfWtouText RefUni.
Proof.
  split; [|intros u; rewrite ref_wtou_size; destruct (bool_decide _); lia..| |].
  - intros u cap Hc. cbn. unfold ascii_conv. destruct (bool_decide _); [|done]. cbn [negb].
    destruct (cap =? 0); [done|]. destruct (Z.leb_spec (1 * Z.of_nat (length u)) cap); cbn [snd length]; lia.
  - intros u cap. rewrite ref_wtou_size. cbn. unfold ascii_conv. destruct (bool_decide _); [lia|done].
  - intros u Hu. rewrite ref_wtou_size in Hu. destruct (bool_decide _) eqn:E; [|lia]. rewrite ref_utf8 by done.
    apply bool_decide_eq_true, Forall_app in E as [E _]. by rewrite ref_utf8 by by apply bool_decide_eq_true.
Qed.

(** "No. " in a buffer of four bytes: "No" fits; three bytes would do. *)
Lemma error_str_ok_witness :
  wp (message_env (λ _, Some [78; 111; 46; 32])) (@fferr_str_win RefUni RefCopyz 5 [1; 1; 1; 1])
    (λ '(r, b) _, r = 0 ∧ c_string b = Some [78; 111]) never tt.
Proof.
  eapply wp_mono; [apply (error_str_ok (λ _, Some [78; 111; 46; 32]) 5 [1; 1; 1; 1]); [done|cbn; lia|]| |done].
  - vm_compute. repeat constructor; done.
  - intros [r b] [] (_ & _ & Hr & Hs). cbn in Hr. split; [done|]. by apply Hs.
Defined.
