(* ===== verification/Path.v ===== *)
(** * FFOS/path.h: file-system paths

    [ffpath_slash], [ffpath_abs], the splitting functions and [ffpath_normalize], for both
    families of systems.  [ffpath_normalize] works on a real output buffer (writes out of its
    bounds are errors of the model); [nspec] is the component-stack specification it refines. *)
From S2P Require Import Prelude Ffbase.

(** ** Predicates on paths *)

Definition ffpath_slash_win (c : Z) : bool := (c =? SLASH) || (c =? BSLASH).
Definition ffpath_slash_unix (c : Z) : bool := c =? SLASH.

(** [/\]... or [a-zA-Z]:[\0/\] *)
Definition ffpath_abs_win (path : list Z) : bool :=
  match path with
  | [] => false
  | p0 :: rest =>
      if (p0 =? SLASH) || (p0 =? BSLASH) then true
      else
        let ch := Z.lor p0 32 in
        match rest with
        | [] => false
        | p1 :: rest' =>
            (97 <=? ch) && (ch <=? 122) && (p1 =? COLON) &&
            match rest' with
            | [] => true
            | p2 :: _ => (p2 =? SLASH) || (p2 =? BSLASH)
            end
        end
  end.

Definition ffpath_abs_unix (path : list Z) : bool :=
  match path with
  | [] => false
  | p0 :: _ => p0 =? SLASH
  end.

(** ** Splitting: the optional results are the [dir] and [name] out-parameters *)

Section split.
Context `{F : FfStr}.

Definition ffpath_splitpath_unix (fn : list Z) : split_res :=
  let slash := ffs_rfindchar fn SLASH in
  if slash <? 0 then (-1, [], fn) else ffs_split fn slash.

Definition ffpath_splitpath_win (fn : list Z) : split_res :=
  let slash := ffs_rfindany fn [SLASH; BSLASH] in
  if slash <? 0 then (-1, [], fn) else ffs_split fn slash.

Definition ffpath_splitpath_str (win : bool) (fn : list Z) : split_res :=
  if win then ffpath_splitpath_win fn else ffpath_splitpath_unix fn.

Definition ffpath_splitname (fn : list Z) : split_res :=
  let dot := ffs_rfindchar fn DOT in
  if dot <=? 0 then (0, fn, []) else ffs_split fn dot.

Definition ffpath_splitname_str (fn : list Z) : split_res := ffpath_splitname fn.
End split.

(** ** [enum FFPATH_NORM] *)

Definition FFPATH_SLASH_ONLY := 1.
Definition FFPATH_SLASH_BACKSLASH := 2.
Definition FFPATH_FORCE_SLASH := 4.
Definition FFPATH_FORCE_BACKSLASH := 8.
Definition FFPATH_SIMPLE := 16.
Definition FFPATH_DISK_LETTER := 32.
Definition FFPATH_NO_DISK_LETTER := 64.

(** ** [ffpath_normalize] *)

Definition norm_slashes (win : bool) (flags : Z) : list Z :=
  if has flags FFPATH_SLASH_BACKSLASH then [SLASH; BSLASH]
  else if win && negb (has flags (Z.lor FFPATH_SLASH_BACKSLASH FFPATH_SLASH_ONLY))
  then [SLASH; BSLASH] else [SLASH].

Definition norm_flags (win : bool) (flags : Z) : Z :=
  if win && negb (has flags (Z.lor FFPATH_DISK_LETTER FFPATH_NO_DISK_LETTER))
  then Z.lor flags FFPATH_DISK_LETTER else flags.

(** The locals of the loop. *)
Record norm_st := NormSt {
  n_dst : list Z;       (* the output buffer *)
  n_k : nat;            (* bytes written *)
  n_s : list Z;         (* the rest of the input *)
  n_simplify : bool;
  n_skip_disk : bool;
}.

Inductive norm_res :=
  | NCont (st : norm_st)              (* next iteration *)
  | NRet (r : Z) (dst : list Z)       (* return *)
  | NFault.                           (* a write out of the buffer *)

Section normalize.
Context `{F : FfStr}.
Variables (slashes : list Z) (flags cap : Z).

Definition is_last_colon (s : list Z) : bool := bool_decide (last s = Some COLON).

(** The body of [if (ffstr_eqcz(&part, ".."))]: [inl k]: continue with the next component,
    [inr k]: go on and write this one at [k]. *)
Definition norm_dotdot (dst : list Z) (k : nat) : nat + nat :=
  if negb (k =? 0)%nat then
    let slash := ffs_rfindany (take (k - 1) dst) slashes in
    if slash <? 0 then
      let prev := take (k - 1) dst in
      if ffstr_eqz prev [DOT] then inr O
      else if ffstr_eqz prev [DOT; DOT] then inr k
      else if (k =? 1)%nat then inl k
      else if has flags FFPATH_DISK_LETTER && is_last_colon prev then inl k
      else inl O
    else
      let slash := S (Z.to_nat slash) in
      let prev := take (k - 1 - slash) (drop slash dst) in
      if ffstr_eqz prev [DOT; DOT] then inr k else inl slash
  else if has flags FFPATH_SIMPLE then inl k
  else inr k.

(** The separator that is written for the source separator [c]. *)
Definition norm_sep (c : Z) : Z :=
  if has flags FFPATH_FORCE_SLASH then SLASH
  else if has flags FFPATH_FORCE_BACKSLASH then BSLASH
  else c.

(** From the capacity check to the end of the loop body. *)
Definition norm_write (st : norm_st) (k : nat) (pos : Z) (part rest : list Z)
    (simplify skip_disk : bool) : norm_res :=
  if cap <? Z.of_nat (k + length part) + b2z (0 <=? pos) then NRet (-1) (n_dst st)
  else match mem_write (n_dst st) k part with
  | None => NFault
  | Some dst =>
      let k := (k + length part)%nat in
      if 0 <=? pos then
        match n_s st !! Z.to_nat pos with
        | None => NFault
        | Some c =>
            match mem_write dst k [norm_sep c] with
            | None => NFault
            | Some dst => NCont (NormSt dst (S k) rest simplify skip_disk)
            end
        end
      else NCont (NormSt dst k rest simplify skip_disk)
  end.

Definition norm_step (st : norm_st) : norm_res :=
  let '(pos, part, rest) := ffstr_splitbyany (n_s st) slashes in
  let cont k simplify skip := NCont (NormSt (n_dst st) k rest simplify skip) in
  let go (skip_disk : bool) :=
    if ffstr_eqz part [DOT; DOT] then
      match norm_dotdot (n_dst st) (n_k st) with
      | inl k => cont k true skip_disk
      | inr k => norm_write st k pos part rest true skip_disk
      end
    else norm_write st (n_k st) pos part rest true skip_disk in
  if n_simplify st then
    if ffstr_eqz part [] || ffstr_eqz part [DOT] then cont (n_k st) true (n_skip_disk st)
    else if n_skip_disk st then
      if is_last_colon part then cont (n_k st) true false else go false
    else go false
  else go (n_skip_disk st).

Fixpoint norm_loop (fuel : nat) (st : norm_st) : option (Z * list Z) :=
  match n_s st with
  | [] => Some (Z.of_nat (n_k st), n_dst st)
  | _ :: _ =>
      match fuel with
      | O => None
      | S fuel' =>
          match norm_step st with
          | NCont st' => norm_loop fuel' st'
          | NRet r dst => Some (r, dst)
          | NFault => None
          end
      end
  end.
End normalize.

(** [dst]: the output buffer.  The result is the returned number and the buffer; [None]: a
    memory error (or lack of fuel), which [normalize_refines] excludes. *)
Definition ffpath_normalize `{F : FfStr} (win : bool) (dst : list Z) (cap : Z)
    (src : list Z) (flags : Z) : option (Z * list Z) :=
  let simplify := has flags FFPATH_SIMPLE in
  let slashes := norm_slashes win flags in
  let flags := norm_flags win flags in
  let ds := Z.lor FFPATH_DISK_LETTER FFPATH_SIMPLE in
  let skip_disk := Z.land flags ds =? ds in
  norm_loop slashes flags cap (length src) (NormSt dst 0 src simplify skip_disk).

(** The bytes written: [dst[0..ret)]; [None] on the error return. *)
Definition norm_out (r : option (Z * list Z)) : option (list Z) :=
  match r with
  | Some (n, dst) => if n <? 0 then None else Some (take (Z.to_nat n) dst)
  | None => None
  end.

(** The tests of the repository, run on the model. *)
Definition norm_test (win : bool) (src : string) (flags : Z) : option (list Z) :=
  norm_out (ffpath_normalize win (repeat 0 32) 32 (bytes_of src) flags).

Example norm_test_1 :
  map (λ p, bool_decide (norm_test false p.1.1 p.1.2 = Some (bytes_of p.2)))
  [("/a/b/", 0, "/a/b/"); ("a//b//", 0, "a/b/"); ("./a/./b", 0, "./a/b");
   ("../../a", 0, "../../a"); ("./a/../../b", 0, "../b"); ("../a/../../b", 0, "../../b");
   ("/a/../../b", 0, "/b"); ("c:/../../b", 0, "../b"); ("c:/../../b", FFPATH_DISK_LETTER, "c:/b");
   ("//a\\b//c", 6, "/a/b/c"); ("a\b/c", 5, "a\b/c"); ("/", FFPATH_SIMPLE, "");
   ("../a/../../b", FFPATH_SIMPLE, "b"); ("c:/a/b", 48, "a/b")]%string
  = repeat true 14.
Proof. vm_compute. reflexivity. Qed.

(** ** Specification: normalisation of a list of components

    A component is its bytes and the separator that follows it, if any. *)
Abbreviation tok := (list Z * option Z)%type.

Definition olist (o : option Z) : list Z := match o with Some c => [c] | None => [] end.
Definition tok_bytes (t : tok) : list Z := t.1 ++ olist t.2.
Definition render (stk : list tok) : list Z := concat (map tok_bytes stk).

(** The components of a path. *)
Fixpoint toks (p : Z → bool) (s : list Z) : list tok :=
  match s with
  | [] => []
  | c :: s' =>
      if p c then ([], Some c) :: toks p s'
      else match toks p s' with
           | [] => [([c], None)]
           | (w, t) :: r => (c :: w, t) :: r
           end
  end.

(** The effect of a ".." component: [inl]: it is consumed, [inr]: it is kept. *)
Definition spec_dotdot (simple disk : bool) (stk : list tok) : list tok + list tok :=
  match last stk with
  | None => if simple then inl [] else inr []
  | Some (w, _) =>
      match removelast stk with
      | [] =>
          if bool_decide (w = [DOT]) then inr []
          else if bool_decide (w = [DOT; DOT]) then inr stk
          else if bool_decide (w = []) then inl stk
          else if disk && bool_decide (last w = Some COLON) then inl stk
          else inl []
      | init => if bool_decide (w = [DOT; DOT]) then inr stk else inl init
      end
  end.

Record nspec_st := NSpec { sp_stk : list tok; sp_simplify : bool; sp_skip : bool }.

(** Append a component, unless it does not fit. *)
Definition spec_push (cap : Z) (t : tok) (stk : list tok) (skip : bool) : option nspec_st :=
  if cap <? Z.of_nat (length (render stk) + length (tok_bytes t))
  then None else Some (NSpec (stk ++ [t]) true skip).

Definition spec_step (simple disk : bool) (conv : Z → Z) (cap : Z) (st : nspec_st) (t : tok)
    : option nspec_st :=
  let '(w, sep) := t in
  let push := spec_push cap (w, conv <$> sep) in
  let go (skip : bool) :=
    if bool_decide (w = [DOT; DOT]) then
      match spec_dotdot simple disk (sp_stk st) with
      | inl stk => Some (NSpec stk true skip)
      | inr stk => push stk skip
      end
    else push (sp_stk st) skip in
  if sp_simplify st then
    if bool_decide (w = []) || bool_decide (w = [DOT]) then Some st
    else if sp_skip st then
      if bool_decide (last w = Some COLON) then Some (NSpec (sp_stk st) true false) else go false
    else go false
  else go (sp_skip st).

Fixpoint spec_fold (simple disk : bool) (conv : Z → Z) (cap : Z) (st : nspec_st) (ts : list tok)
    : option nspec_st :=
  match ts with
  | [] => Some st
  | t :: ts' => spec_step simple disk conv cap st t ≫= λ st', spec_fold simple disk conv cap st' ts'
  end.

(** The specification of [ffpath_normalize]: the bytes it writes, [None] for the error. *)
Definition nspec (win : bool) (flags cap : Z) (src : list Z) : option (list Z) :=
  let flags' := norm_flags win flags in
  let simple := has flags FFPATH_SIMPLE in
  let disk := has flags' FFPATH_DISK_LETTER in
  let st := NSpec [] simple (simple && disk) in
  (λ st', render (sp_stk st')) <$>
    spec_fold simple disk (norm_sep flags') cap st (toks (mem_ch (norm_slashes win flags)) src).

(** The separators that are written are separators that are recognised: false only when
    '\' is forced on a path that is split by '/' alone. *)
Definition sep_closed (win : bool) (flags : Z) : bool :=
  has flags FFPATH_FORCE_SLASH || negb (has flags FFPATH_FORCE_BACKSLASH)
  || bool_decide (norm_slashes win flags = [SLASH; BSLASH]).

(** *** Lemmas on components *)

Lemma toks_split p s : s ≠ [] →
  toks p s = let '(pos, l, r) := split_at s (find_first p s) in
             (l, if pos <? 0 then None else s !! Z.to_nat pos) :: toks p r.
Proof.
  induction s as [|c s IH]; [done|intros _]. simpl toks. simpl find_first.
  destruct (p c) eqn:Hc; [done|].
  destruct s as [|d s']; [done|]. rewrite IH by done.
  destruct (find_first p (d :: s')) as [n|] eqn:Hf; cbn [fmap option_fmap option_map split_at].
  - destruct (Z.ltb_spec (Z.of_nat n) 0); [lia|]. destruct (Z.ltb_spec (Z.of_nat (S n)) 0); [lia|].
    rewrite !Nat2Z.id. done.
  - done.
Qed.

Lemma find_first_take p s n : find_first p s = Some n →
  (n < length s)%nat ∧ Forall (λ c, p c = false) (take n s) ∧ ∃ c, s !! n = Some c ∧ p c = true.
Proof.
  intros Hf. destruct (find_first_spec p s) as [[Hr _]|(i & c & Hr & Hi & Hc & HF)];
    rewrite Hf in Hr; simpl in Hr; [lia|].
  assert (i = n) as -> by lia. split_and!; [by eapply lookup_lt_Some|done|eauto].
Qed.

Lemma find_first_none p s : find_first p s = None → Forall (λ c, p c = false) s.
Proof.
  intros Hf. destruct (find_first_spec p s) as [[_ HF]|(i & c & Hr & _)]; [done|].
  rewrite Hf in Hr. simpl in Hr. lia.
Qed.

(** A component that a further component may follow: no separator inside, one after. *)
Definition tok_ok (p : Z → bool) (t : tok) : Prop :=
  Forall (λ c, p c = false) t.1 ∧ ∃ c, t.2 = Some c ∧ p c = true.

Lemma render_snoc stk t : render (stk ++ [t]) = render stk ++ tok_bytes t.
Proof. unfold render. rewrite map_app. apply concat_snoc. Qed.

Lemma find_last_app p s t : Forall (λ c, p c = false) t → find_last p (s ++ t) = find_last p s.
Proof.
  intros Ht. induction s as [|c s IH]; simpl.
  - induction Ht as [|c t Hc _ IHt]; simpl; [done|]. by rewrite IHt, Hc.
  - by rewrite IH.
Qed.

Lemma find_last_snoc p s c : p c = true → find_last p (s ++ [c]) = Some (length s).
Proof. intros Hc. induction s as [|d s IH]; simpl; [by rewrite Hc|]. by rewrite IH. Qed.

(** Where the last separator of the output before its final one is: the end of [init]. *)
Lemma find_last_render p init w :
  Forall (tok_ok p) init → Forall (λ c, p c = false) w →
  find_last p (render init ++ w) =
    match init with [] => None | _ => Some (length (render init) - 1)%nat end.
Proof.
  intros Hi Hw. rewrite find_last_app by done.
  destruct init as [|t ts] using rev_ind; [done|].
  apply Forall_app in Hi as [_ [[_ (c & Ht & Hc)] _]%Forall_cons].
  rewrite render_snoc. unfold tok_bytes. rewrite Ht, app_assoc.
  replace (render ts ++ t.1 ++ olist (Some c)) with ((render ts ++ t.1) ++ [c])
    by (by rewrite <- app_assoc).
  simpl olist. rewrite find_last_snoc by done.
  rewrite !length_app. simpl. destruct (ts ++ [t]) eqn:E; [by destruct ts|]. f_equal. lia.
Qed.

Lemma last_removelast_snoc {A} (l : list A) x :
  last (l ++ [x]) = Some x ∧ removelast (l ++ [x]) = l.
Proof. split; [apply last_snoc|apply removelast_last]. Qed.

Lemma render_ok_nonempty p init : init ≠ [] → Forall (tok_ok p) init → (0 < length (render init))%nat.
Proof.
  destruct init as [|t ts]; [done|]. intros _ [[_ (c & Hc & _)] _]%Forall_cons.
  unfold render, tok_bytes. simpl. rewrite Hc, !length_app. simpl. lia.
Qed.

Section refine.
Context `{F : FfStr, L : !FfStrLaws F}.
Variables (slashes : list Z) (flags cap : Z).
Abbreviation p := (mem_ch slashes).
Abbreviation simple := (has flags FFPATH_SIMPLE).
Abbreviation disk := (has flags FFPATH_DISK_LETTER).

(** The buffer holds the stack of components. *)
Definition holds (dst : list Z) (k : nat) (stk : list tok) : Prop :=
  k = length (render stk) ∧ take k dst = render stk ∧ (k ≤ length dst)%nat.

Lemma holds_prefix dst k stk post :
  holds dst k (stk ++ post) → holds dst (length (render stk)) stk.
Proof.
  intros (-> & Ht & Hl). unfold render in *. rewrite map_app, concat_app in *.
  rewrite length_app in *. split_and!; [done| |lia].
  rewrite <- (take_take_le dst _ (length (concat (map tok_bytes stk)) +
    length (concat (map tok_bytes post)))%nat) by lia.
  rewrite Ht. by apply take_app_length.
Qed.

Lemma holds_last dst k init w c :
  holds dst k (init ++ [(w, Some c)]) →
  k = S (length (render init) + length w) ∧ take (k - 1) dst = render init ++ w.
Proof.
  intros (Hk & Ht & Hl). rewrite render_snoc in *. unfold tok_bytes in *. simpl in *.
  assert (k = S (length (render init) + length w)) as Hk'
    by (rewrite Hk, !length_app; simpl; lia).
  split; [done|]. rewrite <- (take_take_le dst _ k) by lia. rewrite Ht, app_assoc.
  apply take_app_length'. rewrite length_app. lia.
Qed.

Lemma norm_dotdot_spec dst k stk :
  holds dst k stk → Forall (tok_ok p) stk →
  match norm_dotdot slashes flags dst k, spec_dotdot simple disk stk with
  | inl k', inl stk' | inr k', inr stk' =>
      ∃ post, stk = stk' ++ post ∧ holds dst k' stk'
  | _, _ => False
  end.
Proof.
  intros Hh Hok. destruct stk as [|[w sep] init] using rev_ind.
  { destruct Hh as (-> & ? & ?). unfold norm_dotdot, spec_dotdot. simpl.
    destruct simple; by exists []. }
  apply Forall_app in Hok as [Hinit [[Hw (c & Hs & Hc)] _]%Forall_cons]. simpl in *. subst sep.
  destruct (holds_last _ _ _ _ _ Hh) as [Hk Ht].
  unfold norm_dotdot, spec_dotdot. destruct (last_removelast_snoc init (w, Some c)) as [-> ->].
  destruct (Nat.eqb_spec k 0) as [|_]; [lia|]. simpl negb. cbv iota.
  rewrite rfindany_eq, Ht, find_last_render, !eqz_decide by done.
  destruct init as [|t init'] eqn:Ei.
  - assert (∀ k', holds dst k' [] ↔ k' = O) as H0
      by (intros k'; unfold holds; simpl; split; [by intros (?&?&?)|by intros ->; auto with lia]).
    assert (∃ post, [(w, Some c)] = [] ++ post ∧ holds dst O []) as Hpop by (eexists; by rewrite H0).
    assert (∃ post, [(w, Some c)] = [(w, Some c)] ++ post ∧ holds dst k [(w, Some c)]) as Hkeep
      by (exists []; by rewrite app_nil_r).
    simpl. case_bool_decide; [done|]. case_bool_decide; [done|].
    rewrite Hk. destruct w as [|w0 w']; simpl in Hk |- *; [by rewrite <- Hk|].
    unfold is_last_colon. rewrite <- Hk. by destruct (disk && _).
  - assert (0 < length (render (t :: init')))%nat as Hpos by by eapply render_ok_nonempty.
    clear Ei. cbv iota. set (init2 := t :: init') in *. clearbody init2. simpl idx. destruct (Z.ltb_spec (Z.of_nat (length (render init2) - 1)) 0); [lia|].
    rewrite Nat2Z.id. replace (S (length (render init2) - 1)) with (length (render init2)) by lia.
    rewrite take_drop_commute.
    replace (length (render init2) + (k - 1 - length (render init2)))%nat with (k - 1)%nat by lia.
    rewrite Ht, drop_app_length. case_bool_decide.
    + exists []. by rewrite ?app_nil_r.
    + eexists; split; [done|]. by eapply holds_prefix.
Qed.

Hypothesis closed : ∀ c, p c = true → p (norm_sep flags c) = true.

(** The loop state [st] represents the specification state [sp]. *)
Definition rel (st : norm_st) (sp : nspec_st) : Prop :=
  holds (n_dst st) (n_k st) (sp_stk sp) ∧ n_simplify st = sp_simplify sp ∧
  n_skip_disk st = sp_skip sp ∧ (n_s st = [] ∨ Forall (tok_ok p) (sp_stk sp)) ∧
  cap ≤ Z.of_nat (length (n_dst st)).

(** A step of the loop against the step of the specification. *)
Definition agree (st : norm_st) (rest : list Z) (r : norm_res) (o : option nspec_st) : Prop :=
  match r with
  | NCont st' => ∃ sp', o = Some sp' ∧ rel st' sp' ∧ n_s st' = rest
  | NRet n _ => n = -1 ∧ o = None
  | NFault => False
  end.

Lemma holds_write dst k stk (w : list Z) :
  holds dst k stk → (k + length w ≤ length dst)%nat →
  ∃ dst', mem_write dst k w = Some dst' ∧ length dst' = length dst ∧
    take (k + length w) dst' = render stk ++ w.
Proof.
  intros (Hk & Ht & _) Hl. destruct (mem_write_ok dst k w Hl) as (dst' & -> & Hl' & Ht').
  exists dst'. by rewrite Ht', Ht.
Qed.

Lemma norm_write_spec st k stk skip part rest pos :
  n_s st ≠ [] → split_at (n_s st) (find_first p (n_s st)) = (pos, part, rest) →
  holds (n_dst st) k stk → Forall (tok_ok p) stk → cap ≤ Z.of_nat (length (n_dst st)) →
  agree st rest (norm_write flags cap st k pos part rest true skip)
    (spec_push cap (part, norm_sep flags <$> (if pos <? 0 then None else n_s st !! Z.to_nat pos)) stk skip).
Proof.
  intros Hne Hsp Hh Hok Hcap. pose proof Hh as (Hk & _ & _).
  unfold norm_write, spec_push, tok_bytes. destruct (find_first p (n_s st)) as [n|] eqn:Hf; simpl in Hsp; simplify_eq.
  - destruct (find_first_take _ _ _ Hf) as (Hn & HF & c & Hc & Hpc).
    destruct (Z.ltb_spec (Z.of_nat n) 0); [lia|]. destruct (Z.leb_spec 0 (Z.of_nat n)); [|lia].
    rewrite Nat2Z.id, Hc. simpl.
    rewrite length_app. simpl length.
    match goal with |- context [if ?a <? ?b then NRet _ _ else _] =>
      replace b with (Z.of_nat (length (render stk) + (length (take n (n_s st)) + 1))) by lia end.
    case_match; zify_bools; [done|].
    destruct (holds_write _ _ _ (take n (n_s st)) Hh) as (d1 & -> & Hl1 & Ht1); [lia|].
    destruct (mem_write_ok d1 (length (render stk) + length (take n (n_s st))) [norm_sep flags c])
      as (d2 & -> & Hl2 & Ht2); [simpl; lia|].
    eexists; split_and!; [done| |done]. split_and!; simpl; try done; [| |lia].
    + unfold holds. rewrite render_snoc. unfold tok_bytes; simpl. rewrite !length_app. simpl.
      split_and!; [lia| |lia]. simpl in Ht2. rewrite Nat.add_1_r in Ht2. rewrite Ht2, Ht1. by rewrite <- app_assoc.
    + right. apply Forall_app. split; [done|]. apply Forall_singleton. split; [done|]. eauto.
  - simpl. rewrite !app_nil_r.
    match goal with |- context [if ?a <? ?b then NRet _ _ else _] =>
      replace b with (Z.of_nat (length (render stk) + length (n_s st))) by lia end.
    case_match; zify_bools; [done|].
    destruct (holds_write _ _ _ (n_s st) Hh) as (d1 & -> & Hl1 & Ht1); [lia|].
    eexists; split_and!; [done| |done]. split_and!; simpl; try done; [|by left|lia].
    unfold holds. rewrite render_snoc. unfold tok_bytes; simpl. rewrite app_nil_r, !length_app.
    split_and!; [lia|done|lia].
Qed.

Lemma norm_step_spec st sp part rest pos :
  n_s st ≠ [] → split_at (n_s st) (find_first p (n_s st)) = (pos, part, rest) → rel st sp →
  agree st rest (norm_step slashes flags cap st)
    (spec_step simple disk (norm_sep flags) cap sp
      (part, if pos <? 0 then None else n_s st !! Z.to_nat pos)).
Proof.
  intros Hne Hsp (Hh & Hs & Hd & [?|Hok] & Hcap); [done|].
  unfold norm_step, spec_step. rewrite splitbyany_eq, Hsp, eqz_nil, !eqz_decide, Hs, Hd.
  assert (∀ k stk skip simplify, holds (n_dst st) k stk → Forall (tok_ok p) stk →
    agree st rest (NCont (NormSt (n_dst st) k rest simplify skip)) (Some (NSpec stk simplify skip)))
    as Hcont by (intros; eexists; split; [done|]; split; [|done]; unfold rel; simpl; auto 10).
  pose proof (norm_write_spec st (n_k st) (sp_stk sp)) as Hgo.
  assert (∀ skip, agree st rest
    (if bool_decide (part = [DOT; DOT]) then
      match norm_dotdot slashes flags (n_dst st) (n_k st) with
      | inl k => NCont (NormSt (n_dst st) k rest true skip)
      | inr k => norm_write flags cap st k pos part rest true skip
      end
    else norm_write flags cap st (n_k st) pos part rest true skip)
    (if bool_decide (part = [DOT; DOT]) then
      match spec_dotdot simple disk (sp_stk sp) with
      | inl stk => Some (NSpec stk true skip)
      | inr stk => spec_push cap (part, norm_sep flags <$> (if pos <? 0 then None else n_s st !! Z.to_nat pos)) stk skip
      end
    else spec_push cap (part, norm_sep flags <$> (if pos <? 0 then None else n_s st !! Z.to_nat pos)) (sp_stk sp) skip))
    as Hg.
  { intros skip. case_bool_decide; [|by apply Hgo].
    pose proof (norm_dotdot_spec _ _ _ Hh Hok) as Hdd.
    destruct (norm_dotdot slashes flags (n_dst st) (n_k st)), (spec_dotdot simple disk (sp_stk sp));
      try done; destruct Hdd as (post & Hpost & Hh');
      rewrite Hpost in Hok; apply Forall_app in Hok as [Hok _]; [by apply Hcont|].
    by apply norm_write_spec. }
  unfold is_last_colon.
  destruct (sp_simplify sp) eqn:E1; [|by apply Hg].
  destruct (_ || _); [destruct sp; simpl in *; subst; by apply Hcont|].
  destruct (sp_skip sp); [|by apply Hg].
  destruct (bool_decide (last part = _)); [by apply Hcont|by apply Hg].
Qed.

Lemma norm_loop_spec fuel st sp :
  rel st sp → (length (n_s st) ≤ fuel)%nat →
  ∃ r dst, norm_loop slashes flags cap fuel st = Some (r, dst) ∧
    norm_out (Some (r, dst)) = (λ sp', render (sp_stk sp')) <$>
      spec_fold simple disk (norm_sep flags) cap sp (toks p (n_s st)).
Proof.
  revert st sp. induction fuel as [|fuel IH]; intros st sp Hrel Hfuel.
  - destruct (n_s st) as [|? ?] eqn:Es; simpl in *; [|lia]. destruct Hrel as ((Hk & Ht & _) & _).
    rewrite Es. do 2 eexists; split; [done|].
    simpl. destruct (Z.ltb_spec (Z.of_nat (n_k st)) 0); [lia|]. by rewrite Nat2Z.id, Ht.
  - cbn [norm_loop]. destruct (n_s st) as [|x l] eqn:Es.
    { destruct Hrel as ((Hk & Ht & _) & _). do 2 eexists; split; [done|].
      simpl. destruct (Z.ltb_spec (Z.of_nat (n_k st)) 0); [lia|]. by rewrite Nat2Z.id, Ht. }
    assert (n_s st ≠ []) as Hne by (by rewrite Es).
    rewrite <- Es in *. rewrite toks_split by done.
    destruct (split_at (n_s st) (find_first p (n_s st))) as [[pos part] rest] eqn:Hsp.
    assert (length rest < length (n_s st))%nat as Hlt.
    { destruct (find_first p (n_s st)) eqn:Hf; simpl in Hsp; simplify_eq.
      - apply find_first_take in Hf as [? _]. rewrite length_drop. lia.
      - rewrite Es. simpl. lia. }
    pose proof (norm_step_spec _ _ _ _ _ Hne Hsp Hrel) as Hst. cbn [spec_fold]. unfold agree in Hst.
    destruct (norm_step slashes flags cap st) as [st'|r dst|]; [| |done].
    + destruct Hst as (sp' & -> & Hrel' & Hs'). simpl.
      destruct (IH st' sp' Hrel') as (r & dst & Hl & Ho); [rewrite Hs'; lia|].
      exists r, dst. split; [done|]. etransitivity; [exact Ho|]. by rewrite Hs'.
    + destruct Hst as [-> ->]. by exists (-1), dst.
Qed.
End refine.

(** *** Facts about the flags *)

Lemma has_lor_low flags m m' : Z.land m m' = 0 → has (Z.lor flags m) m' = has flags m'.
Proof. intros H. unfold has. rewrite Z.land_lor_distr_l, H. by rewrite Z.lor_0_r. Qed.

Lemma norm_flags_has win flags m : Z.land FFPATH_DISK_LETTER m = 0 →
  has (norm_flags win flags) m = has flags m.
Proof. intros H. unfold norm_flags. destruct (_ && _); [by apply has_lor_low|done]. Qed.

Lemma land_two_bits flags : 0 ≤ flags →
  (Z.land flags (Z.lor FFPATH_DISK_LETTER FFPATH_SIMPLE) =? Z.lor FFPATH_DISK_LETTER FFPATH_SIMPLE)
  = has flags FFPATH_SIMPLE && has flags FFPATH_DISK_LETTER.
Proof.
  intros Hf. unfold has, FFPATH_DISK_LETTER, FFPATH_SIMPLE.
  change (Z.lor 32 16) with 48.
  assert (Z.land flags 48 = Z.lor (Z.land flags 16) (Z.land flags 32)) as -> by
    (rewrite <- Z.land_lor_distr_r; done).
  assert (∀ n, 0 ≤ n → Z.land flags (2 ^ n) = if Z.testbit flags n then 2 ^ n else 0) as Hb.
  { intros n Hn. apply Z.bits_inj'. intros i Hi. rewrite Z.land_spec, Z.pow2_bits_eqb by done.
    destruct (Z.eqb_spec n i) as [->|Hne].
    - rewrite andb_true_r. destruct (Z.testbit flags i) eqn:E; [by rewrite Z.pow2_bits_true|by rewrite Z.bits_0].
    - rewrite andb_false_r. destruct (Z.testbit flags n); [by rewrite Z.pow2_bits_false|by rewrite Z.bits_0]. }
  change 16 with (2 ^ 4). change 32 with (2 ^ 5). rewrite !Hb by lia.
  by destruct (Z.testbit flags 4), (Z.testbit flags 5).
Qed.

Lemma sep_closed_spec win flags c : sep_closed win flags = true →
  mem_ch (norm_slashes win flags) c = true →
  mem_ch (norm_slashes win flags) (norm_sep (norm_flags win flags) c) = true.
Proof.
  unfold sep_closed, norm_sep. rewrite !norm_flags_has by done. intros Hcl Hc.
  assert (mem_ch (norm_slashes win flags) SLASH = true) as Hs.
  { unfold norm_slashes. by repeat case_match. }
  destruct (has flags FFPATH_FORCE_SLASH); [done|].
  destruct (has flags FFPATH_FORCE_BACKSLASH); [|done].
  simpl in Hcl. apply bool_decide_eq_true in Hcl. by rewrite Hcl.
Qed.

(** *** Well-formed component lists *)

Fixpoint wf (p : Z → bool) (ts : list tok) : Prop :=
  match ts with
  | [] => True
  | t :: ts' =>
      match ts' with
      | [] => Forall (λ c, p c = false) t.1 ∧
              ((t.2 = None ∧ t.1 ≠ []) ∨ ∃ c, t.2 = Some c ∧ p c = true)
      | _ => tok_ok p t ∧ wf p ts'
      end
  end.

Lemma toks_wf p s : wf p (toks p s).
Proof.
  induction s as [|c s IH]; [done|]. simpl. destruct (p c) eqn:Hc.
  - simpl. destruct (toks p s); [split; [done|eauto]|]. split; [split; [done|eauto]|done].
  - destruct (toks p s) as [|[w t] r]; simpl; [split; [by repeat constructor|by left]|].
    destruct r; simpl in *.
    + destruct IH as [HF [[-> _]|Hs]]; (split; [by constructor|auto]).
    + destruct IH as [[HF Hs] Hr]. split; [split; [by constructor|done]|done].
Qed.

Lemma wf_ok p ts : Forall (tok_ok p) ts → wf p ts.
Proof.
  induction 1 as [|t ts Ht Hts IH]; [done|]. destruct ts; [|by split].
  destruct Ht as [? ?]. simpl. auto.
Qed.

Lemma wf_app p ts t : Forall (tok_ok p) ts → wf p [t] → wf p (ts ++ [t]).
Proof.
  induction 1 as [|u ts Hu Hts IH]; [done|]. intros Ht. specialize (IH Ht).
  simpl app. cbn [wf]. destruct (ts ++ [t]) eqn:E; [by destruct ts|]. by split.
Qed.

Lemma render_toks p s : render (toks p s) = s.
Proof.
  induction s as [|c s IH]; [done|]. simpl. destruct (p c).
  - unfold render in *. simpl. by rewrite IH.
  - destruct (toks p s) as [|[w t] r]; unfold render, tok_bytes in *; simpl in *; by rewrite <- IH.
Qed.

Lemma toks_word p w c s :
  Forall (λ c, p c = false) w → p c = true → toks p (w ++ c :: s) = (w, Some c) :: toks p s.
Proof. induction 1 as [|d w Hd _ IH]; intros Hc; simpl; [by rewrite Hc|]. by rewrite Hd, IH. Qed.

Lemma toks_word_end p w : Forall (λ c, p c = false) w → w ≠ [] → toks p w = [(w, None)].
Proof.
  induction 1 as [|d w Hd Hw IH]; [done|intros _]. simpl. rewrite Hd.
  destruct w; [done|]. by rewrite IH.
Qed.

(** Parsing what was rendered. *)
Lemma toks_render p ts : wf p ts → toks p (render ts) = ts.
Proof.
  induction ts as [|[w t] ts IH]; [done|]. intros Hwf.
  unfold render, tok_bytes in *. simpl in *. destruct ts as [|u ts'].
  - destruct Hwf as [HF [[-> Hne]|(c & -> & Hc)]]; simpl.
    + rewrite !app_nil_r. by apply toks_word_end.
    + rewrite app_nil_r. by rewrite toks_word.
  - destruct Hwf as [[HF (c & Ht & Hc)] Hw]. simpl in Ht. subst t. simpl.
    rewrite <- app_assoc. simpl. rewrite toks_word by done. f_equal. by apply IH.
Qed.

(** What a step of the specification does to the stack: drop a suffix, perhaps push. *)
Lemma spec_dotdot_prefix simple disk stk :
  match spec_dotdot simple disk stk with inl s | inr s => ∃ post, stk = s ++ post end.
Proof.
  unfold spec_dotdot. destruct stk as [|[w o] init] using rev_ind; [simpl; destruct simple; by exists []|].
  destruct (last_removelast_snoc init (w, o)) as [-> ->].
  assert (∃ post, [(w, o)] = [] ++ post) by by eexists.
  assert (∃ post, init ++ [(w, o)] = (init ++ [(w, o)]) ++ post) by (exists []; by rewrite app_nil_r).
  clear IHinit. destruct init as [|t init']; [|destruct (bool_decide _); [done|by eexists]].
  by repeat destruct (bool_decide _); destruct disk.
Qed.

Lemma spec_step_shape simple disk conv cap st t st' :
  spec_step simple disk conv cap st t = Some st' →
  ∃ pre post, sp_stk st = pre ++ post ∧
    (sp_stk st' = pre ∨
     sp_stk st' = pre ++ [(t.1, conv <$> t.2)] ∧
     Z.of_nat (length (render (sp_stk st'))) ≤ cap).
Proof.
  destruct t as [w o]. unfold spec_step.
  assert (∀ pre post skip, sp_stk st = pre ++ post →
    spec_push cap (w, conv <$> o) pre skip = Some st' →
    ∃ pre post, sp_stk st = pre ++ post ∧ (sp_stk st' = pre ∨
      sp_stk st' = pre ++ [(w, conv <$> o)] ∧ Z.of_nat (length (render (sp_stk st'))) ≤ cap)) as Hpush.
  { intros pre post skip Hp. unfold spec_push. case_match; [done|]. intros [= <-]. zify_bools.
    exists pre, post. split; [done|]. right. simpl. split; [done|].
    rewrite render_snoc, length_app. lia. }
  assert (∀ pre post s k, sp_stk st = pre ++ post → Some (NSpec pre s k) = Some st' →
    ∃ pre post, sp_stk st = pre ++ post ∧ (sp_stk st' = pre ∨
      sp_stk st' = pre ++ [(w, conv <$> o)] ∧ Z.of_nat (length (render (sp_stk st'))) ≤ cap)) as Hkeep.
  { intros pre post s k Hp [= <-]. exists pre, post. auto. }
  assert (sp_stk st = sp_stk st ++ []) as Hnil by by rewrite app_nil_r.
  pose proof (spec_dotdot_prefix simple disk (sp_stk st)) as Hdd.
  assert (∀ skip, (if bool_decide (w = [DOT; DOT]) then
      match spec_dotdot simple disk (sp_stk st) with
      | inl stk => Some (NSpec stk true skip)
      | inr stk => spec_push cap (w, conv <$> o) stk skip
      end else spec_push cap (w, conv <$> o) (sp_stk st) skip) = Some st' →
    ∃ pre post, sp_stk st = pre ++ post ∧ (sp_stk st' = pre ∨
      sp_stk st' = pre ++ [(w, conv <$> o)] ∧ Z.of_nat (length (render (sp_stk st'))) ≤ cap)) as Hgo.
  { intros skip. destruct (bool_decide _); [|by eapply Hpush].
    destruct (spec_dotdot simple disk (sp_stk st)); destruct Hdd as [post Hpost];
      [by eapply Hkeep|by eapply Hpush]. }
  destruct (sp_simplify st); [|apply Hgo].
  destruct (_ || _); [intros [= <-]; exists (sp_stk st), []; auto|].
  destruct (sp_skip st); [|apply Hgo].
  destruct (bool_decide (last w = _)); [by eapply Hkeep|apply Hgo].
Qed.

(** Induction over the components: an invariant of the stack, kept by dropping a suffix and by
    pushing, holds at the end. *)
Lemma spec_fold_ind (P : list tok → Prop) simple disk conv cap ts :
  (∀ pre post, P (pre ++ post) → P pre) →
  ∀ st st', (∀ stk t, t ∈ ts → P stk → P (stk ++ [(t.1, conv <$> t.2)])) →
  P (sp_stk st) → spec_fold simple disk conv cap st ts = Some st' → P (sp_stk st').
Proof.
  intros Hdrop. induction ts as [|t ts IH]; intros st st' Hpush HP; simpl; [by intros [= <-]|].
  destruct (spec_step _ _ _ _ st t) as [st1|] eqn:Hst; [|done]. simpl. apply IH.
  - intros stk u Hu. apply Hpush. by right.
  - destruct (spec_step_shape _ _ _ _ _ _ _ Hst) as (pre & post & Heq & [->|[-> _]]);
      rewrite Heq in HP; [by eapply Hdrop|]. apply Hpush; [by left|by eapply Hdrop].
Qed.

Lemma spec_fold_app simple disk conv cap ts ts' st :
  spec_fold simple disk conv cap st (ts ++ ts') =
  spec_fold simple disk conv cap st ts ≫= λ st', spec_fold simple disk conv cap st' ts'.
Proof. revert st. induction ts as [|t ts IH]; intros st; cbn [spec_fold app]; [done|].
  destruct (spec_step _ _ _ _ _ _) as [st'|]; [apply IH|done].
Qed.

Lemma wf_snoc_inv p ts t : wf p (ts ++ [t]) → Forall (tok_ok p) ts ∧ wf p [t].
Proof.
  induction ts as [|u ts IH]; [by split|]. simpl app. cbn [wf].
  destruct (ts ++ [t]) eqn:E; [by destruct ts|]. intros [Hu Hw]. destruct (IH Hw). auto.
Qed.

Lemma tok_ok_conv p conv w o :
  (∀ c, p c = true → p (conv c) = true) → tok_ok p (w, o) → tok_ok p (w, conv <$> o).
Proof. intros Hc [HF (c & Ho & Hpc)]. simpl in *. subst o. split; [done|]. simpl. eauto. Qed.

(** The stack at the end is well formed. *)
Lemma spec_fold_wf p simple disk conv cap ts st st' :
  (∀ c, p c = true → p (conv c) = true) →
  Forall (tok_ok p) (sp_stk st) → wf p ts →
  spec_fold simple disk conv cap st ts = Some st' → wf p (sp_stk st').
Proof.
  intros Hconv Hst Hwf. destruct ts as [|t ts _] using rev_ind.
  { simpl. intros [= <-]. by apply wf_ok. }
  apply wf_snoc_inv in Hwf as [Hts Ht]. rewrite spec_fold_app.
  destruct (spec_fold _ _ _ _ st ts) as [st1|] eqn:H1; [|done]. simpl.
  destruct (spec_step _ _ _ _ st1 t) as [st2|] eqn:H2; [|done]. simpl. intros [= <-].
  assert (Forall (tok_ok p) (sp_stk st1)) as Hok.
  { revert H1. apply spec_fold_ind; [|intros stk [w o] Hin Hs|done].
    - intros pre post HP. by apply Forall_app in HP as [? _].
    - apply Forall_app. split; [done|]. apply Forall_singleton.
      apply tok_ok_conv; [done|]. rewrite Forall_forall in Hts. by apply Hts. }
  destruct (spec_step_shape _ _ _ _ _ _ _ H2) as (pre & post & Heq & Hs).
  rewrite Heq in Hok. apply Forall_app in Hok as [Hpre _].
  destruct Hs as [->|[-> _]]; [by apply wf_ok|]. apply wf_app; [done|].
  destruct t as [w o]. destruct Ht as [HF [[Ho Hne]|(c & Ho & Hc)]]; simpl in *; subst o; simpl; split;
    [done|by left|done|right; eauto].
Qed.

(** *** Normal forms: no empty or "." component but the first, ".." only in front *)

Definition names_ok (t : tok) : Prop := t.1 ≠ [] ∧ t.1 ≠ [DOT].

Definition nf (stk : list tok) : Prop :=
  ∀ i t, stk !! i = Some t →
    ((0 < i)%nat → names_ok t) ∧
    (t.1 = [DOT; DOT] → ∀ j u, (j < i)%nat → stk !! j = Some u → u.1 = [DOT; DOT]).

Lemma nf_prefix pre post : nf (pre ++ post) → nf pre.
Proof.
  intros H i t Hi. destruct (H i t) as [H1 H2]; [by apply lookup_app_l_Some|].
  split; [done|]. intros Ht j u Hj Hu. eapply H2; eauto. by apply lookup_app_l_Some.
Qed.

Lemma nf_snoc stk t : nf stk → (stk ≠ [] → names_ok t) →
  (t.1 = [DOT; DOT] → ∀ w, last stk = Some w → w.1 = [DOT; DOT]) → nf (stk ++ [t]).
Proof.
  intros H Hn Hd i u Hi. apply lookup_snoc_Some in Hi as [[Hlt Hi]|[-> ->]].
  - destruct (H i u Hi) as [H1 H2]. split; [done|]. intros Hu j v Hj Hv.
    eapply (H2 Hu); [done|]. rewrite lookup_app_l in Hv; [done|lia].
  - split; [intros Hl; apply Hn; intros ->; simpl in Hl; lia|]. intros Ht j v Hj Hv.
    rewrite lookup_app_l in Hv by done. specialize (Hd Ht). rewrite last_lookup in Hd.
    destruct (stk !! pred (length stk)) as [w|] eqn:Hw;
      [|apply lookup_ge_None in Hw; destruct stk; simpl in *; lia].
    specialize (Hd _ eq_refl). destruct (decide (j = pred (length stk))) as [->|]; [congruence|].
    destruct (H _ _ Hw) as [_ H2]. eapply (H2 Hd); [|done]. lia.
Qed.

Lemma spec_dotdot_keep simple disk stk stk' :
  spec_dotdot simple disk stk = inr stk' → ∀ t, last stk' = Some t → t.1 = [DOT; DOT].
Proof.
  unfold spec_dotdot. destruct (last stk) as [[w o]|] eqn:Hl.
  - destruct (removelast stk).
    + destruct (bool_decide (w = [DOT])); [by intros [= <-]|].
      destruct (bool_decide (w = [DOT; DOT])) eqn:Hw.
      * intros [= <-] t Ht. rewrite Hl in Ht. simplify_eq. by apply bool_decide_eq_true in Hw.
      * destruct (bool_decide (w = [])); [done|]. by destruct (disk && bool_decide (last w = Some COLON)).
    + destruct (bool_decide (w = [DOT; DOT])) eqn:Hw; [|done].
      intros [= <-] t Ht. rewrite Hl in Ht. simplify_eq. by apply bool_decide_eq_true in Hw.
  - destruct simple; [done|]. by intros [= <-].
Qed.

Lemma spec_step_nf simple disk conv cap st t st' :
  (sp_simplify st = false → sp_stk st = []) → nf (sp_stk st) →
  spec_step simple disk conv cap st t = Some st' →
  nf (sp_stk st') ∧ sp_simplify st' = true.
Proof.
  destruct t as [w o]. intros Hs Hnf. unfold spec_step.
  assert (∀ stk skip, nf stk → (stk ≠ [] → names_ok (w, o)) →
    (w = [DOT; DOT] → ∀ t, last stk = Some t → t.1 = [DOT; DOT]) →
    spec_push cap (w, conv <$> o) stk skip = Some st' → nf (sp_stk st') ∧ sp_simplify st' = true) as Hpush.
  { intros stk skip Hn Hne Hd. unfold spec_push. case_match; [done|]. intros [= <-]. simpl.
    split; [|done]. by apply nf_snoc. }
  pose proof (spec_dotdot_prefix simple disk (sp_stk st)) as Hdd.
  pose proof (spec_dotdot_keep simple disk (sp_stk st)) as Hkp.
  assert (∀ skip, (sp_stk st ≠ [] → names_ok (w, o)) →
    (if bool_decide (w = [DOT; DOT]) then
      match spec_dotdot simple disk (sp_stk st) with
      | inl stk => Some (NSpec stk true skip)
      | inr stk => spec_push cap (w, conv <$> o) stk skip
      end else spec_push cap (w, conv <$> o) (sp_stk st) skip) = Some st' →
    nf (sp_stk st') ∧ sp_simplify st' = true) as Hgo.
  { intros skip Hno. case_bool_decide as Hw; [|by apply Hpush].
    destruct (spec_dotdot simple disk (sp_stk st)) as [stk|stk]; destruct Hdd as [post Hpost];
      rewrite Hpost in Hnf; apply nf_prefix in Hnf.
    - intros [= <-]. by split.
    - apply Hpush; [done| |by intros _; apply Hkp]. intros Hne. apply Hno. rewrite Hpost. by destruct stk. }
  destruct (sp_simplify st) eqn:Es; [|apply Hgo; by rewrite Hs].
  destruct (_ || _) eqn:Eo; [intros [= <-]; by rewrite Es|].
  apply orb_false_iff in Eo as [E1%bool_decide_eq_false E2%bool_decide_eq_false].
  destruct (sp_skip st); [|by apply Hgo].
  destruct (bool_decide (last w = _)); [intros [= <-]; by split|by apply Hgo].
Qed.

Lemma spec_fold_nf simple disk conv cap ts st st' :
  (sp_simplify st = false → sp_stk st = []) → nf (sp_stk st) →
  spec_fold simple disk conv cap st ts = Some st' → nf (sp_stk st').
Proof.
  revert st. induction ts as [|t ts IH]; intros st Hs Hnf; simpl; [by intros [= <-]|].
  destruct (spec_step _ _ _ _ st t) as [st1|] eqn:H1; [|done]. simpl.
  destruct (spec_step_nf _ _ _ _ _ _ _ Hs Hnf H1) as [Hnf1 Hs1]. apply IH; [by rewrite Hs1|done].
Qed.

(** The simple form: no empty, "." or ".." component at all. *)
Definition plain (t : tok) : Prop := t.1 ≠ [] ∧ t.1 ≠ [DOT] ∧ t.1 ≠ [DOT; DOT].

Lemma spec_step_plain disk conv cap st t st' :
  sp_simplify st = true → Forall plain (sp_stk st) →
  spec_step true disk conv cap st t = Some st' →
  sp_simplify st' = true ∧ Forall plain (sp_stk st').
Proof.
  destruct t as [w o]. intros Hs HP. unfold spec_step. rewrite Hs.
  destruct (_ || _) eqn:Eo; [by intros [= <-]|].
  apply orb_false_iff in Eo as [E1%bool_decide_eq_false E2%bool_decide_eq_false].
  assert (∀ skip, (if bool_decide (w = [DOT; DOT]) then
      match spec_dotdot true disk (sp_stk st) with
      | inl stk => Some (NSpec stk true skip)
      | inr stk => spec_push cap (w, conv <$> o) stk skip
      end else spec_push cap (w, conv <$> o) (sp_stk st) skip) = Some st' →
    sp_simplify st' = true ∧ Forall plain (sp_stk st')) as Hgo.
  { intros skip. pose proof (spec_dotdot_prefix true disk (sp_stk st)) as Hdd. case_bool_decide as Hw.
    - destruct (spec_dotdot true disk (sp_stk st)) as [stk|stk] eqn:Ed; destruct Hdd as [post Hp].
      { intros [= <-]. simpl. rewrite Hp in HP. by apply Forall_app in HP as [? _]. }
      exfalso. unfold spec_dotdot in Ed. destruct (last (sp_stk st)) as [[v o']|] eqn:Hl; [|done].
      apply last_Some in Hl as [l Hl]. rewrite Hl in HP.
      apply Forall_app in HP as [_ [(H1 & H2 & H3) _]%Forall_cons]. simpl in *.
      revert Ed. destruct (removelast (sp_stk st));
        rewrite ?(bool_decide_eq_false_2 (v = [DOT])), ?(bool_decide_eq_false_2 (v = [DOT; DOT])),
          ?(bool_decide_eq_false_2 (v = [])) by done; [|done].
      by destruct (disk && bool_decide (last v = Some COLON)).
    - unfold spec_push. destruct (cap <? _); [done|]. intros [= <-]. simpl. split; [done|].
      apply Forall_app. split; [done|]. by apply Forall_singleton. }
  destruct (sp_skip st); [|apply Hgo].
  destruct (bool_decide (last w = _)); [by intros [= <-]|apply Hgo].
Qed.

Lemma spec_fold_plain disk conv cap ts st st' :
  sp_simplify st = true → Forall plain (sp_stk st) →
  spec_fold true disk conv cap st ts = Some st' → Forall plain (sp_stk st').
Proof.
  revert st. induction ts as [|t ts IH]; intros st Hs HP; cbn [spec_fold]; [by intros [= <-]|].
  destruct (spec_step _ _ _ _ st t) as [st1|] eqn:H1; [|done]. simpl.
  destruct (spec_step_plain _ _ _ _ _ _ Hs HP H1). by apply IH.
Qed.

(** *** Capacity: a step adds at most its component to the output *)

Lemma spec_step_fits simple disk conv cap st t :
  Z.of_nat (length (render (sp_stk st)) + length (tok_bytes t)) ≤ cap →
  ∃ st', spec_step simple disk conv cap st t = Some st' ∧
    (length (render (sp_stk st')) ≤ length (render (sp_stk st)) + length (tok_bytes t))%nat.
Proof.
  destruct t as [w o]. intros Hcap. unfold spec_step.
  assert (∀ stk post skip, sp_stk st = stk ++ post → ∃ st',
    spec_push cap (w, conv <$> o) stk skip = Some st' ∧
    (length (render (sp_stk st')) ≤ length (render (sp_stk st)) + length (tok_bytes (w, o)))%nat) as Hpush.
  { intros stk post skip Hp. unfold spec_push.
    assert (length (tok_bytes (w, conv <$> o)) = length (tok_bytes (w, o))) as Hlen
      by (unfold tok_bytes; rewrite !length_app; by destruct o).
    assert (length (render stk) ≤ length (render (sp_stk st)))%nat as Hle
      by (rewrite Hp; unfold render; rewrite map_app, concat_app, length_app; lia).
    case_match; zify_bools; [lia|]. eexists; split; [done|]. simpl. rewrite render_snoc, length_app. lia. }
  assert (∀ stk post s k, sp_stk st = stk ++ post → ∃ st', Some (NSpec stk s k) = Some st' ∧
    (length (render (sp_stk st')) ≤ length (render (sp_stk st)) + length (tok_bytes (w, o)))%nat) as Hkeep.
  { intros stk post s k ->. eexists; split; [done|]. unfold render. rewrite map_app, concat_app, length_app. simpl. lia. }
  assert (sp_stk st = sp_stk st ++ []) as Hnil by by rewrite app_nil_r.
  pose proof (spec_dotdot_prefix simple disk (sp_stk st)) as Hdd.
  assert (∀ skip, ∃ st', (if bool_decide (w = [DOT; DOT]) then
      match spec_dotdot simple disk (sp_stk st) with
      | inl stk => Some (NSpec stk true skip)
      | inr stk => spec_push cap (w, conv <$> o) stk skip
      end else spec_push cap (w, conv <$> o) (sp_stk st) skip) = Some st' ∧
    (length (render (sp_stk st')) ≤ length (render (sp_stk st)) + length (tok_bytes (w, o)))%nat) as Hgo.
  { intros skip. destruct (bool_decide _); [|by eapply Hpush].
    destruct (spec_dotdot simple disk (sp_stk st)); destruct Hdd as [post Hpost];
      [by eapply Hkeep|by eapply Hpush]. }
  destruct (sp_simplify st); [|apply Hgo].
  destruct (_ || _); [exists st; split; [done|lia]|].
  destruct (sp_skip st); [|apply Hgo].
  destruct (bool_decide (last w = _)); [by eapply Hkeep|apply Hgo].
Qed.

Lemma spec_fold_fits simple disk conv cap ts st :
  Z.of_nat (length (render (sp_stk st)) + length (render ts)) ≤ cap →
  ∃ st', spec_fold simple disk conv cap st ts = Some st' ∧
    (length (render (sp_stk st')) ≤ length (render (sp_stk st)) + length (render ts))%nat.
Proof.
  revert st. induction ts as [|t ts IH]; intros st Hcap; cbn [spec_fold].
  { exists st. split; [done|lia]. }
  unfold render in Hcap. simpl in Hcap. fold (render ts) in Hcap. rewrite length_app in Hcap.
  fold (render (sp_stk st)) in Hcap.
  destruct (spec_step_fits simple disk conv cap st t) as (st1 & -> & Hl); [lia|]. simpl.
  destruct (IH st1) as (st2 & -> & Hl2); [lia|]. exists st2. split; [done|].
  unfold render at 3. simpl. rewrite length_app. fold (render ts). lia.
Qed.

(** *** A normal form is a fixed point of the specification *)

Lemma spec_fold_fixed simple disk conv cap pre ts b :
  nf (pre ++ ts) → (simple = true → Forall plain (pre ++ ts)) →
  Forall (λ t, conv <$> t.2 = t.2) ts → (pre ≠ [] → b = true) → (b = true → pre = [] → simple = true) →
  Z.of_nat (length (render (pre ++ ts))) ≤ cap →
  ∃ st', spec_fold simple disk conv cap (NSpec pre b false) ts = Some st' ∧ sp_stk st' = pre ++ ts.
Proof.
  revert pre b. induction ts as [|[w o] ts IH]; intros pre b Hnf Hpl Hcv Hb Hsb Hcap; cbn [spec_fold].
  { rewrite app_nil_r. eauto. }
  apply Forall_cons in Hcv as [Hc Hcv]. simpl in Hc.
  assert ((pre ++ (w, o) :: ts) = (pre ++ [(w, o)]) ++ ts) as Heq by (by rewrite <- app_assoc).
  destruct (Hnf (length pre) (w, o)) as [Hno Hdd]; [by apply list_lookup_middle|]. simpl in Hno, Hdd.
  assert (spec_push cap (w, conv <$> o) pre false = Some (NSpec (pre ++ [(w, o)]) true false)) as Hpush.
  { unfold spec_push. rewrite Hc. rewrite Heq in Hcap. unfold render in Hcap.
    rewrite map_app, concat_app, length_app in Hcap. fold (render (pre ++ [(w, o)])) in Hcap.
    rewrite render_snoc, length_app in Hcap. case_match; zify_bools; [lia|done]. }
  assert (spec_step simple disk conv cap (NSpec pre b false) (w, o) =
    Some (NSpec (pre ++ [(w, o)]) true false)) as ->.
  { assert (w = [DOT; DOT] → spec_dotdot simple disk pre = inr pre) as Hd.
    { intros ->. assert (simple = false) as Hs.
      { destruct simple; [|done]. specialize (Hpl eq_refl). apply Forall_app in Hpl as [_ [(_&_&?) _]%Forall_cons]. done. }
      unfold spec_dotdot. destruct (last pre) as [[v o']|] eqn:Hl.
      - apply last_Some in Hl as [l ->]. rewrite removelast_last.
        assert (v = [DOT; DOT]) as ->.
        { change v with ((v, o').1). eapply (Hdd eq_refl (length l)).
          + rewrite length_app. simpl. lia.
          + rewrite lookup_app_l by (rewrite length_app; simpl; lia). by apply list_lookup_middle. }
        destruct l; [|done]. done.
      - apply last_None in Hl as ->. by rewrite Hs. }
    unfold spec_step. simpl.
    destruct b eqn:Eb.
    - assert (w ≠ [] ∧ w ≠ [DOT]) as [Hw1 Hw2].
      { destruct pre; [|apply Hno; simpl; lia]. specialize (Hpl (Hsb eq_refl eq_refl)).
        apply Forall_app in Hpl as [_ [(?&?&?) _]%Forall_cons]. done. }
      rewrite (bool_decide_eq_false_2 (w = [])), (bool_decide_eq_false_2 (w = [DOT])) by done. simpl.
      case_bool_decide; [|done]. by rewrite Hd.
    - case_bool_decide; [|done]. by rewrite Hd. }
  simpl. rewrite Heq. apply IH; try done; try (by rewrite <- Heq). intros _ Hn. by destruct pre.
Qed.

(** ** Theorems *)

Section theorems.
Context `{F : FfStr, L : !FfStrLaws F}.

Lemma normalize_loop win flags cap dst src :
  0 ≤ flags → sep_closed win flags = true → cap ≤ Z.of_nat (length dst) →
  ∃ r dst', ffpath_normalize win dst cap src flags = Some (r, dst') ∧
    norm_out (Some (r, dst')) = nspec win flags cap src.
Proof.
  intros Hf Hcl Hcap. unfold ffpath_normalize, nspec.
  assert (0 ≤ norm_flags win flags) as Hf'.
  { unfold norm_flags. destruct (_ && _); [|done]. by apply Z.lor_nonneg. }
  rewrite (land_two_bits _ Hf').
  rewrite <- (norm_flags_has win flags FFPATH_SIMPLE) by done.
  destruct (norm_loop_spec (norm_slashes win flags) (norm_flags win flags) cap
    (λ c, sep_closed_spec win flags c Hcl) (length src)
    (NormSt dst 0 src (has (norm_flags win flags) FFPATH_SIMPLE)
      (has (norm_flags win flags) FFPATH_SIMPLE && has (norm_flags win flags) FFPATH_DISK_LETTER))
    (NSpec [] (has (norm_flags win flags) FFPATH_SIMPLE)
      (has (norm_flags win flags) FFPATH_SIMPLE && has (norm_flags win flags) FFPATH_DISK_LETTER)))
    as (r & dst' & H1 & H2); [|done|by eauto].
  unfold rel, holds. simpl. split_and!; auto with lia.
Qed.

(** C1: [ffpath_normalize] never accesses memory outside of its buffers and always terminates;
    the bytes it writes, and its error returns, are exactly those of the component-stack
    specification [nspec], on every path, capacity and flag set whose written separators
    are recognised as separators. *)
Theorem normalize_refines win flags cap dst src
  (Hf : 0 ≤ flags) (Hcl : sep_closed win flags = true) (Hcap : cap ≤ Z.of_nat (length dst)) :
  ∃ r dst', ffpath_normalize win dst cap src flags = Some (r, dst') ∧
    norm_out (ffpath_normalize win dst cap src flags) = nspec win flags cap src.
Proof.
  destruct (normalize_loop win flags cap dst src) as (r & dst' & H1 & H2); try done.
  exists r, dst'. by rewrite H1.
Qed.

Lemma nspec_out_fold win flags cap src out : nspec win flags cap src = Some out →
  ∃ st, out = render (sp_stk st) ∧
    spec_fold (has flags FFPATH_SIMPLE) (has (norm_flags win flags) FFPATH_DISK_LETTER)
      (norm_sep (norm_flags win flags)) cap
      (NSpec [] (has flags FFPATH_SIMPLE)
        (has flags FFPATH_SIMPLE && has (norm_flags win flags) FFPATH_DISK_LETTER))
      (toks (mem_ch (norm_slashes win flags)) src) = Some st.
Proof. unfold nspec. destruct (spec_fold _ _ _ _ _ _) as [st|]; [|done]. intros [= <-]. eauto. Qed.

Lemma nspec_toks win flags cap src out : sep_closed win flags = true →
  nspec win flags cap src = Some out →
  ∃ st, toks (mem_ch (norm_slashes win flags)) out = sp_stk st ∧
    out = render (sp_stk st) ∧
    spec_fold (has flags FFPATH_SIMPLE) (has (norm_flags win flags) FFPATH_DISK_LETTER)
      (norm_sep (norm_flags win flags)) cap
      (NSpec [] (has flags FFPATH_SIMPLE)
        (has flags FFPATH_SIMPLE && has (norm_flags win flags) FFPATH_DISK_LETTER))
      (toks (mem_ch (norm_slashes win flags)) src) = Some st.
Proof.
  intros Hcl H. destruct (nspec_out_fold _ _ _ _ _ H) as (st & -> & Hst). exists st.
  split_and!; [|done|done]. apply toks_render.
  revert Hst. apply spec_fold_wf; [intros c; by apply sep_closed_spec|by apply Forall_nil|apply toks_wf].
Qed.

(** C2: with [FFPATH_SIMPLE], whatever the input, no component of the result is empty, "." or
    "..": the result is a relative path that cannot leave the directory it is appended to. *)
Theorem normalize_simple_safe win flags cap dst src out
  (Hf : 0 ≤ flags) (Hcl : sep_closed win flags = true) (Hcap : cap ≤ Z.of_nat (length dst))
  (Hs : has flags FFPATH_SIMPLE = true)
  (Hout : norm_out (ffpath_normalize win dst cap src flags) = Some out) :
  Forall plain (toks (mem_ch (norm_slashes win flags)) out).
Proof.
  destruct (normalize_loop win flags cap dst src) as (r & dst' & H1 & H2); try done.
  rewrite H1, H2 in Hout. destruct (nspec_toks _ _ _ _ _ Hcl Hout) as (st & -> & _ & Hst).
  rewrite Hs in Hst. by eapply spec_fold_plain in Hst.
Qed.

(** C38: a buffer as long as the input is always enough, and the result is never longer. *)
Theorem normalize_fits win flags cap dst src
  (Hf : 0 ≤ flags) (Hcl : sep_closed win flags = true) (Hcap : cap ≤ Z.of_nat (length dst))
  (Hlen : Z.of_nat (length src) ≤ cap) :
  ∃ out, norm_out (ffpath_normalize win dst cap src flags) = Some out ∧
    (length out ≤ length src)%nat.
Proof.
  destruct (normalize_loop win flags cap dst src) as (r & dst' & -> & ->); try done.
  unfold nspec. edestruct spec_fold_fits as (st & -> & Hl).
  { rewrite render_toks. simpl. exact Hlen. }
  eexists; split; [done|]. by rewrite render_toks in Hl.
Qed.

Lemma norm_sep_idem flags c : norm_sep flags (norm_sep flags c) = norm_sep flags c.
Proof. unfold norm_sep. by repeat destruct (has _ _). Qed.

(** normalisation is idempotent: a normalised path is left as it is (unless the
    simple form may strip one more drive letter). *)
Theorem normalize_idempotent win flags cap dst src out cap2 dst2
  (Hf : 0 ≤ flags) (Hcl : sep_closed win flags = true) (Hcap : cap ≤ Z.of_nat (length dst))
  (Hd : has flags FFPATH_SIMPLE && has (norm_flags win flags) FFPATH_DISK_LETTER = false)
  (Hout : norm_out (ffpath_normalize win dst cap src flags) = Some out)
  (Hcap2 : Z.of_nat (length out) ≤ cap2 ≤ Z.of_nat (length dst2)) :
  norm_out (ffpath_normalize win dst2 cap2 out flags) = Some out.
Proof.
  destruct (normalize_loop win flags cap dst src) as (r & dst' & H1 & H2); try done.
  rewrite H1, H2 in Hout. clear H1 H2.
  destruct (normalize_loop win flags cap2 dst2 out) as (r2 & dst2' & -> & ->); try done; [lia|].
  destruct (nspec_toks _ _ _ _ _ Hcl Hout) as (st & Ht & Ho & Hst). unfold nspec.
  rewrite Ht, Hd. rewrite Hd in Hst.
  destruct (spec_fold_fixed (has flags FFPATH_SIMPLE) (has (norm_flags win flags) FFPATH_DISK_LETTER)
    (norm_sep (norm_flags win flags)) cap2 [] (sp_stk st) (has flags FFPATH_SIMPLE)) as (st' & -> & Heq).
  - simpl. by eapply spec_fold_nf in Hst.
  - intros Hs. rewrite Hs in Hst. by eapply spec_fold_plain in Hst.
  - revert Hst. apply spec_fold_ind; [by intros pre post [? _]%Forall_app| |done].
    intros stk [w o] _ HF. apply Forall_app. split; [done|]. apply Forall_singleton. simpl.
    destruct o; simpl; [|done]. by rewrite norm_sep_idem.
  - done.
  - by intros ->.
  - rewrite app_nil_l, <- Ho. lia.
  - rewrite app_nil_l in Heq. cbn [fmap option_fmap option_map]. by rewrite Heq, <- Ho.
Qed.
End theorems.

Lemma normalize_refines_witness : ∃ r dst',
  ffpath_normalize false (repeat 0 32) 32 (bytes_of "a/../b") 0 = Some (r, dst') ∧
  norm_out (ffpath_normalize false (repeat 0 32) 32 (bytes_of "a/../b") 0) =
    nspec false 0 32 (bytes_of "a/../b").
Proof. apply (normalize_refines false 0 32 (repeat 0 32) (bytes_of "a/../b")); vm_compute; congruence. Defined.

Lemma normalize_simple_safe_witness :
  Forall plain (toks (mem_ch (norm_slashes false FFPATH_SIMPLE)) (bytes_of "etc/passwd")).
Proof.
  apply (normalize_simple_safe false FFPATH_SIMPLE 32 (repeat 0 32) (bytes_of "/../etc/./passwd"));
    vm_compute; congruence.
Defined.

Lemma normalize_fits_witness : ∃ out,
  norm_out (ffpath_normalize true (repeat 0 8) 8 (bytes_of "c:/../a") 0) = Some out ∧ (length out ≤ 7)%nat.
Proof. apply (normalize_fits true 0 8 (repeat 0 8) (bytes_of "c:/../a")); vm_compute; congruence. Defined.

Lemma normalize_idempotent_witness :
  norm_out (ffpath_normalize false (repeat 0 32) 32 (bytes_of "../b") 0) = Some (bytes_of "../b").
Proof.
  apply (normalize_idempotent false 0 32 (repeat 0 32) (bytes_of "./a/../../b")); vm_compute;
    try split; congruence.
Defined.

(** forcing '\' on a path that is split by '/' only (the default on UNIX) loses components:
    the separators already written are not recognised when ".." looks for the previous one, so
    "a/b/../c" becomes "c" where the specification gives "a\c". *)
Theorem normalize_force_backslash :
  norm_test false "a/b/../c" FFPATH_FORCE_BACKSLASH = Some (bytes_of "c") ∧
  nspec false FFPATH_FORCE_BACKSLASH 32 (bytes_of "a/b/../c") = Some (bytes_of "a\c").
Proof. split; vm_compute; reflexivity. Qed.
