(* ===== verification/Time.v ===== *)
(** * FFOS/time.h: time stamps and their conversions

    An [fftime] is a signed 64-bit number of seconds and an unsigned 32-bit number of
    nanoseconds.  Unsigned results wrap at their width; a signed product that would overflow has
    no defined value in C, the theorems keep it in range. *)
From S2P Require Import Prelude Prog Unix.

Record fftime := FfTime { t_sec : Z; t_nsec : Z }.

Record fftime_zone := FfZone { tz_off : Z; tz_have_dst : Z; tz_is_dst : Z; tz_real_offset : Z }.

Definition fftime_empty (t : fftime) : bool := (t_sec t =? 0) && (t_nsec t =? 0).
Definition fftime_null : fftime := FfTime 0 0.

Definition fftime_sec (t : fftime) : Z := t_sec t.
Definition fftime_msec (t : fftime) : Z := t_nsec t / 1000000.
Definition fftime_usec (t : fftime) : Z := t_nsec t / 1000.
Definition fftime_nsec (t : fftime) : Z := t_nsec t.

Definition fftime_setsec (t : fftime) (s : Z) : fftime := FfTime s (t_nsec t).
Definition fftime_setmsec (t : fftime) (ms : Z) : fftime := FfTime (t_sec t) (u32 (ms * 1000000)).
Definition fftime_setusec (t : fftime) (us : Z) : fftime := FfTime (t_sec t) (u32 (us * 1000)).
Definition fftime_setnsec (t : fftime) (ns : Z) : fftime := FfTime (t_sec t) ns.

Definition fftime_to_msec (t : fftime) : Z := u64 (t_sec t * 1000 + t_nsec t / 1000000).
Definition fftime_to_usec (t : fftime) : Z := u64 (t_sec t * 1000000 + t_nsec t / 1000).

Definition fftime_from_time_t (tt : Z) : fftime := FfTime tt 0.
Definition fftime_to_time_t (t : fftime) : Z := t_sec t.

Definition fftime_from_timeval (tv : timeval) : fftime :=
  FfTime (tvv_sec tv) (u32 (u32 (tvv_usec tv) * 1000)).
Definition fftime_to_timeval (t : fftime) : timeval := TimeVal (t_sec t) (t_nsec t / 1000).

Definition fftime_from_timespec (ts : timespec) : fftime := FfTime (tv_sec ts) (u32 (tv_nsec ts)).
Definition fftime_to_timespec (t : fftime) : timespec := TimeSpec (t_sec t) (t_nsec t).

(** Windows FILETIME: 100-ns intervals, in two 32-bit halves. *)
Record fftime_winftime := WinFTime { ft_lo : Z; ft_hi : Z }.

Definition FFTIME_100NS : Z := 116444736000000000.

Definition fftime_from_winftime (ft : fftime_winftime) : fftime :=
  let i := Z.lor (Z.shiftl (ft_hi ft) 32) (ft_lo ft) in
  if FFTIME_100NS <? i then
    let i := i - FFTIME_100NS in
    FfTime (i / (1000000 * 10)) (i mod (1000000 * 10) * 100)
  else FfTime 0 0.

Definition fftime_to_winftime (t : fftime) : fftime_winftime :=
  let d := u64 (t_sec t * 1000000 * 10 + t_nsec t / 100 + FFTIME_100NS) in
  WinFTime (u32 d) (u32 (Z.shiftr d 32)).

(** The clock and the time zone (UNIX). *)
Definition CLOCK_REALTIME := 0.
Definition CLOCK_MONOTONIC := 1.

Definition fftime_now_unix : prog unixE fftime :=
  let! r := u_clock_gettime CLOCK_REALTIME in
  (* ts is zeroed before the call; a failure leaves it so *)
  Ret (fftime_from_timespec (if r.1 =? 0 then r.2 else TimeSpec 0 0)).

Definition fftime_local_unix (linux : bool) : prog unixE fftime_zone :=
  let! gt := u_time in
  let* off_dst :=
    (if linux then let! tz := u_tzset in Ret (s32 (- tz.1), tz.2)
     else do! u_tzset in let! t := u_localtime_r gt in Ret (s32 (tm_gmtoff t), 0)) in
  let! t := u_gmtime_r gt in
  let! lt := u_mktime (Tm (tm_fields t) (-1) (tm_gmtoff t)) in
  Ret (FfZone off_dst.1 off_dst.2 (tm_isdst lt.2) (s32 (gt - lt.1))).

(** ** Theorems *)

(** A normalised time stamp that FILETIME and the products can represent. *)
Definition time_ok (t : fftime) : Prop := 0 ≤ t_sec t < 2 ^ 39 ∧ 0 ≤ t_nsec t < 1000000000.

Lemma from_winftime_value ft : is_u32 (ft_lo ft) → 0 ≤ ft_hi ft →
  Z.lor (Z.shiftl (ft_hi ft) 32) (ft_lo ft) = ft_hi ft * 2 ^ 32 + ft_lo ft.
Proof. unfold is_u32. intros Hlo Hhi. rewrite lor_shiftl_add by dlia. done. Qed.

(** a time stamp converted to FILETIME and back loses only what is below 100 ns; a FILETIME
    after 1970 converted and back is unchanged. *)
Theorem winftime_roundtrip :
  (∀ t, time_ok t →
    fftime_from_winftime (fftime_to_winftime t) = FfTime (t_sec t) (t_nsec t / 100 * 100)) ∧
  (∀ ft, is_u32 (ft_lo ft) → is_u32 (ft_hi ft) → FFTIME_100NS < ft_hi ft * 2 ^ 32 + ft_lo ft →
    fftime_to_winftime (fftime_from_winftime ft) = ft).
Proof.
  split.
  - intros [s n] [Hs Hn]. unfold fftime_to_winftime, fftime_from_winftime.
    cbn [t_sec t_nsec ft_lo ft_hi] in *.
    pose proof (eq_refl : FFTIME_100NS = 116444736000000000) as HC.
    generalize dependent FFTIME_100NS. intros C HC.
    remember (s * 1000000 * 10 + n / 100 + C) as d eqn:Ed.
    assert (0 ≤ d < 2 ^ 64) as Hd by dlia.
    rewrite u64_small by exact Hd. rewrite Z.shiftr_div_pow2 by done.
    assert (is_u32 (d / 2 ^ 32)) as Hh by (unfold is_u32; dlia).
    rewrite (lor_shiftl_add _ _ 32) by (try apply u32_range; done).
    rewrite (u32_small (d / 2 ^ 32)) by exact Hh.
    unfold u32, uwrap. rewrite (Z.mul_comm (d / 2 ^ 32)), <- Z.div_mod by done.
    change (1000000 * 10) with 10000000. clear Hh.
    destruct (Z.ltb_spec C d) as [Hlt|Hge]; f_equal; dlia.
  - intros [lo hi] Hlo Hhi Hgt. unfold fftime_from_winftime.
    rewrite from_winftime_value by (cbn [ft_lo ft_hi] in *; unfold is_u32 in *; dlia).
    cbn [ft_lo ft_hi] in *.
    pose proof (eq_refl : FFTIME_100NS = 116444736000000000) as HC.
    unfold fftime_to_winftime. generalize dependent FFTIME_100NS. intros C Hgt HC.
    destruct (Z.ltb_spec C (hi * 2 ^ 32 + lo)); [|dlia].
    cbn [t_sec t_nsec]. change (1000000 * 10) with 10000000. rewrite Z.div_mul by done.
    remember (hi * 2 ^ 32 + lo) as i eqn:Ei.
    replace ((i - C) / 10000000 * 1000000 * 10 + (i - C) mod 10000000 + C) with i by dlia.
    unfold is_u32 in *. rewrite u64_small by (unfold is_u64; dlia).
    rewrite Z.shiftr_div_pow2 by done. clear HC H Hgt.
    f_equal; unfold u32, uwrap; subst i.
    + rewrite Z.add_comm, Z.mod_add, Z.mod_small; dlia.
    + rewrite Z.add_comm, Z.div_add, Z.div_small by dlia. apply Z.mod_small. dlia.
Qed.

(** the millisecond and microsecond counts of a time stamp agree with each other and with
    its exact value, and are monotonic. *)
Theorem msec_usec_exact t t' (H : time_ok t) (H' : time_ok t') :
  fftime_to_usec t / 1000 = fftime_to_msec t ∧
  fftime_to_usec t = (t_sec t * 1000000000 + t_nsec t) / 1000 ∧
  (t_sec t * 1000000000 + t_nsec t ≤ t_sec t' * 1000000000 + t_nsec t' →
   fftime_to_msec t ≤ fftime_to_msec t' ∧ fftime_to_usec t ≤ fftime_to_usec t').
Proof.
  destruct H as [Hs Hn], H' as [Hs' Hn']. unfold fftime_to_usec, fftime_to_msec.
  rewrite !u64_small by (unfold is_u64; dlia). split_and!; [dlia|dlia|]. intros. split; dlia.
Qed.

Lemma msec_usec_exact_witness :
  fftime_to_usec (FfTime 1600000000 123456789) / 1000 = fftime_to_msec (FfTime 1600000000 123456789).
Proof.
  apply (msec_usec_exact (FfTime 1600000000 123456789) (FfTime 1 0)); split; simpl; dlia.
Defined.

(** Conversions from and to the other UNIX time types. *)
Lemma timespec_roundtrip t : is_u32 (t_nsec t) → fftime_from_timespec (fftime_to_timespec t) = t.
Proof. destruct t as [s n]. unfold fftime_from_timespec. simpl. intros. by rewrite u32_small. Qed.

Lemma timeval_roundtrip t : time_ok t →
  fftime_from_timeval (fftime_to_timeval t) = FfTime (t_sec t) (t_nsec t / 1000 * 1000).
Proof.
  destruct t as [s n]. intros [Hs Hn]. simpl in *. unfold fftime_from_timeval. simpl.
  by rewrite (u32_small (n / 1000)), u32_small by (unfold is_u32; dlia).
Qed.
