(* ===== verification/Perf.v ===== *)
(** * FFOS/perf.h: performance counters of a process or a thread *)
From S2P Require Import Prelude Prog Ffbase Unix Win Time.

Definition FFPS_PERF_REALTIME := 1.
Definition FFPS_PERF_CPUTIME := 2.
Definition FFPS_PERF_SEPTIME := 4.
Definition FFPS_PERF_RUSAGE := Z.lor FFPS_PERF_SEPTIME 8.

Record ffps_perf := Perf {
  p_realtime : fftime; p_cputime : fftime; p_usertime : fftime; p_systime : fftime;
  p_pagefaults : Z; p_maxrss : Z; p_inblock : Z; p_outblock : Z; p_vctxsw : Z; p_ivctxsw : Z }.

Definition set_realtime (p : ffps_perf) (t : fftime) : ffps_perf :=
  Perf t (p_cputime p) (p_usertime p) (p_systime p) (p_pagefaults p) (p_maxrss p) (p_inblock p) (p_outblock p) (p_vctxsw p) (p_ivctxsw p).
Definition set_cputime (p : ffps_perf) (t : fftime) : ffps_perf :=
  Perf (p_realtime p) t (p_usertime p) (p_systime p) (p_pagefaults p) (p_maxrss p) (p_inblock p) (p_outblock p) (p_vctxsw p) (p_ivctxsw p).
Definition set_septime (p : ffps_perf) (usr sys : fftime) : ffps_perf :=
  Perf (p_realtime p) (p_cputime p) usr sys (p_pagefaults p) (p_maxrss p) (p_inblock p) (p_outblock p) (p_vctxsw p) (p_ivctxsw p).
Definition set_usage (p : ffps_perf) (faults rss inb outb v iv : Z) : ffps_perf :=
  Perf (p_realtime p) (p_cputime p) (p_usertime p) (p_systime p) faults rss inb outb v iv.

(** Sums and differences of time stamps (ffbase). *)
Class FfTimeOps := { fftime_add : fftime → fftime → fftime; fftime_sub : fftime → fftime → fftime }.

(** ** UNIX *)

Definition RUSAGE_SELF := 0.
Definition RUSAGE_THREAD := 1.
Definition CLOCK_PROCESS_CPUTIME_ID := 2.
Definition CLOCK_THREAD_CPUTIME_ID := 3.

Definition fftime_monotonic : prog unixE fftime :=
  let! '(r, ts) := u_clock_gettime CLOCK_MONOTONIC in
  Ret (if r =? 0 then fftime_from_timespec ts else FfTime 0 0).

Definition _ffps_perf (who : Z) (p : ffps_perf) (flags : Z) : prog unixE (Z * ffps_perf) :=
  let* '(rc, p) :=
    if has flags FFPS_PERF_REALTIME then
      let! '(r, ts) := u_clock_gettime CLOCK_MONOTONIC in
      Ret (r, if r =? 0 then set_realtime p (fftime_from_timespec ts) else p)
    else Ret (0, p) in
  let* '(rc, p) :=
    if has flags FFPS_PERF_RUSAGE then
      let! '(r, u) := u_getrusage who in
      Ret (Z.lor rc r,
        if r =? 0 then
          set_usage (set_septime p (fftime_from_timeval (ru_utime u)) (fftime_from_timeval (ru_stime u)))
            (u32 (ru_minflt u + ru_majflt u)) (u32 (ru_maxrss u)) (u32 (ru_inblock u)) (u32 (ru_oublock u))
            (u32 (ru_nvcsw u)) (u32 (ru_nivcsw u))
        else p)
    else Ret (rc, p) in
  if has flags FFPS_PERF_CPUTIME then
    let c := if who =? RUSAGE_SELF then CLOCK_PROCESS_CPUTIME_ID else CLOCK_THREAD_CPUTIME_ID in
    let! '(r, ts) := u_clock_gettime c in
    Ret (Z.lor rc r, if r =? 0 then set_cputime p (fftime_from_timespec ts) else p)
  else Ret (rc, p).

Definition ffps_perf_unix (p : ffps_perf) (flags : Z) : prog unixE (Z * ffps_perf) := _ffps_perf RUSAGE_SELF p flags.
Definition ffthread_perf_unix (os : unix_os) (p : ffps_perf) (flags : Z) : prog unixE (Z * ffps_perf) :=
  match os with
  | Apple =>
      let* '(r, p) := _ffps_perf (RUSAGE_SELF + 1) p (Z.land flags (Z.lnot FFPS_PERF_RUSAGE)) in
      if (r =? 0) && has flags FFPS_PERF_RUSAGE then fail ENOSYS (-1, p) else Ret (r, p)
  | _ => _ffps_perf RUSAGE_THREAD p flags
  end.

(** ** Both systems *)

Section arith.
Context `{FfTimeOps}.

Definition ffps_perf_diff (start stop : ffps_perf) : ffps_perf :=
  Perf (fftime_sub (p_realtime stop) (p_realtime start)) (fftime_sub (p_cputime stop) (p_cputime start))
    (fftime_sub (p_usertime stop) (p_usertime start)) (fftime_sub (p_systime stop) (p_systime start))
    (u32 (p_pagefaults stop - p_pagefaults start)) (u32 (p_maxrss stop - p_maxrss start))
    (u32 (p_inblock stop - p_inblock start)) (u32 (p_outblock stop - p_outblock start))
    (u32 (p_vctxsw stop - p_vctxsw start)) (u32 (p_ivctxsw stop - p_ivctxsw start)).
Definition ffps_perf_add (dst src : ffps_perf) : ffps_perf :=
  Perf (fftime_add (p_realtime dst) (p_realtime src)) (fftime_add (p_cputime dst) (p_cputime src))
    (fftime_add (p_usertime dst) (p_usertime src)) (fftime_add (p_systime dst) (p_systime src))
    (u32 (p_pagefaults dst + p_pagefaults src)) (u32 (p_maxrss dst + p_maxrss src))
    (u32 (p_inblock dst + p_inblock src)) (u32 (p_outblock dst + p_outblock src))
    (u32 (p_vctxsw dst + p_vctxsw src)) (u32 (p_ivctxsw dst + p_ivctxsw src)).
End arith.

(** ** Windows *)

(** An entry of the process list (winternl.h), with its threads: identifier, context switches. *)
Record psinfo := PsInfo { NextEntryOffset : Z; UniqueProcessId : Z; threads : list (Z * Z) }.
(** The layout of the list: the entry at an offset, if it lies within the data; its size; rounding up
    (ffbase). *)
Class NtLayout := {
  nt_entry : list Z → Z → option psinfo;
  sizeof_SYSTEM_PROCESS_INFORMATION : Z;
  ffint_align_ceil2 : Z → Z → Z;
}.
Definition sizeof_SYSTEM_THREAD_INFORMATION := 80.
Definition STATUS_INFO_LENGTH_MISMATCH := s32 3221225476.

(** [_ff_NtQuerySystemInformation], [_ff_GetProcessMemoryInfo] (0: not loaded), [_fftime_perffreq]. *)
Record perf_globals := PerfGlobals { g_ntquery : Z; g_meminfo : Z; g_freq : Z }.

Section win.
Context `{NtLayout, FfTimeOps}.

(** A function of a library that is loaded when it is first needed. *)
Definition load_proc (lib proc : list Z) (cur : Z) : prog winE Z :=
  if negb (cur =? 0) then Ret cur else
  let! dl := LoadLibraryExW lib 0 in
  if dl =? 0 then Ret 0 else call (GetProcAddress dl proc).

(** At most [n] attempts: status, size, the block (0: NULL) and its contents. *)
Fixpoint query_loop (n : nat) (cap : Z) : prog winE (Z * Z * (Z * list Z)) :=
  let! data := w_alloc cap in
  if data =? 0 then Ret (-1, 0, (0, [])) else
  let! '(r, (sz, bytes)) := NtQuerySystemInformation cap in
  if negb (r =? STATUS_INFO_LENGTH_MISMATCH) then Ret (r, sz, (data, bytes)) else
  do! w_free data in
  match n with
  | O | 1%nat => Ret (r, sz, (0, []))
  | S n => query_loop n (u32 (ffint_align_ceil2 sz 4096))
  end.

Definition _ffps_info_get (g : perf_globals) : prog winE (option (Z * list Z) * perf_globals) :=
  let cap := u32 (50 * (sizeof_SYSTEM_PROCESS_INFORMATION + 10 * sizeof_SYSTEM_THREAD_INFORMATION)) in
  let* f := load_proc (bytes_of "ntdll.dll") (bytes_of "NtQuerySystemInformation") (g_ntquery g) in
  let g := PerfGlobals f (g_meminfo g) (g_freq g) in
  if f =? 0 then Ret (None, g) else
  let* '(r, n, (data, bytes)) := query_loop 2 cap in
  if negb (r =? 0) || (n <? sizeof_SYSTEM_PROCESS_INFORMATION)
  then do! w_free data in Ret (None, g)
  else Ret (Some (data, bytes), g).

Definition _ffps_info_next (off : Z) (pi : psinfo) : option Z :=
  if NextEntryOffset pi =? 0 then None else Some (off + NextEntryOffset pi).

(** The entry of a process; [Ret None]: it is not in the list. *)
Definition find_step (data : list Z) (pid off : Z) : prog winE (Z + option psinfo) :=
  match nt_entry data off with
  | None => Halt OutOfBounds
  | Some pi =>
      if UniqueProcessId pi =? pid then Ret (inr (Some pi)) else
      match _ffps_info_next off pi with Some off => Ret (inl off) | None => Ret (inr None) end
  end.

(** [p->vctxsw] after the threads of a process. *)
Definition add_switches (l : list (Z * Z)) (v : Z) : Z := foldl (λ v t, u32 (v + t.2)) v l.
(** [p->vctxsw] after the first thread with an identifier. *)
Fixpoint add_thread (tid : Z) (l : list (Z * Z)) (v : Z) : Z :=
  match l with [] => v | t :: l => if t.1 =? tid then u32 (v + t.2) else add_thread tid l v end.

(** The context switches of this process, or of one of its threads. *)
Definition count_switches (fuel : nat) (thread : bool) (g : perf_globals) (v : Z) : prog winE (bool * Z * perf_globals) :=
  let* '(data, g) := _ffps_info_get g in
  match data with
  | None => Ret (false, v, g)
  | Some (blk, data) =>
      let! pid := GetCurrentProcessId in
      let* tid := if thread then let! t := GetCurrentThreadId in Ret (Some t) else Ret None in
      let* pi := loop fuel (find_step data pid) 0 in
      let v := match pi, tid with
               | Some pi, None => add_switches (threads pi) v
               | Some pi, Some tid => add_thread tid (threads pi) v
               | None, _ => v
               end in
      do! w_free blk in Ret (true, v, g)
  end.

Definition _fftime_from_filetime (ft : filetime) : fftime :=
  let n := Z.lor (Z.shiftl (dwHigh ft) 32) (dwLow ft) in
  FfTime (n / (1000000 * 10)) (u32 (n mod (1000000 * 10) * 100)).

Definition fftime_monotonic_win (g : perf_globals) : prog winE (fftime * perf_globals) :=
  let* freq := if g_freq g =? 0 then call QueryPerformanceFrequency else Ret (g_freq g) in
  let! val := QueryPerformanceCounter in
  if freq =? 0 then Halt Exited else      (* the division traps; the frequency is never 0 *)
  (* the arithmetic of LONGLONG *)
  Ret (FfTime (s64 (Z.quot val freq)) (u32 (s64 (Z.quot (s64 (Z.rem val freq * 1000000000)) freq))),
       PerfGlobals (g_ntquery g) (g_meminfo g) freq).

(** Times and switches are read in the same way for a process and for a thread. *)
Definition perf_times (e : winE (bool * (filetime * filetime))) (p : ffps_perf) (flags rc : Z) : prog winE (Z * ffps_perf) :=
  if has flags (Z.lor FFPS_PERF_SEPTIME FFPS_PERF_CPUTIME) then
    let! '(r, (kern, usr)) := e in
    Ret (Z.lor rc (b2z (negb r)),
      if r : bool then
        let p := set_septime p (_fftime_from_filetime usr) (_fftime_from_filetime kern) in
        if has flags FFPS_PERF_CPUTIME then set_cputime p (fftime_add (p_systime p) (p_usertime p)) else p
      else p)
  else Ret (rc, p).

Definition ffps_perf_win (fuel : nat) (g : perf_globals) (p : ffps_perf) (flags : Z) : prog winE (Z * ffps_perf * perf_globals) :=
  do! GetCurrentProcess in
  let* '(p, g) := if has flags FFPS_PERF_REALTIME
                  then let* '(t, g) := fftime_monotonic_win g in Ret (set_realtime p t, g) else Ret (p, g) in
  let* '(rc, p) := perf_times GetProcessTimes p flags 0 in
  let* '(rc, p, g) :=
    if has flags FFPS_PERF_RUSAGE then
      let! '(r, (rd, wr)) := GetProcessIoCounters in
      let p := if r : bool then set_usage p (p_pagefaults p) (p_maxrss p) (u32 rd) (u32 wr) (p_vctxsw p) (p_ivctxsw p) else p in
      let rc := Z.lor rc (b2z (negb r)) in
      let* f := load_proc (bytes_of "psapi.dll") (bytes_of "GetProcessMemoryInfo") (g_meminfo g) in
      let g := PerfGlobals (g_ntquery g) f (g_freq g) in
      let* '(r, p) := if f =? 0 then Ret (r, p) else
                      let! '(r, (faults, peak)) := GetProcessMemoryInfo in
                      Ret (r, if r : bool then set_usage p (u32 faults) (u32 (peak / 1024)) (p_inblock p) (p_outblock p) (p_vctxsw p) (p_ivctxsw p) else p) in
      let rc := Z.lor rc (b2z (negb r)) in
      let* '(ok, v, g) := count_switches fuel false g (p_vctxsw p) in
      Ret (if ok : bool then rc else Z.lor rc 1,
           set_usage p (p_pagefaults p) (p_maxrss p) (p_inblock p) (p_outblock p) v (p_ivctxsw p), g)
    else Ret (rc, p, g) in
  Ret (rc, set_usage p (p_pagefaults p) (p_maxrss p) (p_inblock p) (p_outblock p) (p_vctxsw p) 0, g).

Definition ffthread_perf_win (fuel : nat) (g : perf_globals) (p : ffps_perf) (flags : Z) : prog winE (Z * ffps_perf * perf_globals) :=
  let* '(p, g) := if has flags FFPS_PERF_REALTIME
                  then let* '(t, g) := fftime_monotonic_win g in Ret (set_realtime p t, g) else Ret (p, g) in
  let* '(rc, p) := perf_times GetThreadTimes p flags 0 in
  let* '(rc, p, g) :=
    if has flags FFPS_PERF_RUSAGE then
      let* '(ok, v, g) := count_switches fuel true g (p_vctxsw p) in
      Ret (if ok : bool then rc else Z.lor rc 1,
           set_usage p (p_pagefaults p) (p_maxrss p) (p_inblock p) (p_outblock p) v (p_ivctxsw p), g)
    else Ret (rc, p, g) in
  Ret (rc, set_usage p (p_pagefaults p) 0 0 0 (p_vctxsw p) 0, g).
End win.

(** ** Properties *)

(** *** Sums and differences *)

Definition time_normal (t : fftime) : Prop := 0 ≤ t_nsec t < 1000000000.
Definition time_ns (t : fftime) : Z := t_sec t * 1000000000 + t_nsec t.
Lemma time_ns_inj t t' : time_normal t → time_normal t' → time_ns t = time_ns t' → t = t'.
Proof. unfold time_normal, time_ns. destruct t, t'. cbn. intros. f_equal; lia. Qed.

(** Exact and normal on normal times (whose seconds do not overflow). *)
Class FfTimeLaws (T : FfTimeOps) : Prop := {
  time_add_law a b : time_normal a → time_normal b → Z.abs (t_sec a) < 2 ^ 61 → Z.abs (t_sec b) < 2 ^ 61 →
    time_normal (fftime_add a b) ∧ time_ns (fftime_add a b) = time_ns a + time_ns b;
  time_sub_law a b : time_normal a → time_normal b → Z.abs (t_sec a) < 2 ^ 62 → Z.abs (t_sec b) < 2 ^ 62 →
    time_normal (fftime_sub a b) ∧ time_ns (fftime_sub a b) = time_ns a - time_ns b;
}.

Definition time_fits (t : fftime) : Prop := time_normal t ∧ Z.abs (t_sec t) < 2 ^ 60.
Definition perf_fits (p : ffps_perf) : Prop :=
  Forall time_fits [p_realtime p; p_cputime p; p_usertime p; p_systime p] ∧
  Forall is_u32 [p_pagefaults p; p_maxrss p; p_inblock p; p_outblock p; p_vctxsw p; p_ivctxsw p].

Section arith_laws.
Context `{T : FfTimeOps, !FfTimeLaws T}.

Lemma time_sub_add a b : time_fits a → time_fits b → fftime_sub (fftime_add a b) a = b.
Proof.
  intros [Ha Sa] [Hb Sb]. destruct (time_add_law a b) as [Hn He]; [done|done|lia|lia|].
  assert (Z.abs (t_sec (fftime_add a b)) < 2 ^ 62) as Hs by (unfold time_normal, time_ns in *; lia).
  destruct (time_sub_law (fftime_add a b) a) as [Hn' He']; [done|done|lia|lia|].
  apply time_ns_inj; [done|done|]. lia.
Qed.

Lemma counter_sub_add a b : is_u32 b → u32 (u32 (a + b) - a) = b.
Proof.
  intros Hb. unfold u32, uwrap. rewrite Zminus_mod_idemp_l. replace (a + b - a) with b by lia. by apply Z.mod_small.
Qed.

(** the difference between a sum of counters and its first summand is the second one, for every counter,
    although the 32-bit counters wrap around in between. *)
Theorem perf_diff_add p d : perf_fits p → perf_fits d → ffps_perf_diff p (ffps_perf_add p d) = d.
Proof.
  destruct p, d. unfold perf_fits, ffps_perf_diff, ffps_perf_add. cbn. rewrite !Forall_cons.
  intros [(? & ? & ? & ? & _) (? & ? & ? & ? & ? & ? & _)] [(? & ? & ? & ? & _) (? & ? & ? & ? & ? & ? & _)].
  f_equal; first [by apply time_sub_add|by apply counter_sub_add].
Qed.
End arith_laws.

(** *** The monotonic clock of Windows *)

(** The state counts the queries of the frequency. *)
Definition clock_env (freq val : Z) : env winE nat := λ n X e,
  match e in winE X return X → nat → Prop with
  | QueryPerformanceFrequency => λ r n', r = freq ∧ n' = S n
  | QueryPerformanceCounter => λ r n', r = val ∧ n' = n
  | _ => λ _ n', n' = n
  end.

(** C39: with the arithmetic of signed 64-bit integers, which wraps around, and for any frequency up to 9 * 10^9 per
    second: the time is the exact quotient of the counter and its frequency, rounded down to a nanosecond, and
    normal; the frequency is asked for when it is not known yet, and remembered. *)
Theorem monotonic_exact g freq val n :
  0 < freq ≤ 9000000000 → 0 ≤ val < 2 ^ 63 → g_freq g = 0 ∨ g_freq g = freq →
  wp (clock_env freq val) (fftime_monotonic_win g) (λ '(t, g') n', time_normal t ∧ time_ns t = val * 1000000000 / freq ∧
    g' = PerfGlobals (g_ntquery g) (g_meminfo g) freq ∧ n' = if g_freq g =? 0 then S n else n) never n.
Proof.
  intros Hf Hv Hg. unfold fftime_monotonic_win. apply wp_bind.
  eapply (wp_mono _ _ (λ f n', f = freq ∧ n' = if g_freq g =? 0 then S n else n) _ never); [| |done].
  { destruct Hg as [-> | ->]; cbn; [by intros f ? [-> ->]|]. by rewrite (proj2 (Z.eqb_neq freq 0)) by lia. }
  intros f n1 [-> Hn]. cbn -[Z.mul]. intros v n2 [-> ->]. rewrite (proj2 (Z.eqb_neq freq 0)) by lia. cbn -[Z.mul].
  unfold time_normal, time_ns. cbn [t_sec t_nsec].
  rewrite (Z.rem_mod_nonneg val freq), (Z.quot_div_nonneg val freq) by lia.
  pose proof (Z.mod_pos_bound val freq ltac:(lia)) as Hm. set (m := val mod freq) in *.
  rewrite (s64_small (m * 1000000000)) by (unfold is_s64; lia). rewrite (Z.quot_div_nonneg (m * 1000000000) freq) by lia.
  assert (0 ≤ m * 1000000000 / freq < 1000000000) as Hq.
  { split; [apply Z.div_pos; lia|]. apply Z.div_lt_upper_bound; lia. }
  assert (0 ≤ val / freq ≤ val) as Hd by (split; [apply Z.div_pos; lia|apply Z.div_le_upper_bound; nia]).
  rewrite !s64_small by (unfold is_s64; lia). rewrite u32_small by (unfold is_u32; lia). split_and!; [lia|lia| |done|done].
  rewrite (Z.div_mod val freq) at 2 by lia. fold m.
  replace ((freq * (val / freq) + m) * 1000000000) with (m * 1000000000 + val / freq * 1000000000 * freq) by lia.
  rewrite Z.div_add by lia. lia.
Qed.

Lemma monotonic_exact_witness :
  wp (clock_env 10000000 9000000000123456789) (fftime_monotonic_win (PerfGlobals 0 0 0))
    (λ '(t, _) n, time_ns t = 900000000012345678900 ∧ n = 1%nat) never 0%nat.
Proof.
  eapply wp_mono; [apply (monotonic_exact (PerfGlobals 0 0 0) 10000000 9000000000123456789); [lia|lia|by left]| |done].
  intros [t g'] n (_ & H & _ & Hn). exact (conj H Hn).
Defined.

(** *** Context switches on Windows *)

(** The list of processes in the data, from an offset on. *)
Inductive ps_list `{NtLayout} (data : list Z) : Z → list psinfo → Prop :=
  | ps_last off pi : nt_entry data off = Some pi → NextEntryOffset pi = 0 → ps_list data off [pi]
  | ps_next off pi l : nt_entry data off = Some pi → NextEntryOffset pi ≠ 0 →
      ps_list data (off + NextEntryOffset pi) l → ps_list data off (pi :: l).

(** A system with this list: the call fails, or asks for a larger block, or delivers the list. *)
Definition ps_env (data : list Z) (pid tid : Z) : env winE (gset Z) := λ m X e,
  match e in winE X return X → gset Z → Prop with
  | w_alloc _ => λ r m', (r = 0 ∧ m' = m) ∨ (0 < r ∧ (r ∉ m) ∧ m' = {[r]} ∪ m)
  | w_free p => λ _ m', m' = if p =? 0 then m else m ∖ {[p]}
  | NtQuerySystemInformation cap => λ '(r, (sz, d)) m', m' = m ∧
      (r = 0 → d = data ∧ Z.of_nat (length data) ≤ cap)
  | GetCurrentProcessId => λ r m', m' = m ∧ r = pid
  | GetCurrentThreadId => λ r m', m' = m ∧ r = tid
  | _ => λ _ m', m' = m
  end.

Section switches.
Context `{L : NtLayout, T : FfTimeOps} (data : list Z) (pid tid : Z).

Lemma query_loop_wp n : ∀ cap m, wp (ps_env data pid tid) (query_loop (S n) cap) (λ '(r, sz, (blk, bytes)) m',
  ((blk = 0 ∧ m' = m ∧ r ≠ 0) ∨ (0 < blk ∧ (blk ∉ m) ∧ m' = {[blk]} ∪ m)) ∧ (r = 0 → bytes = data)) never m.
Proof using Type.
  induction n as [|n IH]; intros cap m; cbn -[query_loop STATUS_INFO_LENGTH_MISMATCH];
    unfold query_loop; fold query_loop; cbn -[query_loop STATUS_INFO_LENGTH_MISMATCH];
    intros p m1 [[-> ->]|(Hp & Hni & ->)];
    [cbn; split; [by left|done]| |cbn; split; [by left|done]|];
    rewrite (proj2 (Z.eqb_neq p 0)) by lia; cbn -[query_loop STATUS_INFO_LENGTH_MISMATCH];
    intros [r [sz d]] m2 [-> Hd]; (destruct (Z.eqb_spec r STATUS_INFO_LENGTH_MISMATCH) as [->|Hr];
      cbn -[query_loop STATUS_INFO_LENGTH_MISMATCH]; [|split; [by right|naive_solver]]);
    intros [] m3 ->; rewrite (proj2 (Z.eqb_neq p 0)) by lia;
    assert ((({[p]} ∪ m) ∖ {[p]}) = m) as -> by (clear -Hni; set_solver).
  - cbn. split; [by left|done].
  - apply IH.
Qed.

Lemma load_proc_wp lib proc cur m : wp (ps_env data pid tid) (load_proc lib proc cur) (λ _ m', m' = m) never m.
Proof using Type.
  unfold load_proc. destruct (negb _); [done|]. cbn. intros dl m1 ->. destruct (dl =? 0); [done|]. cbn. by intros f m2 ->.
Qed.

Lemma info_get_wp g m : wp (ps_env data pid tid) (_ffps_info_get g) (λ '(r, _) m',
  match r with
  | None => m' = m
  | Some (blk, d) => d = data ∧ 0 < blk ∧ (blk ∉ m) ∧ m' = {[blk]} ∪ m
  end) never m.
Proof using Type.
  unfold _ffps_info_get. apply wp_bind. eapply wp_mono; [apply load_proc_wp| |done]. intros f m1 ->.
  destruct (f =? 0); [done|]. apply wp_bind. eapply wp_mono; [apply query_loop_wp| |done].
  intros [[r sz] [blk d]] m2 [Hm Hd]. destruct (negb (r =? 0) || _) eqn:E.
  - cbn. intros [] m3 ->. destruct Hm as [(-> & -> & _)|(Hp & Hni & ->)]; [done|].
    rewrite (proj2 (Z.eqb_neq blk 0)) by lia. clear -Hni. set_solver.
  - apply orb_false_iff in E as [E _]. apply negb_false_iff, Z.eqb_eq in E. cbn.
    destruct Hm as [(_ & _ & ?)|(? & ? & ?)]; [done|]. auto.
Qed.

(** The first process with the identifier. *)
Definition own_process (l : list psinfo) : option psinfo := snd <$> list_find (λ pi, UniqueProcessId pi = pid) l.

Lemma find_loop_wp l : ∀ off fuel m, ps_list data off l → (length l < fuel)%nat →
  wp (ps_env data pid tid) (loop fuel (find_step data pid) off) (λ r m', m' = m ∧ r = own_process l) never m.
Proof using Type.
  induction l as [|pi l IH]; intros off fuel m Hl Hf; [inversion Hl|].
  destruct fuel as [|fuel]; [cbn in Hf; lia|]. cbn [loop]. unfold find_step at 1.
  assert (nt_entry data off = Some pi) as -> by (by inversion Hl). unfold own_process. cbn.
  destruct (Z.eqb_spec (UniqueProcessId pi) pid) as [He|He]; [by rewrite decide_True|]. rewrite decide_False by done.
  unfold _ffps_info_next. inversion Hl as [? ? E H0|? ? ? E H0 Hl']; subst.
  - rewrite H0, Z.eqb_refl. cbn. done.
  - rewrite (proj2 (Z.eqb_neq _ _)) by done. cbn [bind]. eapply wp_mono; [apply IH; [done|cbn in Hf; lia]| |done].
    intros r m' [-> ->]. split; [done|]. unfold own_process. by destruct (list_find _ l) as [[??]|].
Qed.

Lemma add_switches_sum l v : is_u32 v → add_switches l v = u32 (v + foldr (λ t acc, t.2 + acc) 0 l).
Proof using Type.
  unfold add_switches. revert v. induction l as [|t l IH]; intros v Hv; cbn; [by rewrite Z.add_0_r, u32_small|].
  rewrite IH by apply u32_range. unfold u32, uwrap. rewrite Zplus_mod_idemp_l. f_equal. lia.
Qed.

(** C21: counting the context switches of a process or a thread on Windows.  Every block is released,
    the list is asked for at most twice, and the search in it ends and stays within the data; when the
    list was obtained, exactly the switches of all threads of this process, or of this thread, are
    added, modulo 2^32; otherwise nothing is. *)
Theorem switches_ok fuel (thread : bool) g v l m :
  ps_list data 0 l → (length l < fuel)%nat → is_u32 v →
  wp (ps_env data pid tid) (count_switches fuel thread g v) (λ '(ok, v', _) m', m' = m ∧
    v' = (if ok : bool then match own_process l with
                     | None => v
                     | Some pi => if thread
                         then match list_find (λ t, t.1 = tid) (threads pi) with Some (_, t) => u32 (v + t.2) | None => v end
                         else u32 (v + foldr (λ t acc, t.2 + acc) 0 (threads pi))
                     end
          else v)) never m.
Proof using Type.
  intros Hl Hf Hv. unfold count_switches. apply wp_bind. eapply wp_mono; [apply info_get_wp| |done].
  intros [[[blk d]|] g'] m1; [|intros ->; by cbn]. intros (-> & Hp & Hni & ->).
  assert (∀ v' (k : bool * Z * perf_globals → gset Z → Prop), k (true, v', g') m → wp (ps_env data pid tid)
    (do! w_free blk in Ret (true, v', g')) k never ({[blk]} ∪ m)) as HF.
  { intros v' k Hk. cbn. intros [] m2 ->. rewrite (proj2 (Z.eqb_neq blk 0)) by lia.
    assert ((({[blk]} ∪ m) ∖ {[blk]}) = m) as -> by (clear -Hni; set_solver). done. }
  cbn -[loop add_switches add_thread]. intros p m2 [-> ->].
  assert (∀ ti l', add_thread ti l' v = match list_find (λ t, t.1 = ti) l' with Some (_, t) => u32 (v + t.2) | None => v end) as Ht.
  { intros ti l'. induction l' as [|t l' IH]; cbn; [done|]. destruct (Z.eqb_spec t.1 ti); [by rewrite decide_True|].
    rewrite decide_False by done. rewrite IH. by destruct (list_find _ l') as [[??]|]. }
  destruct thread; cbn -[loop add_switches add_thread wp].
  - intros t m3 [-> ->]. apply wp_bind. eapply wp_mono; [by apply find_loop_wp| |done]. intros r m4 [-> ->].
    apply HF. split; [done|]. destruct (own_process l) as [pi|]; [apply Ht|done].
  - apply wp_bind. eapply wp_mono; [by apply find_loop_wp| |done]. intros r m4 [-> ->].
    apply HF. split; [done|]. destruct (own_process l) as [pi|]; [by apply add_switches_sum|done].
Qed.
End switches.

(** A layout: a byte per field, the number of threads and their pairs last. *)
#[export] Instance RefNt : NtLayout := {|
  nt_entry d off := match drop (Z.to_nat off) d with
                    | next :: pid :: t0 :: s0 :: t1 :: s1 :: _ => Some (PsInfo next pid [(t0, s0); (t1, s1)])
                    | _ => None end;
  sizeof_SYSTEM_PROCESS_INFORMATION := 6;
  ffint_align_ceil2 n a := (n + a - 1) / a * a |}.
#[export] Instance RefTime : FfTimeOps := {|
  fftime_add a b := FfTime ((time_ns a + time_ns b) / 1000000000) ((time_ns a + time_ns b) mod 1000000000);
  fftime_sub a b := FfTime ((time_ns a - time_ns b) / 1000000000) ((time_ns a - time_ns b) mod 1000000000) |}.
#[export] Instance RefTimeLaws : FfTimeLaws RefTime.
Proof.
  assert (∀ x, time_normal (FfTime (x / 1000000000) (x mod 1000000000)) ∧
    time_ns (FfTime (x / 1000000000) (x mod 1000000000)) = x) as H.
  { intros x. unfold time_normal, time_ns. cbn [t_sec t_nsec]. pose proof (Z.mod_pos_bound x 1000000000).
    pose proof (Z.div_mod x 1000000000). lia. }
  split; intros a b _ _ _ _; apply H.
Qed.

Definition demo_ps : list Z := [6; 4; 1; 10; 2; 20; 0; 7; 8; 30; 9; 4294967290].
Lemma switches_ok_witness :
  wp (ps_env demo_ps 7 9) (count_switches 3 false (PerfGlobals 0 0 0) 5) (λ '(ok, v', _) m', m' = ∅ ∧
    v' = if ok : bool then 29 else 5) never ∅.
Proof.
  eapply wp_mono; [apply (switches_ok demo_ps 7 9 3 false (PerfGlobals 0 0 0) 5 [PsInfo 6 4 [(1, 10); (2, 20)]; PsInfo 0 7 [(8, 30); (9, 4294967290)]] ∅)| |done].
  - apply ps_next; [reflexivity|done|]. apply ps_last; reflexivity.
  - cbn. lia.
  - unfold is_u32. lia.
  - intros [[ok v'] g'] m' [-> ->]. by destruct ok.
Defined.

Lemma perf_diff_add_witness :
  let p := Perf (FfTime 5 999999999) (FfTime 0 0) (FfTime 1 1) (FfTime 2 2) 4294967295 1 2 3 4 5 in
  ffps_perf_diff p (ffps_perf_add p p) = p.
Proof.
  apply (perf_diff_add (Perf (FfTime 5 999999999) (FfTime 0 0) (FfTime 1 1) (FfTime 2 2) 4294967295 1 2 3 4 5));
    (split; repeat constructor; unfold time_normal, is_u32; cbn; lia).
Defined.

(** *** UNIX *)

(** The clocks and the counters: [None]: the call fails. *)
Definition counters_env (mono cpu : option timespec) (usage : option rusage) : env unixE unit := λ _ X e,
  let answer {A} (v : option A) (r : Z * A) := match v with Some x => r = (0, x) | None => r.1 = -1 end in
  match e in unixE X return X → unit → Prop with
  | u_clock_gettime c => λ r _, answer (if c =? CLOCK_MONOTONIC then mono else cpu) r
  | u_getrusage _ => λ r _, answer usage r
  | _ => λ _ _, True
  end.

(** on UNIX the call succeeds exactly when everything that was asked for could be read; whatever could
    be read is stored, and what was not asked for or could not be read is left as it was. *)
Theorem perf_unix_ok mono cpu usage who p flags :
  let want_usage := has flags FFPS_PERF_RUSAGE in
  wp (counters_env mono cpu usage) (_ffps_perf who p flags) (λ '(rc, p') _,
    (rc = 0 ↔ (has flags FFPS_PERF_REALTIME = true → is_Some mono) ∧ (want_usage = true → is_Some usage) ∧
              (has flags FFPS_PERF_CPUTIME = true → is_Some cpu)) ∧
    p_realtime p' = (if has flags FFPS_PERF_REALTIME then from_option fftime_from_timespec (p_realtime p) mono else p_realtime p) ∧
    p_cputime p' = (if has flags FFPS_PERF_CPUTIME then from_option fftime_from_timespec (p_cputime p) cpu else p_cputime p) ∧
    p_usertime p' = (if want_usage then from_option (fftime_from_timeval ∘ ru_utime) (p_usertime p) usage else p_usertime p) ∧
    p_vctxsw p' = (if want_usage then from_option (u32 ∘ ru_nvcsw) (p_vctxsw p) usage else p_vctxsw p)) never tt.
Proof.
  intros want. unfold _ffps_perf. fold want.
  assert (∀ {A} (v : option A) (r : Z) (x : A), match v with Some y => (r, x) = (0, y) | None => (r, x).1 = -1 end →
    (r = 0 ∧ v = Some x) ∨ (r = -1 ∧ v = None)) as HA.
  { intros A [y|] r x H; [injection H as -> ->; by left|by right]. }
  destruct (has flags FFPS_PERF_REALTIME); destruct want; destruct (has flags FFPS_PERF_CPUTIME);
    cbn -[fftime_from_timespec fftime_from_timeval u32 Z.lor];
    repeat (let r := fresh "r" in let x := fresh "x" in let H := fresh "H" in intros [r x] [] H;
      rewrite ?(proj2 (Z.eqb_neq (if who =? RUSAGE_SELF then CLOCK_PROCESS_CPUTIME_ID else CLOCK_THREAD_CPUTIME_ID) CLOCK_MONOTONIC)) in H
        by (by destruct (who =? RUSAGE_SELF));
      apply HA in H as [[-> ->]|[-> ->]]; cbn -[fftime_from_timespec fftime_from_timeval u32 Z.lor]);
    (split_and!; [|done..]); (split; [intros Hrc; try (by vm_compute in Hrc)|intros (H1 & H2 & H3)]; split_and?; try done; eauto;
      try (by destruct (H1 eq_refl)); try (by destruct (H2 eq_refl)); try (by destruct (H3 eq_refl))).
Qed.

(** A system where everything succeeds, but that has no "psapi.dll". *)
Definition no_psapi (s : unit) (X : Type) (e : winE X) : X * unit :=
  (match e in winE X return X with
   | GetProcessTimes => (true, (FileTime 0 0, FileTime 0 0))
   | GetProcessIoCounters => (true, (1, 2))
   | LoadLibraryExW _ _ => 0
   | w_alloc _ => 5
   | NtQuerySystemInformation _ => (0, (12, demo_ps))
   | GetCurrentProcessId => 7
   | _ => inhabitant
   end, s).

(** The page faults and the memory are not read, and the call succeeds: the result of the call before is
    looked at a second time. *)
Example meminfo_failure_unreported :
  let p := Perf fftime_null fftime_null fftime_null fftime_null 0 0 0 0 0 0 in
  match run no_psapi (ffps_perf_win 3 (PerfGlobals 1 0 0) p FFPS_PERF_RUSAGE) tt with
  | (Done (rc, p', _), _) => rc = 0 ∧ p_inblock p' = 1 ∧ p_maxrss p' = 0 ∧ p_vctxsw p' = 24
  | _ => False
  end.
Proof. vm_compute. done. Qed.
