(* ===== verification/PathInfo.v ===== *)
(** * FFOS/path.h, time.h: what the system says about a path, the clock and the time zone of Windows *)
From S2P Require Import Prelude Prog Ffbase Unix Win StringW Time.

(** ** path.h *)

Definition FFPATH_BLOCKSIZE := 0.

Definition ffpath_islong (fnw : wstr) : prog winE bool :=
  let! '(n, fnlong) := GetLongPathNameW fnw 4096 in
  if n =? 0 then Ret false else
  let! c := wcsicmp fnlong fnw in
  Ret (c =? 0).

(** [ffpathinfo]: [f_bsize]. *)
Definition ffpath_infoinit_win `{FfUni} (path : list Z) (st : Z) : prog winE (Z * Z) :=
  let* w := ffsz_alloc_buf_utow (Some 256) path in
  match w with None => Ret (1, st) | Some w =>
  let! '(b, (spc, bps, _)) := GetDiskFreeSpaceW (w_str w) in
  wbuf_free w (Ret (if negb b then (1, st) else (0, u32 (spc * bps)))) end.
Definition ffpath_info_win (st name : Z) : Z := if name =? FFPATH_BLOCKSIZE then st else 0.

Definition ffpath_infoinit (path : cstr) : prog unixE (Z * Z) := call (u_statfs path).
Definition ffpath_info (st name : Z) : Z := if name =? FFPATH_BLOCKSIZE then u64 st else 0.

(** The size of a block on Windows: everything is released; a failure leaves the object as it was. *)
Lemma infoinit_win_ok `{FfUni} path st s :
  wp wstep (ffpath_infoinit_win path st) (λ '(r, st') s', wsame s s' ∧ ((r = 1 ∧ st' = st) ∨ (r = 0 ∧ is_u32 st'))) never s.
Proof.
  unfold ffpath_infoinit_win. apply with_name_wp; [auto|]. intros w s1 Ho.
  cbn -[u32]. intros [b [[spc bps] c]] s2 H2. eapply release_wp; [exact Ho|exact H2|]. intros s3 H3.
  destruct b; cbn -[u32]; (split; [done|]); [right|by left]. split; [done|apply u32_range].
Qed.

(** ** time.h *)

(** [cache]: the static pointer to the precise clock, -1 until it is looked up, 0 if there is none
    (before Windows 8). *)
Definition fftime_of_system (ft : filetime) : fftime := fftime_from_winftime (WinFTime (dwLow ft) (dwHigh ft)).
Definition fftime_now_win8 : prog winE fftime :=
  let! ft := GetSystemTimePreciseAsFileTime in Ret (fftime_of_system ft).
Definition fftime_now_win (cache : Z) : prog winE (fftime * Z) :=
  let* cache :=
    if cache =? -1 then
      let! dl := GetModuleHandleW (bytes_of "kernel32.dll") in
      call (GetProcAddress dl (bytes_of "GetSystemTimePreciseAsFileTime"))
    else Ret cache in
  let! ft := (if negb (cache =? 0) then GetSystemTimePreciseAsFileTime else GetSystemTimeAsFileTime) in
  Ret (fftime_of_system ft, cache).

Definition fftime_local_win : prog winE fftime_zone :=
  let! '(timezone, daylight) := w_tzset in
  let! gt := w_time in
  let! tm := w_gmtime_s gt in
  let! '(lt, isdst) := w_mktime tm (-1) in
  Ret (FfZone (s32 (- timezone)) daylight isdst (s32 (gt - lt))).

(** A system of a version, at a time: [look] counts the look-ups of the precise clock. *)
Definition clock_sys (precise : bool) (now : filetime) (zone : Z -> Z) (gt : Z) : env winE nat := λ look X e,
  match e in winE X return X → nat → Prop with
  | GetProcAddress _ _ => λ r look', look' = S look ∧ (r ≠ 0 ∧ r ≠ -1 ↔ precise = true) ∧ r ≠ -1
  | GetSystemTimePreciseAsFileTime => λ r look', look' = look ∧ precise = true ∧ r = now
  | GetSystemTimeAsFileTime => λ r look', look' = look ∧ r = now
  | w_time => λ r look', look' = look ∧ r = gt
  | w_gmtime_s t => λ r look', look' = look ∧ r = [t]
  | w_mktime tm _ => λ '(lt, _) look', look' = look ∧ tm = [gt] ∧ lt = gt - zone gt
  | _ => λ _ look', look' = look
  end.

(** The clock that the system has is used; it is looked up once, whatever the number of calls. *)
Fixpoint now_n (n : nat) (cache : Z) : prog winE (list fftime) :=
  match n with
  | O => Ret []
  | S n => let* '(t, cache) := fftime_now_win cache in let* l := now_n n cache in Ret (t :: l)
  end.
Lemma now_win_ok precise now zone gt n :
  wp (clock_sys precise now zone gt) (now_n n (-1)) (λ l look, l = replicate n (fftime_of_system now) ∧ (look ≤ 1)%nat) never O.
Proof.
  set (cached := λ cache, cache ≠ -1 ∧ (cache = 0 → precise = false)).
  assert (∀ n cache look, cached cache → wp (clock_sys precise now zone gt) (now_n n cache)
    (λ l look', l = replicate n (fftime_of_system now) ∧ look' = look) never look) as H1.
  { clear n. induction n as [|n IH]; intros cache look Hc; [done|]. cbn [now_n]. unfold fftime_now_win.
    pose proof Hc as [Hc1 Hc0]. rewrite (proj2 (Z.eqb_neq cache (-1))) by done. cbn.
    intros ft look1 Hft. assert (look1 = look ∧ ft = now) as [-> ->] by (destruct (cache =? 0); cbn in Hft; naive_solver).
    apply wp_bind. eapply wp_mono; [by apply IH| |done]. intros l look2 [-> ->]. done. }
  destruct n as [|n]; [by cbn; auto|]. cbn [now_n]. unfold fftime_now_win. rewrite Z.eqb_refl. cbn -[bytes_of].
  intros dl look0 -> f look1 (-> & Hf & Hne). intros ft look2 Hft.
  assert (look2 = 1%nat ∧ ft = now) as [-> ->] by (destruct (f =? 0); cbn in Hft; naive_solver).
  apply wp_bind. eapply wp_mono; [apply (H1 n f 1%nat)| |done].
  - split; [done|]. intros ->. destruct precise; [|done]. by destruct (proj2 Hf eq_refl).
  - intros l look3 [-> ->]. cbn. split; [done|lia].
Qed.

(** The time zone: the real offset is what the system's local time is ahead of UTC. *)
Lemma local_win_ok precise now zone gt : is_s32 (zone gt) →
  wp (clock_sys precise now zone gt) fftime_local_win (λ z _, tz_real_offset z = zone gt) never O.
Proof.
  intros Hz. cbn. intros [tz dl] n1 -> g n2 [-> ->] tm n3 [-> ->] [lt dst] n4 (-> & _ & ->). cbn.
  replace (gt - (gt - zone gt)) with (zone gt) by lia. by apply s32_small.
Qed.
