(* ===== verification/TimerQueue.v ===== *)
(** * FFOS/timerqueue.h: timers in a red-black tree

    A node is a heap cell ([tnode]) with the three links, the 32-bit expiry time [key] and the
    timer's own fields.  [_fftmrq_node_insert] is the code of the tree's insertion callback, on the
    heap; re-balancing, removal and the search for the minimum belong to ffbase (class [Rbt]).  A
    timer function is an event: it may change the queue, so its answer is the queue it leaves. *)
From stdpp Require Import sorting.
From S2P Require Import Prelude Prog.

(** ** Data *)

Record tnode := TNode {
  key : Z; left : Z; right : Z; parent : Z;          (* rbtnode *)
  interval_msec : Z; active : Z; func : Z; param : Z;
}.
Definition set_left v n := TNode (key n) v (right n) (parent n) (interval_msec n) (active n) (func n) (param n).
Definition set_right v n := TNode (key n) (left n) v (parent n) (interval_msec n) (active n) (func n) (param n).
Definition set_parent v n := TNode (key n) (left n) (right n) v (interval_msec n) (active n) (func n) (param n).
Definition set_active v n := TNode (key n) (left n) (right n) (parent n) (interval_msec n) v (func n) (param n).
Definition set_key v n := TNode v (left n) (right n) (parent n) (interval_msec n) (active n) (func n) (param n).
Definition set_timer k i f p n := TNode k (left n) (right n) (parent n) i (active n) f p.

(** The address of the tree's sentinel. *)
Abbreviation SENTL := 0%Z (only parsing).
Abbreviation heap := (gmap Z tnode).

Record tqueue := TQueue { cells : heap; root : Z }.

(** [call_func f p tq]: [f(p)] is called while the queue is [tq]; the answer is the queue after it. *)
Inductive tqE : Type → Type :=
  | call_func (f p : Z) (tq : tqueue) : tqE tqueue.

Definition load (h : heap) (p : Z) : prog tqE tnode :=
  match h !! p with Some n => Ret n | None => Halt OutOfBounds end.

(** What the tree's library does (ffbase/rbtree.h). *)
Class Rbt := {
  ffrbt_rebalance : heap → Z → Z → heap * Z;    (* the end of ffrbt_insert(): cells, root, new node *)
  ffrbt_rm : heap → Z → Z → heap * Z;           (* cells, root, node *)
  ffrbt_node_min : heap → Z → Z;                (* cells, root *)
}.

(** ** Operations *)

(** The address that is assigned: the left ([true]) or right link of the parent. *)
Definition node_insert_find (h : heap) (node par : Z) : prog tqE (Z + Z * bool) :=
  let* n := load h node in
  let* pn := load h par in
  let dir := s32 (key n - key pn) <? 0 in
  let child := if dir then left pn else right pn in
  if child =? SENTL then Ret (inr (par, dir)) else Ret (inl child).

Definition _fftmrq_node_insert (h : heap) (rt node : Z) : prog tqE (heap * Z) :=
  if rt =? SENTL then
    let* n := load h node in
    Ret (<[node := set_left SENTL (set_right SENTL (set_parent SENTL n))]> h, node)
  else
    let* '(par, dir) := loop (size h) (node_insert_find h node) rt in
    let* pn := load h par in
    let h := <[par := (if dir then set_left node pn else set_right node pn)]> h in
    let* n := load h node in
    Ret (<[node := set_left SENTL (set_right SENTL (set_parent par n))]> h, rt).

Definition fftimerqueue_init (tq : tqueue) : tqueue := TQueue (cells tq) SENTL.

Section operations.
Context `{Rbt}.

Definition tq_insert (tq : tqueue) (node : Z) : prog tqE tqueue :=
  let* '(h, rt) := _fftmrq_node_insert (cells tq) (root tq) node in
  let '(h, rt) := ffrbt_rebalance h rt node in
  Ret (TQueue h rt).

Definition tq_rm (tq : tqueue) (node : Z) : tqueue :=
  let '(h, rt) := ffrbt_rm (cells tq) (root tq) node in TQueue h rt.

(** An assignment to fields of a node. *)
Definition tq_store (f : tnode → tnode) (tq : tqueue) (node : Z) : prog tqE tqueue :=
  let* n := load (cells tq) node in
  Ret (TQueue (<[node := f n]> (cells tq)) (root tq)).

Definition fftimerqueue_remove (tq : tqueue) (node : Z) : prog tqE (tqueue * Z) :=
  let* n := load (cells tq) node in
  if truthy (active n) then
    let* tq := tq_store (set_active 0) (tq_rm tq node) node in
    Ret (tq, 1)
  else Ret (tq, 0).

Definition fftimerqueue_addnode (tq : tqueue) (node : Z) : prog tqE tqueue :=
  let* '(tq, _) := fftimerqueue_remove tq node in
  let* tq := tq_insert tq node in
  tq_store (set_active 1) tq node.

(** [ffint_abs] of ffbase: the absolute value, an unsigned 32-bit integer. *)
Definition fftimerqueue_add (tq : tqueue) (node now_msec interval func param : Z) : prog tqE tqueue :=
  let* tq := tq_store (set_timer (u32 (now_msec + Z.abs interval)) interval func param) tq node in
  fftimerqueue_addnode tq node.

(** The new expiry time of a periodic timer. *)
Definition rearm (k interval now_msec : Z) : Z := Z.max (u32 (k + interval)) (u32 (now_msec + 1)).

(** One turn of the loop: [inr]: break. *)
Definition process_step (now_msec : Z) (st : tqueue * Z) : prog tqE ((tqueue * Z) + (tqueue * Z)) :=
  let '(tq, n) := st in
  let it := ffrbt_node_min (cells tq) (root tq) in
  if it =? SENTL then Ret (inr (tq, n)) else
  let* node := load (cells tq) it in
  let k := key node in
  if 0 <? s32 (k - now_msec) then Ret (inr (tq, n)) else
  let* tq := tq_store (set_active 0) (tq_rm tq it) it in
  let* tq :=
    if 0 <? interval_msec node then
      let* tq := tq_store (set_key (rearm k (interval_msec node) now_msec)) tq it in
      let* tq := tq_insert tq it in
      tq_store (set_active 1) tq it
    else Ret tq in
  let* node := load (cells tq) it in
  let! tq := call_func (func node) (param node) tq in
  Ret (inl (tq, u32 (n + 1))).

Definition fftimerqueue_process (fuel : nat) (tq : tqueue) (now_msec : Z) : prog tqE (tqueue * Z) :=
  loop fuel (process_step now_msec) (tq, 0).
End operations.

(** ** Trees in the heap *)

Inductive tree := Leaf | Br (l : tree) (p : Z) (r : tree).
Fixpoint inorder (t : tree) : list Z :=
  match t with Leaf => [] | Br l p r => inorder l ++ p :: inorder r end.

(** [rep h par p t]: from address [p], whose parent is [par], the links of [h] form the tree [t]. *)
Fixpoint rep (h : heap) (par p : Z) (t : tree) : Prop :=
  match t with
  | Leaf => p = SENTL
  | Br l q r => p = q ∧ q ≠ SENTL ∧ ∃ n, h !! q = Some n ∧ parent n = par ∧
      rep h q (left n) l ∧ rep h q (right n) r
  end.

(** The fields that the tree's library does not touch. *)
Definition payload (n : tnode) := (key n, interval_msec n, active n, func n, param n).
Definition same_payload (h h' : heap) : Prop := ∀ p, payload <$> h !! p = payload <$> h' !! p.

Class RbtLaws (R : Rbt) : Prop := {
  rebalance_law h rt node t : rep h SENTL rt t → NoDup (inorder t) → node ∈ inorder t →
    ∃ t', rep (ffrbt_rebalance h rt node).1 SENTL (ffrbt_rebalance h rt node).2 t' ∧
      inorder t' = inorder t ∧ same_payload h (ffrbt_rebalance h rt node).1;
  rm_law h rt node t : rep h SENTL rt t → NoDup (inorder t) → node ∈ inorder t →
    ∃ t', rep (ffrbt_rm h rt node).1 SENTL (ffrbt_rm h rt node).2 t' ∧
      inorder t' = filter (λ p, p ≠ node) (inorder t) ∧ same_payload h (ffrbt_rm h rt node).1;
  node_min_law h rt t : rep h SENTL rt t → NoDup (inorder t) →
    ffrbt_node_min h rt = hd SENTL (inorder t);
}.

#[export] Instance same_payload_equiv : Equivalence same_payload.
Proof. split; [by intros ??|intros ??? p; by symmetry|intros ??? H1 H2 p; by rewrite H1]. Qed.

(** *** Insertion: the tree, then the heap *)

Definition keyof (h : heap) (p : Z) : Z := default 0 (key <$> h !! p).

(** "Earlier": the order of the insertion. *)
Definition earlier (a b : Z) : bool := s32 (a - b) <? 0.

Fixpoint tins (kf : Z → Z) (node : Z) (t : tree) : tree :=
  match t with
  | Leaf => Br Leaf node Leaf
  | Br l p r => if earlier (kf node) (kf p) then Br (tins kf node l) p r else Br l p (tins kf node r)
  end.

Lemma rep_frame h h' par p t :
  rep h par p t → (∀ q, q ∈ inorder t → h' !! q = h !! q) → rep h' par p t.
Proof.
  revert par p. induction t as [|l IHl q r IHr]; intros par p; simpl; [done|].
  intros (-> & Hq & n & Hn & Hp & Hl & Hr) Hf. split_and!; [done..|].
  exists n. rewrite Hf by set_solver. split_and!; [done..| |].
  - apply IHl; [done|]. intros q' Hq'. apply Hf. set_solver.
  - apply IHr; [done|]. intros q' Hq'. apply Hf. set_solver.
Qed.

Lemma rep_root h par p t : rep h par p t → p = SENTL ↔ t = Leaf.
Proof. destruct t; simpl; [done|]. intros (-> & ? & _). split; [done|congruence]. Qed.

Lemma rep_lookup h par p t q : rep h par p t → q ∈ inorder t → ∃ n, h !! q = Some n.
Proof.
  revert par p. induction t as [|l IHl q' r IHr]; intros par p; simpl; [set_solver|].
  intros (-> & Hq & n & Hn & Hp & Hl & Hr) Hin. rewrite elem_of_app, elem_of_cons in Hin.
  destruct Hin as [?|[->|?]]; eauto.
Qed.

Lemma rep_nonzero h par p t q : rep h par p t → q ∈ inorder t → q ≠ SENTL.
Proof.
  revert par p. induction t as [|l IHl q' r IHr]; intros par p; simpl; [set_solver|].
  intros (-> & Hq & n & Hn & Hp & Hl & Hr) Hin. rewrite elem_of_app, elem_of_cons in Hin.
  destruct Hin as [?|[->|?]]; eauto.
Qed.

Lemma rep_size h par p t : rep h par p t → NoDup (inorder t) → (length (inorder t) ≤ size h)%nat.
Proof.
  intros Hr Hd. rewrite <- (size_list_to_set (C := gset Z)) by done.
  rewrite <- (size_dom (D := gset Z) h). apply subseteq_size. intros q Hq.
  apply elem_of_list_to_set in Hq. destruct (rep_lookup _ _ _ _ _ Hr Hq). by eapply elem_of_dom_2.
Qed.

Lemma tins_perm kf node t : inorder (tins kf node t) ≡ₚ node :: inorder t.
Proof.
  induction t as [|l IHl q r IHr]; simpl; [done|]. destruct (earlier _ _); simpl.
  - by rewrite IHl.
  - rewrite IHr, <- !Permutation_middle. apply Permutation_swap.
Qed.

Definition link (dir : bool) (v : Z) (n : tnode) : tnode := if dir then set_left v n else set_right v n.
Definition leaf_node (par : Z) (n : tnode) : tnode := set_left SENTL (set_right SENTL (set_parent par n)).

(** A tree that holds neither of two assigned nodes stays. *)
Lemma rep_link h pp p t node par m m' : rep h pp p t → (node ∉ inorder t) → (par ∉ inorder t) →
  rep (<[node := m]> (<[par := m']> h)) pp p t.
Proof.
  intros H Hn Hp. eapply rep_frame; [exact H|]. intros x Hx. rewrite !lookup_insert_ne; [done|congruence|congruence].
Qed.

(** The descent ends at a node whose free link receives the new node; the heap then holds [tins]. *)
Lemma find_ok h node n t : ∀ fuel pp p,
  h !! node = Some n → node ≠ SENTL → rep h pp p t → t ≠ Leaf → (length (inorder t) ≤ fuel)%nat →
  NoDup (inorder t) → (node ∉ inorder t) →
  ∃ par dir pn, loop fuel (node_insert_find h node) p = Ret (par, dir) ∧
    par ∈ inorder t ∧ h !! par = Some pn ∧
    rep (<[node := leaf_node par n]> (<[par := link dir node pn]> h)) pp p (tins (keyof h) node t).
Proof.
  induction t as [|l IHl q r IHr]; intros fuel pp p Hn Hz Hrep Hne Hf Hnd Hni; [done|].
  simpl in *. destruct Hrep as (-> & Hq & m & Hm & Hpar & Hl & Hr).
  rewrite length_app in Hf. simpl in Hf. destruct fuel as [|fuel]; [lia|].
  apply NoDup_app in Hnd as (Hndl & Hdisj & Hndr). apply NoDup_cons in Hndr as [Hqr Hndr].
  assert (Hql : q ∉ inorder l) by (intros Hx; apply (Hdisj _ Hx); set_solver).
  assert (Hnq : node ≠ q) by set_solver.
  cbn [loop]. unfold node_insert_find at 1, load. rewrite Hn, Hm. simpl.
  fold (earlier (key n) (key m)).
  replace (earlier (keyof h node) (keyof h q)) with (earlier (key n) (key m))
    by (unfold keyof; by rewrite Hn, Hm).
  destruct (earlier (key n) (key m)) eqn:Hdir.
  - destruct (Z.eqb_spec (left m) SENTL) as [Hz0|Hz0].
    + exists q, true, m. split_and!; [done|set_solver|done|].
      rewrite Hz0 in Hl. apply rep_root in Hl as [Hl _]. rewrite (Hl eq_refl) in *. simpl.
      split_and!; [done..|]. exists (set_left node m).
      rewrite lookup_insert_ne, lookup_insert_eq by done. split_and!; [done..| |].
      * exists (leaf_node q n). by rewrite lookup_insert_eq.
      * simpl. apply rep_link; [exact Hr|set_solver|done].
    + assert (l ≠ Leaf) by (intros ->; apply Hz0; by apply Hl).
      destruct (IHl fuel q (left m)) as (par & dir & pn & Heq & Hin & Hpn & Hrep'); try done; [lia|set_solver|].
      exists par, dir, pn. split_and!; [done|set_solver|done|]. simpl. split_and!; [done..|].
      exists m. rewrite !lookup_insert_ne by set_solver. split_and!; [done..| |].
      * done.
      * apply rep_link; [exact Hr|set_solver|]. intros Hx. apply (Hdisj par); set_solver.
  - destruct (Z.eqb_spec (right m) SENTL) as [Hz0|Hz0].
    + exists q, false, m. split_and!; [done|set_solver|done|].
      rewrite Hz0 in Hr. apply rep_root in Hr as [Hr _]. rewrite (Hr eq_refl) in *. simpl.
      split_and!; [done..|]. exists (set_right node m).
      rewrite lookup_insert_ne, lookup_insert_eq by done. split_and!; [done|done| |done|done|].
      * simpl. apply rep_link; [exact Hl|set_solver|done].
      * exists (leaf_node q n). by rewrite lookup_insert_eq.
    + assert (r ≠ Leaf) by (intros ->; apply Hz0; by apply Hr).
      destruct (IHr fuel q (right m)) as (par & dir & pn & Heq & Hin & Hpn & Hrep'); try done; [lia|set_solver|].
      exists par, dir, pn. split_and!; [done|set_solver|done|]. simpl. split_and!; [done..|].
      exists m. rewrite !lookup_insert_ne by set_solver. split_and!; [done..| |].
      * apply rep_link; [exact Hl|set_solver|]. intros Hx. apply (Hdisj par); set_solver.
      * done.
Qed.

(** The code of the insertion callback implements the insertion in a search tree. *)
Lemma node_insert_ok h rt t node n :
  rep h SENTL rt t → NoDup (inorder t) → h !! node = Some n → node ≠ SENTL → (node ∉ inorder t) →
  ∃ h' rt', _fftmrq_node_insert h rt node = Ret (h', rt') ∧
    rep h' SENTL rt' (tins (keyof h) node t) ∧ same_payload h h'.
Proof.
  intros Hrep Hnd Hn Hz Hni. unfold _fftmrq_node_insert.
  destruct (Z.eqb_spec rt SENTL) as [Hz0|Hz0].
  - unfold load. rewrite Hn. simpl. eexists _, _. split_and!; [done| |].
    + apply rep_root in Hrep as [Hrep _]. rewrite (Hrep Hz0). simpl. split_and!; [done..|].
      eexists. by rewrite lookup_insert_eq.
    + intros p. destruct (decide (p = node)) as [->|]; [by rewrite lookup_insert_eq, Hn|].
      by rewrite lookup_insert_ne.
  - destruct (find_ok h node n t (size h) SENTL rt) as (par & dir & pn & Heq & Hin & Hpn & Hrep'); auto.
    { intros ->. by apply Hz0, Hrep. }
    { by eapply rep_size. }
    rewrite Heq. simpl. unfold load. rewrite Hpn. simpl.
    assert (par ≠ node) by set_solver. rewrite lookup_insert_ne, Hn by done. simpl.
    eexists _, _. split_and!; [done|exact Hrep'|].
    intros p. destruct (decide (p = node)) as [->|]; [by rewrite lookup_insert_eq, Hn|].
    rewrite lookup_insert_ne by done.
    destruct (decide (p = par)) as [->|]; [|by rewrite lookup_insert_ne].
    rewrite lookup_insert_eq, Hpn. by destruct dir.
Qed.

(** ** The queue *)

(** The tree of [tq] holds the nodes [q], in this order. *)
Definition tree_q (tq : tqueue) (q : list Z) : Prop :=
  ∃ t, rep (cells tq) SENTL (root tq) t ∧ inorder t = q ∧ NoDup q.

(** ... and the [active] flag of every node in memory says whether it is in the tree. *)
Definition is_queue (tq : tqueue) (q : list Z) : Prop :=
  tree_q tq q ∧ ∀ p n, cells tq !! p = Some n → truthy (active n) = bool_decide (p ∈ q).

Definition tkey (tq : tqueue) (p : Z) : Z := keyof (cells tq) p.

(** The distance from [base] to the time [k] on the 32-bit clock. *)
Definition off (base k : Z) : Z := u32 (k - base).
Definition in_half (base k : Z) : Prop := off base k < 2 ^ 31.

(** The expiry times span less than half of the clock from [base], and the queue is sorted. *)
Definition sortedq (base : Z) (tq : tqueue) (q : list Z) : Prop :=
  StronglySorted (λ a b, off base (tkey tq a) ≤ off base (tkey tq b)) q ∧
  Forall (λ p, in_half base (tkey tq p)) q.

(** Sorted insertion, after the nodes of the same time. *)
Fixpoint ins_sorted (kf : Z → Z) (node : Z) (q : list Z) : list Z :=
  match q with
  | [] => [node]
  | p :: q' => if earlier (kf node) (kf p) then node :: q else p :: ins_sorted kf node q'
  end.

Lemma earlier_off base a b :
  in_half base a → in_half base b → earlier a b = (off base a <? off base b).
Proof.
  unfold in_half, off, earlier, s32, swrap, u32, uwrap. intros Ha Hb.
  apply eq_true_iff_eq. rewrite !Z.ltb_lt. dlia.
Qed.

Lemma ins_sorted_app kf base node l p r :
  StronglySorted (λ a b, off base (kf a) ≤ off base (kf b)) (l ++ p :: r) →
  Forall (λ p, in_half base (kf p)) (l ++ p :: r) → in_half base (kf node) →
  ins_sorted kf node (l ++ p :: r) =
    if earlier (kf node) (kf p) then ins_sorted kf node l ++ p :: r
    else l ++ p :: ins_sorted kf node r.
Proof.
  induction l as [|x l IH]; intros Hs Hw Hn; [simpl; by destruct (earlier _ _)|].
  rewrite <- app_comm_cons in *. inversion Hs as [|? ? Hs' Hx]; inversion Hw; subst. simpl.
  rewrite IH by done. rewrite Forall_app, Forall_cons in Hx. destruct Hx as (_ & Hxp & _).
  assert (Hp : in_half base (kf p)) by
    (match goal with H : Forall _ (l ++ _) |- _ => rewrite Forall_app, Forall_cons in H; tauto end).
  rewrite (earlier_off base _ (kf x)), (earlier_off base _ (kf p)) by done.
  destruct (Z.ltb_spec (off base (kf node)) (off base (kf x)));
    destruct (Z.ltb_spec (off base (kf node)) (off base (kf p))); try done; lia.
Qed.

Lemma tins_sorted kf base node t :
  StronglySorted (λ a b, off base (kf a) ≤ off base (kf b)) (inorder t) →
  Forall (λ p, in_half base (kf p)) (inorder t) → in_half base (kf node) →
  inorder (tins kf node t) = ins_sorted kf node (inorder t).
Proof.
  induction t as [|l IHl p r IHr]; simpl; intros Hs Hw Hn; [done|].
  erewrite ins_sorted_app by done.
  apply StronglySorted_app in Hs as (_ & Hsl & Hsr). inversion Hsr; subst.
  rewrite Forall_app, Forall_cons in Hw. destruct Hw as (? & ? & ?).
  destruct (earlier _ _); simpl; by rewrite ?IHl, ?IHr.
Qed.

Lemma ins_sorted_perm kf node q : ins_sorted kf node q ≡ₚ node :: q.
Proof.
  induction q as [|p q IH]; simpl; [done|]. destruct (earlier _ _); [done|].
  rewrite IH. apply Permutation_swap.
Qed.

Lemma ins_sorted_ok kf base node q :
  StronglySorted (λ a b, off base (kf a) ≤ off base (kf b)) q →
  Forall (λ p, in_half base (kf p)) q → in_half base (kf node) →
  StronglySorted (λ a b, off base (kf a) ≤ off base (kf b)) (ins_sorted kf node q).
Proof.
  induction q as [|p q IH]; intros Hs Hw Hn; simpl; [by repeat constructor|].
  inversion Hs as [|? ? Hs' Hp]; inversion Hw; subst.
  rewrite (earlier_off base) by done. destruct (Z.ltb_spec (off base (kf node)) (off base (kf p))).
  - constructor; [done|]. constructor; [lia|]. eapply Forall_impl; [exact Hp|]. simpl. lia.
  - constructor; [by apply IH|]. rewrite ins_sorted_perm. constructor; [lia|done].
Qed.

Lemma ins_sorted_ext kf kf' node q :
  kf node = kf' node → (∀ p, p ∈ q → kf p = kf' p) → ins_sorted kf node q = ins_sorted kf' node q.
Proof.
  intros Hn. induction q as [|p q IH]; simpl; intros Hq; [done|].
  rewrite Hn, (Hq p), IH by set_solver. done.
Qed.

(** A change that leaves the order and the keys of the members. *)
Lemma sortedq_ext base tq tq' q :
  (∀ p, p ∈ q → tkey tq' p = tkey tq p) → sortedq base tq q → sortedq base tq' q.
Proof.
  intros Hk [Hs Hw]. split.
  - clear Hw. induction Hs as [|p q Hs IH Hp]; constructor; [apply IH; set_solver|].
    rewrite Forall_forall in *. intros x Hx. rewrite !Hk by set_solver. by apply Hp.
  - rewrite Forall_forall in *. intros x Hx. rewrite Hk by done. by apply Hw.
Qed.

Lemma sortedq_filter base tq q (P : Z → Prop) `{!∀ x, Decision (P x)} :
  sortedq base tq q → sortedq base tq (filter P q).
Proof.
  intros [Hs Hw]. split.
  - clear Hw. induction Hs as [|p q Hs IH Hp]; [constructor|]. rewrite filter_cons.
    case_decide; [|done]. constructor; [done|]. by apply Forall_filter_sub.
  - by apply Forall_filter_sub.
Qed.

(** *** Single operations *)

Lemma keyof_payload h h' p : same_payload h h' → keyof h' p = keyof h p.
Proof.
  intros H. unfold keyof. specialize (H p).
  unfold payload in H. destruct (h !! p), (h' !! p); simpl in *; congruence.
Qed.

Section ops.
Context `{R : Rbt, L : !RbtLaws R}.

Lemma rm_ok tq q node : tree_q tq q → node ∈ q →
  tree_q (tq_rm tq node) (filter (λ p, p ≠ node) q) ∧ same_payload (cells tq) (cells (tq_rm tq node)).
Proof.
  intros (t & Hr & <- & Hnd) Hin. unfold tq_rm.
  destruct (rm_law _ _ node t Hr Hnd Hin) as (t' & Hr' & Ht' & Hp).
  destruct (ffrbt_rm _ _ _) as [h rt]; simpl in *. split; [|done].
  exists t'. split_and!; [done..|by apply list.NoDup_filter].
Qed.

(** Fields of a node are assigned: the links, hence the tree, stay. *)
Lemma rep_store h par p t x (f : tnode → tnode) n :
  (∀ n, left (f n) = left n ∧ right (f n) = right n ∧ parent (f n) = parent n) →
  h !! x = Some n → rep h par p t → rep (<[x := f n]> h) par p t.
Proof.
  intros Hf Hx. revert par p. induction t as [|l IHl q r IHr]; intros par p; simpl; [done|].
  intros (-> & Hq & m & Hm & Hp & Hl & Hr). split_and!; [done..|].
  destruct (decide (x = q)) as [->|].
  - assert (m = n) as -> by congruence. destruct (Hf n) as (E1 & E2 & E3).
    exists (f n). rewrite lookup_insert_eq, E1, E2, E3. auto.
  - exists m. rewrite lookup_insert_ne by done. auto.
Qed.

Definition keeps_links (f : tnode → tnode) : Prop :=
  ∀ n, left (f n) = left n ∧ right (f n) = right n ∧ parent (f n) = parent n.

Lemma store_ok tq q x f n :
  keeps_links f → tree_q tq q → cells tq !! x = Some n →
  tq_store f tq x = Ret (TQueue (<[x := f n]> (cells tq)) (root tq)) ∧
  tree_q (TQueue (<[x := f n]> (cells tq)) (root tq)) q.
Proof.
  intros Hf (t & Hr & Ht & Hnd) Hx. unfold tq_store, load. rewrite Hx. split; [done|].
  exists t. split_and!; [by apply rep_store|done..].
Qed.

Lemma insert_ok tq q node n :
  tree_q tq q → cells tq !! node = Some n → node ≠ SENTL → (node ∉ q) →
  ∃ tq' q', tq_insert tq node = Ret tq' ∧ tree_q tq' q' ∧ q' ≡ₚ node :: q ∧
    same_payload (cells tq) (cells tq') ∧
    (∀ base, sortedq base tq q → in_half base (tkey tq node) → q' = ins_sorted (tkey tq) node q).
Proof.
  intros (t & Hr & <- & Hnd) Hn Hz Hni. unfold tq_insert.
  destruct (node_insert_ok _ _ _ _ _ Hr Hnd Hn Hz Hni) as (h' & rt' & -> & Hr' & Hp).
  assert (Hperm := tins_perm (keyof (cells tq)) node t).
  assert (NoDup (inorder (tins (keyof (cells tq)) node t))) as Hnd'.
  { rewrite Hperm. by constructor. }
  destruct (rebalance_law _ _ node _ Hr' Hnd') as (t2 & Hr2 & Ht2 & Hp2).
  { rewrite Hperm. set_solver. }
  simpl. destruct (ffrbt_rebalance h' rt' node) as [h2 rt2]; simpl in *.
  exists (TQueue h2 rt2), (inorder (tins (keyof (cells tq)) node t)).
  split_and!; [done| |done|by etrans|].
  - exists t2. split_and!; [done..|]. done.
  - intros base [Hs Hw] Hb. by apply (tins_sorted _ base).
Qed.

(** The timer's own fields, unchanged by the queue's operations. *)
Definition timer (n : tnode) := (key n, interval_msec n, func n, param n).
Definition same_timers (tq tq' : tqueue) : Prop :=
  ∀ p, timer <$> cells tq' !! p = timer <$> cells tq !! p.

Lemma same_payload_timers h h' rt rt' : same_payload h h' → same_timers (TQueue h rt) (TQueue h' rt').
Proof.
  intros H p. specialize (H p). unfold payload, timer in *. simpl in *.
  destruct (h !! p), (h' !! p); simpl in *; congruence.
Qed.

Lemma same_payload_lookup h h' p n : same_payload h h' → h !! p = Some n →
  ∃ n', h' !! p = Some n' ∧ payload n' = payload n.
Proof.
  intros H Hn. specialize (H p). rewrite Hn in H. simpl in H.
  destruct (h' !! p) as [n'|]; simpl in H; [|done]. exists n'. split; congruence.
Qed.

Lemma same_timers_key tq tq' p : same_timers tq tq' → tkey tq' p = tkey tq p.
Proof.
  intros H. specialize (H p). unfold tkey, keyof, timer in *.
  destruct (cells tq !! p), (cells tq' !! p); simpl in *; congruence.
Qed.

Lemma same_timers_trans tq1 tq2 tq3 : same_timers tq1 tq2 → same_timers tq2 tq3 → same_timers tq1 tq3.
Proof. intros H1 H2 p. by rewrite H2, H1. Qed.

Lemma same_timers_store tq x n v : cells tq !! x = Some n →
  same_timers tq (TQueue (<[x := set_active v n]> (cells tq)) (root tq)).
Proof.
  intros Hx p. simpl. destruct (decide (x = p)) as [<-|]; [|by rewrite lookup_insert_ne].
  by rewrite lookup_insert_eq, Hx.
Qed.

Lemma keeps_links_active v : keeps_links (set_active v).
Proof. done. Qed.
Lemma keeps_links_key v : keeps_links (set_key v).
Proof. done. Qed.
Lemma keeps_links_timer k i f p : keeps_links (set_timer k i f p).
Proof. done. Qed.

(** The last store of each operation: from a tree that differs in [x] to a queue. *)
Lemma flag_ok tq h rt q q' x n v :
  is_queue tq q → same_payload (cells tq) h → tree_q (TQueue h rt) q' → h !! x = Some n →
  truthy v = bool_decide (x ∈ q') → (∀ p, p ≠ x → p ∈ q' ↔ p ∈ q) →
  ∃ tq', tq_store (set_active v) (TQueue h rt) x = Ret tq' ∧ is_queue tq' q' ∧ same_timers tq tq'.
Proof.
  intros [Ht Ha] Hp Ht' Hx Hv Hq.
  destruct (store_ok _ _ _ _ _ (keeps_links_active v) Ht' Hx) as [-> Ht2].
  eexists. split; [done|]. split.
  - split; [done|]. simpl. intros p m Hm.
    destruct (decide (x = p)) as [<-|Hne].
    + rewrite lookup_insert_eq in Hm. by injection Hm as <-.
    + rewrite lookup_insert_ne in Hm by done.
      assert (∃ m', cells tq !! p = Some m' ∧ active m' = active m) as (m' & Hm' & Hact).
      { symmetry in Hp. destruct (same_payload_lookup _ _ _ _ Hp Hm) as (m' & ? & Hpl).
        exists m'. unfold payload in Hpl. split; congruence. }
      rewrite <- Hact, (Ha _ _ Hm'). apply bool_decide_ext. symmetry. by apply Hq.
  - apply (same_timers_trans _ (TQueue h rt)).
    + by apply (same_payload_timers _ h (root tq)).
    + by apply (same_timers_store (TQueue h rt)).
Qed.

Lemma remove_ok tq q node n :
  is_queue tq q → cells tq !! node = Some n →
  ∃ tq', fftimerqueue_remove tq node = Ret (tq', b2z (bool_decide (node ∈ q))) ∧
    is_queue tq' (filter (λ p, p ≠ node) q) ∧ same_timers tq tq'.
Proof.
  intros [Ht Ha] Hn. unfold fftimerqueue_remove, load. rewrite Hn. cbn [bind].
  rewrite (Ha _ _ Hn). destruct (bool_decide_reflect (node ∈ q)) as [Hin|Hin].
  - destruct (rm_ok _ _ _ Ht Hin) as [Ht' Hp].
    destruct (same_payload_lookup _ _ _ _ Hp Hn) as (n' & Hn' & _).
    destruct (flag_ok tq (cells (tq_rm tq node)) (root (tq_rm tq node)) q
                (filter (λ p, p ≠ node) q) node n' 0) as (tq' & E & Hq' & Hs); auto.
    { by split. }
    { symmetry. apply bool_decide_eq_false. rewrite list_elem_of_filter. tauto. }
    { intros p Hp'. rewrite list_elem_of_filter. tauto. }
    destruct (tq_rm tq node) as [h rt]; simpl in *. rewrite E. simpl. eauto.
  - eexists. split; [done|]. split; [|done].
    assert (filter (λ p, p ≠ node) q = q) as ->; [|by split].
    apply filter_all. set_solver.
Qed.

Lemma addnode_ok tq q node n :
  is_queue tq q → cells tq !! node = Some n → node ≠ SENTL →
  let q0 := filter (λ p, p ≠ node) q in
  ∃ tq' q', fftimerqueue_addnode tq node = Ret tq' ∧ is_queue tq' q' ∧ same_timers tq tq' ∧
    q' ≡ₚ node :: q0 ∧
    (∀ base, sortedq base tq q0 → in_half base (tkey tq node) →
      q' = ins_sorted (tkey tq) node q0 ∧ sortedq base tq' q').
Proof.
  intros Hq Hn Hz q0. destruct (remove_ok _ _ _ _ Hq Hn) as (tq1 & E1 & Hq1 & Hs1).
  unfold fftimerqueue_addnode. rewrite E1. cbn [bind]. fold q0 in Hq1.
  assert (∃ n1, cells tq1 !! node = Some n1) as [n1 Hn1].
  { specialize (Hs1 node). rewrite Hn in Hs1. destruct (cells tq1 !! node); by eauto. }
  destruct (insert_ok tq1 q0 node n1) as (tq2 & q' & E2 & Ht2 & Hperm & Hp2 & Hsort); auto.
  { apply Hq1. }
  { unfold q0. rewrite list_elem_of_filter. tauto. }
  rewrite E2. cbn [bind].
  destruct (same_payload_lookup _ _ _ _ Hp2 Hn1) as (n2 & Hn2 & _). destruct tq2 as [h2 rt2]; simpl in *.
  destruct (flag_ok tq1 h2 rt2 q0 q' node n2 1) as (tq' & E3 & Hq' & Hs3); auto.
  { symmetry. apply bool_decide_eq_true. rewrite Hperm. set_solver. }
  { intros p Hp. rewrite Hperm. set_solver. }
  assert (Hs : same_timers tq tq') by (by eapply same_timers_trans).
  exists tq', q'. split_and!; [done..|]. intros base Hbs Hb.
  assert (Hk := λ p, same_timers_key _ _ p Hs1).
  assert (q' = ins_sorted (tkey tq) node q0) as ->.
  { rewrite (Hsort base).
    - apply ins_sorted_ext; intros; apply Hk.
    - eapply sortedq_ext; [|done]. auto.
    - by rewrite Hk. }
  split; [done|]. eapply sortedq_ext; [intros; by apply same_timers_key|]. destruct Hbs. split.
  - by apply ins_sorted_ok.
  - rewrite ins_sorted_perm. by constructor.
Qed.

(** Assigning the timer's fields or its key: the queue stays, the other timers too. *)
Lemma store_queue_ok tq q x n f :
  keeps_links f → (∀ n, active (f n) = active n) → is_queue tq q → cells tq !! x = Some n →
  ∃ tq', tq_store f tq x = Ret tq' ∧ is_queue tq' q ∧ cells tq' !! x = Some (f n) ∧
    (∀ p, p ≠ x → timer <$> cells tq' !! p = timer <$> cells tq !! p).
Proof.
  intros Hf Hact [Ht Ha] Hx. destruct (store_ok _ _ _ _ _ Hf Ht Hx) as [E Ht'].
  eexists. split; [exact E|]. split_and!; [split; [done|]| |]; simpl.
  - intros p m Hm. destruct (decide (x = p)) as [<-|Hne].
    + rewrite lookup_insert_eq in Hm. injection Hm as <-. rewrite Hact. by apply Ha.
    + rewrite lookup_insert_ne in Hm by done. by apply Ha.
  - apply lookup_insert_eq.
  - intros p Hp. by rewrite lookup_insert_ne.
Qed.

Lemma timer_key (tq tq' : tqueue) p :
  timer <$> cells tq' !! p = timer <$> cells tq !! p → tkey tq' p = tkey tq p.
Proof.
  intros H. unfold tkey, keyof, timer in *.
  destruct (cells tq !! p), (cells tq' !! p); simpl in *; congruence.
Qed.

Lemma timer_lookup (tq tq' : tqueue) p n :
  timer <$> cells tq' !! p = timer <$> cells tq !! p → cells tq !! p = Some n →
  ∃ n', cells tq' !! p = Some n' ∧ timer n' = timer n.
Proof.
  intros H Hn. rewrite Hn in H. destruct (cells tq' !! p) as [n'|]; simpl in H; [|done].
  exists n'. split; congruence.
Qed.

(** Removing the first node, before its key is changed or not. *)
Lemma pop_ok tq p q n :
  is_queue tq (p :: q) → cells tq !! p = Some n →
  ∃ tq', tq_store (set_active 0) (tq_rm tq p) p = Ret tq' ∧ is_queue tq' q ∧ same_timers tq tq'.
Proof.
  intros Hq Hn. destruct (remove_ok _ _ _ _ Hq Hn) as (tq' & E & Hq' & Hs).
  assert (Hnd : NoDup (p :: q)) by (destruct Hq as [(t & _ & _ & ?) _]; done).
  apply NoDup_cons in Hnd as [Hpq _].
  rewrite filter_cons_False, filter_all in Hq' by set_solver.
  unfold fftimerqueue_remove, load in E. rewrite Hn in E. cbn [bind] in E.
  destruct Hq as [_ Ha]. rewrite (Ha _ _ Hn), bool_decide_true in E by set_solver.
  exists tq'. split_and!; [|done..].
  destruct (tq_store (set_active 0) (tq_rm tq p) p); simpl in E; congruence.
Qed.

(** Inserting a node that is in memory and not in the queue. *)
Lemma push_ok tq q node n :
  is_queue tq q → cells tq !! node = Some n → node ≠ SENTL → (node ∉ q) →
  ∃ tq1 tq' q', tq_insert tq node = Ret tq1 ∧ tq_store (set_active 1) tq1 node = Ret tq' ∧
    is_queue tq' q' ∧ same_timers tq tq' ∧ q' ≡ₚ node :: q ∧
    (∀ base, sortedq base tq q → in_half base (tkey tq node) →
      q' = ins_sorted (tkey tq) node q ∧ sortedq base tq' q').
Proof.
  intros Hq Hn Hz Hni.
  destruct (addnode_ok _ _ _ _ Hq Hn Hz) as (tq' & q' & E & Hq' & Hs & Hp & Hsort).
  rewrite filter_all in Hp, Hsort by set_solver.
  unfold fftimerqueue_addnode, fftimerqueue_remove, load in E. rewrite Hn in E. cbn [bind] in E.
  destruct Hq as [Ht Ha]. rewrite (Ha _ _ Hn), bool_decide_false in E by done. cbn [bind] in E.
  destruct (tq_insert tq node) as [tq1| |] eqn:E1; [|done..]. cbn [bind] in E. eauto 10.
Qed.

Definition expired (now_msec : Z) (tq : tqueue) (p : Z) : bool := s32 (tkey tq p - now_msec) <=? 0.

Lemma hd_node tq q : is_queue tq q → ffrbt_node_min (cells tq) (root tq) = hd SENTL q.
Proof. intros [(t & Hr & <- & Hnd) _]. by apply node_min_law. Qed.

Lemma queue_lookup tq q p : is_queue tq q → p ∈ q → p ≠ SENTL ∧ ∃ n, cells tq !! p = Some n.
Proof.
  intros [(t & Hr & <- & _) _] Hp. split; [by eapply rep_nonzero|by eapply rep_lookup].
Qed.

Lemma queue_nodup tq q : is_queue tq q → NoDup q.
Proof. by intros [(t & _ & _ & ?) _]. Qed.

Lemma turn_stop now tq c q :
  is_queue tq q → (∀ p, head q = Some p → expired now tq p = false) →
  process_step now (tq, c) = Ret (inr (tq, c)).
Proof.
  intros Hq Hh. unfold process_step. rewrite (hd_node _ _ Hq).
  destruct q as [|p q]; [done|]. cbn [hd].
  destruct (queue_lookup tq (p :: q) p Hq) as [Hz [n Hn]]; [set_solver|].
  rewrite (proj2 (Z.eqb_neq _ _) Hz). unfold load. rewrite Hn. cbn [bind].
  specialize (Hh p eq_refl). unfold expired, tkey, keyof in Hh. rewrite Hn in Hh. cbn in Hh.
  destruct (Z.ltb_spec 0 (s32 (key n - now))); [done|]. apply Z.leb_gt in Hh. lia.
Qed.

(** The queue after a turn: the first node leaves it, or is re-inserted with its new time. *)
Lemma turn_ok now tq c p q n :
  is_queue tq (p :: q) → cells tq !! p = Some n → expired now tq p = true →
  let k' := if 0 <? interval_msec n then rearm (key n) (interval_msec n) now else key n in
  ∃ tq1 q1, process_step now (tq, c) =
      Vis (call_func (func n) (param n) tq1) (λ tq2, Ret (inl (tq2, u32 (c + 1)))) ∧
    is_queue tq1 q1 ∧
    timer <$> cells tq1 !! p = Some (k', interval_msec n, func n, param n) ∧
    (∀ x, x ≠ p → timer <$> cells tq1 !! x = timer <$> cells tq !! x) ∧
    (∀ base, sortedq base tq (p :: q) → in_half base k' →
       sortedq base tq1 q1 ∧
       q1 = (if 0 <? interval_msec n then ins_sorted (tkey tq1) p q else q)).
Proof.
  intros Hq Hn Hex k'. unfold process_step. rewrite (hd_node _ _ Hq). cbn [hd].
  destruct (queue_lookup tq (p :: q) p Hq) as [Hz _]; [set_solver|].
  rewrite (proj2 (Z.eqb_neq _ _) Hz). unfold load at 1. rewrite Hn. cbn [bind].
  unfold expired, tkey, keyof in Hex. rewrite Hn in Hex. cbn in Hex. apply Z.leb_le in Hex.
  rewrite (proj2 (Z.ltb_ge _ _) Hex).
  destruct (pop_ok _ _ _ _ Hq Hn) as (tqa & -> & Hqa & Hsa). cbn [bind].
  assert (Hpq : p ∉ q) by (pose proof (queue_nodup _ _ Hq) as [? _]%NoDup_cons; done).
  assert (Hsq : ∀ base, sortedq base tq (p :: q) → sortedq base tqa q).
  { intros base [[_ Hs]%StronglySorted_cons [_ Hw]%Forall_cons].
    eapply sortedq_ext; [intros; by apply same_timers_key|by split]. }
  destruct (timer_lookup _ _ _ _ (Hsa p) Hn) as (na & Hna & Hta).
  unfold timer in Hta. injection Hta as E1 E2 E3 E4.
  unfold k' in *. destruct (0 <? interval_msec n) eqn:Hper; cbn [bind].
  - destruct (store_queue_ok _ _ _ _ _ (keeps_links_key (rearm (key n) (interval_msec n) now))
                (λ _, eq_refl) Hqa Hna) as (tqb & -> & Hqb & Hnb & Hob). cbn [bind].
    destruct (push_ok _ _ _ _ Hqb Hnb Hz Hpq) as (tqc & tqd & q1 & -> & Ed & Hqd & Hsd & _ & Hsort).
    cbn [bind]. rewrite Ed. cbn [bind].
    assert (Hkb : tkey tqb p = rearm (key n) (interval_msec n) now).
    { unfold tkey, keyof. by rewrite Hnb. }
    destruct (timer_lookup _ _ _ _ (Hsd p) Hnb) as (nd & Hnd & Htd).
    unfold timer in Htd. injection Htd as F1 F2 F3 F4.
    unfold load. rewrite Hnd. cbn [bind]. exists tqd, q1. split_and!; [|done| | |].
    + rewrite F3, F4, E3, E4. done.
    + rewrite Hnd. cbn. unfold timer. cbn in *. by rewrite F1, F2, F3, F4, E2, E3, E4.
    + intros x Hx. by rewrite Hsd, Hob, Hsa.
    + intros base Hs Hk'. destruct (Hsort base) as [Hq1 Hs1].
      { eapply sortedq_ext; [|exact (Hsq _ Hs)]. intros x Hx. apply timer_key, Hob. set_solver. }
      { by rewrite Hkb. }
      split; [done|]. rewrite Hq1.
      apply ins_sorted_ext; intros; symmetry; by apply same_timers_key.
  - unfold load. rewrite Hna. cbn [bind]. exists tqa, q. split_and!; [|done| | |].
    + by rewrite E3, E4.
    + rewrite Hna. cbn. unfold timer. by rewrite E1, E2, E3, E4.
    + intros x Hx. apply Hsa.
    + auto.
Qed.

End ops.

(** ** Timer functions *)

(** What a timer function may do to the queue is [C]; the calls are recorded, oldest first. *)
Definition tq_env (C : tqueue → tqueue → Prop) : env tqE (list (Z * Z)) := λ tr X e,
  match e in tqE X return X → list (Z * Z) → Prop with
  | call_func f p tq => λ tq' tr', tr' = tr ++ [(f, p)] ∧ C tq tq'
  end.

Definition func_of (tq : tqueue) (p : Z) : Z * Z :=
  default (0, 0) ((λ n, (func n, param n)) <$> cells tq !! p).
Definition interval_of (tq : tqueue) (p : Z) : Z := default 0 (interval_msec <$> cells tq !! p).

(** The time of [p] after it has been processed. *)
Definition next_key (now : Z) (tq : tqueue) (p : Z) : Z :=
  if expired now tq p && (0 <? interval_of tq p)
  then rearm (tkey tq p) (interval_of tq p) now else tkey tq p.

(** The re-armed time of the expired periodic timers is in the future, within the half clock. *)
Definition rearms_ok (base now : Z) (tq : tqueue) (q : list Z) : Prop :=
  ∀ p, p ∈ q → expired now tq p = true → 0 < interval_of tq p →
    in_half base (next_key now tq p) ∧ off base now < off base (next_key now tq p).

Lemma expired_off base now tq p :
  in_half base now → in_half base (tkey tq p) →
  expired now tq p = (off base (tkey tq p) <=? off base now).
Proof.
  unfold in_half, off, expired, s32, swrap, u32, uwrap. intros Ha Hb.
  apply eq_true_iff_eq. rewrite !Z.leb_le. dlia.
Qed.

Section process.
Context `{R : Rbt, L : !RbtLaws R}.

Abbreviation due now tq q := (filter (λ p, expired now tq p = true) q).

Lemma due_ins_sorted now tq kf p (q : list Z) : expired now tq p = false → due now tq (ins_sorted kf p q) = due now tq q.
Proof.
  intros Hp. induction q as [|x q IH]; simpl.
  - by rewrite filter_cons_False by congruence.
  - destruct (earlier _ _); [by rewrite filter_cons_False by congruence|].
    rewrite !filter_cons. by rewrite IH.
Qed.

Lemma due_ext now tq tq' (q : list Z) :
  (∀ p, p ∈ q → timer <$> cells tq' !! p = timer <$> cells tq !! p) → due now tq' q = due now tq q.
Proof.
  intros H. apply list_filter_iff'. intros p Hp. unfold expired. by rewrite (timer_key _ _ _ (H p Hp)).
Qed.

(** What is reached from [tq], [q] after [c] events and calls [tr]. *)
Definition processed (base now : Z) (c : Z) (tr : list (Z * Z)) (tq : tqueue) (q : list Z)
    (r : tqueue * Z) (tr' : list (Z * Z)) : Prop :=
  r.2 = u32 (c + Z.of_nat (length (due now tq q))) ∧ tr' = tr ++ map (func_of tq) (due now tq q) ∧
  ∃ q', is_queue r.1 q' ∧ sortedq base r.1 q' ∧
    (∀ p, p ∈ q' ↔ p ∈ q ∧ (expired now tq p = false ∨ 0 < interval_of tq p)) ∧
    (∀ p, p ∈ q' → tkey r.1 p = next_key now tq p ∧ expired now r.1 p = false).

Lemma timer_fields (tq tq' : tqueue) p :
  timer <$> cells tq' !! p = timer <$> cells tq !! p →
  func_of tq' p = func_of tq p ∧ interval_of tq' p = interval_of tq p.
Proof.
  intros H. unfold func_of, interval_of, timer in *.
  destruct (cells tq !! p), (cells tq' !! p); simpl in *; split; congruence.
Qed.

Lemma timer_some (tq : tqueue) p k i f a :
  timer <$> cells tq !! p = Some (k, i, f, a) → tkey tq p = k ∧ interval_of tq p = i.
Proof.
  unfold tkey, keyof, interval_of, timer. destruct (cells tq !! p); cbn; intros H; [|done].
  split; congruence.
Qed.

Lemma processed_none base now c tr tq q :
  is_queue tq q → sortedq base tq q → u32 c = c → (∀ p, p ∈ q → expired now tq p = false) →
  processed base now c tr tq q (tq, c) tr.
Proof.
  intros Hq Hs Hc Hn.
  assert (due now tq q = []) as E.
  { apply filter_none. intros p Hp. rewrite Hn; done. }
  unfold processed. rewrite E. simpl. rewrite Z.add_0_r, app_nil_r. split_and!; [done..|].
  exists q. split_and!; [done..| |].
  - intros p. split; [|tauto]. intros Hp. auto.
  - intros p Hp. unfold next_key. by rewrite Hn.
Qed.

Lemma not_due_after base now tq p q :
  sortedq base tq (p :: q) → in_half base now → expired now tq p = false →
  ∀ x, x ∈ p :: q → expired now tq x = false.
Proof.
  intros [Hs Hw] Hb Hp x Hx. apply StronglySorted_cons in Hs as [Hle _].
  rewrite Forall_forall in Hle, Hw. rewrite (expired_off base) in * by (try apply Hw; set_solver).
  apply elem_of_cons in Hx as [->|Hx]; [done|]. specialize (Hle x Hx).
  apply Z.leb_gt in Hp. apply Z.leb_gt. lia.
Qed.

(** One turn and the rest. *)
Lemma processed_turn base now c tr tq p q n tq1 q1 r tr' :
  is_queue tq (p :: q) → sortedq base tq (p :: q) → cells tq !! p = Some n →
  expired now tq p = true → (0 < interval_msec n → expired now tq1 p = false) →
  q1 = (if 0 <? interval_msec n then ins_sorted (tkey tq1) p q else q) →
  timer <$> cells tq1 !! p = Some (next_key now tq p, interval_msec n, func n, param n) →
  (∀ x, x ≠ p → timer <$> cells tq1 !! x = timer <$> cells tq !! x) →
  processed base now (u32 (c + 1)) (tr ++ [(func n, param n)]) tq1 q1 r tr' →
  processed base now c tr tq (p :: q) r tr'.
Proof.
  intros Hq Hs Hn Hex Hex1 Hq1 Hp1 Ho (Hc & Htr & q' & Hq' & Hs' & Hmem & Hkey).
  assert (Hpq : p ∉ q) by (pose proof (queue_nodup _ _ Hq) as [? _]%NoDup_cons; done).
  assert (Hne : ∀ x, x ∈ q → x ≠ p) by set_solver.
  assert (Hdue : due now tq1 q1 = due now tq q).
  { etrans; [|apply due_ext; intros; apply Ho; set_solver]. subst q1.
    destruct (Z.ltb_spec 0 (interval_msec n)); [by apply due_ins_sorted, Hex1|done]. }
  assert (Hin : ∀ x, x ∈ q1 ↔ (x = p ∧ 0 < interval_msec n) ∨ x ∈ q).
  { intros x. subst q1. destruct (Z.ltb_spec 0 (interval_msec n)); [rewrite ins_sorted_perm|]; set_solver by lia. }
  assert (Hi : interval_of tq p = interval_msec n) by (unfold interval_of; by rewrite Hn).
  unfold processed. rewrite (filter_cons_True _ p q) by done. rewrite <- Hdue in *. split_and!.
  - rewrite Hc. unfold u32, uwrap. simpl length. rewrite Zplus_mod_idemp_l. f_equal. lia.
  - rewrite Htr, <- app_assoc. simpl. f_equal. f_equal.
    + unfold func_of. by rewrite Hn.
    + apply map_ext_in. intros x Hx. apply list_elem_of_In in Hx.
      rewrite Hdue, list_elem_of_filter in Hx. apply timer_fields. apply Ho. set_solver.
  - exists q'. split_and!; [done..| |].
    + intros x. rewrite Hmem, Hin. destruct (decide (x = p)) as [->|Hxp].
      * rewrite Hex, Hi. split.
        -- intros [[[_ Hlt]|?] _]; [|done]. split; [set_solver|by right].
        -- intros [_ [?|Hlt]]; [done|]. auto.
      * destruct (timer_fields _ _ _ (Ho x Hxp)) as [_ ->]. unfold expired.
        rewrite (timer_key _ _ _ (Ho x Hxp)). set_solver.
    + intros x Hx. destruct (Hkey x Hx) as [-> ?]. split; [|done].
      destruct (decide (x = p)) as [->|Hxp].
      * apply Hmem in Hx as [[[_ Hlt]|?]%Hin _]; [|done].
        unfold next_key at 1. rewrite Hex1 by done. by apply timer_some in Hp1 as [-> _].
      * unfold next_key, expired.
        destruct (timer_fields _ _ _ (Ho x Hxp)) as [_ ->]. by rewrite (timer_key _ _ _ (Ho x Hxp)).
Qed.

(** After the turn of the expired timer [p] the queue [q1] still re-arms into the future, and what is due in it
    is what was due behind [p]. *)
Lemma turn_rearms base now tq tq1 p q kf n :
  rearms_ok base now tq (p :: q) → (∀ x, x ≠ p → timer <$> cells tq1 !! x = timer <$> cells tq !! x) → (p ∉ q) →
  interval_of tq1 p = interval_msec n → (0 < interval_msec n → expired now tq1 p = false) →
  let q1 := if 0 <? interval_msec n then ins_sorted kf p q else q in
  rearms_ok base now tq1 q1 ∧ due now tq1 q1 = due now tq q.
Proof.
  intros Hre Ho Hpq Ei1 Hfut q1. split.
  - intros x Hin Hexx Hper. destruct (decide (x = p)) as [->|Hxp].
    { exfalso. rewrite Hfut in Hexx; [done|lia]. }
    specialize (Ho x Hxp). destruct (timer_fields _ _ _ Ho) as [_ Ei]. rewrite Ei in Hper.
    assert (Ee : expired now tq1 x = expired now tq x) by (unfold expired; by rewrite (timer_key _ _ _ Ho)).
    assert (next_key now tq1 x = next_key now tq x) as ->.
    { unfold next_key. by rewrite Ee, Ei, (timer_key _ _ _ Ho). }
    rewrite Ee in Hexx. apply Hre; [|done|done]. subst q1.
    destruct (0 <? _); [rewrite ins_sorted_perm in Hin|]; set_solver.
  - rewrite <- (due_ext now tq tq1 q) by (intros x Hx; apply Ho; set_solver). subst q1.
    destruct (Z.ltb_spec 0 (interval_msec n)); [by apply due_ins_sorted, Hfut|done].
Qed.

Lemma process_loop base now fuel : ∀ c tr tq q,
  is_queue tq q → sortedq base tq q → in_half base now → rearms_ok base now tq q → u32 c = c →
  (length (due now tq q) < fuel)%nat →
  wp (tq_env eq) (loop fuel (process_step now) (tq, c)) (processed base now c tr tq q) never tr.
Proof.
  induction fuel as [|fuel IH]; intros c tr tq q Hq Hs Hb Hre Hc Hf; [lia|]. cbn [loop].
  destruct q as [|p q].
  { rewrite (turn_stop _ _ _ _ Hq) by done. cbn. apply processed_none; set_solver. }
  destruct (expired now tq p) eqn:Hex.
  2:{ rewrite (turn_stop _ _ _ _ Hq) by (by intros ? [= <-]). cbn.
      apply processed_none; [done..|]. by eapply not_due_after. }
  destruct (queue_lookup tq (p :: q) p Hq) as [Hz [n Hn]]; [set_solver|].
  assert (Hi : interval_of tq p = interval_msec n) by (unfold interval_of; by rewrite Hn).
  assert (Hk : tkey tq p = key n) by (unfold tkey, keyof; by rewrite Hn).
  assert (Hkk : next_key now tq p =
    if 0 <? interval_msec n then rearm (key n) (interval_msec n) now else key n).
  { unfold next_key. rewrite Hex, Hi, Hk. done. }
  assert (Hkw : in_half base (next_key now tq p)).
  { destruct (Z.ltb_spec 0 (interval_msec n)) as [Hlt|Hlt].
    - apply (Hre p); [set_solver|done|lia].
    - rewrite Hkk, <- Hk. destruct Hs as [_ [? _]%Forall_cons]. done. }
  destruct (turn_ok now tq c p q n) as (tq1 & q1 & -> & Hq1 & Hp1 & Ho & Hs1); [done..|].
  rewrite <- Hkk in Hp1, Hs1. destruct (Hs1 base Hs Hkw) as [Hs1' Hq1e]. clear Hs1. cbn. intros ? ? [-> <-].
  assert (Hpq : p ∉ q) by (pose proof (queue_nodup _ _ Hq) as [? _]%NoDup_cons; done).
  assert (Hfut : 0 < interval_msec n → expired now tq1 p = false).
  { intros Hlt. destruct (timer_some _ _ _ _ _ _ Hp1) as [Hk1 _].
    rewrite (expired_off base), Hk1 by (try rewrite Hk1; done). apply Z.leb_gt.
    apply (Hre p); [set_solver|done|lia]. }
  assert (Hx : ∀ x, x ∈ q → timer <$> cells tq1 !! x = timer <$> cells tq !! x).
  { intros x Hx. apply Ho. set_solver. }
  destruct (turn_rearms base now tq tq1 p q (tkey tq1) n) as [Hre1 Hdue]; [done..|apply (timer_some _ _ _ _ _ _ Hp1)|done|].
  rewrite <- Hq1e in Hre1, Hdue. rewrite filter_cons_True in Hf by done. simpl in Hf.
  eapply wp_mono; [apply IH with (q := q1)| |done]; [done|done|done|done|apply u32_small, u32_range| |].
  - rewrite Hdue. lia.
  - intros r tr' Hr. by eapply processed_turn.
Qed.

(** A timer function that removes and adds timers, its own included. *)
Inductive client : tqueue → tqueue → Prop :=
  | client_done tq : client tq tq
  | client_remove tq tq1 tq2 node r :
      fftimerqueue_remove tq node = Ret (tq1, r) → client tq1 tq2 → client tq tq2
  | client_add tq tq1 tq2 node now i f a : node ≠ SENTL →
      fftimerqueue_add tq node now i f a = Ret tq1 → client tq1 tq2 → client tq tq2.

Lemma add_ok tq q node n now i f a :
  is_queue tq q → cells tq !! node = Some n → node ≠ SENTL →
  let q0 := filter (λ p, p ≠ node) q in
  let k := u32 (now + Z.abs i) in
  ∃ tq' q', fftimerqueue_add tq node now i f a = Ret tq' ∧ is_queue tq' q' ∧
    timer <$> cells tq' !! node = Some (k, i, f, a) ∧
    (∀ x, x ≠ node → timer <$> cells tq' !! x = timer <$> cells tq !! x) ∧
    q' ≡ₚ node :: q0 ∧
    (∀ base, sortedq base tq q0 → in_half base k →
       q' = ins_sorted (tkey tq') node q0 ∧ sortedq base tq' q').
Proof.
  intros Hq Hn Hz q0 k. unfold fftimerqueue_add.
  destruct (store_queue_ok _ _ _ _ _ (keeps_links_timer k i f a) (λ _, eq_refl) Hq Hn)
    as (tq1 & E1 & Hq1 & Hn1 & Ho). fold k. rewrite E1. cbn [bind].
  destruct (addnode_ok _ _ _ _ Hq1 Hn1 Hz) as (tq2 & q2 & E2 & Hq2 & Hs2 & Hperm & Hsort).
  exists tq2, q2. split_and!; [done..| | |done|].
  - by rewrite Hs2, Hn1.
  - intros x Hx. by rewrite Hs2, Ho.
  - intros base Hs Hk. destruct (Hsort base) as [-> Hs'].
    + eapply sortedq_ext; [|exact Hs]. intros x Hx. apply timer_key, Ho. unfold q0 in Hx.
      by apply list_elem_of_filter in Hx as [? _].
    + unfold tkey, keyof. by rewrite Hn1.
    + split; [|done]. apply ins_sorted_ext; intros; symmetry; by apply same_timers_key.
Qed.

Lemma client_queue tq tq' q : client tq tq' → is_queue tq q → ∃ q', is_queue tq' q'.
Proof.
  intros Hc. revert q. induction Hc as [tq|tq tq1 tq2 node r E _ IH|tq tq1 tq2 node now i f a Hz E _ IH];
    intros q Hq; [eauto|..].
  - destruct (cells tq !! node) as [n|] eqn:Hn.
    + destruct (remove_ok _ _ _ _ Hq Hn) as (tq' & E' & Hq' & _). rewrite E in E'.
      injection E' as -> _. by eapply IH.
    + unfold fftimerqueue_remove, load in E. rewrite Hn in E. done.
  - destruct (cells tq !! node) as [n|] eqn:Hn.
    + destruct (add_ok _ _ _ _ now i f a Hq Hn Hz) as (tq' & q' & E' & Hq' & _). rewrite E in E'.
      injection E' as ->. by eapply IH.
    + unfold fftimerqueue_add, tq_store, load in E. rewrite Hn in E. done.
Qed.
End process.

(** ** A concrete tree library

    No balancing; removal rebuilds the tree as a right spine. *)

Fixpoint read_tree (fuel : nat) (h : heap) (p : Z) : tree :=
  match fuel with
  | O => Leaf
  | S fuel => if p =? SENTL then Leaf else
      match h !! p with
      | None => Leaf
      | Some n => Br (read_tree fuel h (left n)) p (read_tree fuel h (right n))
      end
  end.

Fixpoint spine (l : list Z) : tree := match l with [] => Leaf | p :: l => Br Leaf p (spine l) end.
Fixpoint write_spine (h : heap) (par : Z) (l : list Z) : heap :=
  match l with
  | [] => h
  | p :: l => write_spine (alter (λ n, set_left SENTL (set_right (hd SENTL l) (set_parent par n))) p h) p l
  end.

#[export] Instance RefRbt : Rbt := {|
  ffrbt_rebalance h rt _ := (h, rt);
  ffrbt_rm h rt node :=
    let l := filter (λ p, p ≠ node) (inorder (read_tree (size h) h rt)) in
    (write_spine h SENTL l, hd SENTL l);
  ffrbt_node_min h rt := hd SENTL (inorder (read_tree (size h) h rt));
|}.

Lemma read_tree_ok h t : ∀ fuel par p, rep h par p t → (length (inorder t) ≤ fuel)%nat → read_tree fuel h p = t.
Proof.
  induction t as [|l IHl q r IHr]; intros fuel par p; simpl.
  - intros -> _. by destruct fuel.
  - intros (-> & Hq & n & Hn & _ & Hl & Hr) Hf. rewrite length_app in Hf. simpl in Hf.
    destruct fuel as [|fuel]; [lia|]. simpl. rewrite (proj2 (Z.eqb_neq _ _) Hq), Hn.
    erewrite IHl, IHr by (try done; lia). done.
Qed.

Lemma write_spine_ok l : ∀ h par, NoDup l → (∀ p, p ∈ l → p ≠ SENTL ∧ is_Some (h !! p)) →
  rep (write_spine h par l) par (hd SENTL l) (spine l) ∧ same_payload h (write_spine h par l) ∧
  (∀ p, (p ∉ l) → write_spine h par l !! p = h !! p).
Proof.
  induction l as [|p l IH]; intros h par Hnd Hin; simpl; [done|].
  apply NoDup_cons in Hnd as [Hp Hnd].
  set (f n := set_left SENTL (set_right (hd SENTL l) (set_parent par n))).
  destruct (IH (alter f p h) p Hnd) as (Hr & Hpl & Ho).
  { intros x Hx. destruct (Hin x) as [? ?]; [set_solver|]. rewrite lookup_alter_ne by set_solver. done. }
  destruct (Hin p) as [Hz [n Hn]]; [set_solver|]. split_and!; [done|done| | |].
  - exists (f n). rewrite Ho, lookup_alter_eq, Hn by done. done.
  - etrans; [|exact Hpl]. intros x. destruct (decide (x = p)) as [->|].
    + by rewrite lookup_alter_eq, Hn.
    + by rewrite lookup_alter_ne.
  - intros x Hx. rewrite Ho, lookup_alter_ne by set_solver. done.
Qed.

Lemma spine_inorder l : inorder (spine l) = l.
Proof. induction l; simpl; congruence. Qed.

#[export] Instance RefRbtLaws : RbtLaws RefRbt.
Proof.
  split.
  - intros h rt node t Hr Hnd Hin. exists t. done.
  - intros h rt node t Hr Hnd Hin. cbn [ffrbt_rm RefRbt fst snd].
    rewrite (read_tree_ok h t _ _ _ Hr) by by eapply rep_size.
    set (l := filter _ (inorder t)).
    destruct (write_spine_ok l h SENTL) as (H1 & H2 & _).
    { by apply list.NoDup_filter. }
    { intros p Hp. unfold l in Hp. apply list_elem_of_filter in Hp as [_ Hp].
      split; [by eapply rep_nonzero|by eapply rep_lookup]. }
    exists (spine l). split_and!; [done|apply spine_inorder|done].
  - intros h rt t Hr Hnd. cbn [ffrbt_node_min RefRbt].
    rewrite (read_tree_ok h t _ _ _ Hr) by by eapply rep_size. done.
Qed.

(** ** Properties *)

Lemma ins_sorted_split kf base node q :
  StronglySorted (λ a b, off base (kf a) ≤ off base (kf b)) q →
  Forall (λ p, in_half base (kf p)) q → in_half base (kf node) →
  ∃ l r, q = l ++ r ∧ ins_sorted kf node q = l ++ node :: r ∧
    Forall (λ p, off base (kf p) ≤ off base (kf node)) l ∧
    Forall (λ p, off base (kf node) < off base (kf p)) r.
Proof.
  induction q as [|p q IH]; intros Hs Hw Hn; simpl; [by exists [], []|].
  apply StronglySorted_cons in Hs as [Hp Hs]. apply Forall_cons in Hw as [Hpw Hw].
  rewrite (earlier_off base) by done. destruct (Z.ltb_spec (off base (kf node)) (off base (kf p))).
  - exists [], (p :: q). split_and!; [done..|]. constructor; [done|].
    eapply Forall_impl; [exact Hp|]. simpl. lia.
  - destruct (IH Hs Hw Hn) as (l & r & -> & -> & Hl & Hr). exists (p :: l), r.
    split_and!; [done..| |done]. by constructor.
Qed.

Section properties.
Context `{R : Rbt, L : !RbtLaws R}.

(** C4: adding a timer (again) to a queue whose times span less than half of the 32-bit clock:
    the walk through the tree ends, only that node's fields change, and the queue is the old one
    with the node taken out of its place and put behind every timer that expires before or at the
    same time and before every later one, across the clock's wrap-around. *)
Theorem add_orders tq q node n now interval f a base :
  is_queue tq q → cells tq !! node = Some n → node ≠ SENTL → sortedq base tq q →
  let k := u32 (now + Z.abs interval) in
  in_half base k →
  ∃ tq' l r, fftimerqueue_add tq node now interval f a = Ret tq' ∧
    filter (λ p, p ≠ node) q = l ++ r ∧ is_queue tq' (l ++ node :: r) ∧
    sortedq base tq' (l ++ node :: r) ∧
    Forall (λ p, off base (tkey tq p) ≤ off base k) l ∧
    Forall (λ p, off base k < off base (tkey tq p)) r ∧
    timer <$> cells tq' !! node = Some (k, interval, f, a) ∧
    (∀ x, x ≠ node → timer <$> cells tq' !! x = timer <$> cells tq !! x).
Proof.
  intros Hq Hn Hz Hs k Hk. destruct (add_ok tq q node n now interval f a Hq Hn Hz)
    as (tq' & q' & E & Hq' & Hn' & Ho & _ & Hsort).
  assert (Hs0 := sortedq_filter base tq q (λ p, p ≠ node) Hs).
  destruct (Hsort base Hs0 Hk) as [-> Hs']. set (q0 := filter _ q) in *.
  assert (Hkn : tkey tq' node = k) by by apply timer_some in Hn' as [? _].
  assert (Hk0 : ∀ p, p ∈ q0 → tkey tq' p = tkey tq p).
  { intros p Hp. apply timer_key, Ho. unfold q0 in Hp. by apply list_elem_of_filter in Hp as [? _]. }
  destruct (sortedq_ext base tq tq' q0 Hk0 Hs0) as [Hs1 Hw1].
  destruct (ins_sorted_split _ _ node _ Hs1 Hw1) as (l & r & Elr & Ei & Hl & Hr); [by rewrite Hkn|].
  rewrite Ei in *. rewrite Hkn in *. exists tq', l, r.
  split_and!; [exact E|exact Elr|exact Hq'|exact Hs'| | |exact Hn'|exact Ho].
  - rewrite Forall_forall in *. intros p Hp. rewrite <- Hk0 by (rewrite Elr, elem_of_app; auto). by apply Hl.
  - rewrite Forall_forall in *. intros p Hp. rewrite <- Hk0 by (rewrite Elr, elem_of_app; auto). by apply Hr.
Qed.

(** C3: processing ends (fuel: one more than the queue's length), calls the function of every
    expired timer once, in the order of expiry, and of no other; returns their number; and leaves
    the timers that had not expired and the re-armed periodic ones, none of them expired.  The
    timer functions leave the queue alone; the new times of periodic timers lie ahead on the clock. *)
Theorem process_fires_expired tq q base now fuel :
  is_queue tq q → sortedq base tq q → in_half base now → rearms_ok base now tq q →
  Z.of_nat (length q) < 2 ^ 32 → (length q < fuel)%nat →
  wp (tq_env eq) (fftimerqueue_process fuel tq now)
    (λ '(tq', n) calls,
       let fired := filter (λ p, expired now tq p = true) q in
       n = Z.of_nat (length fired) ∧ calls = map (func_of tq) fired ∧
       ∃ q', is_queue tq' q' ∧ sortedq base tq' q' ∧
         (∀ p, p ∈ q' ↔ p ∈ q ∧ (expired now tq p = false ∨ 0 < interval_of tq p)) ∧
         (∀ p, p ∈ q' → tkey tq' p = next_key now tq p ∧ expired now tq' p = false))
    never [].
Proof.
  intros Hq Hs Hb Hre Hlen Hf. unfold fftimerqueue_process.
  assert (Hle := length_filter (λ p, expired now tq p = true) q).
  eapply wp_mono; [apply (process_loop base now fuel 0 [] tq q)| |done]; [done..| |lia|].
  { apply u32_small. unfold is_u32. lia. }
  intros [tq' n] tr (Hn & Htr & Hq'). cbn [fst snd] in *. split_and!; [|exact Htr|exact Hq'].
  rewrite Hn. apply u32_small. unfold is_u32. lia.
Qed.

(** C6: timer functions may remove and add timers, those being processed included: whatever they
    do, no invalid node is accessed, the queue stays well-formed, and if processing ends (it cannot
    when the functions add expired timers for ever) its first timer has not expired. *)
Theorem process_reentrant fuel tq q now tr :
  is_queue tq q →
  wp (tq_env client) (fftimerqueue_process fuel tq now)
    (λ '(tq', _) _, ∃ q', is_queue tq' q' ∧
       ∀ p, head q' = Some p → expired now tq' p = false)
    (λ h _, h = OutOfFuel) tr.
Proof.
  intros Hq. unfold fftimerqueue_process.
  apply (wp_loop _ _ (λ _ '(tq, _) _, ∃ q, is_queue tq q)); [done| |by exists q].
  clear - L. intros _ [tq c] tr [q Hq]. destruct q as [|p q].
  { rewrite (turn_stop _ _ _ _ Hq) by done. simpl. by exists []. }
  destruct (expired now tq p) eqn:Hex.
  2:{ rewrite (turn_stop _ _ _ _ Hq) by (by intros ? [= <-]). simpl.
      exists (p :: q). split; [done|]. by intros ? [= <-]. }
  destruct (queue_lookup tq (p :: q) p Hq) as [Hz [n Hn]]; [set_solver|].
  destruct (turn_ok now tq c p q n Hq Hn Hex) as (tq1 & q1 & -> & Hq1 & _). simpl.
  intros tq2 tr' [_ Hc]. by eapply client_queue.
Qed.
End properties.

(** a periodic timer whose next time is beyond the wrap-around of the 32-bit clock, processed
    before it: the unsigned maximum takes [now + 1] although the next time is later on the clock,
    so the timer fires again after 1 ms instead of after its interval. *)
Theorem rearm_wraps_early k interval now :
  is_u32 k → 0 < interval < 2 ^ 31 → k ≤ now → now < 2 ^ 32 - 1 → now + 1 < k + interval →
  2 ^ 32 ≤ k + interval →
  off now (u32 (k + interval)) = k + interval - now ∧ off now (rearm k interval now) = 1.
Proof.
  unfold is_u32, off, rearm, u32, uwrap. intros. 
  rewrite (Z.mod_small (now + 1)) by lia.
  rewrite Z.max_r by dlia. split; dlia.
Qed.

(** ** Witnesses

    Three timers around the wrap-around of the clock: 1 (periodic) and 3 expire just before it,
    2 after it. *)

Definition demo : tqueue := TQueue {[
  1 := TNode 4294967290 0 0 3 1000 1 11 101;
  2 := TNode 5 0 0 3 0 1 12 102;
  3 := TNode 4294967293 1 2 0 0 1 13 103;
  4 := TNode 0 0 0 0 0 0 0 0 ]} 3.
Definition demo_base := 4294966000.

Lemma demo_queue : is_queue demo [1; 3; 2].
Proof.
  split.
  - exists (Br (Br Leaf 1 Leaf) 3 (Br Leaf 2 Leaf)). split; [|split; [done|]].
    + simpl. split_and!; [done..|]. eexists. split; [reflexivity|]. simpl.
      split_and!; try done; eexists; split; by try reflexivity.
    + repeat constructor; set_solver.
  - change (map_Forall (λ p n, truthy (active n) = bool_decide (p ∈ [1; 3; 2])) (cells demo)).
    apply (bool_decide_unpack _). vm_compute. exact I.
Qed.

Lemma demo_sorted : sortedq demo_base demo [1; 3; 2].
Proof. split; repeat constructor; vm_compute; congruence. Qed.

Lemma add_orders_witness :
  ∃ tq' l r, fftimerqueue_add demo 4 4294967295 (-4) 14 104 = Ret tq' ∧
    filter (λ p, p ≠ 4) [1; 3; 2] = l ++ r ∧ is_queue tq' (l ++ 4 :: r) ∧
    sortedq demo_base tq' (l ++ 4 :: r) ∧
    Forall (λ p, off demo_base (tkey demo p) ≤ off demo_base 3) l ∧
    Forall (λ p, off demo_base 3 < off demo_base (tkey demo p)) r ∧
    timer <$> cells tq' !! 4 = Some (3, -4, 14, 104) ∧
    (∀ x, x ≠ 4 → timer <$> cells tq' !! x = timer <$> cells demo !! x).
Proof.
  apply (add_orders demo [1; 3; 2] 4 (TNode 0 0 0 0 0 0 0 0) 4294967295 (-4) 14 104 demo_base);
    [apply demo_queue|reflexivity|done|apply demo_sorted|vm_compute; reflexivity].
Defined.

Lemma process_fires_expired_witness :
  wp (tq_env eq) (fftimerqueue_process 4 demo 4294967295)
    (λ '(tq', n) calls,
       let fired := filter (λ p, expired 4294967295 demo p = true) [1; 3; 2] in
       n = Z.of_nat (length fired) ∧ calls = map (func_of demo) fired ∧
       ∃ q', is_queue tq' q' ∧ sortedq demo_base tq' q' ∧
         (∀ p, p ∈ q' ↔ p ∈ [1; 3; 2] ∧ (expired 4294967295 demo p = false ∨ 0 < interval_of demo p)) ∧
         (∀ p, p ∈ q' → tkey tq' p = next_key 4294967295 demo p ∧ expired 4294967295 tq' p = false))
    never [].
Proof.
  apply (process_fires_expired demo [1; 3; 2] demo_base 4294967295 4);
    [apply demo_queue|apply demo_sorted|vm_compute; reflexivity| |vm_compute; reflexivity|simpl; lia].
  intros p Hp. repeat (apply elem_of_cons in Hp as [->|Hp]; [vm_compute; done|]).
  by apply elem_of_nil in Hp.
Defined.

Lemma process_reentrant_witness :
  wp (tq_env client) (fftimerqueue_process 4 demo 4294967295)
    (λ '(tq', _) _, ∃ q', is_queue tq' q' ∧
       ∀ p, head q' = Some p → expired 4294967295 tq' p = false)
    (λ h _, h = OutOfFuel) [].
Proof. apply (process_reentrant 4 demo [1; 3; 2] 4294967295 []), demo_queue. Defined.

Lemma rearm_wraps_early_witness :
  off 4294967200 (u32 (4294967196 + 1000)) = 996 ∧ off 4294967200 (rearm 4294967196 1000 4294967200) = 1.
Proof. apply (rearm_wraps_early 4294967196 1000 4294967200); unfold is_u32; lia. Defined.
