(* ===== verification/FileUnix.v ===== *)
(** * FFOS/file.h on UNIX

    One definition per function, with the system as an argument where the source selects code by
    FF_LINUX, FF_ANDROID or FF_APPLE. *)
From S2P Require Import Prelude Prog Unix Time.

Definition FFFILE_NULL : Z := -1.
Definition FFERR_FILENOTFOUND := ENOENT.
Definition FFERR_FILEEXISTS := EEXIST.

(** enum FFFILE_SEEK: the methods of lseek(). *)
Definition FFFILE_SEEK_BEGIN := 0.
Definition FFFILE_SEEK_CURRENT := 1.
Definition FFFILE_SEEK_END := 2.

(** enum FFFILE_UNIX_FILEATTR: the types of files. *)
Definition FFFILE_UNIX_TYPEMASK := 61440.
Definition FFFILE_UNIX_FIFO := 4096.
Definition FFFILE_UNIX_CHAR := 8192.
Definition FFFILE_UNIX_DIR := 16384.
Definition FFFILE_UNIX_BLOCK := 24576.
Definition FFFILE_UNIX_REG := 32768.
Definition FFFILE_UNIX_LINK := 40960.
Definition FFFILE_UNIX_SOCKET := 49152.

(** ** Information *)

Definition fffile_info_path (name : cstr) : prog unixE (Z * stat) := call (u_stat name).
Definition fffile_info_linkpath (name : cstr) : prog unixE (Z * stat) := call (u_lstat name).
Definition fffile_info (fd : Z) : prog unixE (Z * stat) := call (u_fstat fd).
Definition fffile_size (fd : Z) : prog unixE Z :=
  let! '(r, s) := u_fstat fd in Ret (if negb (r =? 0) then -1 else st_size s).

Definition fffileinfo_size (fi : stat) : Z := u64 (st_size fi).
Definition fffileinfo_mtime (fi : stat) : fftime := fftime_from_timespec (st_mtim fi).
Definition fffileinfo_attr (fi : stat) : Z := st_mode fi.
Definition fffile_isdir (file_attr : Z) : bool := Z.land file_attr S_IFMT =? S_IFDIR.
Definition fffileinfo_id (fi : stat) : Z := st_ino fi.
Definition fffileinfo_owner (fi : stat) : Z := st_uid fi.
Definition fffile_exists (name : cstr) : prog unixE bool :=
  let* '(r, _) := fffile_info_path name in Ret (r =? 0).

Definition fffile_set_mtime_path (os : unix_os) (name : cstr) (last_write : fftime) : prog unixE Z :=
  if is_linux os
  then call (u_utimensat name (fftime_to_timespec last_write) (fftime_to_timespec last_write))
  else call (u_utimes name (fftime_to_timeval last_write) (fftime_to_timeval last_write)).
(** Android: with an API level below 26. *)
Definition fffile_set_mtime (os : unix_os) (fd : Z) (last_write : fftime) : prog unixE Z :=
  match os with
  | Linux => call (u_futimens fd (fftime_to_timespec last_write) (fftime_to_timespec last_write))
  | BSD | Apple => call (u_futimes fd (fftime_to_timeval last_write) (fftime_to_timeval last_write))
  | Android => fail ENOSYS (-1)
  end.
Definition fffile_set_attr_path (name : cstr) (mode : Z) : prog unixE Z := call (u_chmod name mode).
Definition fffile_set_attr (fd mode : Z) : prog unixE Z := call (u_fchmod fd mode).
Definition fffile_set_owner (fd uid gid : Z) : prog unixE Z := call (u_fchown fd uid gid).
Definition fffile_rename (oldpath newpath : cstr) : prog unixE Z := call (u_rename oldpath newpath).
Definition fffile_remove (name : cstr) : prog unixE Z := call (u_unlink name).
Definition fffile_hardlink (oldpath newpath : cstr) : prog unixE Z := call (u_link oldpath newpath).
Definition fffile_symlink (target linkpath : cstr) : prog unixE Z := call (u_symlink target linkpath).

(** ** Opening *)

Definition FFFILE_CREATE := O_CREAT.
Definition FFFILE_CREATENEW := Z.lor O_CREAT O_EXCL.
Definition FFFILE_READONLY := O_RDONLY.
Definition FFFILE_WRITEONLY := O_WRONLY.
Definition FFFILE_READWRITE := O_RDWR.
Definition FFFILE_TRUNCATE := O_TRUNC.
Definition FFFILE_NOATIME (os : unix_os) := if is_linux os then O_NOATIME else 0.
Definition FFFILE_DIRECT (os : unix_os) := match os with Apple => 0 | _ => O_DIRECT end.

Definition open_mode := 438.   (* 0666 *)

Definition fffile_open (os : unix_os) (name : cstr) (flags : Z) : prog unixE Z :=
  if is_linux os then
    let flags := Z.lor flags O_LARGEFILE in
    let! fd := u_open name flags open_mode in
    if negb (fd =? FFFILE_NULL) then Ret fd else
    let! e := get_errno in
    if (e =? EPERM) && has flags O_NOATIME
    then call (u_open name (Z.land flags (u32 (Z.lnot O_NOATIME))) open_mode)
    else Ret fd
  else call (u_open name flags open_mode).

Definition fffile_createtemp (os : unix_os) (name : cstr) (flags : Z) : prog unixE Z :=
  let* fd := fffile_open os name (Z.lor FFFILE_CREATENEW flags) in
  if negb (fd =? FFFILE_NULL) then do! u_unlink name in Ret fd else Ret fd.

Definition fffile_dup (fd : Z) : prog unixE Z := call (u_dup fd).
Definition fffile_close (fd : Z) : prog unixE Z :=
  if fd =? FFFILE_NULL then Ret 0 else call (u_close fd).

(** ** Input and output *)

Definition fffile_seek (fd pos method : Z) : prog unixE Z := call (u_lseek fd (s64 pos) method).

Definition POSIX_FADV_NORMAL := 0.
Definition POSIX_FADV_SEQUENTIAL := 2.
Definition F_RDAHEAD := 45.     (* macOS *)
Definition F_READAHEAD := 15.   (* FreeBSD *)
Definition fffile_readahead (os : unix_os) (fd size : Z) : prog unixE Z :=
  match os with
  | Android => fail ENOSYS (-1)
  | Linux =>
      let '(size, f) := if size =? -1 then (0, POSIX_FADV_NORMAL) else (size, POSIX_FADV_SEQUENTIAL) in
      let! r := u_posix_fadvise fd 0 size f in
      if negb (r =? 0) then fail r 1 else Ret 0
  | Apple => call (u_fcntl fd F_RDAHEAD size)
  | BSD => call (u_fcntl fd F_READAHEAD size)
  end.

Definition fffile_write (fd : Z) (data : list Z) : prog unixE Z := call (u_write fd data).
Definition fffile_writeat (fd : Z) (data : list Z) (off : Z) : prog unixE Z := call (u_pwrite fd data off).
Definition fffile_read (fd size : Z) : prog unixE (Z * list Z) := call (u_read fd size).
Definition fffile_readat (fd size off : Z) : prog unixE (Z * list Z) := call (u_pread fd size off).
Definition fffile_trunc (fd len : Z) : prog unixE Z := call (u_ftruncate fd len).
Definition fffile_nonblock (fd nonblock : Z) : prog unixE Z := call (u_ioctl_fionbio fd nonblock).

(** ** Whole files

    The functions after the system-specific part of the header, on UNIX.  [ffvec] is ffbase's
    vector: [ffvec_realloc v n] stands for [ffvec_reallocT(v, n, char)]: the vector and whether
    it succeeded. *)
Record ffvec := FfVec { v_mem : list Z; v_len : Z }.   (* the allocated bytes; the number in use *)

Class FfVec_ops (E : Type → Type) := {
  ffvec_realloc : ffvec → Z → prog E (ffvec * bool);
}.

Definition fffile_readwhole `{FfVec_ops unixE} (os : unix_os) (fn : cstr) (dst : ffvec) (limit : Z) : prog unixE (Z * ffvec) :=
  let* f := fffile_open os fn FFFILE_READONLY in
  if f =? FFFILE_NULL then Ret (-1, dst) else
  let* size := fffile_size f in
  let sz := u64 size in
  let* res :=
    if limit <? sz then Ret (-1, dst) else
    let* '(dst, ok) := ffvec_realloc dst (u64 (sz + 1)) in
    if negb ok then Ret (-1, dst) else
    let* '(n, d) := fffile_read f sz in
    match mem_write (v_mem dst) 0 d with
    | None => Halt OutOfBounds
    | Some mem =>
        if negb (sz =? u64 n) then Ret (-1, FfVec mem (v_len dst)) else
        Ret (0, FfVec mem sz)
    end in
  do* fffile_close f in
  Ret res.

Definition fffile_writewhole (os : unix_os) (fn : cstr) (d : list Z) (flags : Z) : prog unixE Z :=
  let flags := if flags =? 0 then Z.lor FFFILE_CREATE FFFILE_TRUNCATE else flags in
  let* f := fffile_open os fn (Z.lor flags FFFILE_WRITEONLY) in
  if f =? FFFILE_NULL then Ret (-1) else
  let* n := fffile_write f d in
  let rc := if negb (Z.of_nat (length d) =? u64 n) then -1 else 0 in
  let* c := fffile_close f in
  let rc := Z.lor rc c in
  if negb (rc =? 0) then do* fffile_remove fn in Ret rc else Ret rc.

(** ** Properties *)

Lemma new_fd_same s s' r s2 : same s s' → new_fd s' r s2 → new_fd s r s2.
Proof.
  unfold same, new_fd. intros (E1 & E2 & E3 & E4 & E5). by rewrite E1, E2, E3, E4, E5.
Qed.

(** Opening gives a descriptor that was not open, or nothing; the retry leaks nothing. *)
Lemma open_wp os name flags s :
  wp ustep (fffile_open os name flags) (λ r s', new_fd s r s') never s.
Proof.
  unfold fffile_open. destruct (is_linux os); [|cbn; auto].
  cbn. intros fd s1 H1. destruct (Z.eqb_spec fd FFFILE_NULL) as [->|Hne]; cbn; [|done].
  intros e s2 [-> ->]. destruct (_ && _); cbn; [|done]. intros r s3 H3.
  eapply new_fd_same; [|exact H3].
  destruct H1 as (? & ? & ? & ? & [[_ ?]|[? _]]); [done|exfalso; unfold FFFILE_NULL in *; lia].
Qed.

Lemma size_wp fd s : wp ustep (fffile_size fd) (λ _ s', same s s') never s.
Proof. by intros [r st] s' Hs. Qed.

(** Closing the descriptor that was opened restores the set of open descriptors. *)
Lemma close_new fd (X Y : gset Z) : (fd ∉ X) → Y = {[fd]} ∪ X → (Y ∖ {[fd]}) = X.
Proof. intros H ->. set_solver. Qed.

Class FfVecLaws (V : FfVec_ops unixE) : Prop := {
  vec_realloc_law v n s : wp ustep (ffvec_realloc v n)
    (λ '(v', ok) s', us_fds s' = us_fds s ∧ us_unlinked s' = us_unlinked s ∧ us_io s' = us_io s ∧
       v_len v' = v_len v ∧ (ok = true → n ≤ Z.of_nat (length (v_mem v')))) never s;
}.

(** C10: reading a whole file, whatever the system answers: no descriptor stays open and nothing is
    stored outside of the buffer; on success the vector holds, in a buffer with one spare byte,
    exactly the bytes that one read() returned for the size that fstat() reported, no more than
    [limit]; on failure the length of the vector is unchanged. *)
Theorem readwhole_ok `{V : FfVec_ops unixE, !FfVecLaws V} os fn dst limit s :
  limit < 2 ^ 64 - 1 →
  wp ustep (fffile_readwhole os fn dst limit)
    (λ '(r, v) s', us_fds s' = us_fds s ∧ us_unlinked s' = us_unlinked s ∧
       ((r = -1 ∧ v_len v = v_len dst) ∨
        (r = 0 ∧ 0 ≤ v_len v ≤ limit ∧ v_len v < Z.of_nat (length (v_mem v)) ∧
         ∃ f, us_io s' = us_io s ++ [IoRead f (take (Z.to_nat (v_len v)) (v_mem v))])))
    never s.
Proof.
  intros Hlim. unfold fffile_readwhole. apply wp_bind. eapply wp_mono; [apply open_wp| |done].
  intros f s1 (Hm1 & Hd1 & Hu1 & Hi1 & Hf).
  destruct (Z.eqb_spec f FFFILE_NULL) as [->|Hne].
  { cbn. destruct Hf as [[_ Hf]|[? _]]; [|unfold FFFILE_NULL in *; lia]. auto. }
  destruct Hf as [[-> _]|(Hf0 & Hni & Hf1)]; [done|].
  apply wp_bind. eapply wp_mono; [apply size_wp| |done].
  intros size s2 (Hf2 & Hm2 & Hd2 & Hu2 & Hi2). set (sz := u64 size). assert (Hsz : is_u64 sz) by apply u64_range. apply wp_bind.
  (* closing: from any state with the same descriptors *)
  assert (Hclose : ∀ r v s', us_fds s' = us_fds s1 → us_unlinked s' = us_unlinked s →
    ((r = -1 ∧ v_len v = v_len dst) ∨
        (r = 0 ∧ 0 ≤ v_len v ≤ limit ∧ v_len v < Z.of_nat (length (v_mem v)) ∧
         ∃ f, us_io s' = us_io s ++ [IoRead f (take (Z.to_nat (v_len v)) (v_mem v))])) →
    wp ustep (do* fffile_close f in Ret (r, v)) (λ '(r, v) s', us_fds s' = us_fds s ∧
       us_unlinked s' = us_unlinked s ∧ ((r = -1 ∧ v_len v = v_len dst) ∨
        (r = 0 ∧ 0 ≤ v_len v ≤ limit ∧ v_len v < Z.of_nat (length (v_mem v)) ∧
         ∃ f, us_io s' = us_io s ++ [IoRead f (take (Z.to_nat (v_len v)) (v_mem v))]))) never s').
  { intros r v s' Hfs Hus Hr. unfold fffile_close. rewrite (proj2 (Z.eqb_neq _ _) Hne). cbn.
    intros c s'' (_ & _ & Hu & Hi & Hfd). rewrite Hfs in Hfd.
    split_and!; [by rewrite Hfd; eapply close_new|congruence|]. by rewrite Hi. }
  destruct (Z.ltb_spec limit sz) as [|Hle]; cbn.
  { apply Hclose; [congruence..|auto]. }
  apply wp_bind. eapply wp_mono; [apply vec_realloc_law| |done].
  intros [v ok] s3 (Hf3 & Hu3 & Hi3 & Hl3 & Hc3). destruct ok; cbn.
  2:{ apply Hclose; [congruence..|auto]. }
  intros [n d] s4 (Hf4 & _ & _ & Hu4 & Hn & Hi4). specialize (Hc3 eq_refl).
  rewrite u64_small in Hc3 by (unfold is_u64 in *; lia). unfold read_ok in Hn. cbn [fst snd] in *.
  assert (Hd : (length d ≤ Z.to_nat sz)%nat) by (destruct Hn as [[= -> ->]|Hn]; simpl; lia).
  destruct (mem_write_ok (v_mem v) 0 d) as (mem & -> & Hlm & Htk); [unfold is_u64 in *; lia|].
  destruct (Z.eqb_spec sz (u64 n)) as [Heq|Hneq]; cbn; (apply Hclose; [congruence..|]).
  2:{ left. done. }
  destruct Hn as [[= -> ->]|[Hn Hlen]].
  { exfalso. change (u64 (-1)) with (2 ^ 64 - 1) in Heq. lia. }
  unfold is_u64 in *. rewrite u64_small in Heq by (unfold is_u64; lia).
  right. cbn [v_len v_mem]. split_and!; [done|lia|lia|lia|].
  exists f. rewrite Hi4. destruct (Z.eqb_spec n (-1)); [lia|].
  rewrite Hi3, Hi2, Hi1. do 3 f_equal. simpl in Htk. rewrite <- Htk. f_equal. lia.
Qed.

(** Whether a file was opened. *)
Definition is_open : ∀ X, unixE X → X → bool := λ X e,
  match e in unixE X return X → bool with u_open _ _ _ => λ fd, negb (fd =? FFFILE_NULL) | _ => λ _, false end.

Lemma open_marked os name flags s :
  wp (marked is_open ustep) (fffile_open os name flags)
    (λ r s', new_fd s.1 r s'.1 ∧ s'.2 = s.2 || negb (r =? FFFILE_NULL)) never s.
Proof.
  unfold fffile_open. destruct (is_linux os); cbn; [|by intros fd [s1 o1] [H1 H1']].
  intros fd [s1 o1] [H1 Ho]. cbn in H1, Ho. destruct (Z.eqb_spec fd FFFILE_NULL) as [->|Hne]; cbn; [|by rewrite (proj2 (Z.eqb_neq _ _) Hne)].
  intros e [s2 o2] [[-> E2] Ho2]. cbn in E2, Ho2. subst s2 o2. rewrite !orb_false_r in *.
  destruct (_ && _); cbn; [|by rewrite orb_false_r]. intros r [s3 o3] [H3 Ho3]. cbn in H3, Ho3. subst.
  split; [|done]. eapply new_fd_same; [|exact H3].
  destruct H1 as (? & ? & ? & ? & [[_ ?]|[? _]]); [done|exfalso; unfold FFFILE_NULL in *; lia].
Qed.

(** C13: writing a whole file, whatever the system answers: no descriptor stays open.  When the file could not be
    opened, -1 is returned and nothing is written or unlinked.  When it was opened, either 0 is returned, one
    write() took all the data and nothing is unlinked; or the result is not 0 and unlink() has been called for the file. *)
Theorem writewhole_ok os fn d flags s :
  Z.of_nat (length d) < 2 ^ 64 - 1 →
  wp (marked is_open ustep) (fffile_writewhole os fn d flags)
    (λ r '(s', opened), us_fds s' = us_fds s ∧
       if opened : bool then
         (r = 0 ∧ us_unlinked s' = us_unlinked s ∧ ∃ f, us_io s' = us_io s ++ [IoWrite f d]) ∨
         (r ≠ 0 ∧ us_unlinked s' = {[fn]} ∪ us_unlinked s)
       else r = -1 ∧ us_unlinked s' = us_unlinked s ∧ us_io s' = us_io s)
    never (s, false).
Proof.
  intros Hlen. unfold fffile_writewhole. apply wp_bind. eapply wp_mono; [apply open_marked| |done].
  intros f [s1 o1] [(Hm1 & Hd1 & Hu1 & Hi1 & Hf) Ho]. cbn [fst snd orb] in *. subst o1.
  destruct (Z.eqb_spec f FFFILE_NULL) as [->|Hne].
  { cbn. destruct Hf as [[_ Hf]|[? _]]; [|unfold FFFILE_NULL in *; lia]. auto 10. }
  destruct Hf as [[-> _]|(Hf0 & Hni & Hf1)]; [done|].
  cbn. intros n [s2 o2] [(Hf2 & Hm2 & Hd2 & Hu2 & Hn & Hi2) Ho2]. cbn in *. subst o2.
  unfold fffile_close. rewrite (proj2 (Z.eqb_neq _ _) Hne). cbn.
  intros c [s3 o3] [(_ & _ & Hu3 & Hi3 & Hf3) Ho3]. cbn in *. subst o3. rewrite Hf2 in Hf3.
  assert (Hfds : us_fds s3 = us_fds s) by (rewrite Hf3; by eapply close_new).
  destruct (Z.eqb_spec (Z.lor (if negb (Z.of_nat (length d) =? u64 n) then -1 else 0) c) 0) as [Hz|Hz]; cbn.
  - split; [done|]. left. apply Z.lor_eq_0_iff in Hz as [Hz ->].
    destruct (Z.eqb_spec (Z.of_nat (length d)) (u64 n)) as [Heq|]; [|done]. simpl in Hz.
    destruct Hn as [->|Hn].
    { exfalso. change (u64 (-1)) with (2 ^ 64 - 1) in Heq. lia. }
    rewrite u64_small in Heq by (unfold is_u64; lia). split_and!; [done|congruence|].
    exists f. rewrite Hi3, Hi2, Hi1. destruct (Z.eqb_spec n (-1)); [lia|].
    rewrite take_ge by lia. done.
  - intros u [s4 o4] [(Hf4 & _ & _ & Hu4 & Hi4) Ho4]. cbn in *. subst o4. split; [congruence|]. right.
    split; [done|]. congruence.
Qed.

(** ** A concrete vector library, and witnesses *)

#[export] Instance RefVec : FfVec_ops unixE := {|
  ffvec_realloc v n :=
    let! p := ffmem_alloc n in
    if p =? 0 then Ret (v, false)
    else Ret (FfVec (v_mem v ++ replicate (Z.to_nat n - length (v_mem v)) 0) (v_len v), true);
|}.

#[export] Instance RefVecLaws : FfVecLaws RefVec.
Proof.
  split. intros v n s. cbn. intros p s' (Hf & _ & Hu & Hi & _).
  destruct (p =? 0); cbn; split_and!; try done.
  intros _. rewrite length_app, length_replicate. lia.
Qed.

Definition no_resources : ustate := UState 0 ∅ ∅ ∅ ∅ [].

Lemma readwhole_ok_witness :
  10 < 2 ^ 64 - 1 ∧
  wp ustep (fffile_readwhole Linux (bytes_of "f") (FfVec [] 0) 10)
    (λ '(r, v) s', us_fds s' = us_fds no_resources ∧ us_unlinked s' = us_unlinked no_resources ∧
       ((r = -1 ∧ v_len v = 0) ∨
        (r = 0 ∧ 0 ≤ v_len v ≤ 10 ∧ v_len v < Z.of_nat (length (v_mem v)) ∧
         ∃ f, us_io s' = us_io no_resources ++ [IoRead f (take (Z.to_nat (v_len v)) (v_mem v))])))
    never no_resources.
Proof. split; [lia|]. apply (readwhole_ok Linux (bytes_of "f") (FfVec [] 0) 10). lia. Defined.

Lemma writewhole_ok_witness :
  Z.of_nat (length (bytes_of "data")) < 2 ^ 64 - 1 ∧
  wp (marked is_open ustep) (fffile_writewhole Linux (bytes_of "f") (bytes_of "data") 0)
    (λ r '(s', opened), opened = true → r ≠ 0 → us_unlinked s' = {[bytes_of "f"]}) never (no_resources, false).
Proof.
  split; [reflexivity|].
  eapply wp_mono; [apply (writewhole_ok Linux (bytes_of "f") (bytes_of "data") 0 no_resources); reflexivity| |done].
  intros r [s' o] [_ H] -> Hr. destruct H as [[-> _]|[_ ->]]; [done|]. cbn. change (us_unlinked no_resources) with (∅ : gset cstr). apply right_id_L, _.
Defined.

(** without a limit (2^64-1), a failed fstat() and a failed read() look like success: the size
    -1 passes the limit, the request for size + 1 bytes wraps to 0, and read()'s -1 equals the
    size; the function may return 0 with a length beyond its buffer. *)
Theorem readwhole_no_limit fn :
  ¬ wp ustep (fffile_readwhole Linux fn (FfVec [] 0) (2 ^ 64 - 1))
      (λ '(r, v) _, r = 0 → v_len v ≤ Z.of_nat (length (v_mem v))) (λ _ _, True) no_resources.
Proof.
  intros H. cbn in H.
  specialize (H 3 (UState 0 {[3]} ∅ ∅ ∅ [])). premise H.
  { unfold new_fd. cbn. split_and!; [done..|]. right. split_and!; [lia|set_solver|set_solver]. }
  cbn in H. specialize (H (-1, inhabitant) _ (same_refl _)). cbn in H.
  change (u64 (-1)) with (2 ^ 64 - 1) in H. cbn in H.
  specialize (H 1 (UState 0 {[3]} {[1]} ∅ ∅ [])). premise H.
  { cbn. split_and!; [done..|]. right. split_and!; [lia|set_solver|set_solver]. }
  cbn in H.
  specialize (H (-1, []) (UState 0 {[3]} {[1]} ∅ ∅ [])). premise H.
  { cbn. split_and!; try done. by left. }
  cbn in H. specialize (H 0 (UState 0 ({[3]} ∖ {[3]}) {[1]} ∅ ∅ [])). premise H; [done|].
  specialize (H eq_refl). vm_compute in H. by apply H.
Qed.
