(* ===== verification/FileWin.v ===== *)
(** * FFOS/file.h on Windows *)
From S2P Require Import Prelude Prog Unix Win StringW Time.

(** ** Information *)

Definition FFFILE_WIN_READONLY := 1.
Definition FFFILE_WIN_HIDDEN := 2.
Definition FFFILE_WIN_SYSTEM := 4.
Definition FFFILE_WIN_DIR := 16.
Definition FFFILE_WIN_ARCHIVE := 32.
Definition FFFILE_NULL_win := INVALID_HANDLE_VALUE.
(** enum FFFILE_SEEK: the methods of SetFilePointerEx(). *)
Definition FFFILE_SEEK_BEGIN_win := 0.
Definition FFFILE_SEEK_CURRENT_win := 1.
Definition FFFILE_SEEK_END_win := 2.

(** [BY_HANDLE_FILE_INFORMATION], with the fields the code fills in. *)
Definition fffileinfo_win : Type := fileattr.

Definition fftime_of_filetime (ft : filetime) : fftime := fftime_from_winftime (WinFTime (dwLow ft) (dwHigh ft)).

Definition fffileinfo_size_win (fi : fffileinfo_win) : Z := Z.lor (Z.shiftl (fa_size_hi fi) 32) (fa_size_lo fi).
Definition fffileinfo_mtime_win (fi : fffileinfo_win) : fftime := fftime_of_filetime (fa_mtime fi).
Definition fffileinfo_attr_win (fi : fffileinfo_win) : Z := fa_attr fi.
Definition fffile_isdir_win (file_attr : Z) : bool := has file_attr FILE_ATTRIBUTE_DIRECTORY.
Definition fffileinfo_id_win (fi : fffileinfo_win) : Z := Z.lor (Z.shiftl (fa_index_hi fi) 32) (fa_index_lo fi).

(** A [BOOL] result inverted: [!f()]. *)
Definition notb (b : bool) : Z := b2z (negb b).

Section file.
Context `{FfUni}.

(** Capacity of the stack buffers, [wchar_t ws[256]]. *)
Abbreviation to_wide name := (ffsz_alloc_buf_utow (Some 256) name).

(** [*fi], if it is assigned. *)
Definition fffile_info_path_win (name : list Z) : prog winE (Z * option fffileinfo_win) :=
  let* w := to_wide name in
  match w with None => Ret (-1, None) | Some w =>
  let! '(ok, fad) := GetFileAttributesExW (w_str w) in
  let fi := FileAttr (fa_attr fad) (fa_ctime fad) (fa_atime fad) (fa_mtime fad) (fa_size_hi fad) (fa_size_lo fad) 0 0 in
  wbuf_free w (Ret (notb ok, if ok : bool then Some fi else None)) end.

Definition fffile_info_linkpath_win (name : list Z) := fffile_info_path_win name.

Definition fffile_info_win (fd : Z) : prog winE (Z * fffileinfo_win) :=
  let! '(ok, fi) := GetFileInformationByHandle fd in Ret (notb ok, fi).

Definition fffile_size_win (fd : Z) : prog winE Z :=
  let! '(ok, size) := GetFileSizeEx fd in Ret (if ok : bool then size else -1).

Definition fffile_set_mtime_win (fd : Z) (last_write : fftime) : prog winE Z :=
  let ft := fftime_to_winftime last_write in
  let! ok := SetFileTime fd (FileTime (ft_lo ft) (ft_hi ft)) in Ret (notb ok).

Definition fffile_set_attr_path_win (name : list Z) (attr : Z) : prog winE Z :=
  let* w := to_wide name in
  match w with None => Ret (-1) | Some w =>
  let! ok := SetFileAttributesW (w_str w) attr in
  wbuf_free w (Ret (notb ok)) end.

Definition fffile_set_attr_win (fd attr : Z) : prog winE Z :=
  let! ok := SetFileInformationByHandle fd attr in Ret (notb ok).

(** ** Names *)

Definition MOVEFILE_REPLACE_EXISTING := 1.

(** [op] is called with both names; the first early return does not free [w_old]. *)
Definition with_two_names (oldpath newpath : list Z) (op : wstr → wstr → winE bool) : prog winE Z :=
  let* w_old := to_wide oldpath in
  match w_old with None => Ret (-1) | Some w_old =>
  let* w_new := to_wide newpath in
  match w_new with None => Ret (-1) | Some w_new =>
  let! ok := op (w_str w_old) (w_str w_new) in
  wbuf_free w_old (wbuf_free w_new (Ret (notb ok))) end end.

Definition fffile_rename_win (oldpath newpath : list Z) : prog winE Z :=
  with_two_names oldpath newpath (λ o n, MoveFileExW o n MOVEFILE_REPLACE_EXISTING).

Definition fffile_hardlink_win (oldpath newpath : list Z) : prog winE Z :=
  with_two_names oldpath newpath (λ o n, CreateHardLinkW n o).

Definition fffile_remove_win (name : list Z) : prog winE Z :=
  let* w := to_wide name in
  match w with None => Ret (-1) | Some w =>
  let! ok := DeleteFileW (w_str w) in
  let* r :=
    if (ok : bool) then Ret 0 else
    let! e := GetLastError in
    if negb (e =? ERROR_ACCESS_DENIED) then Ret 1 else
    let! attr := GetFileAttributesW (w_str w) in
    if (attr =? -1) || negb (has attr FFFILE_WIN_READONLY) then Ret 1 else
    let! ok := SetFileAttributesW (w_str w) (u32 (Z.land attr (Z.lnot FFFILE_WIN_READONLY))) in
    if negb ok then Ret 1 else
    let! ok := DeleteFileW (w_str w) in Ret (notb ok) in
  wbuf_free w (Ret r) end.

Definition fffile_symlink_win (target linkpath : list Z) : prog winE Z := wfail ERROR_NOT_SUPPORTED (-1).

(** ** Opening *)

Definition FFFILE_CREATE_win := Z.shiftl OPEN_ALWAYS 4.
Definition FFFILE_CREATENEW_win := Z.shiftl CREATE_NEW 4.
Definition FFFILE_READONLY_win := Z.shiftr GENERIC_READ 20.
Definition FFFILE_WRITEONLY_win := Z.shiftr GENERIC_WRITE 20.
Definition FFFILE_READWRITE_win := Z.shiftr (Z.lor GENERIC_READ GENERIC_WRITE) 20.
Definition FFFILE_TRUNCATE_win := 4096.
Definition FFFILE_NODOSNAME := 8192.
Definition FFFILE_APPEND_win := 16384.
Definition FFFILE_DIRECT_win := Z.lor FILE_FLAG_NO_BUFFERING FILE_FLAG_OVERLAPPED.

(** The arguments of [CreateFileW]. *)
Definition open_creation (flags : Z) : Z :=
  let creation := Z.shiftr (Z.land flags 240) 4 in
  (* creation is compared with the flag's value, which is CREATE_NEW << 4 *)
  if has flags FFFILE_TRUNCATE_win && negb (creation =? FFFILE_CREATENEW_win) then TRUNCATE_EXISTING
  else if creation =? 0 then OPEN_EXISTING else creation.

Definition open_access (flags : Z) : Z :=
  let access := u32 (Z.shiftl (Z.land flags 3840) 20) in
  if has flags FFFILE_APPEND_win then
    let access := if has flags FFFILE_READONLY_win then Z.lor 0 FILE_GENERIC_READ else 0 in
    if has flags FFFILE_WRITEONLY_win
    then Z.lor access (Z.land FILE_GENERIC_WRITE (Z.lnot FILE_WRITE_DATA)) else access
  else access.

Definition open_attrs (flags : Z) : Z :=
  Z.lor (Z.lor (Z.lor FILE_ATTRIBUTE_NORMAL (Z.land flags 15)) (Z.land flags 4294901760)) FILE_FLAG_BACKUP_SEMANTICS.

Definition open_share := Z.lor (Z.lor FILE_SHARE_READ FILE_SHARE_WRITE) FILE_SHARE_DELETE.

(** [FFFILE_NODOSNAME]: [Some (ok, wlong)]: whether the name is accepted, the heap block in
    [wlong] (0: the stack array [longname]).  The comparison reads the stack array, which holds
    the long name only when it fitted. *)
Definition open_nodosname (w : wstr) : prog winE (bool * Z) :=
  let! '(n, _) := GetLongPathNameW w 0 in
  let* wlong := if 256 <? n then let! p := w_alloc (u64 (n * 2)) in Ret (Some p) else Ret None in
  let! '(n, long) := GetLongPathNameW w n in
  let blk := default 0 wlong in
  if n =? 0 then Ret (false, blk) else
  match wlong with
  | Some _ => Halt OutOfBounds    (* longname is uninitialised *)
  | None =>
      let! c := wcsicmp long w in
      if negb (c =? 0) then do! SetLastError ERROR_INVALID_NAME in Ret (false, blk)
      else Ret (true, blk)
  end.

Definition fffile_open_win (name : list Z) (flags : Z) : prog winE Z :=
  let creation := open_creation flags in
  let access := open_access flags in
  let f := open_attrs flags in
  let* w := to_wide name in
  match w with None => Ret FFFILE_NULL_win | Some w =>
  let* '(ok, blk) := if has flags FFFILE_NODOSNAME then open_nodosname (w_str w) else Ret (true, 0) in
  let* fd :=
    if negb ok then Ret FFFILE_NULL_win else
    let! fd := CreateFileW (w_str w) access open_share creation f in
    if negb (fd =? FFFILE_NULL_win) then Ret fd else
    let! e := GetLastError in
    if (e =? ERROR_FILE_NOT_FOUND) &&
       (Z.land flags (Z.lor FFFILE_TRUNCATE_win 240) =? Z.lor FFFILE_TRUNCATE_win FFFILE_CREATE_win)
    then call (CreateFileW (w_str w) access open_share CREATE_NEW f)
    else Ret fd in
  wbuf_free w (if blk =? 0 then Ret fd else do! w_free blk in Ret fd) end.

Definition fffile_createtemp_win (name : list Z) (flags : Z) : prog winE Z :=
  fffile_open_win name
    (Z.lor (Z.lor FFFILE_CREATENEW_win FILE_FLAG_DELETE_ON_CLOSE) (Z.land flags (u32 (Z.lnot 15)))).

Definition fffile_dup_win (fd : Z) : prog winE Z :=
  let! ps := GetCurrentProcess in
  let! '(ok, r) := DuplicateHandle fd in
  Ret (if ok : bool then r else INVALID_HANDLE_VALUE).

Definition fffile_close_win (fd : Z) : prog winE Z :=
  if fd =? FFFILE_NULL_win then Ret 0 else let! ok := CloseHandle fd in Ret (notb ok).

(** ** Input and output *)

Definition FILE_BEGIN := 0.
Definition FILE_CURRENT := 1.

Definition fffile_seek_win (fd pos method : Z) : prog winE Z :=
  let! '(ok, r) := SetFilePointerEx fd (s64 pos) method in Ret (if ok : bool then r else -1).

Definition fffile_readahead_win (fd size : Z) : prog winE Z := wfail ERROR_NOT_SUPPORTED (-1).

(** [ffmin(size, 0xffffffff)] of a buffer. *)
Definition clamp32 (d : list Z) : list Z := take (Z.to_nat (Z.min (Z.of_nat (length d)) 4294967295)) d.

Definition fffile_write_win (fd : Z) (data : list Z) : prog winE Z :=
  let! '(ok, wr) := WriteFile fd (clamp32 data) None in Ret (if ok : bool then wr else -1).
(** The offset is passed in two 32-bit halves. *)
Definition ovl_offset (off : Z) : Z := Z.lor (Z.shiftl (u32 (Z.shiftr off 32)) 32) (u32 off).
Definition fffile_writeat_win (fd : Z) (data : list Z) (off : Z) : prog winE Z :=
  let! '(ok, wr) := WriteFile fd (clamp32 data) (Some (ovl_offset off)) in Ret (if ok : bool then wr else -1).
Definition fffile_read_win (fd size : Z) : prog winE (Z * list Z) :=
  let! '(ok, (rd, d)) := ReadFile fd (Z.min size 4294967295) None in
  Ret (if ok : bool then (rd, d) else (-1, [])).
Definition fffile_readat_win (fd size off : Z) : prog winE (Z * list Z) :=
  let! '(ok, (rd, d)) := ReadFile fd (Z.min size 4294967295) (Some (ovl_offset off)) in
  if ok : bool then Ret (rd, d) else
  let! e := GetLastError in Ret (if e =? ERROR_HANDLE_EOF then (0, []) else (-1, [])).

Definition fffile_trunc_win (fd len : Z) : prog winE Z :=
  let* pos := fffile_seek_win fd 0 FILE_CURRENT in
  if pos <? 0 then Ret (-1) else
  let* r := fffile_seek_win fd len FILE_BEGIN in
  if r <? 0 then Ret (-1) else
  let! ok := SetEndOfFile fd in
  let r := notb ok in
  let* q := fffile_seek_win fd pos FILE_BEGIN in
  Ret (if q <? 0 then -1 else r).

Definition fffile_set_mtime_path_win (name : list Z) (last_write : fftime) : prog winE Z :=
  let* fd := fffile_open_win name FFFILE_WRITEONLY_win in
  if fd =? FFFILE_NULL_win then Ret (-1) else
  let* r := fffile_set_mtime_win fd last_write in
  do* fffile_close_win fd in
  Ret r.
End file.

(** ** Properties *)

(** The handles and the memory are as before. *)
Definition wclean (s : wstate) : Z → wstate → Prop := λ _ s', wsame s s'.

Section properties.
Context `{U : FfUni}.

(** the functions of one name release the converted name on every path, whichever call fails:
    no heap block and no handle stays (information, attributes, removal with its second attempt). *)
Theorem win_names_clean name attr s :
  wp wstep (fffile_info_path_win name) (λ _ s', wsame s s') never s ∧
  wp wstep (fffile_set_attr_path_win name attr) (λ _ s', wsame s s') never s ∧
  wp wstep (fffile_remove_win name) (λ _ s', wsame s s') never s.
Proof.
  split_and!.
  - apply with_name_wp; [done|]. intros w s1 Ho. cbn. intros [ok fad] s2 H2. by eapply release_wp.
  - apply with_name_wp; [done|]. intros w s1 Ho. cbn. intros ok s2 H2. by eapply release_wp.
  - apply with_name_wp; [done|]. intros w s1 Ho. cbn. intros ok s2 H2. apply wp_bind.
    assert (Hrel : ∀ r s3, wsame s2 s3 → wp wstep (wbuf_free w (Ret r)) (λ (_ : Z) s', wsame s s') never s3).
    { intros r s3 H3. eapply release_wp; [exact Ho|by eapply wsame_trans|done]. }
    destruct ok; cbn; [by apply Hrel|]. intros e s3 [_ ->].
    destruct (negb (e =? _)); cbn; [by apply Hrel|]. intros a s3 H3.
    destruct (_ || _); cbn; [by apply Hrel|]. intros ok s4 H4.
    assert (wsame s2 s4) by by eapply wsame_trans. destruct ok; cbn; [|by apply Hrel].
    intros ok s5 H5. apply Hrel. by eapply wsame_trans.
Qed.



(** One or two attempts. *)
Lemma create_file_wp (ok : bool) w access share creation f flags s :
  wp wstep
    (if negb ok then Ret FFFILE_NULL_win else
     let! fd := CreateFileW w access share creation f in
     if negb (fd =? FFFILE_NULL_win) then Ret fd else
     let! e := GetLastError in
     if (e =? ERROR_FILE_NOT_FOUND) &&
        (Z.land flags (Z.lor FFFILE_TRUNCATE_win 240) =? Z.lor FFFILE_TRUNCATE_win FFFILE_CREATE_win)
     then call (CreateFileW w access share CREATE_NEW f) else Ret fd)
    (λ fd s', new_handle FFFILE_NULL_win s fd s') never s.
Proof.
  destruct ok; cbn [negb wp]; [|by apply new_handle_none]. intros fd s1 H1.
  destruct (Z.eqb_spec fd FFFILE_NULL_win) as [->|Hne]; cbn; [|done].
  intros e s2 [_ ->]. destruct (_ && _); cbn; [|done]. intros fd s2 H2.
  destruct H1 as (E1 & E2 & [[_ E3]|[H _]]); [|exfalso; unfold FFFILE_NULL_win, INVALID_HANDLE_VALUE in *; lia].
  unfold new_handle in *. by rewrite <- E1, <- E2, <- E3.
Qed.



(** Without the check of the name nothing stops it. *)
Lemma open_win_wp name flags s :
  has flags FFFILE_NODOSNAME = false →
  wp wstep (fffile_open_win name flags) (λ fd s', new_handle FFFILE_NULL_win s fd s') never s.
Proof.
  intros Hn. unfold fffile_open_win. rewrite Hn. apply with_name_wp; [by apply new_handle_none|].
  intros w s1 Ho. cbn [bind]. apply wp_bind. eapply wp_mono; [apply create_file_wp| |done].
  intros fd s2 H2. by eapply release_handle_wp.
Qed.
End properties.

(** A converter that never fits its output into the caller's buffer. *)
Definition no_fit : FfUni := {|
  ffsz_utow _ _ := (0, []); ffutf8_to_utf16 _ _ := (-1, []);
  ffsz_wtou _ _ := (0, []); ffs_wtou _ _ := (0, []) |}.
Definition wempty : wstate := WState 0 ∅ ∅ ∅.


(** renaming (the same for hard links) leaks the converted old name when the conversion of the
    new name fails: some behaviour of the allocator leaves a block allocated. *)
Theorem rename_win_leaks o n :
  ¬ wp wstep (@fffile_rename_win no_fit o n) (λ _ s', wsame wempty s') (λ _ _, True) wempty.
Proof.
  intros H. cbn in H.
  specialize (H (1, []) (WState 0 ∅ ∅ {[1]})). premise H.
  { unfold new_mem. cbn. split_and!; [done..|]. right. split_and!; [lia|set_solver|set_solver]. }
  cbn in H. specialize (H (0, []) (WState 0 ∅ ∅ {[1]})). premise H.
  { unfold new_mem. cbn. auto. }
  destruct H as (_ & _ & H). cbn in H. set_solver.
Qed.

(** with FFFILE_NODOSNAME and a long name of more than 256 units, the comparison reads the
    stack array that was not written instead of the heap buffer. *)
Theorem open_nodosname_uninit name :
  ¬ wp wstep (@fffile_open_win no_fit name FFFILE_NODOSNAME) (λ _ _, True) never wempty.
Proof.
  intros H. cbn in H.
  specialize (H (1, []) (WState 0 ∅ ∅ {[1]})). premise H.
  { unfold new_mem. cbn. split_and!; [done..|]. right. split_and!; [lia|set_solver|set_solver]. }
  cbn in H. specialize (H (300, []) _ (wsame_refl _)). cbn in H.
  specialize (H 2 (WState 0 ∅ ∅ {[2; 1]})). premise H.
  { unfold new_mem. cbn. split_and!; [done..|]. right. split_and!; [lia|set_solver|set_solver]. }
  exact (H (300, []) _ (wsame_refl _)).
Qed.

(** FFFILE_CREATENEW with FFFILE_TRUNCATE: the creation bits, shifted down, are compared with
    the flag's value, which is not shifted, so an existing file is opened and truncated instead of
    the call failing, and a missing file is not created by the second attempt either. *)
Theorem open_createnew_truncates flags :
  Z.land flags 240 = FFFILE_CREATENEW_win → has flags FFFILE_TRUNCATE_win = true →
  open_creation flags = TRUNCATE_EXISTING ∧
  Z.land flags (Z.lor FFFILE_TRUNCATE_win 240) ≠ Z.lor FFFILE_TRUNCATE_win FFFILE_CREATE_win.
Proof.
  intros Hc Ht. unfold open_creation. rewrite Ht, Hc. split; [reflexivity|].
  intros H. assert (H' : Z.land (Z.land flags (Z.lor FFFILE_TRUNCATE_win 240)) 240 = 64) by by rewrite H.
  rewrite <- Z.land_assoc in H'. change (Z.land (Z.lor FFFILE_TRUNCATE_win 240) 240) with 240 in H'.
  rewrite Hc in H'. discriminate.
Qed.

Lemma open_createnew_truncates_witness :
  open_creation 5136 = TRUNCATE_EXISTING ∧
  Z.land 5136 (Z.lor FFFILE_TRUNCATE_win 240) ≠ Z.lor FFFILE_TRUNCATE_win FFFILE_CREATE_win.
Proof. apply (open_createnew_truncates 5136); reflexivity. Defined.
