(* ===== verification/Socket.v ===== *)
(** * FFOS/socket.h: addresses, I/O vectors, and sockets on UNIX

    An address is its length and the bytes of the union (the layout of Linux: family in host
    order at 0, port in network order at 2, the IPv4 address at 4, the IPv6 address at 8). *)
From S2P Require Import Prelude Prog Unix.

Definition AF_INET := 2.
Definition AF_INET6 := 10.
Definition SOCK_STREAM := 1.
Definition SOCK_DGRAM := 2.
Definition IPPROTO_TCP := 6.
Definition IPPROTO_UDP := 17.
Definition SOL_SOCKET := 1.
Definition SO_REUSEADDR := 2.
Definition SO_ERROR := 4.
Definition SO_ACCEPTFILTER := 4096.
Definition TCP_DEFER_ACCEPT := 9.
Definition SHUT_WR := 1.
Definition SIGPIPE := 13.
Definition SIG_IGN := 1.
Definition sizeof_sockaddr_in := 16.
Definition sizeof_sockaddr_in6 := 28.

(** ** Addresses *)

Record ffsockaddr := SockAddr { sa_len : Z; sa_mem : list Z }.

(** Bytes stored at an offset of the union, which is large enough. *)
Definition splice (buf : list Z) (at_ : nat) (src : list Z) : list Z :=
  take at_ buf ++ src ++ drop (at_ + length src) buf.

(** A 16-bit integer in host (little-endian) and in network order. *)
Definition le16 (x : Z) : list Z := [u8 x; u8 (Z.shiftr x 8)].
Definition be16 (x : Z) : list Z := [u8 (Z.shiftr x 8); u8 x].
Definition get16 (lo hi : Z) : Z := Z.lor (Z.shiftl hi 8) lo.
Definition byte_at (l : list Z) (i : nat) : Z := nth i l 0.

Definition ffsockaddr_set_ipv4 (a : ffsockaddr) (ipv4 : option (list Z)) (port : Z) : ffsockaddr :=
  let m := splice (sa_mem a) 0 (le16 AF_INET) in
  let m := splice m 2 (be16 (u16 port)) in
  SockAddr sizeof_sockaddr_in (splice m 4 (match ipv4 with Some ip => take 4 ip | None => [0; 0; 0; 0] end)).

Definition ffsockaddr_set_ipv6 (a : ffsockaddr) (ipv6 : option (list Z)) (port : Z) : ffsockaddr :=
  let m := splice (sa_mem a) 0 (le16 AF_INET6) in
  let m := splice m 2 (be16 (u16 port)) in
  SockAddr sizeof_sockaddr_in6 (splice m 8 (match ipv6 with Some ip => take 16 ip | None => replicate 16 0 end)).

Definition sa_family (a : ffsockaddr) : Z := get16 (byte_at (sa_mem a) 0) (byte_at (sa_mem a) 1).

(** [None]: [*port] is not assigned. *)
Definition ffsockaddr_ip_port (a : ffsockaddr) : list Z * option Z :=
  let port := get16 (byte_at (sa_mem a) 3) (byte_at (sa_mem a) 2) in
  if sa_family a =? AF_INET then (take 4 (drop 4 (sa_mem a)), Some port)
  else if sa_family a =? AF_INET6 then (take 16 (drop 8 (sa_mem a)), Some port)
  else ([], None).

(** An address filled in by the system. *)
Definition sa_store (a : ffsockaddr) (bytes : list Z) : list Z := splice (sa_mem a) 0 bytes.

(** ** I/O vectors: the bytes that each element delimits *)

Abbreviation ffiovec := (list Z).
Definition ffiovec_set (data : list Z) (len : Z) : ffiovec := take (Z.to_nat len) data.
Definition ffiovec_get (iov : ffiovec) : list Z := iov.
Definition ffiovec_shift (iov : ffiovec) (n : Z) : ffiovec * Z :=
  let n := Z.min n (Z.of_nat (length iov)) in (drop (Z.to_nat n) iov, n).

Fixpoint ffiovec_array_shift (iov : list ffiovec) (skip : Z) : list ffiovec * Z :=
  match iov with
  | [] => ([], 0)
  | v :: iov' =>
      let '(v, n) := ffiovec_shift v skip in
      let skip := skip - n in
      if negb (Z.of_nat (length v) =? 0) then (v :: iov', 1)
      else let '(iov', r) := ffiovec_array_shift iov' skip in (v :: iov', r)
  end.

(** ** Sockets on UNIX *)

Definition FFSOCK_NULL : Z := -1.
Definition FFSOCK_EINPROGRESS := EINPROGRESS.
Definition FFSOCK_NONBLOCK (os : unix_os) : Z :=
  match os with Apple => 1073741824 | BSD => 536870912 | Linux | Android => O_NONBLOCK end.
Definition FFSOCK_INIT_SIGPIPE := 1.

(** FFOS/kqtask.h *)
Record ffkq_task := KqTask { tk_active : Z; kev_flags : Z; kev_errno : Z }.
Definition task_zero : ffkq_task := KqTask 0 0 0.
Definition set_tk_active (v : Z) (t : ffkq_task) : ffkq_task := KqTask v (kev_flags t) (kev_errno t).

Definition ffsock_init (flags : Z) : prog unixE Z :=
  if has flags FFSOCK_INIT_SIGPIPE then do! u_sigaction SIGPIPE SIG_IGN 0 in Ret 0 else Ret 0.

Definition ffsock_close (sk : Z) : prog unixE unit :=
  if sk =? FFSOCK_NULL then Ret tt else do! u_close sk in Ret tt.

Definition ffsock_nonblock (sk nonblock : Z) : prog unixE Z := call (u_ioctl_fionbio sk nonblock).

(** The emulation of the non-blocking flag: [ffsock_create] on macOS, [ffsock_accept] without
    accept4(): the socket is closed when the mode cannot be set. *)
Definition sock_emulate (nonblock : bool) (sk : Z) : prog unixE (Z * bool) :=
  if nonblock && negb (sk =? FFSOCK_NULL) then
    let* r := ffsock_nonblock sk 1 in
    if negb (r =? 0) then do* ffsock_close sk in Ret (FFSOCK_NULL, true) else Ret (sk, false)
  else Ret (sk, false).

Definition ffsock_create (os : unix_os) (domain type protocol : Z) : prog unixE Z :=
  match os with
  | Apple =>
      let! sk := u_socket domain (Z.land type (Z.lnot (FFSOCK_NONBLOCK os))) protocol in
      let* '(sk, _) := sock_emulate (has type (FFSOCK_NONBLOCK os)) sk in Ret sk
  | _ => call (u_socket domain type protocol)
  end.

Definition ffsock_create_tcp (os : unix_os) (domain flags : Z) : prog unixE Z :=
  ffsock_create os domain (Z.lor SOCK_STREAM flags) IPPROTO_TCP.
Definition ffsock_create_udp (os : unix_os) (domain flags : Z) : prog unixE Z :=
  ffsock_create os domain (Z.lor SOCK_DGRAM flags) IPPROTO_UDP.

(** The bytes of an address that are passed to a call. *)
Definition sa_bytes (a : ffsockaddr) : list Z := take (Z.to_nat (sa_len a)) (sa_mem a).

Definition ffsock_connect (sk : Z) (addr : ffsockaddr) : prog unixE Z :=
  let! r := u_connect sk (sa_bytes addr) in Ret (if negb (r =? 0) then -1 else 0).

Definition EPOLLERR := 8.
Definition EV_EOF := 32768.

Definition ffsock_connect_async (os : unix_os) (sk : Z) (addr : ffsockaddr) (task : ffkq_task) : prog unixE (Z * ffkq_task) :=
  if truthy (tk_active task) then
    let task := set_tk_active 0 task in
    if is_linux os then
      if has (kev_flags task) EPOLLERR then
        let! '(r, err) := u_getsockopt sk SOL_SOCKET SO_ERROR in
        if negb (r =? 0) then Ret (-1, task) else
        if negb (err =? 0) then fail err (-1, task) else Ret (0, task)
      else Ret (0, task)
    else
      if has (kev_flags task) EV_EOF && negb (kev_errno task =? 0)
      then fail (kev_errno task) (-1, task) else Ret (0, task)
  else
    let task := task_zero in
    let! r := u_connect sk (sa_bytes addr) in
    if r =? 0 then Ret (0, task) else
    let! e := get_errno in
    Ret (-1, set_tk_active (b2z (e =? EINPROGRESS)) task).

Definition has_accept4 (os : unix_os) : bool := match os with Linux | BSD => true | Android | Apple => false end.

Definition ffsock_accept (os : unix_os) (listen_sk : Z) (addr : ffsockaddr) (flags : Z) : prog unixE (Z * ffsockaddr) :=
  if has_accept4 os then
    let! '(sk, (addr_size, bytes)) := u_accept4 listen_sk sizeof_sockaddr_in6 flags in
    Ret (sk, SockAddr (u32 addr_size) (sa_store addr bytes))
  else
    let! '(sk, (addr_size, bytes)) := u_accept listen_sk sizeof_sockaddr_in6 in
    let* '(sk, closed) := sock_emulate (has flags (FFSOCK_NONBLOCK os)) sk in
    Ret (sk, SockAddr (if closed : bool then sa_len addr else u32 addr_size) (sa_store addr bytes)).

Definition ffsock_localaddr (sk : Z) (addr : ffsockaddr) : prog unixE (Z * ffsockaddr) :=
  let! '(r, (size, bytes)) := u_getsockname sk sizeof_sockaddr_in6 in
  let mem := sa_store addr bytes in
  if negb (r =? 0) || (sizeof_sockaddr_in6 <? u32 size) then Ret (-1, SockAddr (sa_len addr) mem)
  else Ret (0, SockAddr (u32 size) mem).

(** The end of every attempt: an operation that would block becomes active. *)
Definition async_end {A} (blocked : bool) (task : ffkq_task) (a : A) : prog unixE (A * ffkq_task) :=
  let task := set_tk_active 0 task in
  if blocked then
    let! e := get_errno in
    if e =? EAGAIN then do! set_errno EINPROGRESS in Ret (a, set_tk_active 1 task) else Ret (a, task)
  else Ret (a, task).

Definition ffsock_accept_async (os : unix_os) (lsock : Z) (peer : ffsockaddr) (flags domain : Z)
    (local : option ffsockaddr) (task : ffkq_task) : prog unixE (Z * ffsockaddr * option ffsockaddr * ffkq_task) :=
  let task := set_tk_active 0 task in
  let* '(sk, peer) := ffsock_accept os lsock peer (Z.land flags (FFSOCK_NONBLOCK os)) in
  if sk =? -1 then
    let* '(_, task) := async_end true task tt in Ret (-1, peer, local, task)
  else
    match local with
    | Some a => let* '(_, a) := ffsock_localaddr sk a in Ret (sk, peer, Some a, task)
    | None => Ret (sk, peer, None, task)
    end.

Definition ffsock_setopt (sk level name val : Z) : prog unixE Z := call (u_setsockopt sk level name val).
Definition ffsock_getopt (sk level name : Z) : prog unixE (Z * Z) := call (u_getsockopt sk level name).
(** BSD: the value stands for the accept filter "dataready" or NULL. *)
Definition ffsock_deferaccept (os : unix_os) (sk enable : Z) : prog unixE Z :=
  match os with
  | Linux | Android => ffsock_setopt sk IPPROTO_TCP TCP_DEFER_ACCEPT enable
  | BSD => call (u_setsockopt sk SOL_SOCKET SO_ACCEPTFILTER (b2z (truthy enable)))
  | Apple => fail ENOSYS (-1)
  end.
Definition ffsock_bind (sk : Z) (addr : ffsockaddr) : prog unixE Z :=
  let* _ := ffsock_setopt sk SOL_SOCKET SO_REUSEADDR 1 in call (u_bind sk (sa_bytes addr)).
Definition ffsock_listen (listen_sk max_conn : Z) : prog unixE Z := call (u_listen listen_sk max_conn).

(** Received data: the result and the bytes stored in the buffer. *)
Definition ffsock_recv (sk cap flags : Z) : prog unixE (Z * list Z) := call (u_recv sk cap flags).
Definition ffsock_recvfrom (sk cap flags : Z) (peer : ffsockaddr) : prog unixE (Z * list Z * ffsockaddr) :=
  let! '(r, d, (size, bytes)) := u_recvfrom sk cap flags in
  let r := s32 r in
  let mem := sa_store peer bytes in
  Ret (r, d, SockAddr (if r <? 0 then sa_len peer else u32 size) mem).
Definition ffsock_recv_async (sk cap : Z) (task : ffkq_task) : prog unixE (Z * list Z * ffkq_task) :=
  let! '(r, d) := u_recv sk cap 0 in async_end (r <? 0) task (r, d).
Definition ffsock_recv_udp_async (sk cap : Z) (task : ffkq_task) := ffsock_recv_async sk cap task.
Definition ffsock_recvfrom_async (sk cap : Z) (peer : ffsockaddr) (task : ffkq_task) : prog unixE (Z * list Z * ffsockaddr * ffkq_task) :=
  let! '(r, d, (size, bytes)) := u_recvfrom sk cap 0 in
  let r := s32 r in
  let mem := sa_store peer bytes in
  async_end (r <? 0) task (r, d, SockAddr (if r <? 0 then sa_len peer else u32 size) mem).
Definition ffsock_send (sk : Z) (d : list Z) (flags : Z) : prog unixE Z := call (u_send sk d flags).
Definition ffsock_sendv (sk : Z) (iov : list ffiovec) : prog unixE Z := call (u_writev sk iov).
Definition ffsock_sendto (sk : Z) (d : list Z) (flags : Z) (peer : ffsockaddr) : prog unixE Z :=
  call (u_sendto sk d flags (sa_bytes peer)).
Definition ffsock_send_async (sk : Z) (d : list Z) (task : ffkq_task) : prog unixE (Z * ffkq_task) :=
  let! r := u_send sk d 0 in async_end (r <? 0) task r.
Definition ffsock_sendv_async (sk : Z) (iov : list ffiovec) (task : ffkq_task) : prog unixE (Z * ffkq_task) :=
  let! r := u_writev sk iov in async_end (r <? 0) task r.
Definition ffsock_fin (sk : Z) : prog unixE Z := call (u_shutdown sk SHUT_WR).

Definition ffaddrinfo_resolve (name : cstr) (flags : Z) : prog unixE Z :=
  let! '(r, a) := u_getaddrinfo name flags SOCK_DGRAM in
  if negb (r =? 0) then fail r 0 else Ret a.
Definition ffaddrinfo_free (a : Z) : prog unixE unit := call (u_freeaddrinfo a).
Definition ffaddrinfo_error (e : Z) : prog unixE cstr := call (u_gai_strerror (s32 e)).

(** ** Properties *)

(** A list of known length as its elements. *)
Ltac explode l H := repeat (destruct l as [|? l]; [discriminate H|]); destruct l; [|discriminate H].

Lemma port_bytes port : get16 (u8 (u16 port)) (u8 (Z.shiftr (u16 port) 8)) = u16 port.
Proof.
  assert (H : 0 ≤ u16 port < 2 ^ 16) by (apply uwrap_range; lia).
  unfold get16. rewrite lor_shiftl_add; [|lia|apply uwrap_range; lia].
  unfold u8, uwrap. rewrite Z.shiftr_div_pow2 by lia.
  change (2 ^ 16) with 65536 in H. change (2 ^ 8) with 256. dlia.
Qed.

(** C25: what was stored by ffsockaddr_set_ipv4() and ffsockaddr_set_ipv6() is read back by
    ffsockaddr_ip_port(): the address bytes and the 16-bit port; the length is that of the family's
    structure; the bytes of other fields (padding; flow information and scope, which stay as they
    were) are not touched. *)
Theorem sockaddr_roundtrip a ip4 ip6 port :
  length (sa_mem a) = 28%nat → length ip4 = 4%nat → length ip6 = 16%nat →
  ffsockaddr_ip_port (ffsockaddr_set_ipv4 a (Some ip4) port) = (ip4, Some (u16 port)) ∧
  ffsockaddr_ip_port (ffsockaddr_set_ipv4 a None port) = ([0; 0; 0; 0], Some (u16 port)) ∧
  ffsockaddr_ip_port (ffsockaddr_set_ipv6 a (Some ip6) port) = (ip6, Some (u16 port)) ∧
  ffsockaddr_ip_port (ffsockaddr_set_ipv6 a None port) = (replicate 16 0, Some (u16 port)) ∧
  drop 8 (sa_mem (ffsockaddr_set_ipv4 a (Some ip4) port)) = drop 8 (sa_mem a) ∧
  take 4 (drop 4 (sa_mem (ffsockaddr_set_ipv6 a (Some ip6) port))) = take 4 (drop 4 (sa_mem a)) ∧
  drop 24 (sa_mem (ffsockaddr_set_ipv6 a (Some ip6) port)) = drop 24 (sa_mem a) ∧
  sa_len (ffsockaddr_set_ipv4 a (Some ip4) port) = 16 ∧ sa_len (ffsockaddr_set_ipv6 a (Some ip6) port) = 28.
Proof.
  destruct a as [n m]. cbn [sa_mem]. intros Hm H4 H6. assert (Hp := port_bytes port).
  explode m Hm. explode ip4 H4. explode ip6 H6. clear Hm H4 H6.
  unfold ffsockaddr_ip_port, ffsockaddr_set_ipv4, ffsockaddr_set_ipv6, sa_family, splice, be16, byte_at.
  cbn -[u8 u16 get16 Z.shiftr]. 
  change (get16 (u8 AF_INET) (u8 (Z.shiftr AF_INET 8))) with 2.
  change (get16 (u8 AF_INET6) (u8 (Z.shiftr AF_INET6 8))) with 10.
  change (2 =? AF_INET) with true. change (10 =? AF_INET) with false. change (10 =? AF_INET6) with true.
  cbv iota. rewrite Hp. done.
Qed.

Lemma sockaddr_roundtrip_witness :
  ffsockaddr_ip_port (ffsockaddr_set_ipv4 (SockAddr 0 (replicate 28 170)) (Some [127; 0; 0; 1]) 70000) =
    ([127; 0; 0; 1], Some 4464).
Proof.
  exact (proj1 (sockaddr_roundtrip (SockAddr 0 (replicate 28 170)) [127; 0; 0; 1] (replicate 16 1) 70000
    eq_refl eq_refl eq_refl)).
Defined.

(** C26: skipping bytes of an I/O vector: the bytes that remain are those behind the first [skip]
    ones, whatever elements (empty ones included) they are spread over; 1 is returned exactly when
    bytes remain; the number of elements stays. *)
Theorem array_shift_ok iov skip iov' r :
  0 ≤ skip → ffiovec_array_shift iov skip = (iov', r) →
  concat iov' = drop (Z.to_nat skip) (concat iov) ∧ length iov' = length iov ∧
  r = b2z (skip <? Z.of_nat (length (concat iov))).
Proof.
  revert skip iov' r. induction iov as [|v iov IH]; intros skip iov' r Hs H; cbn in H.
  - injection H as <- <-. cbn. rewrite drop_nil. split_and!; [done..|].
    change (Z.of_nat 0) with 0. destruct (Z.ltb_spec skip 0); [lia|done].
  - unfold ffiovec_shift in H. cbn. rewrite length_app, drop_app.
    destruct (Z.eqb_spec (Z.of_nat (length (drop (Z.to_nat (Z.min skip (Z.of_nat (length v)))) v))) 0) as [He|He];
      cbn in H; rewrite length_drop in He.
    + destruct (ffiovec_array_shift iov _) as [iov2 r2] eqn:E. injection H as <- <-.
      apply IH in E as (Hc & Hl & ->); [|lia]. cbn. rewrite Hc, Hl.
      rewrite !(drop_ge v) by lia. split_and!; [cbn; f_equal; lia|done|].
      f_equal. apply eq_true_iff_eq. rewrite !Z.ltb_lt. lia.
    + injection H as <- <-. cbn. rewrite Z.min_l by lia.
      replace (Z.to_nat skip - length v)%nat with O by lia. split_and!; [done..|].
      destruct (Z.ltb_spec skip (Z.of_nat (length v + length (concat iov)))); [done|lia].
Qed.

Lemma array_shift_ok_witness :
  concat [[]; []; [3]; [4]] = drop 2 (concat [[1]; []; [2; 3]; [4]]) ∧
  length [[]; []; [3]; [4]] = length [[1]; []; [2; 3]; [4]] ∧
  1 = b2z (2 <? Z.of_nat (length (concat [[1]; []; [2; 3]; [4]]))).
Proof. apply (array_shift_ok [[1]; []; [2; 3]; [4]] 2 [[]; []; [3]; [4]] 1); [lia|reflexivity]. Defined.

(** The state of a task after an attempt: pending, with EINPROGRESS, or not, and never EAGAIN. *)
Definition reported (failed : Prop) (t : ffkq_task) (s : ustate) : Prop :=
  (tk_active t = 1 ∧ failed ∧ us_errno s = EINPROGRESS) ∨
  (tk_active t = 0 ∧ (failed → us_errno s ≠ EAGAIN)).

Lemma async_end_wp {A} blocked task (a : A) s :
  wp ustep (async_end blocked task a)
    (λ '(a', t) s', a' = a ∧ same s s' ∧ reported (blocked = true) t s') never s.
Proof.
  unfold async_end. destruct blocked; cbn.
  - intros e s1 [-> ->]. destruct (Z.eqb_spec (us_errno s) EAGAIN); cbn.
    + intros _ s2 [He Hs]. split_and!; [done|done|]. left. auto.
    + split_and!; [done|done|]. right. auto.
  - split_and!; [done|done|]. right. split; [done|]. discriminate.
Qed.

(** A transfer that ends with [async_end]. *)
Ltac transfer :=
  cbn; intros; repeat match goal with x : (_ * _)%type |- _ => destruct x end; cbn in *;
  eapply wp_mono; [apply async_end_wp| |done];
  intros [??] ? (-> & ? & Hr); split; [by eapply same_trans|];
  unfold reported in *; rewrite Z.ltb_lt in Hr; exact Hr.

(** the asynchronous transfers on UNIX open nothing and end in one of two ways: the task is
    active, the result is negative and errno is EINPROGRESS; or the task is not active, and then
    a failure is reported with the system's error, which is never EAGAIN. *)
Theorem transfers_report sk cap d iov peer task s :
  wp ustep (ffsock_recv_async sk cap task)
    (λ '((r, _), t) s', same s s' ∧ reported (r < 0) t s') never s ∧
  wp ustep (ffsock_recvfrom_async sk cap peer task)
    (λ '((r, _, _), t) s', same s s' ∧ reported (r < 0) t s') never s ∧
  wp ustep (ffsock_send_async sk d task) (λ '(r, t) s', same s s' ∧ reported (r < 0) t s') never s ∧
  wp ustep (ffsock_sendv_async sk iov task) (λ '(r, t) s', same s s' ∧ reported (r < 0) t s') never s.
Proof. split_and!; transfer. Qed.

Lemma emulate_wp nonblock sk s0 s :
  new_fd s0 sk s →
  wp ustep (sock_emulate nonblock sk) (λ '(r, _) s', new_fd s0 r s') never s.
Proof.
  intros Hn. unfold sock_emulate. destruct (Z.eqb_spec sk FFSOCK_NULL) as [->|Hne]; rewrite ?andb_false_r; [done|].
  destruct nonblock; cbn; [|done]. intros r s1 (E1 & E2 & E3 & E4 & E5).
  destruct Hn as (F2 & F3 & F4 & F5 & [[-> _]|(Hp & Hni & F1)]); [done|].
  destruct (r =? 0); cbn.
  - unfold new_fd. rewrite E1, E2, E3, E4, E5, F1. split_and!; [done..|]. by right.
  - unfold ffsock_close. rewrite (proj2 (Z.eqb_neq _ _) Hne). cbn.
    intros _ s2 (G2 & G3 & G4 & G5 & G1). unfold new_fd. rewrite G2, G3, G4, G5, G1, E1, E2, E3, E4, E5, F1.
    split_and!; [done..|]. left. split; [done|]. set_solver.
Qed.

Lemma accept_wp os lsk addr flags s :
  wp ustep (ffsock_accept os lsk addr flags) (λ '(r, _) s', new_fd s r s') never s.
Proof.
  unfold ffsock_accept. destruct (has_accept4 os); cbn; intros [sk [sz bytes]] s1 H1; [done|].
  apply wp_bind. eapply wp_mono; [by apply emulate_wp| |done]. by intros [r c] s2 H2.
Qed.

(** on every system and path, creating and accepting a socket (synchronously or not, with the
    emulated non-blocking mode whose setting may fail) opens the returned descriptor and nothing
    else, or returns -1 and leaves nothing open; an asynchronous accept reports as the transfers. *)
Theorem sockets_no_leak os domain type proto lsk peer flags local task s :
  wp ustep (ffsock_create os domain type proto) (λ r s', new_fd s r s') never s ∧
  wp ustep (ffsock_accept os lsk peer flags) (λ '(r, _) s', new_fd s r s') never s ∧
  wp ustep (ffsock_accept_async os lsk peer flags domain local task)
    (λ '(r, _, _, t) s', new_fd s r s' ∧ reported (r = -1) t s') never s.
Proof.
  split_and!.
  - unfold ffsock_create. destruct os; try by cbn.
    cbn. intros sk s1 H1. apply wp_bind. eapply wp_mono; [by apply emulate_wp| |done]. by intros [r c] s2 H2.
  - apply accept_wp.
  - unfold ffsock_accept_async. apply wp_bind. eapply wp_mono; [apply accept_wp| |done].
    intros [sk p] s1 H1. destruct (Z.eqb_spec sk (-1)) as [->|Hne].
    + apply wp_bind. eapply wp_mono; [apply async_end_wp| |done].
      intros [u t] s2 (_ & (E1 & E2 & E3 & E4 & E5) & Hr). cbn. split.
      * unfold new_fd in *. by rewrite E1, E2, E3, E4, E5.
      * unfold reported in *. tauto.
    + assert (Hrep : ∀ s', reported (sk = -1) (set_tk_active 0 task) s') by (right; done).
      destruct local as [a|]; cbn; [|by split]. intros [r [sz bytes]] s2 (E1 & E2 & E3 & E4 & E5).
      destruct (_ || _); cbn; (split; [|apply Hrep]); unfold new_fd in *; by rewrite E1, E2, E3, E4, E5.
Qed.
