(* ===== verification/SocketWin.v ===== *)
(** * FFOS/socket.h on Windows

    Overlapped operations: a task holds the OVERLAPPED object, whose identity is given to the
    system, and a flag that says whether an operation is pending. *)
From S2P Require Import Prelude Prog Unix Win StringW Error Socket.

Definition FFSOCK_NULL_win : Z := -1.
Definition FFSOCK_NONBLOCK_win := 256.
Definition ERROR_PROC_NOT_FOUND := 127.
Definition FFSOCK_INIT_WSA := 2.
Definition FFSOCK_INIT_WSAFUNCS := 4.

(** FFOS/kqtask.h *)
Record task_win := TaskWin { tw_ovl : Z; tw_active : Z; tw_buf : Z }.
Record task_accept := TaskAccept { ta_ovl : Z; ta_active : Z; ta_csock : Z }.
Definition set_tw_active v (t : task_win) := TaskWin (tw_ovl t) v (tw_buf t).
Definition set_ta_active v (t : task_accept) := TaskAccept (ta_ovl t) v (ta_csock t).

Definition ffsock_close_win (sk : Z) : prog winE unit :=
  if sk =? FFSOCK_NULL_win then Ret tt else do! w_closesocket sk in Ret tt.
Definition ffsock_nonblock_win (sk nonblock : Z) : prog winE Z := call (w_ioctlsocket sk nonblock).
Definition ffsock_setopt_win (sk level name val : Z) : prog winE Z := call (w_setsockopt sk level name val).
Definition ffsock_getopt_win (sk level name : Z) : prog winE (Z * Z) := call (w_getsockopt sk level name).
Definition ffsock_deferaccept_win (sk enable : Z) : prog winE Z := wfail ERROR_NOT_SUPPORTED (-1).

(** The non-blocking mode of a new socket; [true]: it could not be set and the socket was closed. *)
Definition sock_mode (nonblock : bool) (sk : Z) : prog winE (Z * bool) :=
  if nonblock && negb (sk =? FFSOCK_NULL_win) then
    let* r := ffsock_nonblock_win sk 1 in
    if negb (r =? 0) then do* ffsock_close_win sk in Ret (FFSOCK_NULL_win, true) else Ret (sk, false)
  else Ret (sk, false).

Definition ffsock_create_win (domain type protocol : Z) : prog winE Z :=
  let! sk := w_socket domain (Z.land type (Z.lnot FFSOCK_NONBLOCK_win)) protocol in
  let* '(sk, _) := sock_mode (has type FFSOCK_NONBLOCK_win) sk in Ret sk.

Definition ffsock_connect_win (sk : Z) (addr : ffsockaddr) : prog winE Z :=
  let! r := w_connect sk (sa_bytes addr) in Ret (if negb (r =? 0) then -1 else 0).

(** ** The steps shared by the asynchronous operations *)

(** [GetOverlappedResult]: pending again, failed, or finished with a number of bytes. *)
Inductive ovl_result := Pending | Failed | Finished (n : Z).
Definition ovl_check (ovl : Z) : prog winE ovl_result :=
  let! '(ok, res) := GetOverlappedResult ovl in
  if ok : bool then Ret (Finished res) else
  let! e := GetLastError in
  if e =? ERROR_IO_INCOMPLETE then do! SetLastError ERROR_IO_PENDING in Ret Pending else Ret Failed.

(** Whether the operation that was started is pending ([ok]: it has finished at once). *)
Definition ovl_start (ok : bool) : prog winE bool :=
  if ok then do! SetLastError ERROR_IO_PENDING in Ret true else
  let! e := GetLastError in Ret (e =? ERROR_IO_PENDING).

(** The first part of an operation; [k] goes on when no operation is pending (any more). *)
Definition ovl_prologue {D} (d : D) (task : task_win) (resume : Z → bool)
    (k : task_win → prog winE (Z * D * task_win)) : prog winE (Z * D * task_win) :=
  if truthy (tw_active task) then
    let* r := ovl_check (tw_ovl task) in
    match r with
    | Pending => Ret (-1, d, task)
    | Failed => Ret (-1, d, set_tw_active 0 task)
    | Finished n => if resume n then k (set_tw_active 0 task) else Ret (n, d, set_tw_active 0 task)
    end
  else k task.

(** The last part: the operation is started on the task. *)
Definition ovl_epilogue {D} (d : D) (task : task_win) (ok : bool) : prog winE (Z * D * task_win) :=
  let* p := ovl_start ok in Ret (-1, d, if p : bool then set_tw_active 1 task else task).

(** [!(r < 0 && GetLastError() == WSAEWOULDBLOCK)] *)
Definition not_blocked (r : Z) : prog winE bool :=
  if r <? 0 then let! e := GetLastError in Ret (negb (e =? WSAEWOULDBLOCK)) else Ret true.

(** The C library's functions take the size as an [int]: [s32 (min32 n)]. *)
Definition min32 (n : Z) : Z := Z.min n 4294967295.

(** ** Operations *)

Definition ffsock_connect_async_win (sk : Z) (addr : ffsockaddr) (task : task_win) : prog winE (Z * unit * task_win) :=
  if truthy (tw_active task) then
    let* r := ovl_check (tw_ovl task) in
    match r with
    | Pending => Ret (-1, tt, task)
    | Failed => Ret (-1, tt, set_tw_active 0 task)
    | Finished _ => Ret (0, tt, set_tw_active 0 task)
    end
  else
    let a := SockAddr 0 (splice (replicate 28 0) 0 (le16 (sa_family addr))) in
    let! b := w_bind sk (take (Z.to_nat (sa_len addr)) (sa_mem a)) in
    if negb (b =? 0) then Ret (-1, tt, task) else
    let task := TaskWin (tw_ovl task) 0 0 in
    let! ok := ConnectEx sk (sa_bytes addr) (tw_ovl task) in
    ovl_epilogue tt task ok.

Definition ffsock_accept_win (listen_sk : Z) (peer : ffsockaddr) (flags : Z) : prog winE (Z * ffsockaddr) :=
  let! '(sk, (addr_size, bytes)) := w_accept listen_sk sizeof_sockaddr_in6 in
  let* '(sk, closed) := sock_mode (has flags FFSOCK_NONBLOCK_win) sk in
  Ret (sk, SockAddr (if closed : bool then sa_len peer else u32 addr_size) (sa_store peer bytes)).

Definition ffsock_accept_async_win (lsock : Z) (peer : ffsockaddr) (flags domain : Z) (local : option ffsockaddr)
    (task : task_accept) : prog winE (Z * ffsockaddr * option ffsockaddr * task_accept) :=
  if truthy (ta_active task) then
    let* r := ovl_check (ta_ovl task) in
    match r with
    | Pending => Ret (-1, peer, local, task)
    | Failed => Ret (-1, peer, local, set_ta_active 0 task)
    | Finished _ =>
        let! '(family, addr_local, addr_peer) := GetAcceptExSockaddrs (ta_ovl task) in
        let same := domain =? family in
        let peer := if same then SockAddr (Z.of_nat (length addr_peer)) (sa_store peer addr_peer)
                    else SockAddr 0 (sa_mem peer) in
        let local := if same then (λ l, SockAddr (Z.of_nat (length addr_local)) (sa_store l addr_local)) <$> local
                     else local in
        Ret (ta_csock task, peer, local, set_ta_active 0 task)
    end
  else
    let* '(csock, peer) := ffsock_accept_win lsock peer (Z.land flags FFSOCK_NONBLOCK_win) in
    if negb (csock =? -1) then Ret (csock, peer, local, task) else
    let! e := GetLastError in
    if negb (e =? WSAEWOULDBLOCK) then Ret (-1, peer, local, task) else
    let* csock := ffsock_create_win domain (Z.lor SOCK_STREAM (Z.land flags FFSOCK_NONBLOCK_win)) 0 in
    if csock =? -1 then Ret (-1, peer, local, task) else
    let task := TaskAccept (ta_ovl task) 0 0 in
    let! ok := AcceptEx lsock csock (ta_ovl task) in
    let* p := ovl_start ok in
    if negb p then do! w_closesocket csock in Ret (-1, peer, local, task) else
    Ret (-1, peer, local, TaskAccept (ta_ovl task) 1 csock).

Definition ffsock_recv_win (sk cap flags : Z) : prog winE (Z * list Z) := call (w_recv sk (s32 (min32 cap)) flags).
Definition ffsock_recvfrom_win (sk cap flags : Z) (peer : ffsockaddr) : prog winE (Z * list Z * ffsockaddr) :=
  let! '(r, d, (size, bytes)) := w_recvfrom sk (s32 cap) flags in
  Ret (r, d, SockAddr (if r <? 0 then sa_len peer else u32 size) (sa_store peer bytes)).

(** The received bytes that the call itself stores; what an overlapped operation stores is in the
    caller's buffer when it finishes. *)
Definition ffsock_recv_async_win (sk cap : Z) (task : task_win) : prog winE (Z * list Z * task_win) :=
  ovl_prologue [] task (λ _, true) (λ task,
    let! '(r, d) := w_recv sk (s32 (min32 cap)) 0 in
    let* done := not_blocked r in
    if done : bool then Ret (r, d, task) else
    let! '(ok, _) := ReadFile_ovl sk 0 (tw_ovl task) in
    ovl_epilogue [] task ok).

Definition ffsock_recv_udp_async_win (sk cap : Z) (task : task_win) : prog winE (Z * list Z * task_win) :=
  ovl_prologue [] task (λ _, false) (λ task,
    let! '(r, d) := w_recv sk (s32 (min32 cap)) 0 in
    let* done := not_blocked r in
    if done : bool then Ret (r, d, task) else
    let! '(ok, _) := ReadFile_ovl sk (min32 cap) (tw_ovl task) in
    ovl_epilogue [] task ok).

Definition ffsock_recvfrom_async_win (sk cap : Z) (peer : ffsockaddr) (task : task_win) : prog winE (Z * (list Z * ffsockaddr) * task_win) :=
  ovl_prologue ([], peer) task (λ _, false) (λ task,
    let! '(r, d, (addr_size, bytes)) := w_recvfrom sk (s32 (min32 cap)) 0 in
    let* done := not_blocked r in
    if done : bool then Ret (r, (d, SockAddr (u32 addr_size) (sa_store peer bytes)), task) else
    let peer := SockAddr sizeof_sockaddr_in6 (sa_store peer bytes) in
    let! r := WSARecvFrom sk (min32 cap) (tw_ovl task) in
    ovl_epilogue ([], peer) task (r =? 0)).

Definition ffsock_send_win (sk : Z) (d : list Z) (flags : Z) : prog winE Z :=
  call (w_send sk d (s32 (min32 (Z.of_nat (length d)))) flags).
Definition ffsock_sendv_win (sk : Z) (iov : list ffiovec) : prog winE Z :=
  let! '(r, sent) := WSASend sk iov in Ret (if r =? 0 then sent else -1).
Definition ffsock_sendto_win (sk : Z) (d : list Z) (flags : Z) (peer : ffsockaddr) : prog winE Z :=
  call (w_sendto sk d (s32 (min32 (Z.of_nat (length d)))) flags (sa_bytes peer)).

(** The one byte that is sent by the overlapped operation stays in the task. *)
Definition buf_byte (d : list Z) (old : Z) : Z := match d with [] => old | c :: _ => c end.

Definition ffsock_send_async_win (sk : Z) (buf : list Z) (task : task_win) : prog winE (Z * unit * task_win) :=
  ovl_prologue tt task (λ _, false) (λ task,
    let len := min32 (Z.of_nat (length buf)) in
    let! r := w_send sk buf (s32 len) 0 in
    let* done := not_blocked r in
    if done : bool then Ret (r, tt, task) else
    let buf := take (Z.to_nat (Z.min len 1)) buf in
    let task := TaskWin (tw_ovl task) (tw_active task) (buf_byte buf (tw_buf task)) in
    let! ok := WriteFile_ovl sk buf (tw_ovl task) in
    ovl_epilogue tt task ok).

(** The first byte of the first element that is not empty. *)
Fixpoint sendv_first (iov : list ffiovec) : option Z :=
  match iov with
  | [] => None
  | [] :: iov => sendv_first iov
  | (c :: _) :: _ => Some c
  end.

Definition ffsock_sendv_async_win (sk : Z) (iov : list ffiovec) (task : task_win) : prog winE (Z * unit * task_win) :=
  ovl_prologue tt task (λ _, false) (λ task,
    let! '(r, sent) := WSASend sk iov in
    if r =? 0 then Ret (sent, tt, task) else
    let! e := GetLastError in
    if negb (e =? WSAEWOULDBLOCK) then Ret (-1, tt, task) else
    match sendv_first iov with
    | None => Ret (0, tt, task)
    | Some c =>
        let task := TaskWin (tw_ovl task) (tw_active task) c in
        let! ok := WriteFile_ovl sk [c] (tw_ovl task) in
        ovl_epilogue tt task ok
    end).

(** ** Initialisation *)

Definition _ff_wsa_getfunc (sk guid : Z) : prog winE Z :=
  let! func := WSAIoctl_getfunc sk guid in
  if func =? 0 then do! SetLastError ERROR_PROC_NOT_FOUND in Ret func else Ret func.

(** The function pointers, in the order of the table. *)
Fixpoint getfuncs_loop (sk : Z) (guids : list Z) : prog winE (Z * list Z) :=
  match guids with
  | [] => Ret (0, [])
  | g :: guids =>
      let* f := _ff_wsa_getfunc sk g in
      if f =? 0 then Ret (-1, [f]) else
      let* '(rc, fs) := getfuncs_loop sk guids in Ret (rc, f :: fs)
  end.
Definition _ff_wsa_getfuncs : prog winE (Z * list Z) :=
  let* sk := ffsock_create_win AF_INET SOCK_STREAM 0 in
  if sk =? FFSOCK_NULL_win then Ret (-1, []) else
  let* r := getfuncs_loop sk [0; 1; 2; 3] in
  do* ffsock_close_win sk in Ret r.

Definition ffsock_init_win (flags : Z) : prog winE Z :=
  let* r := if has flags FFSOCK_INIT_WSA then
      let! r := WSAStartup in Ret (if negb (r =? 0) then -1 else 0) else Ret 0 in
  if negb (r =? 0) then Ret (-1) else
  if has flags FFSOCK_INIT_WSAFUNCS then
    let* '(r, _) := _ff_wsa_getfuncs in Ret (if negb (r =? 0) then -1 else 0)
  else Ret 0.

Definition ffsock_fin_win (sk : Z) : prog winE Z :=
  let! ok := DisconnectEx sk in Ret (b2z (negb ok)).

Definition ffiovec_set_win (data : list Z) (len : Z) : ffiovec := take (Z.to_nat (min32 len)) data.
Definition ffiovec_get_win (iov : ffiovec) : list Z := iov.
Definition ffiovec_shift_win (iov : ffiovec) (n : Z) : ffiovec * Z :=
  let n := Z.min n (Z.of_nat (length iov)) in (drop (Z.to_nat n) iov, n).

Definition NI_MAXHOST := 1025.
Definition ffaddrinfo_resolve_win `{FfUni} (name : list Z) (flags : Z) : prog winE Z :=
  let '(n, wname) := ffsz_utow NI_MAXHOST name in
  if n <=? 0 then wfail ERROR_INVALID_PARAMETER 0 else
  let! '(r, a) := GetAddrInfoW wname flags in
  Ret (if negb (r =? 0) then 0 else a).
Definition ffaddrinfo_free_win (a : Z) : prog winE unit := call (FreeAddrInfoW a).
Definition ffaddrinfo_error_win `{FfUni, FfCopyz} (e : Z) (_fferr_buffer : list Z) : prog winE (list Z) :=
  fferr_strptr_win (s32 e) _fferr_buffer.

(** ** Properties *)

#[local] Hint Resolve wsame_refl wsame_trans : core.

Lemma ovl_start_wp ok s :
  wp wstep (ovl_start ok) (λ p s', wsame s s' ∧ (p = true → ws_err s' = ERROR_IO_PENDING)) never s.
Proof.
  unfold ovl_start. destruct ok; cbn.
  - intros _ s1 [He Hs]. auto.
  - intros e s1 [-> ->]. split; [done|]. apply Z.eqb_eq.
Qed.

Lemma ovl_check_wp ovl s :
  wp wstep (ovl_check ovl)
    (λ r s', wsame s s' ∧ (r = Pending → ws_err s' = ERROR_IO_PENDING)) never s.
Proof.
  unfold ovl_check. cbn. intros [ok res] s1 Hs1. destruct ok; cbn; [done|].
  intros e s2 [-> ->]. destruct (_ =? _); cbn; [|done].
  intros _ s3 [He Hs3]. eauto.
Qed.

(** What the system knows of the operations: the OVERLAPPED objects whose completion is to come, and
    which of them only wait for data (a read of 0 bytes); whether an object has been given to an operation
    while it was pending; the number that the last attempt or completion answered ([None]: it moved no
    data, it was the end of a read of 0 bytes); and whether that attempt would have blocked. *)
Record io := Io { io_pending : gmap Z bool; io_clash : bool; io_n : option Z; io_blocked : bool }.

Definition io_moved (n : Z) (failed : bool) (err : Z) (i : io) : io :=
  Io (io_pending i) (io_clash i) (Some n) (failed && (err =? WSAEWOULDBLOCK)).
Definition io_started (o : Z) (probe ok : bool) (err : Z) (i : io) : io :=
  Io (if ok || (err =? ERROR_IO_PENDING) then <[o := probe]> (io_pending i) else io_pending i)
    (io_clash i || bool_decide (is_Some (io_pending i !! o))) (Some (-1)) false.
Definition io_queried (o : Z) (ok : bool) (n err : Z) (i : io) : io :=
  if ok then Io (delete o (io_pending i)) (io_clash i)
               (if default false (io_pending i !! o) then None else Some n) false
  else Io (if err =? ERROR_IO_INCOMPLETE then io_pending i else delete o (io_pending i)) (io_clash i) (Some (-1)) false.

(** An operation that succeeds at once also has a completion, as Windows does unless
    FILE_SKIP_COMPLETION_PORT_ON_SUCCESS is set; a query that fails with any error but
    ERROR_IO_INCOMPLETE reports the end of the operation. *)
Definition io_next {X} (e : winE X) : X → Z → io → io :=
  match e in winE X return X → Z → io → io with
  | ReadFile_ovl _ cap o => λ r, io_started o (cap =? 0) r.1
  | WriteFile_ovl _ _ o => λ r, io_started o false r
  | WSARecvFrom _ _ o => λ r, io_started o false (r =? 0)
  | GetOverlappedResult o => λ r, io_queried o r.1 r.2
  | w_recv _ _ _ => λ r, io_moved r.1 (r.1 <? 0)
  | w_recvfrom _ _ _ => λ r, io_moved r.1.1 (r.1.1 <? 0)
  | w_send _ _ _ _ => λ r, io_moved r (r <? 0)
  | WSASend _ _ => λ r, io_moved (if r.1 =? 0 then r.2 else -1) (negb (r.1 =? 0))
  | _ => λ _ _ i, i
  end.
Definition io_step : env winE (wstate * io) := λ s X e x s',
  wstep s.1 X e x s'.1 ∧ s'.2 = io_next e x (ws_err s'.1) s.2.

(** The pending operations are [i]'s and possibly the one of [o]; no object is used twice. *)
Definition io_frame (o : Z) (i i' : io) : Prop :=
  io_clash i' = io_clash i ∧ delete o (io_pending i') = delete o (io_pending i).

(** A task after a transfer: either its operation is pending ([probe]: it only waits for data), the flag is set
    and -1 is returned with ERROR_IO_PENDING; or its operation is not pending, the flag is clear, and the number of
    the last attempt or completion is returned, which did not block ([void]: there is nothing to wait for, 0 is
    returned). *)
Definition win_reported {D} (probe void : bool) (o : Z) (s : wstate * io) : Z * D * task_win → wstate * io → Prop :=
  λ '(r, _, t) s', wsame s.1 s'.1 ∧ io_frame o s.2 s'.2 ∧ tw_ovl t = o ∧
    ((tw_active t = 1 ∧ io_pending s'.2 !! o = Some probe ∧ r = -1 ∧ ws_err s'.1 = ERROR_IO_PENDING) ∨
     (tw_active t = 0 ∧ io_pending s'.2 !! o = None ∧
      (io_n s'.2 = Some r ∧ io_blocked s'.2 = false ∨ void = true ∧ r = 0))).

(** Between the calls: the task is idle. *)
Definition io_idle (o : Z) (s s' : wstate * io) : Prop :=
  wsame s.1 s'.1 ∧ io_frame o s.2 s'.2 ∧ io_pending s'.2 !! o = None.

Lemma io_idle_moved o s s1 i1 s2 n b :
  io_idle o s (s1, i1) → wsame s1 s2 → io_idle o s (s2, io_moved n b (ws_err s2) i1).
Proof. intros (H1 & H2 & H3) Hs. split_and!; [by eapply wsame_trans|done|done]. Qed.

Lemma epilogue_wp {D} probe void (d : D) task ok s s1 i1 s2 :
  tw_active task = 0 → io_idle (tw_ovl task) s (s1, i1) → wsame s1 s2 →
  wp io_step (ovl_epilogue d task ok) (win_reported probe void (tw_ovl task) s) never
    (s2, io_started (tw_ovl task) probe ok (ws_err s2) i1).
Proof.
  intros Ha (H1 & [Hc Hp] & H3) Hs. cbn in *. unfold ovl_epilogue, ovl_start, io_started.
  rewrite H3, (bool_decide_eq_false_2 _ is_Some_None), orb_false_r. destruct ok; cbn.
  - intros [] [s3 i3] [[He Hs3] Hi]. cbn in *. subst i3. cbn. split_and!; [eauto| |done|].
    + split; [done|]. cbn. by rewrite delete_insert_eq.
    + left. cbn. rewrite lookup_insert_eq. done.
  - intros e [s3 i3] [[-> E3] Hi]. cbn in *. subst s3 i3. destruct (Z.eqb_spec (ws_err s2) ERROR_IO_PENDING) as [He|]; cbn.
    + split_and!; [eauto| |done|].
      * split; [done|]. cbn. by rewrite delete_insert_eq.
      * left. cbn. rewrite lookup_insert_eq. done.
    + split_and!; [eauto|done|done|]. right. auto.
Qed.

(** A task in order: the flag says whether its operation is pending, which is of the kind [probe]. *)
Definition task_ok (probe : bool) (t : task_win) (i : io) : Prop :=
  (tw_active t = 1 ∧ io_pending i !! tw_ovl t = Some probe) ∨ (tw_active t = 0 ∧ io_pending i !! tw_ovl t = None).

Lemma prologue_wp {D} probe void (d : D) task resume k s :
  task_ok probe task s.2 → (probe = true → ∀ n, resume n = true) →
  (∀ t s1, tw_active t = 0 → tw_ovl t = tw_ovl task → io_idle (tw_ovl task) s s1 →
    wp io_step (k t) (win_reported probe void (tw_ovl task) s) never s1) →
  wp io_step (ovl_prologue d task resume k) (win_reported probe void (tw_ovl task) s) never s.
Proof.
  intros Ht Hres Hk. destruct s as [s i]. unfold ovl_prologue. destruct Ht as [[Ha Hin]|[Ha Hni]]; rewrite Ha; cbn.
  2:{ by apply Hk. }
  cbn in Hin. intros [ok n] [s1 i1] [Hs1 Hi1]. cbn in *. subst i1. unfold io_queried. rewrite Hin. destruct ok; cbn.
  { set (i1 := Io _ _ _ _). assert (Hi : io_idle (tw_ovl task) (s, i) (s1, i1)).
    { split_and!; [done|split; [done|cbn; by rewrite delete_delete_eq]|cbn; apply lookup_delete_eq]. }
    destruct (resume n) eqn:Er; [by apply Hk|]. destruct Hi as (? & ? & ?). cbn in *. split_and!; [done..|]. right.
    split_and!; [done|done|]. left. by destruct probe; [rewrite Hres in Er|]. }
  intros e [s2 i2] [[-> E2] Hi2]. cbn in *. subst s2 i2. destruct (Z.eqb_spec (ws_err s1) ERROR_IO_INCOMPLETE) as [He|He]; cbn.
  - intros [] [s3 i3] [[He3 Hs3] Hi3]. cbn in *. subst i3. split_and!; [eauto|done|done|]. by left.
  - split_and!; [done|split; [done|cbn; by rewrite delete_delete_eq]|done|]. right.
    split_and!; [done|cbn; apply lookup_delete_eq|auto].
Qed.

(** The attempt has answered [r]; the overlapped operation follows when it would have blocked. *)
Lemma attempt_wp {D} probe void r d (t : task_win) (k : prog winE (Z * D * task_win)) s s1 i1 :
  tw_active t = 0 → io_idle (tw_ovl t) s (s1, io_moved r (r <? 0) (ws_err s1) i1) →
  wp io_step k (win_reported probe void (tw_ovl t) s) never (s1, io_moved r (r <? 0) (ws_err s1) i1) →
  wp io_step (let* done := not_blocked r in if done : bool then Ret (r, d, t) else k)
    (win_reported probe void (tw_ovl t) s) never (s1, io_moved r (r <? 0) (ws_err s1) i1).
Proof.
  intros Ha (H1 & H2 & H3) Hk. unfold not_blocked, io_moved in *. cbn in *. destruct (r <? 0); cbn in *.
  - intros e [s2 i2] [[-> E2] Hi]. cbn in *. subst s2 i2. destruct (_ =? WSAEWOULDBLOCK); cbn in *; [done|].
    split_and!; [done..|]. right. auto.
  - split_and!; [done..|]. right. auto.
Qed.

(** C24: the asynchronous transfers on Windows, from a task whose flag says whether its operation, started by the
    same kind of transfer, is pending in the system: nothing is opened or allocated, no OVERLAPPED object is given to
    an operation while it is pending, and no other operation is touched.  Afterwards either the task's
    operation is pending, its flag is 1, the result is -1 and the last error is ERROR_IO_PENDING; or
    its operation is not pending, its flag is 0 and the result is what the last attempt or
    completion that moves data answered, and that attempt would not have blocked: the end of the read of 0 bytes
    that ffsock_recv_async() waits with is not taken for a result.  (When a vector has no byte to
    wait with, ffsock_sendv_async() may return 0 instead.) *)
Theorem win_transfers_report sk cap d iov peer task s :
  (task_ok true task s.2 →
   wp io_step (ffsock_recv_async_win sk cap task) (win_reported true false (tw_ovl task) s) never s) ∧
  (task_ok false task s.2 → 1 ≤ cap →
   wp io_step (ffsock_recv_udp_async_win sk cap task) (win_reported false false (tw_ovl task) s) never s ∧
   wp io_step (ffsock_recvfrom_async_win sk cap peer task) (win_reported false false (tw_ovl task) s) never s ∧
   wp io_step (ffsock_send_async_win sk d task) (win_reported false false (tw_ovl task) s) never s ∧
   wp io_step (ffsock_sendv_async_win sk iov task)
     (win_reported false (bool_decide (sendv_first iov = None)) (tw_ovl task) s) never s).
Proof.
  split; [intros Ht|intros Ht Hcap; split_and!];
    (apply prologue_wp; [done|done|]; intros t [s1 i1] Ha Ho Hi; rewrite <- Ho in *).
  - cbn. intros [r b] [s2 i2] [Hs2 Hi2]. cbn in *. subst i2. eapply io_idle_moved in Hi; [|exact Hs2].
    apply attempt_wp; [done..|]. cbn. intros [ok x] [s3 i3] [Hs3 Hi3]. cbn in *. subst i3. by eapply epilogue_wp.
  - cbn -[min32]. intros [r b] [s2 i2] [Hs2 Hi2]. cbn -[min32] in *. subst i2. eapply io_idle_moved in Hi; [|exact Hs2].
    apply attempt_wp; [done..|]. cbn -[min32]. intros [ok x] [s3 i3] [Hs3 Hi3]. cbn -[min32] in *. subst i3.
    assert (min32 cap =? 0 = false) as -> by (apply Z.eqb_neq; unfold min32; lia). by eapply epilogue_wp.
  - cbn. intros [[r b] [sz a]] [s2 i2] [Hs2 Hi2]. cbn in *. subst i2. eapply io_idle_moved in Hi; [|exact Hs2].
    apply attempt_wp; [done..|]. cbn. intros r' [s3 i3] [Hs3 Hi3]. cbn in *. subst i3. by eapply epilogue_wp.
  - cbn. intros r [s2 i2] [Hs2 Hi2]. cbn in *. subst i2. eapply io_idle_moved in Hi; [|exact Hs2].
    apply attempt_wp; [done..|]. cbn. intros ok [s3 i3] [Hs3 Hi3]. cbn in *. subst i3.
    apply (epilogue_wp _ _ _ (TaskWin (tw_ovl t) (tw_active t) _) _ _ _ _ _ Ha Hi Hs3).
  - cbn. intros [r sent] [s2 i2] [Hs2 Hi2]. cbn in *. subst i2. eapply io_idle_moved in Hi; [|exact Hs2].
    destruct Hi as (F1 & F2 & F3). cbn in *. destruct (r =? 0); cbn in *.
    { split_and!; [done..|]. right. auto. }
    intros e [s3 i3] [[-> E3] Hi3]. cbn in *. subst s3 i3.
    destruct (_ =? WSAEWOULDBLOCK) eqn:He; cbn in *.
    2:{ split_and!; [done..|]. right. auto. }
    destruct (sendv_first iov) as [c|]; cbn in *.
    2:{ split_and!; [done..|]. right. auto. }
    intros ok [s3 i3] [Hs3 Hi3]. cbn in *. subst i3.
    by apply (epilogue_wp _ _ _ (TaskWin (tw_ovl t) (tw_active t) c) _ _ _ _ _ Ha ltac:(done) Hs3).
Qed.

Lemma win_transfers_report_witness :
  let i := Io {[9 := true; 4 := false]} false None false in
  task_ok true (TaskWin 9 1 0) i ∧
  wp io_step (ffsock_recv_async_win 5 100 (TaskWin 9 1 0))
    (win_reported true false 9 (WState 0 ∅ {[5]} ∅, i)) never (WState 0 ∅ {[5]} ∅, i) ∧
  wp io_step (ffsock_send_async_win 5 [1; 2] (TaskWin 4 1 0))
    (win_reported false false 4 (WState 0 ∅ {[5]} ∅, i)) never (WState 0 ∅ {[5]} ∅, i).
Proof.
  intros i.
  destruct (win_transfers_report 5 100 [] [] (SockAddr 0 []) (TaskWin 9 1 0) (WState 0 ∅ {[5]} ∅, i)) as [H1 _].
  destruct (win_transfers_report 5 100 [1; 2] [] (SockAddr 0 []) (TaskWin 4 1 0) (WState 0 ∅ {[5]} ∅, i)) as [_ H2].
  assert (task_ok true (TaskWin 9 1 0) i) as Hi by by left.
  split_and!; [exact Hi|by apply H1|]. apply H2; [by left|lia].
Defined.

(** Sockets: [sk] is new, or nothing is. *)
Lemma sock_mode_wp nonblock sk s0 s :
  new_sock s0 sk s → wp wstep (sock_mode nonblock sk) (λ '(r, _) s', new_sock s0 r s') never s.
Proof.
  intros Hn. unfold sock_mode. destruct (Z.eqb_spec sk FFSOCK_NULL_win) as [->|Hne]; rewrite ?andb_false_r; [done|].
  destruct nonblock; cbn; [|done]. intros r s1 (E1 & E2 & E3).
  destruct Hn as (F1 & F2 & [[-> _]|(Hp & Hni & F3)]); [done|].
  destruct (r =? 0); cbn.
  - unfold new_sock. rewrite E1, E2, E3, F3. split_and!; [done..|]. by right.
  - unfold ffsock_close_win. rewrite (proj2 (Z.eqb_neq _ _) Hne). cbn.
    intros _ s2 (G1 & G2 & G3). unfold new_sock. rewrite G1, G2, G3, E1, E2, E3, F3.
    split_and!; [done..|]. left. split; [done|]. set_solver.
Qed.

Lemma create_win_wp domain type proto s :
  wp wstep (ffsock_create_win domain type proto) (λ r s', new_sock s r s') never s.
Proof.
  cbn. intros sk s1 H1. apply wp_bind. eapply wp_mono; [by apply sock_mode_wp| |done]. by intros [r c] s2 H2.
Qed.

Lemma new_sock_none s s1 : new_sock s (-1) s1 → wsame s s1.
Proof. intros (? & ? & [[_ ?]|[? _]]); [done|lia]. Qed.

(** starting an asynchronous accept on Windows: every socket that the attempt or the overlapped
    operation creates is returned, or held by the task whose operation is pending (and the last
    error is ERROR_IO_PENDING), or closed again. *)
Theorem accept_async_win_owns lsock peer flags domain local task s :
  ta_active task = 0 →
  wp wstep (ffsock_accept_async_win lsock peer flags domain local task)
    (λ '(r, _, _, t) s',
       (r ≠ -1 ∧ new_sock s r s' ∧ ta_active t = 0) ∨
       (r = -1 ∧ wsame s s' ∧ ta_active t = 0) ∨
       (r = -1 ∧ new_sock s (ta_csock t) s' ∧ ta_csock t ≠ -1 ∧ ta_active t = 1 ∧
        ws_err s' = ERROR_IO_PENDING)) never s.
Proof.
  intros Ha. unfold ffsock_accept_async_win. rewrite Ha. cbn. intros [sk [sz bytes]] s1 H1.
  do 2 apply wp_bind. eapply wp_mono; [by apply sock_mode_wp| |done]. intros [r closed] s2 H2. cbn.
  destruct (Z.eqb_spec r (-1)) as [->|Hr]; [|cbn; by auto]. apply new_sock_none in H2. cbn.
  intros e s3 [_ ->]. destruct (negb _); [cbn; by auto|].
  intros sk' s3 H3. do 2 apply wp_bind. eapply wp_mono; [by apply sock_mode_wp| |done].
  intros [cs c] s4 H4. cbn. destruct (Z.eqb_spec cs (-1)) as [->|Hcs].
  { apply new_sock_none in H4. cbn. eauto 10. }
  cbn. intros ok s5 (G1 & G2 & G3). apply wp_bind. eapply wp_mono; [apply ovl_start_wp| |done].
  intros p s6 [(I1 & I2 & I3) Hp].
  destruct H4 as (F1 & F2 & [[-> _]|(Hc & Hni & F3)]); [done|]. destruct H2 as (E1 & E2 & E3).
  destruct p; cbn.
  - right; right. split_and!; [done| |done|done|by apply Hp].
    unfold new_sock. split_and!; [congruence..|]. right. split_and!; [done|by rewrite <- E2|congruence].
  - intros _ s7 (J1 & J2 & J3). right; left. split_and!; [done| |done].
    unfold wsame. split_and!; [congruence| |congruence].
    rewrite J3, I2, G2, F3, <- E2. set_solver.
Qed.

Lemma accept_async_win_owns_witness :
  wp wstep (ffsock_accept_async_win 5 (SockAddr 0 (replicate 28 0)) 0 AF_INET None (TaskAccept 9 0 0))
    (λ '(r, _, _, t) s',
       (r ≠ -1 ∧ new_sock (WState 0 ∅ {[5]} ∅) r s' ∧ ta_active t = 0) ∨
       (r = -1 ∧ wsame (WState 0 ∅ {[5]} ∅) s' ∧ ta_active t = 0) ∨
       (r = -1 ∧ new_sock (WState 0 ∅ {[5]} ∅) (ta_csock t) s' ∧ ta_csock t ≠ -1 ∧ ta_active t = 1 ∧
        ws_err s' = ERROR_IO_PENDING)) never (WState 0 ∅ {[5]} ∅).
Proof. apply (accept_async_win_owns 5 _ 0 AF_INET None (TaskAccept 9 0 0)). reflexivity. Defined.

(** when a pending accept ends with an error, the socket that was created for it stays open:
    the task becomes inactive, -1 is returned, and no call closes it. *)
Theorem accept_async_win_leaks lsock peer flags domain local ovl csock :
  ¬ wp wstep (ffsock_accept_async_win lsock peer flags domain local (TaskAccept ovl 1 csock))
      (λ '(r, _, _, t) s', r = -1 → ta_active t = 0 → csock ∉ ws_socks s')
      never (WState 0 ∅ {[csock]} ∅).
Proof.
  intros H. cbn in H. specialize (H (false, 0) (WState 64 ∅ {[csock]} ∅)). premise H; [done|].
  cbn in H. specialize (H 64 (WState 64 ∅ {[csock]} ∅)). premise H; [done|]. cbn in H.
  specialize (H eq_refl eq_refl). set_solver.
Qed.
