(* ===== verification/Queue.v ===== *)
(** * FFOS/queue.h: kernel event queues (epoll, kqueue, I/O completion ports) *)
From S2P Require Import Prelude Prog Unix Win Socket.

Definition FFKQ_NULL : Z := -1.

(** ** Linux: epoll *)

Definition EPOLLIN := 1.
Definition EPOLLOUT := 4.
Definition EPOLLET := 2147483648.
Definition EPOLL_CTL_ADD := 1.
Definition EFD_NONBLOCK := O_NONBLOCK.
Definition FFKQ_READ := EPOLLIN.
Definition FFKQ_WRITE := EPOLLOUT.
Definition FFKQ_READWRITE := Z.lor EPOLLIN EPOLLOUT.

Definition ffkq_create : prog unixE Z := call (u_epoll_create 1).
Definition ffkq_attach (kq fd data flags : Z) : prog unixE Z :=
  call (u_epoll_ctl kq EPOLL_CTL_ADD fd (Z.lor flags EPOLLET) data).
Definition ffkq_wait (kq events_cap timeout : Z) : prog unixE (Z * list epoll_event) :=
  call (u_epoll_wait kq events_cap (s32 timeout)).
Definition ffkq_time_set (msec : Z) : Z := msec.
Definition ffkq_event_data (ev : epoll_event) : Z := ee_data ev.
Definition ffkq_event_flags (ev : epoll_event) : Z :=
  if negb (has (ee_events ev) EPOLLERR) then s32 (ee_events ev) else FFKQ_READWRITE.
(** [kev_flags] is a 16-bit field. *)
Definition ffkq_task_event_assign (task : ffkq_task) (ev : epoll_event) : ffkq_task :=
  KqTask (tk_active task) (u16 (ee_events ev)) (kev_errno task).

Definition ffkq_post_attach (kq data : Z) : prog unixE Z :=
  let! post := u_eventfd 0 EFD_NONBLOCK in
  if post =? -1 then Ret FFKQ_NULL else
  let* r := ffkq_attach kq post data FFKQ_READ in
  if negb (r =? 0) then do! u_close post in Ret FFKQ_NULL else Ret post.
Definition ffkq_post_detach (post kq : Z) : prog unixE unit :=
  if post =? FFKQ_NULL then Ret tt else do! u_close post in Ret tt.
Definition ffkq_post (post data : Z) : prog unixE Z :=
  let! r := u_write64 post 1 in Ret (if negb (r =? 8) then -1 else 0).
(** Until a read fails (an eventfd without a value, in non-blocking mode). *)
Definition ffkq_post_consume (fuel : nat) (post : Z) : prog unixE unit :=
  loop fuel (λ _, let! '(r, _) := u_read64 post in Ret (if r <? 0 then inr tt else inl tt)) tt.
Definition ffkq_close (kq : Z) : prog unixE unit :=
  if kq =? FFKQ_NULL then Ret tt else do! u_close kq in Ret tt.

(** ** BSD, macOS: kqueue *)

Definition EVFILT_READ : Z := -1.
Definition EVFILT_WRITE : Z := -2.
Definition EVFILT_USER : Z := -10.
Definition EV_ADD := 1.
Definition EV_DELETE := 2.
Definition EV_ENABLE := 4.
Definition EV_CLEAR := 32.
Definition NOTE_TRIGGER := 16777216.
Definition _FFKQ_POST_ID := 1.
Definition FFKQ_READ_bsd := 1.
Definition FFKQ_WRITE_bsd := 2.
Definition FFKQ_READWRITE_bsd := Z.lor FFKQ_READ_bsd FFKQ_WRITE_bsd.

Definition ffkq_create_bsd : prog unixE Z := call u_kqueue.
Definition kq_changes (fd data flags : Z) : list kevent_t :=
  (if has flags FFKQ_READ_bsd then [KEvent fd EVFILT_READ (Z.lor EV_ADD EV_CLEAR) 0 0 data] else []) ++
  (if has flags FFKQ_WRITE_bsd then [KEvent fd EVFILT_WRITE (Z.lor EV_ADD EV_CLEAR) 0 0 data] else []).
Definition ffkq_attach_bsd (kq fd data flags : Z) : prog unixE Z :=
  call (u_kevent_change kq (kq_changes fd data flags)).
Definition ffkq_wait_bsd (kq events_cap : Z) (timeout : timespec) : prog unixE (Z * list kevent_t) :=
  call (u_kevent_wait kq events_cap timeout).
Definition ffkq_time_set_bsd (msec : Z) : timespec := TimeSpec (msec / 1000) (msec mod 1000 * 1000000).
Definition ffkq_event_data_bsd (ev : kevent_t) : Z := ke_udata ev.
Definition ffkq_event_flags_bsd (ev : kevent_t) : Z :=
  if negb (ke_filter ev =? EVFILT_WRITE) then FFKQ_READ_bsd else FFKQ_WRITE_bsd.
Definition ffkq_task_event_assign_bsd (task : ffkq_task) (ev : kevent_t) : ffkq_task :=
  KqTask (tk_active task) (u16 (ke_flags ev)) (u32 (ke_fflags ev)).
Definition ffkq_post_attach_bsd (kq data : Z) : prog unixE Z :=
  let! r := u_kevent_change kq
    [KEvent _FFKQ_POST_ID EVFILT_USER (Z.lor (Z.lor EV_ADD EV_ENABLE) EV_CLEAR) 0 0 0] in
  Ret (if negb (r =? 0) then FFKQ_NULL else kq).
Definition ffkq_post_detach_bsd (post kq : Z) : prog unixE unit :=
  if post =? FFKQ_NULL then Ret tt else
  if negb (post =? kq) then Halt AssertFail else
  do! u_kevent_change kq [KEvent _FFKQ_POST_ID EVFILT_USER EV_DELETE 0 0 0] in Ret tt.
Definition ffkq_post_bsd (post data : Z) : prog unixE Z :=
  call (u_kevent_change post [KEvent _FFKQ_POST_ID EVFILT_USER 0 NOTE_TRIGGER 0 data]).
Definition ffkq_post_consume_bsd (post : Z) : prog unixE unit := Ret tt.

(** ** Windows: I/O completion ports *)

Definition ffkq_create_win : prog winE Z := call (CreateIoCompletionPort INVALID_HANDLE_VALUE 0 0).
Definition ffkq_close_win (kq : Z) : prog winE unit :=
  if kq =? 0 then Ret tt else do! CloseHandle kq in Ret tt.
Definition FFKQ_READ_win := 1.
Definition FFKQ_WRITE_win := 2.
Definition FFKQ_READWRITE_win := Z.lor FFKQ_READ_win FFKQ_WRITE_win.

Definition ffkq_attach_win (kq fd data flags : Z) : prog winE Z :=
  let! h := CreateIoCompletionPort fd kq data in Ret (b2z (h =? 0)).
Definition ffkq_attach_socket_win (kq sk data flags : Z) : prog winE Z :=
  let! h := CreateIoCompletionPort sk kq data in Ret (b2z (h =? 0)).
(** Windows Vista and later: the completion keys of the events. *)
Definition ffkq_wait_win (kq events_cap timeout : Z) : prog winE (Z * list Z) :=
  let! '(b, keys) := GetQueuedCompletionStatusEx kq events_cap timeout in
  if negb b then let! e := GetLastError in Ret (if e =? WAIT_TIMEOUT then 0 else -1, [])
  else Ret (Z.of_nat (length keys), keys).
(** Before Windows Vista: one entry at a time, its key and its OVERLAPPED (0: NULL). *)
Definition ffkq_wait_old_win (kq events_cap timeout : Z) : prog winE (Z * (Z * Z)) :=
  if events_cap =? 0 then Ret (0, (0, 0)) else
  let! '(b, (key, ovl)) := GetQueuedCompletionStatus kq timeout in
  if negb b then
    let! e := GetLastError in
    Ret (if e =? WAIT_TIMEOUT then 0 else if ovl =? 0 then -1 else 1, (key, ovl))
  else Ret (1, (key, ovl)).
Definition ffkq_event_data_win (key : Z) : Z := key.
Definition ffkq_event_flags_win (key : Z) : Z := 0.
Definition ffkq_task_event_assign_win {T} (task : T) (key : Z) : T := task.
Definition ffkq_post_detach_win (post kq : Z) : prog winE unit := Ret tt.
Definition ffkq_post_consume_win (post : Z) : prog winE unit := Ret tt.
Definition ffkq_time_set_win (msec : Z) : Z := msec.
Definition ffkq_post_attach_win (kq data : Z) : Z := kq.
Definition ffkq_post_win (post data : Z) : prog winE Z :=
  let! ok := PostQueuedCompletionStatus post data in Ret (b2z (negb ok)).

(** ** Properties *)

(** A new descriptor is attached to the queue, or closed. *)
Lemma attach_or_close (e : unixE Z) kq data flags s :
  (∀ r s', ustep s _ e r s' → new_fd s r s') →
  wp ustep (let! fd := e in if fd =? -1 then Ret (-1) else
            let* r := ffkq_attach kq fd data flags in
            if negb (r =? 0) then do! u_close fd in Ret (-1) else Ret fd)
    (λ r s', new_fd s r s') never s.
Proof.
  intros He. cbn. intros fd s1 H1%He. destruct (Z.eqb_spec fd (-1)) as [->|Hne]; cbn; [done|].
  intros r s2 H2. destruct (r =? 0); cbn.
  - eapply new_fd_of; [apply same_refl|exact H1|exact H2].
  - intros x s3 H3. by apply (closed_fd s s1 fd s2 x s3).
Qed.

(** creating the user event of a queue on Linux: the event descriptor is returned attached, or
    nothing stays open; consuming the event terminates as soon as a read fails and changes nothing. *)
Theorem post_attach_clean kq data s :
  wp ustep (ffkq_post_attach kq data) (λ r s', new_fd s r s') never s.
Proof. by apply (attach_or_close (u_eventfd 0 EFD_NONBLOCK) kq data FFKQ_READ). Qed.

(** *** The user event

    Another thread posts while the owner of the queue waits for events and consumes them: two programs whose
    calls are interleaved in any way.  The state is that of the eventfd, which is attached to the queue with
    [data]: its value, whether an edge has not been reported yet, and how many writes have succeeded since the
    last read that did, and in all. *)
Record post_state := PostState { ps_value : Z; ps_edge : bool; ps_posts : Z; ps_total : Z }.
Definition post_env (post data : Z) : env unixE post_state := λ s X e,
  match e in unixE X return X → post_state → Prop with
  | u_write64 fd v => λ r s', fd = post ∧
      if ps_value s + v <? 2 ^ 64 - 1 then r = 8 ∧ s' = PostState (ps_value s + v) true (ps_posts s + 1) (ps_total s + 1) else r = -1 ∧ s' = s
  | u_read64 fd => λ '(r, v) s', fd = post ∧
      if ps_value s =? 0 then r = -1 ∧ s' = s else r = 8 ∧ v = ps_value s ∧ s' = PostState 0 (ps_edge s) 0 (ps_total s)
  | u_epoll_wait _ cap _ => λ r s', s' = PostState (ps_value s) false (ps_posts s) (ps_total s) ∧
      r = if ps_edge s && negb (ps_value s =? 0) && (0 <? cap) then (1, [EpollEvent EPOLLIN data]) else (0, [])
  | _ => λ _ s', s' = s
  end.

Section user_event.
Variables kq post data timeout : Z.
Variable fuel : nat.

(** The other thread posts [m] times; the results. *)
Fixpoint poster (m : nat) (acc : list Z) : prog unixE (list Z) :=
  match m with O => Ret acc | S m => let* r := ffkq_post post data in poster m (acc ++ [r]) end.
(** The owner waits [n] times, and consumes the event when it is reported; the data of the events. *)
Fixpoint serve (n : nat) (acc : list (list Z)) : prog unixE (list (list Z)) :=
  match n with
  | O => Ret acc
  | S n =>
      let* '(r, evs) := ffkq_wait kq 8 timeout in
      do* if 0 <? r then ffkq_post_consume fuel post else Ret tt in
      serve n (acc ++ [map ffkq_event_data evs])
  end.

Record kq_config := KqConfig { own : prog unixE (list (list Z)); oth : prog unixE (list Z); evt : post_state }.
(** One call of one of the two threads. *)
Inductive kq_step : kq_config → kq_config → Prop :=
  | own_step p p' q s s' : pnext (post_env post data) p s p' s' → kq_step (KqConfig p q s) (KqConfig p' q s')
  | oth_step p q q' s s' : pnext (post_env post data) q s q' s' → kq_step (KqConfig p q s) (KqConfig p q' s').

(** The owner goes round its loop, or is consuming the event with so much fuel left. *)
Definition consuming (n : nat) (acc : list (list Z)) (f : nat) : prog unixE (list (list Z)) :=
  do* ffkq_post_consume f post in serve n acc.

(** The turns that are done gave the data once or nothing; [n] are left of [N]. *)
Definition turns_ok (N n : nat) (acc : list (list Z)) : Prop :=
  (length acc + n = N)%nat ∧ Forall (λ d, d = [] ∨ d = [data]) acc.
(** The posts that are done have returned 0 and are [t] writes, [v] of them not read; [left] are left of [m]. *)
Definition posts_ok (m left : nat) (rs : list Z) (v t : Z) : Prop :=
  0 ≤ v ≤ t ∧ t + Z.of_nat left = Z.of_nat m ∧ (length rs + left = m)%nat ∧ Forall (λ r, r = 0) rs.

(** Between waits a value is announced by an edge; the fuel covers what can still be read. *)
Inductive kq_inv (N m : nat) : kq_config → Prop :=
  | inv_loop n acc left rs v e t :
      turns_ok N n acc → (v ≠ 0 → e = true) → posts_ok m left rs v t →
      kq_inv N m (KqConfig (serve n acc) (poster left rs) (PostState v e v t))
  | inv_consume n acc f left rs v e t :
      turns_ok N n acc → v + Z.of_nat left < Z.of_nat f → posts_ok m left rs v t →
      kq_inv N m (KqConfig (consuming n acc f) (poster left rs) (PostState v e v t)).

Lemma turn_done N n acc d : turns_ok N (S n) acc → d = [] ∨ d = [data] → turns_ok N n (acc ++ [d]).
Proof. intros [Hl Hf] Hd. split; [rewrite length_app; cbn; lia|]. apply Forall_app. auto. Qed.

Lemma posts_read m left rs v t : posts_ok m left rs v t → posts_ok m left rs 0 t.
Proof. intros (? & ? & ? & ?). split_and!; (done || lia). Qed.
Lemma posts_done m left rs v t : posts_ok m (S left) rs v t → posts_ok m left (rs ++ [0]) (v + 1) (t + 1).
Proof.
  intros (? & ? & ? & ?). split; [lia|]. split; [lia|]. split; [rewrite length_app; cbn; lia|]. apply Forall_app. auto.
Qed.

Lemma serve_step N m n acc v e t p' s' left rs :
  (Z.of_nat m < Z.of_nat fuel) → turns_ok N n acc → (v ≠ 0 → e = true) → posts_ok m left rs v t →
  pnext (post_env post data) (serve n acc) (PostState v e v t) p' s' → kq_inv N m (KqConfig p' (poster left rs) s').
Proof.
  intros Hm Ht He Hp Hx. destruct n as [|n]; [done|]. cbn -[ffkq_post_consume] in Hx.
  destruct Hx as ([r evs] & (-> & Hr) & ->). rewrite andb_true_r in Hr.
  destruct (Z.eqb_spec v 0) as [->|Hz]; cbn -[ffkq_post_consume] in Hr.
  - rewrite andb_false_r in Hr. injection Hr as -> ->. cbn. apply inv_loop; try done. by apply turn_done; [|left].
  - rewrite (He Hz) in Hr. injection Hr as -> ->. cbn -[ffkq_post_consume].
    apply inv_consume; [by apply turn_done; [|right]| |done]. destruct Hp as (? & ? & _). lia.
Qed.

Lemma consume_step N m n acc f v e t p' s' left rs :
  turns_ok N n acc → v + Z.of_nat left < Z.of_nat f → posts_ok m left rs v t →
  pnext (post_env post data) (consuming n acc f) (PostState v e v t) p' s' → kq_inv N m (KqConfig p' (poster left rs) s').
Proof.
  intros Ht Hf Hp Hx. pose proof (proj1 Hp) as Hv. unfold consuming, ffkq_post_consume in Hx. destruct f as [|f]; [lia|].
  cbn in Hx. destruct Hx as ([r v'] & (_ & Hr) & ->). destruct (Z.eqb_spec v 0) as [->|Hz].
  - destruct Hr as [-> ->]. cbn. by apply inv_loop.
  - destruct Hr as (-> & _ & ->). cbn. apply (inv_consume _ _ n acc f); [done|lia|by eapply posts_read].
Qed.

Lemma poster_step m left rs v e t q' s' :
  Z.of_nat m < 2 ^ 64 - 1 → posts_ok m left rs v t →
  pnext (post_env post data) (poster left rs) (PostState v e v t) q' s' →
  ∃ left', left = S left' ∧ q' = poster left' (rs ++ [0]) ∧ s' = PostState (v + 1) true (v + 1) (t + 1).
Proof.
  intros Hm (Hv & Hl & _ & Hrs) Hx. destruct left as [|left]; [done|]. cbn -[Z.add Z.ltb Z.pow] in Hx.
  destruct Hx as (r & (_ & Hr) & ->). rewrite (proj2 (Z.ltb_lt _ _)) in Hr by lia. destruct Hr as [-> ->]. by exists left.
Qed.

Lemma kq_inv_step N m c c' : Z.of_nat m < Z.of_nat fuel → Z.of_nat m < 2 ^ 64 - 1 → kq_inv N m c → kq_step c c' → kq_inv N m c'.
Proof.
  intros Hf Hm Hi Hs. destruct Hs as [p p' q s s' Hx|p q q' s s' Hx].
  - inversion Hi; subst; [by eapply serve_step|by eapply consume_step].
  - inversion Hi as [n acc left rs v e t Ht He Hp|n acc f left rs v e t Ht Hf' Hp]; subst;
      destruct (poster_step m left rs v e t q' s') as (left' & -> & -> & ->); try done.
    + apply inv_loop; [done|done|by apply posts_done].
    + apply inv_consume; [done|lia|by apply posts_done].
Qed.

(** C8: the user event of a queue on Linux, while another thread posts and the owner of the queue waits and
    consumes, their calls interleaved in any way, posts between the wait and the consumption and between its reads
    included.  Every post returns 0 and has written to the event; the consumption ends (fuel: one more than the number of posts); and whenever
    the owner waits, the event is reported, once, with its data, exactly when some post has not been consumed
    yet, although the queue reports edges only: no post is lost, and none is reported that was consumed. *)
Theorem post_wakes m n c :
  Z.of_nat m < Z.of_nat fuel → Z.of_nat m < 2 ^ 64 - 1 →
  rtc kq_step (KqConfig (serve n []) (poster m []) (PostState 0 false 0 0)) c →
  (∀ rs, oth c = Ret rs → rs = replicate m 0 ∧ ps_total (evt c) = Z.of_nat m) ∧
  (∀ l, own c = Ret l → length l = n ∧ Forall (λ d, d = [] ∨ d = [data]) l) ∧
  (∀ h, own c ≠ Halt h ∧ oth c ≠ Halt h) ∧
  (∀ kq' t k x s', own c = Vis (u_epoll_wait kq' 8 t) k → post_env post data (evt c) _ (u_epoll_wait kq' 8 t) x s' →
     x = if ps_posts (evt c) =? 0 then (0, []) else (1, [EpollEvent EPOLLIN data])).
Proof.
  intros Hf Hm Hr.
  assert (kq_inv n m c) as Hi.
  { remember (KqConfig _ _ _) as c0 eqn:E. assert (kq_inv n m c0) as Hi0.
    { subst. apply inv_loop; [done|done|]. split_and!; (done || lia). }
    clear E. induction Hr; eauto using kq_inv_step. }
  assert (∀ left rs rs' v t, posts_ok m left rs v t → poster left rs = Ret rs' → rs' = replicate m 0 ∧ t = Z.of_nat m) as Hret.
  { intros left rs rs' v t (_ & H2 & H3 & H4). destruct left; [|done]. intros [= <-].
    rewrite Nat.add_0_r in H3. subst m. split; [clear -H4; induction H4; cbn; congruence|lia]. }
  destruct Hi as [n' acc left rs v e t [Hn Ht] He Hp|n' acc f left rs v e t Ht Hf' Hp]; cbn [own oth evt ps_total].
  - split_and!.
    + intros rs'. by eapply Hret.
    + intros l. destruct n'; [|done]. intros [= <-]. split; [lia|done].
    + intros h. split; [by destruct n'|by destruct left].
    + intros kq' t' k x s' _ [_ ->]. cbn. rewrite andb_true_r. destruct (Z.eqb_spec v 0) as [->|Hz]; [by rewrite andb_false_r|].
      by rewrite (He Hz).
  - pose proof (proj1 Hp) as Hv. split_and!.
    + intros rs'. by eapply Hret.
    + intros l. destruct f as [|f]; [lia|done].
    + intros h. destruct f as [|f]; [lia|]. split; [done|by destruct left].
    + intros kq' t' k x s' E. exfalso. destruct f as [|f]; [lia|]. cbn in E. discriminate E.
Qed.
End user_event.

(** Two posts, the owner waits three times; the second post is made between the report of the first and its
    consumption. *)
Lemma post_wakes_witness :
  ∃ c, rtc (kq_step 5 77) (KqConfig (serve 3 5 0 9 3 []) (poster 5 77 2 []) (PostState 0 false 0 0)) c ∧
    ps_posts (evt c) = 2 ∧ ∀ h, own c ≠ Halt h ∧ oth c ≠ Halt h.
Proof.
  assert (rtc (kq_step 5 77) (KqConfig (serve 3 5 0 9 3 []) (poster 5 77 2 []) (PostState 0 false 0 0))
    (KqConfig (consuming 3 5 0 9 2 [[77]] 9) (poster 5 77 0 [0; 0]) (PostState 2 true 2 2))) as Hr.
  { eapply rtc_l; [apply oth_step; by exists 8|]. eapply rtc_l; [apply own_step; by exists (1, [EpollEvent EPOLLIN 77])|].
    eapply rtc_l; [apply oth_step; by exists 8|]. apply rtc_refl. }
  eexists. split; [exact Hr|]. split; [done|]. by apply (post_wakes 3 5 77 0 9 2 3 _ ltac:(lia) ltac:(lia) Hr).
Defined.
