(* ===== verification/Sync.v ===== *)
(** * FFOS/semaphore.h and FFOS/thread.h *)
From S2P Require Import Prelude Prog Unix Win StringW Time.

(** ** Semaphores: Linux, BSD

    A semaphore is a heap block: [s_psem] is the pointer to a named semaphore (0: the unnamed one
    inside the block). *)
Record ffsem := FfSem { s_ptr : Z; s_psem : Z }.
Definition sem_addr (s : ffsem) : Z := if negb (s_psem s =? 0) then s_psem s else s_ptr s + 8.
Definition sizeof_ffsem := 40.
Definition sem_mode := 438.

Definition ffsem_open (name : option cstr) (flags value : Z) : prog unixE (option ffsem) :=
  match name with
  | None =>
      let! p := ffmem_alloc sizeof_ffsem in
      if p =? 0 then Ret None else
      let! r := u_sem_init (p + 8) value in
      if negb (r =? 0) then do! ffmem_free p in Ret None else Ret (Some (FfSem p 0))
  | Some name =>
      let! p := ffmem_alloc 8 in
      if p =? 0 then Ret None else
      let! ps := u_sem_open name flags sem_mode value in
      if ps =? 0 then do! ffmem_free p in Ret None else Ret (Some (FfSem p ps))
  end.

Definition ffsem_close (sem : option ffsem) : prog unixE unit :=
  match sem with
  | None => Ret tt
  | Some s =>
      let* _ := if negb (s_psem s =? 0) then call (u_sem_close (s_psem s)) else call (u_sem_destroy (s_ptr s + 8)) in
      do! ffmem_free (s_ptr s) in Ret tt
  end.

(** The deadline of a timed wait. *)
Definition sem_deadline (ts : timespec) (time_ms : Z) : timespec :=
  TimeSpec (tv_sec ts + time_ms / 1000) (tv_nsec ts + time_ms mod 1000 * 1000 * 1000).

(** [do { r = f(); } while (r != 0 && errno == EINTR);] *)
Definition retry_eintr (fuel : nat) (f : unixE Z) : prog unixE Z :=
  loop fuel (λ _, let! r := f in
    if r =? 0 then Ret (inr r) else
    let! e := get_errno in Ret (if e =? EINTR then inl tt else inr r)) tt.

Definition try_wait (s : Z) : prog unixE Z :=
  let! r := u_sem_trywait s in
  if r =? 0 then Ret r else
  let! e := get_errno in
  if e =? EAGAIN then fail ETIMEDOUT r else Ret r.

Definition ffsem_wait (fuel : nat) (sem : option ffsem) (time_ms : Z) : prog unixE Z :=
  match sem with
  | None => fail EINVAL (-1)
  | Some sem =>
      let s := sem_addr sem in
      if time_ms =? 0 then try_wait s
      else if time_ms =? 2 ^ 32 - 1 then retry_eintr fuel (u_sem_wait s)
      else
        let! '(r, ts) := u_clock_gettime CLOCK_REALTIME in
        let ts := if r =? 0 then ts else TimeSpec 0 0 in
        retry_eintr fuel (u_sem_timedwait s (sem_deadline ts time_ms))
  end.

Definition FFSEM_CREATE := O_CREAT.
Definition FFSEM_CREATENEW := Z.lor O_CREAT O_EXCL.
Definition ffsem_unlink (name : cstr) : prog unixE Z := call (u_sem_unlink name).
Definition ffsem_post (sem : option ffsem) : prog unixE Z :=
  match sem with None => fail EINVAL (-1) | Some s => call (u_sem_post (sem_addr s)) end.

(** *** macOS: the system's named semaphores only (0: FFSEM_NULL)

    [tmpname]: the name that ffbase formats from "/tmp/ffsem-%u" and the process ID, in a block. *)
Definition ffsem_open_apple (tmpname : Z → cstr) (name : option cstr) (flags value : Z) : prog unixE Z :=
  let* a := match name with
            | None => let! pid := u_getpid in
                      let! p := ffmem_alloc (Z.of_nat (length (tmpname pid)) + 1) in
                      Ret (p, tmpname pid, Z.lor O_CREAT O_EXCL)
            | Some n => Ret (0, n, flags)
            end in
  let '(aname, nm, flags) := a in
  if match name with None => aname =? 0 | Some _ => false end then Ret 0 else
  let! sem := u_sem_open nm flags sem_mode value in
  do* if negb (sem =? 0) && negb (aname =? 0) then call (u_sem_unlink nm) else Ret 0 in
  do* if negb (aname =? 0) then call (ffmem_free aname) else Ret tt in
  Ret sem.
Definition ffsem_close_apple (sem : Z) : prog unixE unit :=
  if sem =? 0 then Ret tt else do! u_sem_close sem in Ret tt.
Definition ffsem_wait_apple (fuel : nat) (sem time_ms : Z) : prog unixE Z :=
  if sem =? 0 then fail EINVAL (-1) else
  if time_ms =? 0 then try_wait sem
  else if time_ms =? 2 ^ 32 - 1 then retry_eintr fuel (u_sem_wait sem)
  else fail EINVAL (-1).
Definition ffsem_post_apple (sem : Z) : prog unixE Z :=
  if sem =? 0 then fail EINVAL (-1) else call (u_sem_post sem).

Definition ffsem_unlink_apple (name : cstr) : prog unixE Z := call (u_sem_unlink name).

(** *** Windows *)

Definition FFSEM_CREATE_win := 1.
Definition FFSEM_CREATENEW_win := 2.
Definition ffsem_open_win `{FfUni} (name : option (list Z)) (flags value : Z) : prog winE Z :=
  match name with
  | None => call (CreateSemaphoreW None value 65535)
  | Some name =>
      let* w := ffsz_alloc_buf_utow (Some 256) name in
      match w with None => Ret 0 | Some w =>
      let* s :=
        if flags =? FFSEM_CREATENEW_win then
          let! s := OpenSemaphoreW (w_str w) in
          if negb (s =? 0) then do! CloseHandle s in wfail ERROR_ALREADY_EXISTS 0
          else call (CreateSemaphoreW (Some (w_str w)) value 65535)
        else if flags =? FFSEM_CREATE_win then call (CreateSemaphoreW (Some (w_str w)) value 65535)
        else if flags =? 0 then call (OpenSemaphoreW (w_str w))
        else wfail ERROR_INVALID_PARAMETER 0 in
      wbuf_free w (Ret s) end
  end.
Definition ffsem_close_win (s : Z) : prog winE unit := do! CloseHandle s in Ret tt.
Definition ffsem_wait_win (s time_ms : Z) : prog winE Z :=
  let! r := WaitForSingleObject s time_ms in
  let r := s32 r in
  if r =? WAIT_OBJECT_0 then Ret 0
  else if r =? WAIT_TIMEOUT then wfail WSAETIMEDOUT r else Ret r.
Definition ffsem_unlink_win (name : list Z) : prog winE Z := Ret 0.
Definition ffsem_post_win (s : Z) : prog winE Z := let! ok := ReleaseSemaphore s 1 in Ret (b2z (negb ok)).

(** ** Threads *)

Definition ffthread_create (proc param stack_size : Z) : prog unixE Z :=
  if negb (stack_size =? 0) then
    let! r := u_pthread_attr_init in
    if negb (r =? 0) then Ret 0 else
    let! r := u_pthread_attr_setstacksize stack_size in
    let* t := if negb (r =? 0) then Ret 0 else
              let! '(r, t) := u_pthread_create true proc param in
              Ret (if negb (r =? 0) then 0 else t) in
    do! u_pthread_attr_destroy in Ret t
  else
    let! '(r, t) := u_pthread_create false proc param in
    Ret (if negb (r =? 0) then 0 else t).

Definition _fftimespec_addms (ts : timespec) (ms : Z) : timespec :=
  let sec := tv_sec ts + ms / 1000 in
  let nsec := tv_nsec ts + ms mod 1000 * 1000 * 1000 in
  if 1000 * 1000 * 1000 <=? nsec then TimeSpec (sec + 1) (nsec - 1000 * 1000 * 1000) else TimeSpec sec nsec.

(** [exit_code]: whether the pointer is given; what is stored through it is returned with the result. *)
Definition ffthread_join (os : unix_os) (t timeout_ms : Z) (exit_code : bool) : prog unixE (Z * option Z) :=
  let* '(r, result) :=
    if timeout_ms =? 2 ^ 32 - 1 then call (u_pthread_join t)
    else match os with
    | Linux =>
        if timeout_ms =? 0 then
          let! '(r, res) := u_pthread_tryjoin_np t in
          Ret (if r =? EBUSY then ETIMEDOUT else r, res)
        else
          let! '(_, ts) := u_clock_gettime CLOCK_REALTIME in
          call (u_pthread_timedjoin_np t (_fftimespec_addms ts timeout_ms))
    | BSD =>
        let! '(_, ts) := u_clock_gettime CLOCK_REALTIME in
        call (u_pthread_timedjoin_np t (_fftimespec_addms ts timeout_ms))
    | Android | Apple => call (u_pthread_join t)
    end in
  if negb (r =? 0) then fail r (-1, None) else Ret (0, if exit_code then Some (s32 result) else None).

Definition ffthread_curid (os : unix_os) : prog unixE Z :=
  match os with
  | Linux | Android => let! r := u_gettid in Ret (u64 r)
  | Apple => let! '(r, tid) := u_pthread_threadid_np in Ret (if negb (r =? 0) then 0 else tid)
  | BSD => let! r := u_pthread_getthreadid_np in Ret (u64 r)
  end.
Definition ffthread_curid_win : prog winE Z := call GetCurrentThreadId.
Definition ffthread_detach (t : Z) : prog unixE Z := call (u_pthread_detach t).
Definition ffthread_sleep (msec : Z) : prog unixE unit := do! u_usleep (u32 (msec * 1000)) in Ret tt.

Definition ffthread_create_win (proc param stack_size : Z) : prog winE Z := call (CreateThread stack_size proc param).
Definition ffthread_join_win (t timeout_ms : Z) (exit_code : bool) : prog winE (Z * option Z) :=
  let! r := WaitForSingleObject t timeout_ms in
  let r := s32 r in
  if r =? WAIT_OBJECT_0 then
    let* code := if exit_code then let! c := GetExitCodeThread t in Ret (Some (s32 c)) else Ret None in
    do! CloseHandle t in Ret (0, code)
  else if r =? WAIT_TIMEOUT then wfail WSAETIMEDOUT (-1, None) else Ret (-1, None).
Definition ffthread_detach_win (t : Z) : prog winE Z := let! ok := CloseHandle t in Ret (b2z (negb ok)).
Definition ffthread_sleep_win (msec : Z) : prog winE unit := do! w_Sleep msec in Ret tt.

(** ** Properties *)

(** Nanoseconds since the epoch; the values the system accepts. *)
Definition total_ns (ts : timespec) : Z := tv_sec ts * 1000000000 + tv_nsec ts.
Definition normal (ts : timespec) : Prop := 0 ≤ tv_nsec ts < 1000000000.

(** the deadline of ffthread_join() is the current time plus the timeout, and a valid timespec. *)
Theorem addms_exact ts ms :
  normal ts → 0 ≤ ms →
  normal (_fftimespec_addms ts ms) ∧ total_ns (_fftimespec_addms ts ms) = total_ns ts + ms * 1000000.
Proof.
  unfold normal, total_ns, _fftimespec_addms. intros Hn Hm.
  destruct (Z.leb_spec (1000 * 1000 * 1000) (tv_nsec ts + ms mod 1000 * 1000 * 1000)); cbn; dlia.
Qed.

Lemma addms_exact_witness :
  normal (_fftimespec_addms (TimeSpec 1 999999999) 1001) ∧
  total_ns (_fftimespec_addms (TimeSpec 1 999999999) 1001) = total_ns (TimeSpec 1 999999999) + 1001 * 1000000.
Proof. apply (addms_exact (TimeSpec 1 999999999) 1001); [unfold normal; cbn; lia|lia]. Defined.

(** the deadline of ffsem_wait() is the right time, but not a valid timespec whenever the
    nanoseconds of the clock and of the timeout add up to a second: sem_timedwait() is then given
    1e9 nanoseconds or more, for which it fails with EINVAL instead of waiting. *)
Theorem sem_deadline_denormal ts ms :
  normal ts → 0 ≤ ms →
  total_ns (sem_deadline ts ms) = total_ns ts + ms * 1000000 ∧
  (normal (sem_deadline ts ms) ↔ tv_nsec ts + ms mod 1000 * 1000000 < 1000000000) ∧
  (ms mod 1000 ≠ 0 → ∃ ts', normal ts' ∧ ¬ normal (sem_deadline ts' ms)).
Proof.
  unfold normal, total_ns, sem_deadline. cbn. intros Hn Hm. split_and!; [dlia|dlia|].
  intros Hms. exists (TimeSpec 0 999999999). cbn. split; [lia|]. dlia.
Qed.

Lemma sem_deadline_denormal_witness :
  total_ns (sem_deadline (TimeSpec 1 999999999) 500) = total_ns (TimeSpec 1 999999999) + 500 * 1000000 ∧
  (normal (sem_deadline (TimeSpec 1 999999999) 500) ↔ 999999999 + 500 mod 1000 * 1000000 < 1000000000) ∧
  (500 mod 1000 ≠ 0 → ∃ ts', normal ts' ∧ ¬ normal (sem_deadline ts' 500)).
Proof. apply (sem_deadline_denormal (TimeSpec 1 999999999) 500); [unfold normal; cbn; lia|lia]. Defined.

(** opening and closing a semaphore (Linux, BSD): on success the semaphore's block is the only
    new one, on failure nothing is allocated; closing what was opened releases it. *)
Theorem sem_open_close name flags value s :
  wp ustep (ffsem_open name flags value)
    (λ r s', us_fds s' = us_fds s ∧
       match r with
       | None => us_mem s' = us_mem s
       | Some sem => (s_ptr sem ∉ us_mem s) ∧ us_mem s' = {[s_ptr sem]} ∪ us_mem s
       end ∧
       wp ustep (ffsem_close r) (λ _ s'', us_fds s'' = us_fds s ∧ us_mem s'' = us_mem s) never s') never s.
Proof.
  destruct name as [name|]; cbn; intros p s1 (Hf & _ & _ & _ & Hm);
    (destruct (Z.eqb_spec p 0) as [->|Hp]; cbn;
      [destruct Hm as [[_ Hm]|[? _]]; [done|lia]|]);
    destruct Hm as [[? _]|(_ & Hni & Hm)]; try lia; intros r s2 (F1 & F2 & _).
  - destruct (r =? 0) eqn:Er; cbn.
    + intros _ s3 (_ & G1 & _ & _ & _ & G2). rewrite G1, G2, F1, F2, Hf, Hm.
      assert (({[p]} ∪ us_mem s) ∖ {[p]} = us_mem s) as -> by set_solver. done.
    + rewrite F1, F2, Hf, Hm, Er. split_and!; [done..|]. cbn. intros _ s3 (G1 & G2 & _) _ s4 (_ & I1 & _ & _ & _ & I2).
      rewrite I1, I2, G1, G2, F1, F2, Hf, Hm. split; [done|]. set_solver.
  - destruct (r =? 0); cbn.
    + rewrite F1, F2, Hf, Hm. split_and!; [done..|]. cbn. intros _ s3 (G1 & G2 & _) _ s4 (_ & I1 & _ & _ & _ & I2).
      rewrite I1, I2, G1, G2, F1, F2, Hf, Hm. split; [done|]. set_solver.
    + intros _ s3 (_ & G1 & _ & _ & _ & G2). rewrite G1, G2, F1, F2, Hf, Hm.
      assert (({[p]} ∪ us_mem s) ∖ {[p]} = us_mem s) as -> by set_solver. done.
Qed.
