(* ===== verification/Stamps.v ===== *)
(** * Time stamps across the library

    Every [fftime] has a signed 64-bit number of seconds and less than 10^9 nanoseconds: the type that the
    conversions, the clocks, the times of files and the deadlines of waits share.  This file composes the
    components that produce and take time stamps, and states which instant each stamp stands for. *)
From S2P Require Import Prelude Prog Unix Win Time PathInfo FileUnix FileWin Sync Perf.

(** The type of time stamps, and of those of the system. *)
Definition typed (t : fftime) : Prop := is_s64 (t_sec t) ∧ 0 ≤ t_nsec t < 1000000000.
Definition typed_ts (ts : timespec) : Prop := is_s64 (tv_sec ts) ∧ 0 ≤ tv_nsec ts < 1000000000.
Definition typed_tv (tv : timeval) : Prop := is_s64 (tvv_sec tv) ∧ 0 ≤ tvv_usec tv < 1000000.
Definition typed_ft (ft : filetime) : Prop := is_u32 (dwLow ft) ∧ is_u32 (dwHigh ft).

(** The instants they stand for, in nanoseconds since 1970; a FILETIME before 1970 counts as 1970. *)
Definition ns (t : fftime) : Z := t_sec t * 1000000000 + t_nsec t.
Definition ns_ts (ts : timespec) : Z := tv_sec ts * 1000000000 + tv_nsec ts.
Definition ns_tv (tv : timeval) : Z := tvv_sec tv * 1000000000 + tvv_usec tv * 1000.
Definition ns_ft (lo hi : Z) : Z := Z.max 0 (hi * 2 ^ 32 + lo - 116444736000000000) * 100.

(** [t] is well-formed and stands for the instant [n]. *)
Definition stamp (t : fftime) (n : Z) : Prop := typed t ∧ ns t = n.

(** Systems whose own times are of these types; the state is the instant that the last call has answered (0 when
    a clock has failed). *)
Definition stamp_env : env unixE Z := λ _ X e,
  match e in unixE X return X → Z → Prop with
  | u_clock_gettime _ => λ '(r, ts) n, (r = 0 ∧ typed_ts ts ∧ n = ns_ts ts) ∨ (r ≠ 0 ∧ n = 0)
  | u_stat _ | u_lstat _ | u_fstat _ => λ '(r, st) n, r = 0 → typed_ts (st_mtim st) ∧ n = ns_ts (st_mtim st)
  | _ => λ _ _, True
  end.
Definition stamp_env_win : env winE Z := λ _ X e,
  match e in winE X return X → Z → Prop with
  | GetSystemTimePreciseAsFileTime | GetSystemTimeAsFileTime => λ ft n, typed_ft ft ∧ n = ns_ft (dwLow ft) (dwHigh ft)
  | GetFileInformationByHandle _ => λ '(_, fi) n,
      typed_ft (fa_mtime fi) ∧ n = ns_ft (dwLow (fa_mtime fi)) (dwHigh (fa_mtime fi))
  | _ => λ _ _, True
  end.

Lemma timespec_stamp ts : typed_ts ts → stamp (fftime_from_timespec ts) (ns_ts ts).
Proof.
  intros [Hs Hn]. unfold stamp, typed, ns, fftime_from_timespec. cbn [t_sec t_nsec].
  rewrite u32_small by (unfold is_u32; lia). done.
Qed.
Lemma winftime_stamp lo hi : is_u32 lo → is_u32 hi → stamp (fftime_from_winftime (WinFTime lo hi)) (ns_ft lo hi).
Proof.
  intros Hl Hh. unfold fftime_from_winftime, stamp, typed, ns, ns_ft.
  rewrite from_winftime_value; [|done|unfold is_u32 in *; cbn; lia]. cbn [ft_lo ft_hi].
  change 116444736000000000 with FFTIME_100NS.
  pose proof (eq_refl : FFTIME_100NS = 116444736000000000) as HC. generalize dependent FFTIME_100NS. intros C HC.
  unfold is_u32, is_s64 in *. change (1000000 * 10) with 10000000.
  destruct (Z.ltb_spec C (hi * 2 ^ 32 + lo)); cbn [t_sec t_nsec]; [|lia].
  rewrite Z.max_r by lia. split; [split|]; dlia.
Qed.
Lemma filetime_stamp ft : typed_ft ft → stamp (fftime_of_filetime ft) (ns_ft (dwLow ft) (dwHigh ft)).
Proof. intros [Hl Hh]. by apply winftime_stamp. Qed.
#[local] Hint Resolve timespec_stamp filetime_stamp : core.

Lemma null_stamp : stamp (FfTime 0 0) 0.
Proof. unfold stamp, typed, ns, is_s64. cbn. lia. Qed.
#[local] Hint Resolve null_stamp : core.

Lemma to_winftime_value t :
  0 ≤ ns t / 100 + 116444736000000000 < 2 ^ 64 → 0 ≤ t_nsec t < 1000000000 →
  let w := fftime_to_winftime t in
  is_u32 (ft_lo w) ∧ ft_hi w * 2 ^ 32 + ft_lo w = ns t / 100 + 116444736000000000.
Proof.
  destruct t as [s n]. unfold fftime_to_winftime, ns. cbn [t_sec t_nsec ft_lo ft_hi]. intros H Hn.
  change 116444736000000000 with FFTIME_100NS in *.
  pose proof (eq_refl : FFTIME_100NS = 116444736000000000) as HC. generalize dependent FFTIME_100NS. intros C H HC.
  assert (s * 1000000 * 10 + n / 100 = (s * 1000000000 + n) / 100) as -> by dlia.
  set (d := (s * 1000000000 + n) / 100 + C) in *. rewrite (u64_small d) by (unfold is_u64; lia).
  split; [apply u32_range|]. rewrite Z.shiftr_div_pow2 by done. unfold u32, uwrap. dlia.
Qed.

(** C34: every time stamp of the library is well-formed (64-bit seconds, less than 10^9 nanoseconds) and stands for
    the instant it is made from: the conversions from the types of the systems; the setters, which leave the other
    field as it is and read back what was set; the clocks of both systems (the instant 0 when the clock of UNIX
    fails); the modification time of a file; and the deadline of ffthread_join(), which is well-formed and the
    timeout later.  What a stamp is converted to is well-formed and the same instant, rounded down to what the
    target can hold: microseconds, nanoseconds, 100 ns, or the 64-bit counts of milliseconds and microseconds. *)
Theorem stamps_exact :
  (* made from the system's types *)
  ((∀ s, is_s64 s → stamp (fftime_from_time_t s) (s * 1000000000)) ∧
   (∀ tv, typed_tv tv → stamp (fftime_from_timeval tv) (ns_tv tv)) ∧
   (∀ ts, typed_ts ts → stamp (fftime_from_timespec ts) (ns_ts ts)) ∧
   (∀ lo hi, is_u32 lo → is_u32 hi → stamp (fftime_from_winftime (WinFTime lo hi)) (ns_ft lo hi))) ∧
  (* set *)
  (∀ t s ms us n, typed t → is_u32 s → 0 ≤ ms < 1000 → 0 ≤ us < 1000000 → 0 ≤ n < 1000000000 →
   stamp (fftime_setsec t s) (s * 1000000000 + t_nsec t) ∧
   stamp (fftime_setmsec t ms) (t_sec t * 1000000000 + ms * 1000000) ∧
   stamp (fftime_setusec t us) (t_sec t * 1000000000 + us * 1000) ∧
   stamp (fftime_setnsec t n) (t_sec t * 1000000000 + n) ∧
   fftime_sec (fftime_setsec t s) = s ∧ fftime_msec (fftime_setmsec t ms) = ms ∧
   fftime_usec (fftime_setusec t us) = us ∧ fftime_nsec (fftime_setnsec t n) = n) ∧
  (* converted to the system's types *)
  (∀ t, typed t →
   (typed_tv (fftime_to_timeval t) ∧ ns_tv (fftime_to_timeval t) = ns t / 1000 * 1000) ∧
   (typed_ts (fftime_to_timespec t) ∧ ns_ts (fftime_to_timespec t) = ns t) ∧
   (0 ≤ ns t / 100 + 116444736000000000 < 2 ^ 64 →
    let w := fftime_to_winftime t in
    is_u32 (ft_lo w) ∧ ft_hi w * 2 ^ 32 + ft_lo w = ns t / 100 + 116444736000000000) ∧
   (0 ≤ ns t < 2 ^ 64 * 1000000 → fftime_to_msec t = ns t / 1000000) ∧
   (0 ≤ ns t < 2 ^ 64 * 1000 → fftime_to_usec t = ns t / 1000)) ∧
  (* the clocks *)
  (∀ n0, wp stamp_env fftime_now_unix stamp never n0 ∧ wp stamp_env fftime_monotonic stamp never n0 ∧
   (∀ cache, wp stamp_env_win (fftime_now_win cache) (λ '(t, _) n, stamp t n) never n0) ∧
   wp stamp_env_win fftime_now_win8 stamp never n0) ∧
  (* files and waits *)
  ((∀ fd n0, wp stamp_env (fffile_info fd) (λ '(r, fi) n, r = 0 → stamp (fffileinfo_mtime fi) n) never n0) ∧
   (∀ fd n0, wp stamp_env_win (fffile_info_win fd) (λ '(r, fi) n, r = 0 → stamp (fffileinfo_mtime_win fi) n) never n0) ∧
   (∀ ts ms, typed_ts ts → tv_sec ts < 2 ^ 62 → is_u32 ms →
    typed_ts (_fftimespec_addms ts ms) ∧ ns_ts (_fftimespec_addms ts ms) = ns_ts ts + ms * 1000000)).
Proof.
  split_and!.
  - intros s Hs. unfold stamp, typed, ns. cbn. split_and!; [done|lia..].
  - intros tv [Hs Hu]. unfold stamp, typed, ns, ns_tv, fftime_from_timeval. cbn [t_sec t_nsec].
    rewrite (u32_small (tvv_usec tv)), u32_small by (unfold is_u32; lia). split_and!; [done|lia..].
  - auto.
  - apply winftime_stamp.
  - intros [s0 n0] s ms us n [Ht Hn] Hs Hms Hus Hns.
    unfold fftime_setsec, fftime_setmsec, fftime_setusec, fftime_setnsec, fftime_sec, fftime_msec, fftime_usec, fftime_nsec, stamp, typed, ns.
    cbn [t_sec t_nsec] in *. unfold is_u32, is_s64 in *.
    rewrite (u32_small (ms * 1000000)), (u32_small (us * 1000)) by (unfold is_u32; lia).
    split_and!; try done; try lia; dlia.
  - intros [s n] [Hs Hn]. split_and!; [split; [done|cbn in *; dlia]|unfold ns_tv, ns; cbn in *; dlia|by split|done| | |].
    + intros H. by apply to_winftime_value.
    + unfold ns, fftime_to_msec. cbn in *. intros H. rewrite u64_small by (unfold is_u64; dlia). dlia.
    + unfold ns, fftime_to_usec. cbn in *. intros H. rewrite u64_small by (unfold is_u64; dlia). dlia.
  - intros n0. split_and!.
    + cbn. intros [r ts] n [(-> & H & ->)|[Hr ->]]; cbn; [auto|].
      rewrite (proj2 (Z.eqb_neq _ _)) by done. apply (timespec_stamp (TimeSpec 0 0)). split; cbn; [unfold is_s64|]; lia.
    + cbn. intros [r ts] n [(-> & H & ->)|[Hr ->]]; cbn; [auto|]. by rewrite (proj2 (Z.eqb_neq _ _)).
    + intros cache. unfold fftime_now_win. apply wp_bind. eapply (wp_mono _ _ (λ _ _, True) _ never); [| |done].
      { destruct (cache =? -1); cbn -[bytes_of]; auto. }
      intros c n1 _. destruct (negb (c =? 0)); cbn; intros ft n [Hft ->]; by apply filetime_stamp.
    + cbn. intros ft n [Hft ->]. by apply filetime_stamp.
  - intros fd n0. cbn. intros [r st] n H Hr. destruct (H Hr) as [Ht ->]. by apply timespec_stamp.
  - intros fd n0. cbn. intros [ok fi] n [H ->] _. by apply filetime_stamp.
  - intros [s n] ms [Hs Hn] Hb Hms. unfold typed_ts, ns_ts, _fftimespec_addms, is_s64, is_u32 in *. cbn [tv_sec tv_nsec] in *.
    destruct (Z.leb_spec (1000 * 1000 * 1000) (n + ms mod 1000 * 1000 * 1000)); cbn [tv_sec tv_nsec]; split_and!; dlia.
Qed.

Lemma stamps_exact_witness :
  stamp (FfTime 1600000000 123456700) 1600000000123456700 ∧
  stamp (fftime_from_winftime (WinFTime 1 27111902)) (ns_ft 1 27111902) ∧
  ns_ts (_fftimespec_addms (TimeSpec 5 999999999) 4294967295) = ns_ts (TimeSpec 5 999999999) + 4294967295 * 1000000.
Proof.
  destruct stamps_exact as ((_ & _ & H1 & H2) & _ & _ & _ & _ & _ & H3). split_and!.
  - apply (H1 (TimeSpec 1600000000 123456700)). split; cbn; [unfold is_s64|]; lia.
  - apply H2; unfold is_u32; cbn; lia.
  - apply H3; [split; cbn; [unfold is_s64|]; lia|cbn; lia|unfold is_u32; lia].
Defined.
