(* ===== verification/KCall.v ===== *)
(** * FFOS/kcall.h: kernel calls through a submission and a completion queue (Linux)

    A call object is a cell of [kcs]; the union of its arguments and results is three words at
    offsets 0 (32 bits), 8 and 16: [error], [flags], [fd] share the first, [result], [name],
    [finfo], [buf] the second, so a result is read from where an argument was written.  The calls
    that perform the operations are those of FileUnix.v and Socket.v. *)
From S2P Require Import Prelude Prog Unix FileUnix Socket Queue Sync.

Record kcall := KCall {
  k_q : bool;                       (* q != NULL *)
  k_op : Z; k_state : Z;
  k_w0 : Z; k_w8 : Z; k_w16 : Z;
  k_handler : Z; k_param : Z;
}.
Definition k_set_op v k := KCall (k_q k) v (k_state k) (k_w0 k) (k_w8 k) (k_w16 k) (k_handler k) (k_param k).
Definition k_set_state v k := KCall (k_q k) (k_op k) v (k_w0 k) (k_w8 k) (k_w16 k) (k_handler k) (k_param k).
Definition k_set_args a b c k := KCall (k_q k) (k_op k) (k_state k) a b c (k_handler k) (k_param k).

Definition FFKCALL_EINPROGRESS := EINPROGRESS.
Definition FFKCALL_EBUSY := EBUSY.
Definition FFKCALL_EAGAIN := EAGAIN.
Definition FFKCALL_FILE_OPEN := 1.
Definition FFKCALL_FILE_INFO := 2.
Definition FFKCALL_FILE_READ := 3.
Definition FFKCALL_FILE_WRITE := 4.
Definition FFKCALL_NET_RESOLVE := 5.

(** ffbase/ringqueue.h: a bounded first-in-first-out queue; [ffrq_add] returns the queue, the
    result and the number of elements there were before. *)
Class RingQueue := {
  rq : Type;
  ffrq_add : rq → Z → rq * Z * Z;
  ffrq_fetch : rq → option (Z * rq);
}.
Class RingQueueLaws (R : RingQueue) := {
  rq_items : rq → list Z;
  rq_cap : rq → nat;
  add_law q x : (length (rq_items q) < rq_cap q)%nat →
    ∃ q', ffrq_add q x = (q', 0, Z.of_nat (length (rq_items q))) ∧ rq_items q' = rq_items q ++ [x] ∧ rq_cap q' = rq_cap q;
  add_full_law q x : (rq_cap q ≤ length (rq_items q))%nat → ∃ r u, ffrq_add q x = (q, r, u) ∧ r ≠ 0;
  fetch_law q x l : rq_items q = x :: l → ∃ q', ffrq_fetch q = Some (x, q') ∧ rq_items q' = l ∧ rq_cap q' = rq_cap q;
  fetch_empty_law q : rq_items q = [] → ffrq_fetch q = None;
}.

Section kcall.
Context `{R : RingQueue}.

(** The call objects, both queues, and the client's memory that the operations read and fill. *)
Record kst := KSt {
  kcs : gmap Z kcall; sq : rq; cq : rq;
  bufs : gmap Z (list Z);      (* data buffers, by address *)
  stats : gmap Z stat;         (* fffileinfo objects, by address *)
}.
Definition k_put (kc : Z) (k : kcall) (st : kst) : kst :=
  KSt (<[kc := k]> (kcs st)) (sq st) (cq st) (bufs st) (stats st).

(** System calls, and the call of a handler, which may submit calls again. *)
Inductive kcE : Type → Type :=
  | kc_sys {X : Type} (e : unixE X) : kcE X
  | kc_handler (f p : Z) (st : kst) : kcE kst.

Fixpoint lift {A} (p : prog unixE A) : prog kcE A :=
  match p with Ret a => Ret a | Vis e k => Vis (kc_sys e) (λ x, lift (k x)) | Halt h => Halt h end.

Definition k_load (st : kst) (kc : Z) : prog kcE kcall :=
  match kcs st !! kc with Some k => Ret k | None => Halt OutOfBounds end.
Definition k_upd (st : kst) (kc : Z) (f : kcall → kcall) : prog kcE kst :=
  let* k := k_load st kc in Ret (k_put kc (f k) st).

(** What does not change: the strings at the addresses that names are passed by, and the queue's
    semaphore and event. *)
Context (names : Z → cstr) (sem : option ffsem) (kqpost kqpost_data : Z).

(** ** Execution of a call *)

Definition _ffkcall_exec (os : unix_os) (st : kst) (kc : Z) : prog kcE (kst * Z) :=
  let* k := k_load st kc in
  let* res :=
    if k_op k =? FFKCALL_FILE_OPEN then
      let* r := lift (fffile_open os (names (k_w8 k)) (k_w0 k)) in Ret (Some (st, r))
    else if k_op k =? FFKCALL_FILE_INFO then
      let* '(r, fi) := lift (fffile_info (s32 (k_w0 k))) in
      Ret (Some (KSt (kcs st) (sq st) (cq st) (bufs st) (if r =? 0 then <[k_w8 k := fi]> (stats st) else stats st), r))
    else if k_op k =? FFKCALL_FILE_READ then
      let* '(r, d) := lift (fffile_read (s32 (k_w0 k)) (k_w16 k)) in
      let old := default [] (bufs st !! k_w8 k) in
      Ret (Some (KSt (kcs st) (sq st) (cq st) (<[k_w8 k := d ++ drop (length d) old]> (bufs st)) (stats st), r))
    else if k_op k =? FFKCALL_FILE_WRITE then
      let* r := lift (fffile_write (s32 (k_w0 k)) (take (Z.to_nat (k_w16 k)) (default [] (bufs st !! k_w8 k)))) in
      Ret (Some (st, r))
    else if k_op k =? FFKCALL_NET_RESOLVE then
      let* r := lift (ffaddrinfo_resolve (names (k_w8 k)) (s32 (k_w0 k))) in Ret (Some (st, r))
    else Ret None in
  match res with
  | None => Ret (st, -1)
  | Some (st, r) =>
      let! e := kc_sys get_errno in
      let* st := k_upd st kc (λ k, k_set_args (u32 e) r (k_w16 k) k) in
      Ret (st, 0)
  end.

Definition process_sq_step (os : unix_os) (st : kst) : prog kcE (kst + kst) :=
  match ffrq_fetch (sq st) with
  | None => Ret (inr st)
  | Some (kc, q) =>
      let* '(st, r) := _ffkcall_exec os (KSt (kcs st) q (cq st) (bufs st) (stats st)) kc in
      if negb (r =? 0) then let* st := k_upd st kc (k_set_state 0) in Ret (inl st) else
      let* st := k_upd st kc (k_set_state 2) in
      let '(q, r, used) := ffrq_add (cq st) kc in
      if negb (r =? 0) then Halt AssertFail else
      let st := KSt (kcs st) (sq st) q (bufs st) (stats st) in
      if (used =? 0) && negb (kqpost =? FFKQ_NULL) then
        let* p := lift (ffkq_post kqpost kqpost_data) in
        if negb (p =? 0) then Halt AssertFail else Ret (inl st)
      else Ret (inl st)
  end.
Definition ffkcallq_process_sq (os : unix_os) (fuel : nat) (st : kst) : prog kcE kst :=
  loop fuel (process_sq_step os) st.

Definition process_cq_step (st : kst) : prog kcE (kst + kst) :=
  match ffrq_fetch (cq st) with
  | None => Ret (inr st)
  | Some (kc, q) =>
      let* st := k_upd (KSt (kcs st) (sq st) q (bufs st) (stats st)) kc (k_set_state 0) in
      let* k := k_load st kc in
      if negb (k_op k =? 0) then let! st := kc_handler (k_handler k) (k_param k) st in Ret (inl st)
      else Ret (inl st)
  end.
Definition ffkcallq_process_cq (fuel : nat) (st : kst) : prog kcE kst := loop fuel process_cq_step st.

(** ** Submission *)

Definition ffkcall_cancel (st : kst) (kc : Z) : prog kcE kst := k_upd st kc (k_set_op 0).

Definition _ffkcall_add (st : kst) (kc op : Z) : prog kcE kst :=
  let* st := k_upd st kc (k_set_op op) in
  let '(q, r, _) := ffrq_add (sq st) kc in
  let st := KSt (kcs st) q (cq st) (bufs st) (stats st) in
  if negb (r =? 0) then
    let* st := k_upd st kc (k_set_op 0) in
    do! kc_sys (set_errno FFKCALL_EAGAIN) in Ret st
  else
    do* match sem with Some _ => lift (ffsem_post sem) | None => Ret 0 end in
    do! kc_sys (set_errno FFKCALL_EINPROGRESS) in Ret st.

(** The common body of the five functions: [direct] without a queue, [null] the failure value. *)
Definition kc_async (st : kst) (kc : Z) (null : Z) (direct : prog unixE (Z * (kst → kst)))
    (args : kcall → kcall) (op : Z) : prog kcE (Z * kst) :=
  let* k := k_load st kc in
  if negb (k_q k) then let* '(r, f) := lift direct in Ret (r, f st) else
  if negb (k_state k =? 0) then do! kc_sys (set_errno FFKCALL_EBUSY) in Ret (null, st) else
  if negb (k_op k =? 0) then
    let* st := k_upd st kc (k_set_op 0) in
    do! kc_sys (set_errno (s32 (k_w0 k))) in Ret (k_w8 k, st)
  else
    let* st := k_upd st kc args in
    let* st := _ffkcall_add st kc op in Ret (null, st).

Definition set_buf (buf : Z) (d : list Z) (st : kst) : kst :=
  KSt (kcs st) (sq st) (cq st) (<[buf := d ++ drop (length d) (default [] (bufs st !! buf))]> (bufs st)) (stats st).

Definition fffile_open_async (os : unix_os) (st : kst) (name flags kc : Z) : prog kcE (Z * kst) :=
  let* '(r, st) := kc_async st kc FFFILE_NULL (let* r := fffile_open os (names name) flags in Ret (r, id))
    (λ k, k_set_args flags name (k_w16 k) k) FFKCALL_FILE_OPEN in Ret (s32 r, st).

Definition fffile_info_async (st : kst) (fd fi kc : Z) : prog kcE (Z * kst) :=
  let* '(r, st) := kc_async st kc (-1)
    (let* '(r, s) := fffile_info fd in
     Ret (r, λ st, KSt (kcs st) (sq st) (cq st) (bufs st) (if r =? 0 then <[fi := s]> (stats st) else stats st)))
    (λ k, k_set_args (u32 fd) fi (k_w16 k) k) FFKCALL_FILE_INFO in Ret (s32 r, st).

Definition fffile_read_async (st : kst) (fd buf size kc : Z) : prog kcE (Z * kst) :=
  kc_async st kc (-1) (let* '(r, d) := fffile_read fd size in Ret (r, set_buf buf d))
    (k_set_args (u32 fd) buf size) FFKCALL_FILE_READ.

Definition fffile_write_async (st : kst) (fd buf size kc : Z) : prog kcE (Z * kst) :=
  kc_async st kc (-1)
    (let* r := fffile_write fd (take (Z.to_nat size) (default [] (bufs st !! buf))) in Ret (r, id))
    (k_set_args (u32 fd) buf size) FFKCALL_FILE_WRITE.

Definition ffaddrinfo_resolve_async (st : kst) (name flags kc : Z) : prog kcE (Z * kst) :=
  kc_async st kc 0 (let* r := ffaddrinfo_resolve (names name) flags in Ret (r, id))
    (λ k, k_set_args (u32 flags) name (k_w16 k) k) FFKCALL_NET_RESOLVE.

(** ** The environment: the system, where [P] is what a read() leaves errno with, and the handlers, which
    are recorded and may change the state as [C] says *)

Definition usys (P : Z → Prop) : env unixE ustate := λ s X e,
  match e in unixE X return X → ustate → Prop with
  | u_read fd n => λ r s', ustep s _ (u_read fd n) r s' ∧ P (us_errno s')
  | e => ustep s _ e
  end.

Definition kc_env (P : Z → Prop) (C : kst → kst → Prop) : env kcE (ustate * list (Z * Z)) := λ w X e,
  match e in kcE X return X → ustate * list (Z * Z) → Prop with
  | kc_sys e => λ x w', usys P w.1 _ e x w'.1 ∧ w'.2 = w.2
  | kc_handler f p st => λ st' w', w' = (w.1, w.2 ++ [(f, p)]) ∧ C st st'
  end.
End kcall.

(** ** Properties *)

Section properties.
Context `{R : RingQueue, L : !RingQueueLaws R}.
Context (names : Z → cstr) (sem : option ffsem) (kqpost kqpost_data : Z) (P : Z → Prop).

(** The call objects not yet submitted or finished. *)
Definition idle (k : kcall) : Prop := k_q k = true ∧ k_state k = 0 ∧ k_op k = 0.

Lemma insert_twice (m : gmap Z kcall) i a b : <[i := a]> (<[i := b]> m) = <[i := a]> m.
Proof. apply insert_insert_eq. Qed.

(** A submission with room in the queue. *)
Lemma submit_wp C st kc k null direct args op s tr :
  kcs st !! kc = Some k → idle k → (length (rq_items (sq st)) < rq_cap (sq st))%nat →
  wp (kc_env P C) (kc_async sem st kc null direct args op)
    (λ '(r, st') w, r = null ∧ us_errno w.1 = EINPROGRESS ∧ us_io w.1 = us_io s ∧ us_fds w.1 = us_fds s ∧ w.2 = tr ∧
       ∃ q, st' = KSt (<[kc := k_set_op op (args k)]> (kcs st)) q (cq st) (bufs st) (stats st) ∧
         rq_items q = rq_items (sq st) ++ [kc] ∧ rq_cap q = rq_cap (sq st)) never (s, tr).
Proof.
  intros Hk (Hq & Hst & Hop) Hroom. unfold kc_async, k_load. rewrite Hk. cbn [bind]. rewrite Hq, Hst, Hop. cbn.
  unfold k_upd, k_load. rewrite Hk. cbn. unfold _ffkcall_add, k_upd, k_load. cbn.
  rewrite lookup_insert_eq. cbn. destruct (add_law (sq st) kc Hroom) as (q & -> & Hi & Hc). cbn.
  rewrite insert_twice.
  assert (Hend : ∀ s1, us_io s1 = us_io s → us_fds s1 = us_fds s → ∀ x w', ustep s1 _ (set_errno FFKCALL_EINPROGRESS) x w'.1 ∧ w'.2 = tr →
    null = null ∧ us_errno w'.1 = EINPROGRESS ∧ us_io w'.1 = us_io s ∧ us_fds w'.1 = us_fds s ∧ w'.2 = tr ∧
    ∃ q0, KSt (<[kc := k_set_op op (args k)]> (kcs st)) q (cq st) (bufs st) (stats st) =
          KSt (<[kc := k_set_op op (args k)]> (kcs st)) q0 (cq st) (bufs st) (stats st) ∧
      rq_items q0 = rq_items (sq st) ++ [kc] ∧ rq_cap q0 = rq_cap (sq st)).
  { intros s1 Hio Hfd x w' [(He & Hf & _ & _ & _ & Hi') Htr]. split_and!; [done|done|congruence|congruence|done|].
    exists q. done. }
  destruct sem as [sm|]; cbn.
  - intros x [s1 tr1] [(Hf & _ & _ & _ & Hio) Htr]. cbn in *. subst tr1. intros x' w' Hw.
    exact (Hend s1 Hio Hf x' w' Hw).
  - intros x w' Hw. exact (Hend s eq_refl eq_refl x w' Hw).
Qed.

(** a second call while the request is still in the submission queue: nothing marks the object
    ([state] stays 0, although the comment of the field says 1), so the function takes the pending
    operation for a finished one: it returns the address of the buffer as the result, with the
    descriptor as the error code, and drops the operation. *)
Theorem second_call_in_sq st kc k fd buf size w :
  kcs st !! kc = Some k → idle k → (length (rq_items (sq st)) < rq_cap (sq st))%nat → is_s32 fd →
  wp (kc_env P eq)
    (let* '(r1, st) := fffile_read_async sem st fd buf size kc in
     let* '(r2, st) := fffile_read_async sem st fd buf size kc in Ret (r1, r2, st))
    (λ '(r1, r2, st') w', r1 = -1 ∧ r2 = buf ∧ us_errno w'.1 = fd ∧
       rq_items (sq st') = rq_items (sq st) ++ [kc] ∧
       ∃ k', kcs st' !! kc = Some k' ∧ k_op k' = 0 ∧ k_state k' = 0) never w.
Proof.
  intros Hk Hid Hroom Hfd. destruct w as [s tr]. apply wp_bind.
  eapply wp_mono; [by apply (submit_wp eq st kc k)| |done].
  intros [r1 st1] [s1 tr1] (-> & _ & Hio & Hfds & _ & q & -> & Hi & _). unfold fffile_read_async, kc_async, k_load.
  cbn [kcs]. rewrite lookup_insert_eq. cbn [bind]. destruct Hid as (Hq & Hst & _).
  change (k_q (k_set_op FFKCALL_FILE_READ (k_set_args (u32 fd) buf size k))) with (k_q k).
  change (k_state (k_set_op FFKCALL_FILE_READ (k_set_args (u32 fd) buf size k))) with (k_state k).
  rewrite Hq, Hst. cbn -[u32]. unfold k_upd, k_load. cbn -[u32]. rewrite lookup_insert_eq. cbn -[u32].
  intros [] w' [[He _] _]. rewrite s32_u32 in He by done. split_and!; [done|done|done|done|].
  eexists. rewrite lookup_insert_eq. done.
Qed.

(** One request, executed: the read() of the other thread. *)
Lemma exec_read_wp C os st kc k s tr :
  kcs st !! kc = Some k → k_op k = FFKCALL_FILE_READ → 
  wp (kc_env P C) (_ffkcall_exec names os st kc)
    (λ '(st', r) w, r = 0 ∧ ∃ n d, read_ok (k_w16 k) (n, d) ∧ P (us_errno w.1) ∧ w.2 = tr ∧ us_fds w.1 = us_fds s ∧
       us_io w.1 = (if n =? -1 then us_io s else us_io s ++ [IoRead (s32 (k_w0 k)) d]) ∧
       st' = set_buf (k_w8 k) d (k_put kc (k_set_args (u32 (us_errno w.1)) n (k_w16 k) k) st)) never (s, tr).
Proof.
  intros Hk Hop. unfold _ffkcall_exec, k_load. rewrite Hk. cbn [bind]. rewrite Hop.
  cbn -[u32 s32]. intros [n d] [s1 tr1] [[(Hf & Hm & Hd & Hu & Hr & Hio) HP] Htr]. cbn in HP, Hf, Hio, Htr, Hr. subst tr1.
  cbn -[u32 s32]. intros e [s2 tr2] [[-> E] Htr]. cbn in E, Htr. subst s2 tr2. cbn -[u32 s32].
  unfold k_upd, k_load. cbn -[u32 s32]. rewrite Hk. cbn -[u32 s32]. split; [done|]. exists n, d.
  split_and!; try done.
Qed.

(** The handler of the request is called once, the object is idle again but for its operation. *)
Lemma cq_one_wp st kc k s tr fuel :
  rq_items (cq st) = [kc] → kcs st !! kc = Some k → k_op k ≠ 0 → (2 ≤ fuel)%nat →
  wp (kc_env P eq) (ffkcallq_process_cq fuel st)
    (λ st' w, w.1 = s ∧ w.2 = tr ++ [(k_handler k, k_param k)] ∧
       ∃ q, st' = KSt (<[kc := k_set_state 0 k]> (kcs st)) (sq st) q (bufs st) (stats st) ∧ rq_items q = []) never (s, tr).
Proof.
  intros Hi Hk Hop Hf. destruct fuel as [|[|fuel]]; [lia..|]. unfold ffkcallq_process_cq. cbn [loop].
  unfold process_cq_step at 1. destruct (fetch_law _ _ _ Hi) as (q & -> & Hq & _).
  unfold k_upd, k_load. cbn. rewrite Hk. cbn. rewrite lookup_insert_eq. cbn.
  destruct (Z.eqb_spec (k_op k) 0) as [|_]; [done|]. cbn. intros st' w [-> <-]. cbn.
  unfold process_cq_step at 1. cbn. rewrite fetch_empty_law by done. cbn. eauto.
Qed.

(** The worker's turn for one request. *)
Lemma sq_one_wp C os st kc k s tr fuel :
  rq_items (sq st) = [kc] → rq_items (cq st) = [] → (0 < rq_cap (cq st))%nat →
  kcs st !! kc = Some k → k_op k = FFKCALL_FILE_READ → (2 ≤ fuel)%nat →
  wp (kc_env P C) (ffkcallq_process_sq names kqpost kqpost_data os fuel st)
    (λ st' w, ∃ n d e q1 q2, read_ok (k_w16 k) (n, d) ∧ P e ∧ w.2 = tr ∧ us_fds w.1 = us_fds s ∧
       us_io w.1 = (if n =? -1 then us_io s else us_io s ++ [IoRead (s32 (k_w0 k)) d]) ∧
       rq_items q1 = [] ∧ rq_items q2 = [kc] ∧
       st' = KSt (<[kc := k_set_state 2 (k_set_args (u32 e) n (k_w16 k) k)]> (kcs st)) q1 q2
               (<[k_w8 k := d ++ drop (length d) (default [] (bufs st !! k_w8 k))]> (bufs st)) (stats st))
    (λ h _, h = AssertFail ∧ kqpost ≠ FFKQ_NULL) (s, tr).
Proof.
  intros Hs Hc Hcap Hk Hop Hf. destruct fuel as [|[|fuel]]; [lia..|]. unfold ffkcallq_process_sq. cbn [loop].
  apply wp_bind. unfold process_sq_step at 1. destruct (fetch_law _ _ _ Hs) as (q1 & -> & Hq1 & _).
  apply wp_bind. eapply wp_mono; [by apply (exec_read_wp C os (KSt (kcs st) q1 (cq st) (bufs st) (stats st)) kc k)| |done].
  intros [st1 r] [s1 tr1] (-> & n & d & Hr & HP & Htr & Hfd & Hio & ->). cbn in HP, Htr, Hfd, Hio. subst tr1.
  unfold k_upd, k_load, set_buf, k_put. cbn -[u32 s32]. rewrite lookup_insert_eq. cbn -[u32 s32].
  destruct (add_law (cq st) kc) as (q2 & -> & Hq2 & _); [rewrite Hc; cbn; lia|].
  rewrite Hc in *. cbn [negb Z.eqb]. rewrite insert_twice.
  assert (Hend : ∀ s2, us_io s2 = us_io s1 → us_fds s2 = us_fds s1 → 
    ∃ n0 d0 e q0 q3, read_ok (k_w16 k) (n0, d0) ∧ P e ∧ tr = tr ∧ us_fds s2 = us_fds s ∧
      us_io s2 = (if n0 =? -1 then us_io s else us_io s ++ [IoRead (s32 (k_w0 k)) d0]) ∧
      rq_items q0 = [] ∧ rq_items q3 = [kc] ∧
      KSt (<[kc := k_set_state 2 (k_set_args (u32 (us_errno s1)) n (k_w16 k) k)]> (kcs st)) q1 q2
        (<[k_w8 k := d ++ drop (length d) (default [] (bufs st !! k_w8 k))]> (bufs st)) (stats st) =
      KSt (<[kc := k_set_state 2 (k_set_args (u32 e) n0 (k_w16 k) k)]> (kcs st)) q0 q3
        (<[k_w8 k := d0 ++ drop (length d0) (default [] (bufs st !! k_w8 k))]> (bufs st)) (stats st)).
  { intros s2 E1 E2. exists n, d, (us_errno s1), q1, q2. rewrite E1, E2. done. }
  change (Z.of_nat (length [])) with 0. change (0 =? 0) with true.
  destruct (Z.eqb_spec kqpost FFKQ_NULL) as [Hnull|Hnull]; cbn -[u32 s32].
  - unfold process_sq_step. cbn -[u32 s32]. rewrite fetch_empty_law by done. cbn -[u32 s32]. by apply Hend.
  - intros x [s2 tr2] [(E2 & _ & _ & _ & E1) Htr]. cbn in E1, E2, Htr. subst tr2.
    destruct (x =? 8); cbn -[u32 s32]; [|done].
    unfold process_sq_step. cbn -[u32 s32]. rewrite fetch_empty_law by done. cbn -[u32 s32]. by apply Hend.
Qed.

(** *** Any number of requests *)

(** The five operations; a call that was cancelled (or is unknown) is dropped. *)
Definition known (op : Z) : bool := (1 <=? op) && (op <=? 5).
Definition runs (m : gmap Z kcall) (kc : Z) : bool := match m !! kc with Some k => known (k_op k) | None => false end.
(** The handlers that are to be called, in order. *)
Definition handlers (m : gmap Z kcall) (l : list Z) : list (Z * Z) :=
  omap (λ kc, k ← m !! kc; if k_op k =? 0 then None else Some (k_handler k, k_param k)) l.
Definition same_call (k k' : kcall) : Prop :=
  k_op k' = k_op k ∧ k_handler k' = k_handler k ∧ k_param k' = k_param k ∧ k_q k' = k_q k.

Lemma usys_ustep s X (e : unixE X) x s' : usys P s X e x s' → ustep s X e x s'.
Proof.
  destruct e; try exact (λ H, H). by intros [H _].
Qed.

Lemma lift_wp {A} C (p : prog unixE A) s tr :
  wp ustep p (λ _ _, True) never s → wp (kc_env P C) (lift p) (λ _ w, w.2 = tr) never (s, tr).
Proof.
  revert s. induction p as [a|X e k IH|h]; intros s; cbn; [done| |done].
  intros Hp x [s' tr'] [Hs Htr]. cbn in Hs, Htr. subst tr'. by apply IH, Hp, usys_ustep.
Qed.

(** A call is executed, whatever the system answers. *)
Lemma exec_wp C os st kc k s tr : kcs st !! kc = Some k →
  wp (kc_env P C) (_ffkcall_exec names os st kc)
    (λ '(st', r) w, w.2 = tr ∧ sq st' = sq st ∧ cq st' = cq st ∧
       if known (k_op k) then r = 0 ∧ ∃ a b c, kcs st' = <[kc := k_set_args a b c k]> (kcs st)
       else r = -1 ∧ kcs st' = kcs st) never (s, tr).
Proof.
  intros Hk. unfold _ffkcall_exec, k_load. rewrite Hk. cbn [bind]. apply wp_bind.
  eapply (wp_mono _ _ (λ res w, w.2 = tr ∧ match res with
    | Some (st', _) => known (k_op k) = true ∧ sq st' = sq st ∧ cq st' = cq st ∧ kcs st' = kcs st
    | None => known (k_op k) = false end) _ never); [| |done].
  - assert (∀ A (p : prog unixE A) (f : A → prog kcE (option (kst * Z))), known (k_op k) = true →
      wp ustep p (λ _ _, True) never s → (∀ a, ∃ st' r, f a = Ret (Some (st', r)) ∧ sq st' = sq st ∧ cq st' = cq st ∧ kcs st' = kcs st) →
      wp (kc_env P C) (let* a := lift p in f a) (λ res w, w.2 = tr ∧ match res with
        | Some (st', _) => known (k_op k) = true ∧ sq st' = sq st ∧ cq st' = cq st ∧ kcs st' = kcs st
        | None => known (k_op k) = false end) never (s, tr)) as HL.
    { intros A p f Hkn Hp Hf. apply wp_bind. eapply wp_mono; [by apply lift_wp| |done].
      intros a w Hw. destruct (Hf a) as (st' & r & -> & H). done. }
    destruct (Z.eqb_spec (k_op k) FFKCALL_FILE_OPEN) as [E1|N1].
    { apply HL; [by rewrite E1| |by eauto 10]. eapply wp_mono; [apply open_wp|done|done]. }
    destruct (Z.eqb_spec (k_op k) FFKCALL_FILE_INFO) as [E2|N2].
    { apply HL; [by rewrite E2|done|]. intros [r fi]. by eauto 10. }
    destruct (Z.eqb_spec (k_op k) FFKCALL_FILE_READ) as [E3|N3].
    { apply HL; [by rewrite E3|done|]. intros [r d]. by eauto 10. }
    destruct (Z.eqb_spec (k_op k) FFKCALL_FILE_WRITE) as [E4|N4].
    { apply HL; [by rewrite E4|done|]. by eauto 10. }
    destruct (Z.eqb_spec (k_op k) FFKCALL_NET_RESOLVE) as [E5|N5].
    { apply HL; [by rewrite E5| |by eauto 10]. cbn. intros [r a] s' _. destruct (negb (r =? 0)); cbn; [|done]. by intros. }
    cbn. split; [done|]. unfold known, FFKCALL_FILE_OPEN, FFKCALL_FILE_INFO, FFKCALL_FILE_READ, FFKCALL_FILE_WRITE, FFKCALL_NET_RESOLVE in *.
    apply andb_false_iff. rewrite !Z.leb_gt. lia.
  - intros [[st' r]|] [s1 tr1] [Htr H]; cbn in Htr; subst tr1; [|by rewrite H].
    destruct H as (-> & Hsq & Hcq & Hm). cbn -[u32]. intros e [s2 tr2] [_ Htr]. cbn in Htr. subst tr2. cbn -[u32].
    unfold k_upd, k_load. rewrite Hm, Hk. cbn -[u32]. rewrite Hm. by eauto 10.
Qed.

Lemma runs_insert m kc k l : kc ∉ l → List.filter (runs (<[kc := k]> m)) l = List.filter (runs m) l.
Proof.
  intros Hn. apply filter_ext_in. intros x Hx%list_elem_of_In. unfold runs.
  rewrite lookup_insert_ne; [done|]. by intros <-.
Qed.
Lemma handlers_insert m kc k l : kc ∉ l → handlers (<[kc := k]> m) l = handlers m l.
Proof.
  intros Hn. unfold handlers. induction l as [|x l IH]; [done|]. cbn. apply not_elem_of_cons in Hn as [Hx Hl].
  rewrite lookup_insert_ne by done. by rewrite IH.
Qed.

(** An object after its turn: the same call in another state. *)
Definition moved (f : kcall → Z) (l : list Z) (m m' : gmap Z kcall) : Prop := ∀ kc k, m !! kc = Some k →
  ∃ k', m' !! kc = Some k' ∧ same_call k k' ∧ (kc ∈ l → k_state k' = f k) ∧ (kc ∉ l → k_state k' = k_state k).

Lemma moved_step f kc k k1 l m m' : (∀ a b, same_call a b → f b = f a) →
  m !! kc = Some k → kc ∉ l → same_call k k1 → k_state k1 = f k →
  moved f l (<[kc := k1]> m) m' → moved f (kc :: l) m m'.
Proof.
  intros Hf Hk Hn Hs Hst H kc' k2 Hk2. destruct (decide (kc' = kc)) as [->|Hne].
  - assert (k2 = k) as -> by congruence. destruct (H kc k1) as (k' & Hk' & Hs' & _ & Hu); [by rewrite lookup_insert_eq|].
    exists k'. split_and!; [done| | |].
    + unfold same_call in *. destruct Hs as (? & ? & ? & ?), Hs' as (? & ? & ? & ?). split_and!; congruence.
    + intros _. by rewrite Hu.
    + intros Hx. destruct Hx. by left.
  - destruct (H kc' k2) as (k' & Hk' & Hs' & Hi & Hu); [by rewrite lookup_insert_ne by done|].
    exists k'. split_and!; [done|done| |].
    + intros [?|?]%elem_of_cons; [done|auto].
    + intros [_ ?]%not_elem_of_cons. auto.
Qed.

Definition known_state (k : kcall) : Z := if known (k_op k) then 2 else 0.

Lemma k_upd_eq st kc k f : kcs st !! kc = Some k → k_upd st kc f = Ret (k_put kc (f k) st).
Proof. intros Hk. unfold k_upd, k_load. by rewrite Hk. Qed.

(** The worker's turns for all that is queued. *)
Lemma sq_batch C os l : ∀ fuel st s tr,
  rq_items (sq st) = l → NoDup l → (∀ kc, kc ∈ l → is_Some (kcs st !! kc)) → (length l < fuel)%nat →
  (length (rq_items (cq st)) + length l ≤ rq_cap (cq st))%nat →
  wp (kc_env P C) (ffkcallq_process_sq names kqpost kqpost_data os fuel st)
    (λ st' w, w.2 = tr ∧ rq_items (sq st') = [] ∧ moved known_state l (kcs st) (kcs st') ∧
       rq_items (cq st') = rq_items (cq st) ++ List.filter (runs (kcs st)) l ∧ rq_cap (cq st') = rq_cap (cq st))
    (λ h _, h = AssertFail ∧ kqpost ≠ FFKQ_NULL) (s, tr).
Proof.
  induction l as [|kc l IH]; intros fuel st s tr Hl Hnd Hin Hf Hcap; (destruct fuel as [|fuel]; [cbn in Hf; lia|]);
    unfold ffkcallq_process_sq; cbn [loop]; apply wp_bind; unfold process_sq_step at 1.
  - rewrite fetch_empty_law by done. cbn. rewrite app_nil_r. split_and!; [done|done| |done|done].
    intros kc k Hk. exists k. split_and!; [done|done|by intros ?%elem_of_nil|done].
  - destruct (fetch_law _ _ _ Hl) as (q1 & -> & Hq1 & _). apply NoDup_cons in Hnd as [Hni Hnd].
    destruct (Hin kc) as [k Hk]; [by left|].
    apply wp_bind. eapply wp_mono; [by apply (exec_wp C os (KSt (kcs st) q1 (cq st) (bufs st) (stats st)) kc k)| |done].
    intros [st1 r] [s1 tr1] (Htr & Hsq & Hcq & Hr). cbn in Htr, Hsq, Hcq, Hr. subst tr1.
    (* the rest of the queue, from a state in which the object has had its turn *)
    assert (∀ k1 q2 b2 t2 s2, same_call k k1 → k_state k1 = known_state k →
      rq_items q2 = rq_items (cq st) ++ (if known (k_op k) then [kc] else []) → rq_cap q2 = rq_cap (cq st) →
      wp (kc_env P C) (ffkcallq_process_sq names kqpost kqpost_data os fuel (KSt (<[kc := k1]> (kcs st)) q1 q2 b2 t2))
        (λ st' w, w.2 = tr ∧ rq_items (sq st') = [] ∧ moved known_state (kc :: l) (kcs st) (kcs st') ∧
           rq_items (cq st') = rq_items (cq st) ++ List.filter (runs (kcs st)) (kc :: l) ∧ rq_cap (cq st') = rq_cap (cq st))
        (λ h _, h = AssertFail ∧ kqpost ≠ FFKQ_NULL) (s2, tr)) as HK.
    { intros k1 q2 b2 t2 s2 Hs Hst Hi Hc. eapply wp_mono; [apply IH; cbn [sq cq kcs]; [done|done| |cbn in Hf; lia|]| |done].
      - intros x Hx. destruct (decide (x = kc)) as [->|]; [rewrite lookup_insert_eq; by eexists|].
        rewrite lookup_insert_ne by done. apply Hin. by right.
      - rewrite Hi, Hc, length_app. cbn [length] in Hcap. destruct (known _); cbn; lia.
      - cbn [kcs cq]. intros st' w (Hw & H1 & H2 & H3 & H4). split_and!; [done|done| | |congruence].
        + eapply moved_step; try done. intros a b (E & _). unfold known_state. by rewrite E.
        + rewrite H3, Hi, runs_insert, <- app_assoc by done. f_equal. cbn [List.filter]. unfold runs at 2. rewrite Hk.
          by destruct (known (k_op k)). }
    destruct (known (k_op k)) eqn:Ek; [destruct Hr as (-> & a & b & c & Hm)|destruct Hr as [-> Hm]]; cbn [negb Z.eqb].
    + rewrite (k_upd_eq st1 kc (k_set_args a b c k)) by (by rewrite Hm, lookup_insert_eq). cbn [bind]. unfold k_put. cbn [kcs sq cq bufs stats].
      rewrite Hm, insert_twice, Hsq, Hcq.
      destruct (add_law (cq st) kc) as (q2 & -> & Hi2 & Hc2); [cbn [length] in Hcap; lia|]. cbn [negb Z.eqb].
      destruct (_ && negb (kqpost =? FFKQ_NULL)) eqn:Ep.
      * apply andb_true_iff in Ep as [_ Ep%negb_true_iff%Z.eqb_neq]. cbn. intros x [s2 tr2] [_ Htr]. cbn in Htr. subst tr2.
        destruct (x =? 8); cbn [negb wp bind]; [|done]. apply HK; [done|unfold known_state; by rewrite Ek|done|done].
      * cbn [wp]. apply HK; [done|unfold known_state; by rewrite Ek|done|done].
    + rewrite (k_upd_eq st1 kc k) by (by rewrite Hm). cbn [bind wp]. unfold k_put. rewrite Hm, Hsq, Hcq.
      apply HK; [done|unfold known_state; by rewrite Ek|by rewrite app_nil_r|done].
Qed.

(** The owner's turns for all that is completed. *)
Lemma cq_batch l : ∀ fuel st s tr,
  rq_items (cq st) = l → NoDup l → (∀ kc, kc ∈ l → is_Some (kcs st !! kc)) → (length l < fuel)%nat →
  wp (kc_env P eq) (ffkcallq_process_cq fuel st)
    (λ st' w, w.1 = s ∧ w.2 = tr ++ handlers (kcs st) l ∧ rq_items (cq st') = [] ∧ sq st' = sq st ∧
       moved (λ _, 0) l (kcs st) (kcs st')) never (s, tr).
Proof.
  induction l as [|kc l IH]; intros fuel st s tr Hl Hnd Hin Hf; (destruct fuel as [|fuel]; [cbn in Hf; lia|]);
    unfold ffkcallq_process_cq; cbn [loop]; apply wp_bind; unfold process_cq_step at 1.
  - rewrite fetch_empty_law by done. cbn. rewrite app_nil_r. split_and!; try done.
    intros kc k Hk. exists k. split_and!; [done|done|by intros ?%elem_of_nil|done].
  - destruct (fetch_law _ _ _ Hl) as (q1 & -> & Hq1 & _). apply NoDup_cons in Hnd as [Hni Hnd].
    destruct (Hin kc) as [k Hk]; [by left|].
    assert (∀ tr2, tr2 = tr ++ (if k_op k =? 0 then [] else [(k_handler k, k_param k)]) →
      wp (kc_env P eq) (ffkcallq_process_cq fuel (KSt (<[kc := k_set_state 0 k]> (kcs st)) (sq st) q1 (bufs st) (stats st)))
        (λ st' w, w.1 = s ∧ w.2 = tr ++ handlers (kcs st) (kc :: l) ∧ rq_items (cq st') = [] ∧ sq st' = sq st ∧
           moved (λ _, 0) (kc :: l) (kcs st) (kcs st')) never (s, tr2)) as HK.
    { intros tr2 ->. eapply wp_mono; [apply IH; cbn [sq cq kcs]; [done|done| |cbn in Hf; lia]| |done].
      - intros x Hx. destruct (decide (x = kc)) as [->|]; [rewrite lookup_insert_eq; by eexists|].
        rewrite lookup_insert_ne by done. apply Hin. by right.
      - cbn [kcs sq]. intros st' w (Hs & Hw & H1 & H2 & H3). split_and!; [done| |done|done|by apply (moved_step _ kc k (k_set_state 0 k))].
        rewrite Hw, handlers_insert, <- app_assoc by done. f_equal. unfold handlers. cbn [omap list_omap]. rewrite Hk. cbn [mbind option_bind].
        by destruct (k_op k =? 0). }
    rewrite (k_upd_eq _ kc k) by done. cbn [bind]. unfold k_put, k_load. cbn [kcs sq cq bufs stats]. rewrite lookup_insert_eq. cbn [bind k_op k_set_state].
    destruct (k_op k =? 0) eqn:E0; cbn [negb].
    + cbn [wp]. apply HK. by rewrite app_nil_r.
    + cbn. intros st' w [-> <-]. by apply HK.
Qed.

Lemma handlers_moved m m' l0 l : moved known_state l0 m m' →
  (∀ kc, kc ∈ l → ∃ k, m !! kc = Some k ∧ (k_op k = 0 ∨ known (k_op k) = true)) →
  handlers m' (List.filter (runs m) l) = handlers m l.
Proof.
  intros Hm. induction l as [|kc l IH]; intros Hin; [done|]. destruct (Hin kc) as (k & Hk & Hop); [by left|].
  specialize (IH (λ x Hx, Hin x (list_elem_of_further _ _ _ Hx))). destruct (Hm kc k Hk) as (k' & Hk' & (E1 & E2 & E3 & _) & _).
  unfold handlers in *. cbn [List.filter]. unfold runs at 1. rewrite Hk. destruct Hop as [Hop|Hop].
  - rewrite Hop. cbn [known Z.leb andb]. change (known 0) with false. cbv iota. rewrite IH. cbn [omap list_omap]. rewrite Hk. cbn. by rewrite Hop.
  - rewrite Hop. cbn [omap list_omap]. rewrite Hk, Hk'. cbn. rewrite E1, E2, E3, IH. done.
Qed.

Lemma moved_twice l m1 m2 m3 : moved known_state l m1 m2 → moved (λ _, 0) (List.filter (runs m1) l) m2 m3 → moved (λ _, 0) l m1 m3.
Proof.
  intros H1 H2 kc k Hk. destruct (H1 kc k Hk) as (k1 & Hk1 & S1 & I1 & U1). destruct (H2 kc k1 Hk1) as (k2 & Hk2 & S2 & I2 & U2).
  assert (kc ∈ List.filter (runs m1) l ↔ kc ∈ l ∧ runs m1 kc = true) as Hf by (rewrite !list_elem_of_In; apply filter_In).
  exists k2. split_and!; [done| | |].
  - unfold same_call in *. destruct S1 as (? & ? & ? & ?), S2 as (? & ? & ? & ?). split_and!; congruence.
  - intros Hl. destruct (runs m1 kc) eqn:Hr; [apply I2, Hf; done|]. rewrite U2, I1; [|done|by intros [_ ?]%Hf].
    unfold runs in Hr. rewrite Hk in Hr. unfold known_state. by rewrite Hr.
  - intros Hl. rewrite U2, U1; [done|done|]. by intros [? _]%Hf.
Qed.

(** C12: whatever calls are queued, of any of the five operations or cancelled, and whatever the system answers: a turn of
    the worker and a turn of the owner call the handler of every call that is not cancelled exactly once, in the order of
    submission; a cancelled call is dropped and its handler not called.  Afterwards both queues are empty and
    every object can be used again.  (An assertion can fail only when the completion event cannot be posted.) *)
Theorem batch_in_order os fuel st s tr :
  NoDup (rq_items (sq st)) → rq_items (cq st) = [] → (length (rq_items (sq st)) ≤ rq_cap (cq st))%nat →
  (∀ kc, kc ∈ rq_items (sq st) → ∃ k, kcs st !! kc = Some k ∧ (k_op k = 0 ∨ known (k_op k) = true)) →
  (length (rq_items (sq st)) < fuel)%nat →
  wp (kc_env P eq)
    (let* st := ffkcallq_process_sq names kqpost kqpost_data os fuel st in ffkcallq_process_cq fuel st)
    (λ st' w, w.2 = tr ++ handlers (kcs st) (rq_items (sq st)) ∧ rq_items (sq st') = [] ∧ rq_items (cq st') = [] ∧
       moved (λ _, 0) (rq_items (sq st)) (kcs st) (kcs st'))
    (λ h _, h = AssertFail ∧ kqpost ≠ FFKQ_NULL) (s, tr).
Proof.
  intros Hnd Hc Hcap Hin Hf. set (l := rq_items (sq st)) in *. apply wp_bind. eapply wp_mono; [apply (sq_batch eq os l)| |done]; try done.
  { intros kc Hkc. destruct (Hin kc Hkc) as (k & Hk & _). by eexists. }
  { rewrite Hc. cbn. lia. }
  intros st1 [s1 tr1] (Htr & Hs1 & Hm1 & Hc1 & _). cbn in Htr. subst tr1. rewrite Hc in Hc1. cbn [app] in Hc1.
  assert (∀ kc, kc ∈ List.filter (runs (kcs st)) l → kc ∈ l) as Hsub.
  { intros kc Hkc. apply list_elem_of_In in Hkc. apply filter_In in Hkc as [Hkc _]. by apply list_elem_of_In. }
  eapply wp_mono; [apply (cq_batch (List.filter (runs (kcs st)) l))| |done]; try done.
  - apply NoDup_ListNoDup, List.NoDup_filter. by apply NoDup_ListNoDup.
  - intros kc Hkc. destruct (Hin kc (Hsub kc Hkc)) as (k & Hk & _). destruct (Hm1 kc k Hk) as (k' & Hk' & _). by eexists.
  - pose proof (filter_length_le (runs (kcs st)) l). lia.
  - intros st2 w (_ & Hw & Hc2 & Hs2 & Hm2). rewrite Hw, Hs2. split_and!; [|done|done|].
    + f_equal. by apply (handlers_moved _ _ l).
    + by eapply moved_twice.
Qed.

(** C11: a whole asynchronous read: submitted on an idle object, executed by the worker, completed,
    and collected by a second call.  The collected result is that of the one read() performed, the
    bytes are in the caller's buffer, errno is what the read() left there; the handler is called
    exactly once, and the object is idle again.  (An assertion can fail only when the completion
    event cannot be posted.) *)
Theorem async_read_cycle os st kc k fd buf size s fuel :
  kcs st !! kc = Some k → idle k → is_s32 fd → (∀ e, P e → is_s32 e) →
  rq_items (sq st) = [] → rq_items (cq st) = [] → (0 < rq_cap (sq st))%nat → (0 < rq_cap (cq st))%nat →
  (2 ≤ fuel)%nat →
  wp (kc_env P eq)
    (let* '(r1, st) := fffile_read_async sem st fd buf size kc in
     let* st := ffkcallq_process_sq names kqpost kqpost_data os fuel st in
     let* st := ffkcallq_process_cq fuel st in
     let* '(r2, st) := fffile_read_async sem st fd buf size kc in Ret (r1, r2, st))
    (λ '(r1, r2, st') w, r1 = -1 ∧ w.2 = [(k_handler k, k_param k)] ∧ P (us_errno w.1) ∧ us_fds w.1 = us_fds s ∧
       (∃ k', kcs st' !! kc = Some k' ∧ idle k') ∧
       ∃ d, read_ok size (r2, d) ∧
         us_io w.1 = (if r2 =? -1 then us_io s else us_io s ++ [IoRead fd d]) ∧
         take (length d) (default [] (bufs st' !! buf)) = d)
    (λ h _, h = AssertFail ∧ kqpost ≠ FFKQ_NULL) (s, []).
Proof.
  intros Hk Hid Hfd HPs Hs Hc Hsc Hcc Hf. apply wp_bind.
  eapply wp_mono; [apply (submit_wp eq st kc k); [done..|by rewrite Hs]| |done].
  intros [r1 st1] [s1 tr1] (-> & _ & Hio1 & Hf1 & Htr1 & q & -> & Hi1 & Hc1). cbn in Hio1, Hf1, Htr1. subst tr1.
  rewrite Hs in Hi1. set (k1 := k_set_op _ _).
  apply wp_bind. eapply wp_mono; [apply (sq_one_wp eq os _ kc k1); cbn; [done|done|done|by rewrite lookup_insert_eq|done|done]| |done].
  intros st2 [s2 tr2] (n & d & e & q1 & q2 & Hr & HP & Htr & Hf2 & Hio2 & Hq1 & Hq2 & ->). cbn in Htr, Hf2, Hio2. subst tr2.
  cbn -[u32 s32]. rewrite insert_twice. set (k2 := k_set_state 2 _).
  apply wp_bind. eapply wp_mono; [apply (cq_one_wp _ kc k2 s2 []); cbn; [done|by rewrite lookup_insert_eq|done|done]| |done].
  intros st3 [s3 tr3] (E & Htr3 & q3 & -> & Hq3). cbn in E, Htr3. subst s3 tr3.
  cbn -[u32 s32]. rewrite insert_twice. unfold fffile_read_async, kc_async, k_load. cbn [kcs].
  rewrite lookup_insert_eq. cbn [bind]. destruct Hid as (Hq & Hst & Hop).
  change (k_q (k_set_state 0 k2)) with (k_q k). rewrite Hq. cbn -[u32 s32].
  unfold k_upd, k_load. cbn -[u32 s32]. rewrite lookup_insert_eq. cbn -[u32 s32].
  intros [] [s4 tr4] [(He & Hf4 & _ & _ & _ & Hio4) Htr4]. cbn -[u32 s32] in He, Hf4, Hio4, Htr4. subst tr4.
  rewrite s32_u32 in He by auto. split_and!; [done|done|cbn; congruence|cbn; congruence| |].
  - eexists. rewrite lookup_insert_eq. done.
  - exists d. split_and!; [done| |].
    + cbn -[u32 s32]. rewrite Hio4, Hio2, Hio1. cbn -[u32 s32]. by rewrite s32_u32.
    + cbn -[u32 s32]. rewrite lookup_insert_eq. cbn. by rewrite take_app_length.
Qed.
End properties.

(** ** A concrete ring queue, and witnesses *)

#[export] Instance RefRing : RingQueue := {|
  rq := nat * list Z;
  ffrq_add q x :=
    if (length q.2 <? q.1)%nat then ((q.1, q.2 ++ [x]), 0, Z.of_nat (length q.2)) else (q, -1, 0);
  ffrq_fetch q := match q.2 with [] => None | x :: l => Some (x, (q.1, l)) end;
|}.
#[export] Instance RefRingLaws : RingQueueLaws RefRing.
Proof.
  refine (@Build_RingQueueLaws RefRing (λ q : nat * list Z, q.2) (λ q : nat * list Z, q.1) _ _ _ _).
  - intros [c l] x H. cbn [fst snd ffrq_add RefRing] in *. rewrite (proj2 (Nat.ltb_lt _ _) H). eauto.
  - intros [c l] x H. cbn [fst snd ffrq_add RefRing] in *. rewrite (proj2 (Nat.ltb_ge _ _) H). exists (-1), 0. done.
  - intros [c l] x l' H. cbn in *. subst l. eauto.
  - intros [c l] H. cbn in *. by subst l.
Defined.

Definition kcall_demo : kcall := KCall true 0 0 0 0 0 70 71.
Definition kst_demo : @kst RefRing := @KSt RefRing {[ 1 := kcall_demo ]} (4%nat, []) (4%nat, []) ∅ ∅.

Lemma second_call_in_sq_witness :
  wp (kc_env (λ _, True) eq)
    (let* '(r1, st) := fffile_read_async None kst_demo 5 4096 100 1 in
     let* '(r2, st) := fffile_read_async None st 5 4096 100 1 in Ret (r1, r2, st))
    (λ '(r1, r2, st') w', r1 = -1 ∧ r2 = 4096 ∧ us_errno w'.1 = 5 ∧
       rq_items (sq st') = rq_items (sq kst_demo) ++ [1] ∧
       ∃ k', kcs st' !! 1 = Some k' ∧ k_op k' = 0 ∧ k_state k' = 0) never (no_resources, []).
Proof.
  apply (second_call_in_sq None (λ _, True) kst_demo 1 kcall_demo 5 4096 100);
    [reflexivity|done|cbn; lia|unfold is_s32; lia].
Defined.

Lemma async_read_cycle_witness :
  wp (kc_env (λ e, e = 5) eq)
    (let* '(r1, st) := fffile_read_async None kst_demo 5 4096 100 1 in
     let* st := ffkcallq_process_sq (λ _, []) FFKQ_NULL 0 Linux 2 st in
     let* st := ffkcallq_process_cq 2 st in
     let* '(r2, st) := fffile_read_async None st 5 4096 100 1 in Ret (r1, r2, st))
    (λ '(r1, r2, st') w, r1 = -1 ∧ w.2 = [(70, 71)] ∧ us_errno w.1 = 5 ∧ us_fds w.1 = us_fds no_resources ∧
       (∃ k', kcs st' !! 1 = Some k' ∧ idle k') ∧
       ∃ d, read_ok 100 (r2, d) ∧
         us_io w.1 = (if r2 =? -1 then us_io no_resources else us_io no_resources ++ [IoRead 5 d]) ∧
         take (length d) (default [] (bufs st' !! 4096)) = d)
    (λ h _, h = AssertFail ∧ FFKQ_NULL ≠ FFKQ_NULL) (no_resources, []).
Proof.
  apply (async_read_cycle (λ _, []) None FFKQ_NULL 0 (λ e, e = 5) Linux kst_demo 1 kcall_demo 5 4096 100 no_resources 2);
    [reflexivity|done|unfold is_s32; lia|intros e ->; unfold is_s32; lia|done|done|cbn; lia|cbn; lia|lia].
Defined.

Definition kst_batch : @kst RefRing := @KSt RefRing
  {[ 1 := KCall true FFKCALL_FILE_WRITE 0 5 4096 10 70 71; 2 := KCall true 0 0 0 0 0 80 81;
     3 := KCall true FFKCALL_NET_RESOLVE 0 0 8192 0 90 91 ]} (4%nat, [3; 2; 1]) (4%nat, []) ∅ ∅.

Lemma batch_in_order_witness :
  wp (kc_env (λ _, True) eq)
    (let* st := ffkcallq_process_sq (λ _, bytes_of "host") 9 0 Linux 4 kst_batch in ffkcallq_process_cq 4 st)
    (λ st' w, w.2 = [(90, 91); (70, 71)] ∧ rq_items (sq st') = [] ∧ rq_items (cq st') = [] ∧
       moved (λ _, 0) [3; 2; 1] (kcs kst_batch) (kcs st'))
    (λ h _, h = AssertFail ∧ 9 ≠ FFKQ_NULL) (no_resources, []).
Proof.
  eapply wp_mono; [apply (batch_in_order (λ _, bytes_of "host") 9 0 (λ _, True) Linux 4 kst_batch no_resources [])| |done].
  - cbn. rewrite !NoDup_cons. split_and!; try apply NoDup_nil_2; intros H; repeat (apply elem_of_cons in H as [H|H]; [discriminate|]); by apply elem_of_nil in H.
  - done.
  - cbn. lia.
  - cbn. intros kc H. repeat (apply elem_of_cons in H as [->|H]; [eexists; split; [reflexivity|by vm_compute; auto]|]). by apply elem_of_nil in H.
  - cbn. lia.
  - intros st' w (-> & H). split; [by vm_compute|exact H].
Defined.
