(* ===== verification/DirScan.v ===== *)
(** * FFOS/dirscan.h: reading a directory into a sorted list of names (UNIX)

    The names are kept in one buffer: the NUL-terminated names, then the 32-bit offsets of the
    names in the order of iteration.  Sorting, wildcard matching and the growth of vectors belong
    to ffbase (classes [DirLib] and [VecLib]). *)
From stdpp Require Import sorting.
From S2P Require Import Prelude Prog Vec Unix.

(** [names] as the bytes of its block and the block; [wildcard], [fd]: set by the caller. *)
Record ffdirscan := DirScan {
  d_names : list Z; d_len : Z; d_index : Z; d_cur : Z;
  d_wildcard : list Z; d_fd : Z; d_ptr : Z;
}.
Definition FFDIRSCAN_NOSORT := 1.
Definition FFDIRSCAN_DOT := 2.
Definition FFDIRSCAN_USEWILDCARD := 16.
Definition FFDIRSCAN_USEFD := 32.

Class DirLib := {
  ffsort : (Z → Z → Z) → list Z → list Z;
  ffs_wildcard : list Z → list Z → Z → Z;          (* pattern, string, flags; 0: match *)
  ffsz_icmp : list Z → list Z → Z;
}.
Definition FFS_WC_ICASE := 1.

(** ** Comparison of names *)

Definition fold_case (c : Z) : Z := if (65 <=? c) && (c <=? 90) then Z.lor c 32 else c.
(** The sign of a [char] comparison of two bytes. *)
Definition schar (c : Z) : Z := swrap 8 c.

Definition cmp_char (cl cr : Z) : Z :=
  let l := fold_case cl in let r := fold_case cr in
  if l <? r then -1 else if r <? l then 1
  else if schar cl <? schar cr then 1 else -1.

(** The end of a list is the terminating NUL. *)
Fixpoint _ffdirscan_filename_cmpz (a b : list Z) : Z :=
  match a, b with
  | [], [] => 0
  | [], cr :: _ => cmp_char 0 cr
  | cl :: _, [] => cmp_char cl 0
  | cl :: a, cr :: b => if negb (cl =? cr) then cmp_char cl cr else _ffdirscan_filename_cmpz a b
  end.

(** The C string at an offset of a buffer. *)
Definition cstr_at (buf : list Z) (off : Z) : list Z := strz (drop (Z.to_nat off) buf).

Definition le32 (x : Z) : list Z := [u8 x; u8 (Z.shiftr x 8); u8 (Z.shiftr x 16); u8 (Z.shiftr x 24)].
Definition get32 (l : list Z) : Z :=
  match l with
  | a :: b :: c :: d :: _ => Z.lor (Z.shiftl (Z.lor (Z.shiftl (Z.lor (Z.shiftl d 8) c) 8) b) 8) a
  | _ => 0
  end.

Section dirscan.
Context `{DirLib, !VecLib unixE} (icase : bool).     (* FFPATH_ICASE *)

Definition _ffdirscan_cmpname (buf : list Z) (off1 off2 : Z) : Z :=
  if icase then ffsz_icmp (cstr_at buf off1) (cstr_at buf off2)
  else _ffdirscan_filename_cmpz (cstr_at buf off1) (cstr_at buf off2).

Definition is_dot (name : list Z) : bool :=
  match name with [c] => c =? DOT | [c; c'] => (c =? DOT) && (c' =? DOT) | _ => false end.

(** Whether an entry is taken. *)
Definition dir_keep (wildcard : list Z) (flags : Z) (name : list Z) : bool :=
  (has flags FFDIRSCAN_DOT || negb (is_dot name)) &&
  (negb (has flags FFDIRSCAN_USEWILDCARD) ||
   (ffs_wildcard wildcard name (if icase then FFS_WC_ICASE else 0) =? 0)).

(** One entry; [inr]: the end, successful or not. *)
Definition scan_entry (wildcard : list Z) (flags dir : Z) (st : dvec * dvec)
    : prog unixE ((dvec * dvec) + bool * (dvec * dvec)) :=
  let '(offsets, buf) := st in
  do! set_errno 0 in
  let! de := u_readdir dir in
  match de with
  | None => let! e := get_errno in Ret (inr (e =? 0, st))
  | Some name =>
      if negb (dir_keep wildcard flags name) then Ret (inl st) else
      let* '(offsets, ok) := vec_grow offsets (4 * Z.of_nat (length (v_data offsets))) 4 in
      if negb ok then Ret (inr (false, (offsets, buf))) else
      let offsets := DVec (v_ptr offsets) (v_data offsets ++ [u32 (Z.of_nat (length (v_data buf)))]) in
      let* '(buf, ok) := vec_grow buf (Z.of_nat (length (v_data buf))) (Z.of_nat (length name) + 1) in
      if negb ok then Ret (inr (false, (offsets, buf))) else
      Ret (inl (offsets, DVec (v_ptr buf) (v_data buf ++ name ++ [0])))
  end.

(** The names, sorted, and their index; both vectors as they are left ([ffvec_null]: the block is handed over). *)
Definition scan_names (fuel : nat) (d : ffdirscan) (flags dir : Z) : prog unixE (Z * ffdirscan * (dvec * dvec)) :=
  let* '(buf, ok) := vec_grow vec_null 0 4096 in
  if negb ok then Ret (-1, d, (vec_null, buf)) else
  let* '(ok, (offsets, buf)) := loop fuel (scan_entry (d_wildcard d) flags dir) (vec_null, buf) in
  if negb ok then Ret (-1, d, (offsets, buf)) else
  let offsets := DVec (v_ptr offsets) (if has flags FFDIRSCAN_NOSORT then v_data offsets
                                       else ffsort (_ffdirscan_cmpname (v_data buf)) (v_data offsets)) in
  let index := Z.of_nat (length (v_data buf)) in
  let* '(buf, ok) := if negb (Z.of_nat (length (v_data offsets)) =? 0)
                     then vec_grow buf index (4 * Z.of_nat (length (v_data offsets))) else Ret (buf, true) in
  if negb ok
  then Ret (-1, DirScan (d_names d) (d_len d) index (d_cur d) (d_wildcard d) (d_fd d) (d_ptr d), (offsets, buf)) else
  let names := v_data buf ++ concat (map le32 (v_data offsets)) in
  Ret (0, DirScan names (Z.of_nat (length names)) index index (d_wildcard d) (d_fd d) (v_ptr buf), (offsets, vec_null)).

Definition ffdirscan_open (fuel : nat) (d : ffdirscan) (path : cstr) (flags : Z) : prog unixE (Z * ffdirscan) :=
  let* '(dir, d) :=
    if has flags FFDIRSCAN_USEFD then
      let! dir := u_fdopendir (d_fd d) in
      do* if dir =? 0 then call (u_close (d_fd d)) else Ret 0 in
      Ret (dir, DirScan (d_names d) (d_len d) (d_index d) (d_cur d) (d_wildcard d) (-1) (d_ptr d))
    else let! dir := u_opendir path in Ret (dir, d) in
  if dir =? 0 then Ret (-1, d) else
  let* '(rc, d, (offsets, buf)) := scan_names fuel d flags dir in
  do! u_closedir dir in
  do* vec_free ffmem_free offsets in
  do* vec_free ffmem_free buf in
  Ret (rc, d).

Definition ffdirscan_close (d : ffdirscan) : prog unixE ffdirscan :=
  do! ffmem_free (d_ptr d) in
  Ret (DirScan [] (d_len d) (d_index d) (d_cur d) (d_wildcard d) (d_fd d) 0).

Definition ffdirscan_next (d : ffdirscan) : option (list Z) * ffdirscan :=
  if d_cur d =? d_len d then (None, d) else
  let off := get32 (drop (Z.to_nat (d_cur d)) (d_names d)) in
  (Some (cstr_at (d_names d) off),
   DirScan (d_names d) (d_len d) (d_index d) (d_cur d + 4) (d_wildcard d) (d_fd d) (d_ptr d)).

Definition ffdirscan_reset (d : ffdirscan) : ffdirscan :=
  DirScan (d_names d) (d_len d) (d_index d) (d_index d) (d_wildcard d) (d_fd d) (d_ptr d).
End dirscan.

(** ** The order of names *)

Definition char_ok (c : Z) : Prop := 0 < c < 256.
Definition name_ok (n : list Z) : Prop := Forall char_ok n.

(** The rank of a character: the folded one, lower case first. *)
Definition rank (c : Z) : Z := 2 * fold_case c + (if (65 <=? c) && (c <=? 90) then 1 else 0).

Lemma fold_case_eq c : 0 ≤ c < 256 → fold_case c = if (65 <=? c) && (c <=? 90) then c + 32 else c.
Proof.
  intros H. unfold fold_case. destruct ((65 <=? c) && (c <=? 90)) eqn:E; [|done].
  assert (Hin : In c (map Z.of_nat (seq 65 26))).
  { apply in_map_iff. exists (Z.to_nat c). split; [zify_bools; lia|]. apply in_seq. zify_bools. lia. }
  cbn in Hin. repeat (destruct Hin as [<-|Hin]; [reflexivity|]). destruct Hin.
Qed.

Lemma rank_inj c d : 0 ≤ c < 256 → 0 ≤ d < 256 → rank c = rank d → c = d.
Proof.
  intros Hc Hd. unfold rank. rewrite !fold_case_eq by done.
  destruct (_ && _) eqn:E1; destruct ((65 <=? d) && (d <=? 90)) eqn:E2; lia.
Qed.

Lemma cmp_char_rank c d : 0 ≤ c < 256 → 0 ≤ d < 256 → c ≠ d →
  cmp_char c d = if rank c <? rank d then -1 else 1.
Proof.
  intros Hc Hd Hne. unfold cmp_char, rank. rewrite !fold_case_eq by done.
  assert (Hs : ∀ x, 0 ≤ x < 128 → schar x = x).
  { intros x Hx. unfold schar, swrap. change (2 ^ (8 - 1)) with 128. change (2 ^ 8) with 256. dlia. }
  destruct ((65 <=? c) && (c <=? 90)) eqn:E1; destruct ((65 <=? d) && (d <=? 90)) eqn:E2; zify_bools;
    repeat match goal with |- context [?a <? ?b] => 
      match a with schar _ => fail 1 | _ => destruct (Z.ltb_spec a b) end end; try lia; try done.
  - rewrite !Hs by lia. destruct (Z.ltb_spec c d); [done|lia].
  - rewrite !Hs by lia. destruct (Z.ltb_spec c d); [lia|done].
Qed.

(** Lexicographic order of the ranks; a shorter name comes before its extensions. *)
Fixpoint lex (a b : list Z) : comparison :=
  match a, b with
  | [], [] => Eq
  | [], _ => Lt
  | _, [] => Gt
  | x :: a, y :: b => match (rank x ?= rank y) with Eq => lex a b | c => c end
  end.
Definition cmp_sign (c : comparison) : Z := match c with Lt => -1 | Eq => 0 | Gt => 1 end.

Lemma rank_zero c : char_ok c → rank 0 < rank c.
Proof.
  unfold char_ok. intros H. unfold rank. rewrite !fold_case_eq by lia.
  destruct ((65 <=? c) && (c <=? 90)); cbn; lia.
Qed.

Lemma cmpz_lex a b : name_ok a → name_ok b → _ffdirscan_filename_cmpz a b = cmp_sign (lex a b).
Proof.
  intros Ha. revert b. induction Ha as [|x a Hx Ha IH]; intros b Hb; destruct Hb as [|y b Hy Hb]; cbn; [done|..].
  - unfold char_ok in *. pose proof (rank_zero y Hy). rewrite cmp_char_rank by lia.
    destruct (Z.ltb_spec (rank 0) (rank y)); [done|lia].
  - unfold char_ok in *. pose proof (rank_zero x Hx). rewrite cmp_char_rank by lia.
    destruct (Z.ltb_spec (rank x) (rank 0)); [lia|done].
  - unfold char_ok in *. destruct (Z.eqb_spec x y) as [->|Hne]; cbn.
    + rewrite Z.compare_refl. by apply IH.
    + rewrite cmp_char_rank by lia.
      destruct (Z.compare_spec (rank x) (rank y)) as [He|Hl|Hg]; cbn.
      * exfalso. apply Hne, rank_inj; lia.
      * destruct (Z.ltb_spec (rank x) (rank y)); [done|lia].
      * destruct (Z.ltb_spec (rank x) (rank y)); [lia|done].
Qed.

Lemma lex_antisym a b : lex b a = CompOpp (lex a b).
Proof.
  revert b. induction a as [|x a IH]; intros [|y b]; cbn; try done.
  rewrite (Z.compare_antisym (rank x) (rank y)). destruct (rank x ?= rank y); cbn; auto.
Qed.

Lemma lex_eq a b : name_ok a → name_ok b → lex a b = Eq → a = b.
Proof.
  intros Ha. revert b. induction Ha as [|x a Hx Ha IH]; intros b Hb; destruct Hb as [|y b Hy Hb]; cbn; try done.
  destruct (Z.compare_spec (rank x) (rank y)) as [He| |]; try done.
  intros Hl. f_equal; [|by apply IH]. unfold char_ok in *. apply rank_inj; lia.
Qed.

Lemma lex_trans a b c : lex a b ≠ Gt → lex b c ≠ Gt → lex a c ≠ Gt.
Proof.
  revert b c. induction a as [|x a IH]; intros [|y b] [|z c]; cbn; try done.
  destruct (Z.compare_spec (rank x) (rank y)); destruct (Z.compare_spec (rank y) (rank z));
    destruct (Z.compare_spec (rank x) (rank z)); try done; try lia. apply IH.
Qed.

(** ** What the library promises *)

(** [cmp] orders the members of [l]. *)
Definition cmp_order (cmp : Z → Z → Z) (l : list Z) : Prop :=
  (∀ x y, x ∈ l → y ∈ l → cmp x y ≤ 0 ∨ cmp y x ≤ 0) ∧
  (∀ x y z, x ∈ l → y ∈ l → z ∈ l → cmp x y ≤ 0 → cmp y z ≤ 0 → cmp x z ≤ 0).

(** The environment: the system, and a directory with the names [w.2] still to be read. *)
Definition dir_env : env unixE (ustate * list (list Z)) := λ w X e,
  match e in unixE X return X → ustate * list (list Z) → Prop with
  | u_readdir dir => λ de w',
      (∃ n l, de = Some n ∧ w.2 = n :: l ∧ w'.2 = l ∧ same w.1 w'.1) ∨
      (de = None ∧ w.2 = [] ∧ w' = w) ∨
      (de = None ∧ us_errno w'.1 ≠ 0 ∧ same w.1 w'.1)
  | e => λ x w', ustep w.1 _ e x w'.1 ∧ w'.2 = w.2
  end.

(** The heap, and what growing a vector leaves alone. *)
Definition dir_mem (w : ustate * list (list Z)) : gset Z := us_mem w.1.
Definition dir_same (w w' : ustate * list (list Z)) : Prop :=
  w'.2 = w.2 ∧ us_fds w'.1 = us_fds w.1 ∧ us_dirs w'.1 = us_dirs w.1.
Abbreviation DirVecLaws := (VecLaws dir_env dir_mem dir_same (λ _, True)).

Class DirLibLaws (D : DirLib) : Prop := {
  sort_perm cmp l : ffsort cmp l ≡ₚ l;
  sort_sorted cmp l : cmp_order cmp l → StronglySorted (λ x y, cmp x y ≤ 0) (ffsort cmp l);
  icmp_total a b : name_ok a → name_ok b → ffsz_icmp a b ≤ 0 ∨ ffsz_icmp b a ≤ 0;
  icmp_trans a b c : name_ok a → name_ok b → name_ok c → ffsz_icmp a b ≤ 0 → ffsz_icmp b c ≤ 0 → ffsz_icmp a c ≤ 0;
}.

(** The order of names on a file system that ignores the case, and on one that does not. *)
Definition name_cmp `{DirLib} (icase : bool) : list Z → list Z → Z :=
  if icase then ffsz_icmp else _ffdirscan_filename_cmpz.
Lemma cmpname_eq `{DirLib} icase buf x y :
  _ffdirscan_cmpname icase buf x y = name_cmp icase (cstr_at buf x) (cstr_at buf y).
Proof. by destruct icase. Qed.

(** ** The buffer *)

(** Bytes and offsets of a list of names. *)
Definition name_bytes (ns : list (list Z)) : list Z := concat (map (λ n, n ++ [0]) ns).
Fixpoint name_offs (base : nat) (ns : list (list Z)) : list Z :=
  match ns with [] => [] | n :: ns => Z.of_nat base :: name_offs (base + length n + 1) ns end.

Lemma name_bytes_snoc ns n : name_bytes (ns ++ [n]) = name_bytes ns ++ n ++ [0].
Proof. unfold name_bytes. rewrite map_app. cbn [map]. by rewrite concat_snoc. Qed.

Lemma name_offs_snoc ns n : ∀ base,
  name_offs base (ns ++ [n]) = name_offs base ns ++ [Z.of_nat (base + length (name_bytes ns))].
Proof.
  induction ns as [|m ns IH]; intros base; cbn; [by rewrite Nat.add_0_r|].
  rewrite IH. unfold name_bytes. cbn. rewrite !length_app. cbn. do 4 f_equal. lia.
Qed.

Lemma strz_name n l : name_ok n → strz (n ++ 0 :: l) = n.
Proof.
  induction 1 as [|c n Hc Hn IH]; cbn; [done|]. unfold char_ok in Hc.
  destruct (Z.eqb_spec c 0); [lia|]. by rewrite IH.
Qed.

Lemma cstr_at_app buf rest n off : name_ok n →
  drop (Z.to_nat off) buf = n ++ 0 :: rest → ∀ tail, cstr_at (buf ++ tail) off = n.
Proof.
  intros Hn Hd tail. unfold cstr_at.
  assert (Hlt : (Z.to_nat off < length buf)%nat).
  { destruct (decide (Z.to_nat off < length buf)%nat); [done|]. rewrite drop_ge in Hd by lia. by destruct n. }
  rewrite drop_app_le by lia. rewrite Hd, <- app_assoc, <- app_comm_cons. by apply strz_name.
Qed.

(** Reading the names back at their offsets, whatever follows the names. *)
Lemma offs_names ns pre tail : Forall name_ok ns →
  map (cstr_at (pre ++ name_bytes ns ++ tail)) (name_offs (length pre) ns) = ns.
Proof.
  revert pre. induction ns as [|n ns IH]; intros pre Hns; cbn; [done|].
  apply Forall_cons in Hns as [Hn Hns]. f_equal.
  - unfold cstr_at. rewrite Nat2Z.id, drop_app_length. unfold name_bytes. cbn.
    rewrite <- !app_assoc. by apply strz_name.
  - etrans; [|exact (IH (pre ++ n ++ [0]) Hns)]. rewrite !length_app. cbn [length].
    rewrite <- Nat.add_assoc. f_equal. f_equal. unfold name_bytes. cbn. by rewrite <- !app_assoc.
Qed.

Lemma name_offs_bound ns : ∀ base o, o ∈ name_offs base ns →
  Z.of_nat base ≤ o < Z.of_nat (base + length (name_bytes ns)).
Proof.
  induction ns as [|n ns IH]; intros base o Ho; cbn in Ho; [by apply elem_of_nil in Ho|].
  unfold name_bytes. cbn. rewrite !length_app. cbn.
  apply elem_of_cons in Ho as [->|Ho]; [lia|]. apply IH in Ho. unfold name_bytes in Ho. lia.
Qed.

Lemma get32_le32 x l : is_u32 x → get32 (le32 x ++ l) = x.
Proof.
  intros H. unfold get32, le32. cbn [app].
  assert (Hb : ∀ y, 0 ≤ u8 y < 2 ^ 8) by (intros y; apply uwrap_range; lia).
  rewrite !lor_shiftl_add by (try apply Hb; lia). rewrite !Z.shiftr_div_pow2 by lia.
  unfold u8, uwrap, is_u32 in *. change (2 ^ 16) with 65536. change (2 ^ 24) with 16777216.
  change (2 ^ 8) with 256. change (2 ^ 32) with 4294967296 in H. dlia.
Qed.

(** ** Properties *)

Lemma cmpz_le a b : name_ok a → name_ok b → _ffdirscan_filename_cmpz a b ≤ 0 ↔ lex a b ≠ Gt.
Proof. intros Ha Hb. rewrite cmpz_lex by done. destruct (lex a b); cbn; split; try lia; done. Qed.

(** the comparison of file names is a strict total order on C strings: the sign is reversed
    when the arguments are swapped, 0 means equal strings, and it is transitive; it is the
    lexicographic order that compares letters without case first, "a" before "A". *)
Theorem filename_cmpz_order a b c :
  name_ok a → name_ok b → name_ok c →
  _ffdirscan_filename_cmpz b a = - _ffdirscan_filename_cmpz a b ∧
  (_ffdirscan_filename_cmpz a b = 0 ↔ a = b) ∧
  (_ffdirscan_filename_cmpz a b ≤ 0 → _ffdirscan_filename_cmpz b c ≤ 0 → _ffdirscan_filename_cmpz a c ≤ 0) ∧
  _ffdirscan_filename_cmpz a b = cmp_sign (lex a b).
Proof.
  intros Ha Hb Hc. split_and!.
  - rewrite !cmpz_lex, lex_antisym by done. by destruct (lex a b).
  - rewrite cmpz_lex by done. split.
    + intros H. apply lex_eq; [done..|]. by destruct (lex a b).
    + intros <-. assert (H := lex_antisym a a). by destruct (lex a a).
  - rewrite !cmpz_le by done. apply lex_trans.
  - by apply cmpz_lex.
Qed.

Lemma filename_cmpz_order_witness :
  _ffdirscan_filename_cmpz (bytes_of "b") (bytes_of "aB") = - _ffdirscan_filename_cmpz (bytes_of "aB") (bytes_of "b") ∧
  (_ffdirscan_filename_cmpz (bytes_of "aB") (bytes_of "b") = 0 ↔ bytes_of "aB" = bytes_of "b") ∧
  (_ffdirscan_filename_cmpz (bytes_of "aB") (bytes_of "b") ≤ 0 →
   _ffdirscan_filename_cmpz (bytes_of "b") (bytes_of "B") ≤ 0 →
   _ffdirscan_filename_cmpz (bytes_of "aB") (bytes_of "B") ≤ 0) ∧
  _ffdirscan_filename_cmpz (bytes_of "aB") (bytes_of "b") = cmp_sign (lex (bytes_of "aB") (bytes_of "b")).
Proof.
  apply (filename_cmpz_order (bytes_of "aB") (bytes_of "b") (bytes_of "B"));
    repeat constructor; vm_compute; congruence.
Defined.

(** Iterating with ffdirscan_next() gives exactly these names, then nothing. *)
Fixpoint enumerates (d : ffdirscan) (l : list (list Z)) : Prop :=
  match l with
  | [] => ffdirscan_next d = (None, d)
  | n :: l => ∃ d', ffdirscan_next d = (Some n, d') ∧ enumerates d' l
  end.

Lemma length_le32s l : length (concat (map le32 l)) = (4 * length l)%nat.
Proof. induction l as [|x l IH]; cbn; lia. Qed.

Lemma enumerates_offs buf idx wc fd blk offs : ∀ pre,
  Forall is_u32 offs →
  let names := buf ++ concat (map le32 (pre ++ offs)) in
  enumerates (DirScan names (Z.of_nat (length names)) idx (Z.of_nat (length buf) + 4 * Z.of_nat (length pre)) wc fd blk)
    (map (cstr_at names) offs).
Proof.
  induction offs as [|o offs IH]; intros pre Ho names; cbn [map enumerates]; unfold ffdirscan_next; cbn [d_cur d_len d_names].
  - assert (Z.of_nat (length buf) + 4 * Z.of_nat (length pre) = Z.of_nat (length names)) as ->.
    { unfold names. rewrite length_app, length_le32s, app_nil_r. lia. }
    by rewrite Z.eqb_refl.
  - apply Forall_cons in Ho as [Ho Hos].
    assert (Hlen : length names = (length buf + 4 * (length pre + S (length offs)))%nat).
    { unfold names. rewrite length_app, length_le32s, length_app. cbn. lia. }
    destruct (Z.eqb_spec (Z.of_nat (length buf) + 4 * Z.of_nat (length pre)) (Z.of_nat (length names))) as [|_]; [lia|].
    assert (drop (Z.to_nat (Z.of_nat (length buf) + 4 * Z.of_nat (length pre))) names =
            le32 o ++ concat (map le32 offs)) as ->.
    { unfold names. rewrite map_app, concat_app, app_assoc, drop_app_length'; [done|].
      rewrite length_app, length_le32s. lia. }
    rewrite get32_le32 by done. eexists. split; [done|]. cbn.
    specialize (IH (pre ++ [o]) Hos). rewrite <- app_assoc in IH. cbn [app] in IH.
    assert (El : length (pre ++ [o]) = (length pre + 1)%nat) by apply length_app.
    rewrite El in IH.
    replace (Z.of_nat (length buf) + 4 * Z.of_nat (length pre) + 4)
      with (Z.of_nat (length buf) + 4 * Z.of_nat (length pre + 1)) by lia. exact IH.
Qed.

Section scan.
Context `{D : DirLib, L : !DirLibLaws D, V : !VecLib unixE, LV : !DirVecLaws}.

Abbreviation kept wc flags l := (filter (λ n, dir_keep false wc flags n = true) l).

Lemma scan_loop wc flags dir M : ∀ rem fuel ns p q s,
  (length rem < fuel)%nat → Z.of_nat (length (name_bytes (ns ++ rem))) < 2 ^ 32 →
  holds2 M p q (us_mem s) → 0 < q →
  wp dir_env (loop fuel (scan_entry false wc flags dir) (DVec p (name_offs 0 ns), DVec q (name_bytes ns)))
    (λ '(ok, (offs, buf)) w', us_fds w'.1 = us_fds s ∧ us_dirs w'.1 = us_dirs s ∧
       holds2 M (v_ptr offs) (v_ptr buf) (us_mem w'.1) ∧
       (ok = true → 0 < v_ptr buf ∧ v_data offs = name_offs 0 (ns ++ kept wc flags rem) ∧
                    v_data buf = name_bytes (ns ++ kept wc flags rem)))
    never (s, rem).
Proof.
  induction rem as [|n rem IH]; intros fuel ns p q s Hf Hlen HM Hq; (destruct fuel as [|fuel]; [cbn in Hf; lia|]);
    cbn [loop]; apply wp_bind; cbn; intros [] [s1 l1] [[He (Ef & Em & Ed & Eu & Ei)] El]; cbn in He, Ef, Em, Ed, Eu, Ei, El; subst l1;
    intros de [s2 l2] [(n' & l' & -> & Hl & El2 & (Ff & Fm & Fd & _))|[(-> & Hl & Ew)|(-> & Hne & (Ff & Fm & Fd & _))]];
    cbn in *; try done.
  - injection Ew as -> ->. intros e w3 [[-> E3] _]. cbn in E3. rewrite He. cbn.
    rewrite E3, Em, app_nil_r. done.
  - intros e [s3 l3] [[-> E3] _]. cbn in E3. subst s3. destruct (Z.eqb_spec (us_errno s2) 0); [done|].
    cbn. rewrite Fm, Em. split_and!; [congruence..|done|done].
  - injection Hl as <- <-. subst l2. rewrite <- Em, <- Fm in HM. destruct (dir_keep false wc flags n) eqn:Hk; cbn.
    + apply wp_bind. eapply wp_mono; [apply (vec_grow_wp dir_env dir_mem dir_same (owned q ∪ M)), HM| |done].
      intros [[p3 d3] ok] [s3 l3] ((Ew & Gf & Gd) & GM & Ed3 & _). cbn in *. subst l3 d3.
      assert (holds2 M p3 q (us_mem s3)) as HM3 by (split; [exact GM|apply HM]).
      destruct ok; cbn; [|split_and!; [congruence..|done|done]].
      apply wp_bind. eapply wp_mono; [apply (vec_grow_wp dir_env dir_mem dir_same (owned p3 ∪ M)), holds2_swap, HM3| |done].
      intros [[q4 d4] ok] [s4 l4] ((Ew4 & If & Id) & IM & Ed4 & Hq4). cbn in *. subst l4 d4.
      assert (holds2 M p3 q4 (us_mem s4)) as HM4 by (apply holds2_swap; split; [exact IM|apply (holds2_swap _ _ _ _ HM3)]).
      destruct ok; cbn; [|split_and!; [congruence..|done|done]].
      rewrite u32_small.
      2:{ unfold is_u32. unfold name_bytes in *. rewrite map_app, concat_app, length_app in Hlen. lia. }
      rewrite decide_True by done.
      assert (Hoff : name_offs 0 ns ++ [Z.of_nat (length (name_bytes ns))] = name_offs 0 (ns ++ [n])).
      { by rewrite name_offs_snoc. }
      rewrite Hoff, <- name_bytes_snoc.
      eapply wp_mono; [apply (IH fuel (ns ++ [n]) p3 q4 s4); [lia|by rewrite <- app_assoc|done|by apply Hq4]| |done].
      intros [ok [offs buf]] w5 (Jf & Jd & JM & Hok). split_and!; [congruence..|done|].
      by rewrite <- app_assoc in Hok.
    + rewrite decide_False by done.
      assert (Hle : (length (name_bytes (ns ++ rem)) ≤ length (name_bytes (ns ++ n :: rem)))%nat).
      { unfold name_bytes. rewrite !map_app, !concat_app, !length_app. cbn. rewrite length_app. lia. }
      eapply wp_mono; [apply (IH fuel ns p q s2); [lia|lia|done|done]| |done].
      intros [ok [offs buf]] w5 (Jf & Jd & JM & Hok). split_and!; [congruence..|done|done].
  - intros e [s3 l3] [[-> E3] _]. cbn in E3. subst s3. destruct (Z.eqb_spec (us_errno s2) 0); [done|].
    cbn. rewrite Fm, Em. split_and!; [congruence..|done|done].
Qed.

(** The names at the sorted offsets. *)
Lemma sorted_names icase ns tail sorted :
  Forall name_ok ns → sorted ≡ₚ name_offs 0 ns →
  StronglySorted (λ x y, _ffdirscan_cmpname icase (name_bytes ns) x y ≤ 0) sorted →
  StronglySorted (λ a b, name_cmp icase a b ≤ 0) (map (cstr_at (name_bytes ns ++ tail)) sorted).
Proof.
  intros Hns Hp Hs.
  assert (Heq : ∀ o, o ∈ name_offs 0 ns → cstr_at (name_bytes ns ++ tail) o = cstr_at (name_bytes ns) o).
  { assert (E : map (cstr_at (name_bytes ns ++ tail)) (name_offs 0 ns) = map (cstr_at (name_bytes ns)) (name_offs 0 ns)).
    { etrans; [exact (offs_names ns [] tail Hns)|]. symmetry.
      rewrite <- (app_nil_r (name_bytes ns)). exact (offs_names ns [] [] Hns). }
    rewrite map_ext_in_iff in E. intros o Ho. by apply E, list_elem_of_In. }
  assert (Hin : ∀ o, o ∈ sorted → o ∈ name_offs 0 ns) by (intros o; by rewrite Hp).
  clear Hp. induction Hs as [|o l Hs IH Hle]; cbn; constructor; [apply IH; set_solver|].
  rewrite Forall_forall in Hle. rewrite Forall_forall. intros b Hb. apply list_elem_of_fmap in Hb as (o' & -> & Ho').
  rewrite !Heq by (apply Hin; set_solver). rewrite <- cmpname_eq. by apply Hle.
Qed.

Lemma cmp_order_names icase ns :
  Forall name_ok ns → cmp_order (_ffdirscan_cmpname icase (name_bytes ns)) (name_offs 0 ns).
Proof.
  intros Hns.
  assert (Hok : ∀ o, o ∈ name_offs 0 ns → name_ok (cstr_at (name_bytes ns) o)).
  { intros o Ho. assert (E := offs_names ns [] [] Hns). cbn in E. rewrite app_nil_r in E.
    rewrite Forall_forall in Hns. apply Hns. rewrite <- E at 2. apply list_elem_of_fmap. eauto. }
  split; [intros x y Hx Hy|intros x y z Hx Hy Hz]; rewrite !cmpname_eq; unfold name_cmp; destruct icase.
  - apply icmp_total; auto.
  - rewrite !cmpz_le by auto. rewrite lex_antisym. destruct (lex _ _); cbn; auto.
  - apply icmp_trans; auto.
  - rewrite !cmpz_le by auto. apply lex_trans.
Qed.

(** The buffer that is built from the names taken. *)
Lemma built_ok icase ns (nosort : bool) wc fd blk :
  Forall name_ok ns → Z.of_nat (length (name_bytes ns)) < 2 ^ 32 →
  let offs := if nosort then name_offs 0 ns else ffsort (_ffdirscan_cmpname icase (name_bytes ns)) (name_offs 0 ns) in
  let names := name_bytes ns ++ concat (map le32 offs) in
  let index := Z.of_nat (length (name_bytes ns)) in
  ∃ l, l ≡ₚ ns ∧
    (if nosort then l = ns else StronglySorted (λ a b, name_cmp icase a b ≤ 0) l) ∧
    enumerates (DirScan names (Z.of_nat (length names)) index index wc fd blk) l.
Proof.
  intros Hns Hlen offs names index.
  assert (Hperm : offs ≡ₚ name_offs 0 ns) by (unfold offs; destruct nosort; [done|apply sort_perm]).
  assert (Hu : Forall is_u32 offs).
  { rewrite Hperm, Forall_forall. intros o Ho%name_offs_bound. unfold is_u32. lia. }
  exists (map (cstr_at names) offs).
  assert (Hn := offs_names ns [] (concat (map le32 offs)) Hns). cbn in Hn. fold names in Hn.
  split_and!.
  - rewrite Hperm. by rewrite Hn.
  - unfold names, offs in *. destruct nosort; [exact Hn|].
    apply sorted_names; [done..|]. apply sort_sorted. by apply cmp_order_names.
  - pose proof (enumerates_offs (name_bytes ns) index wc fd blk offs [] Hu) as He.
    cbn in He. rewrite Z.add_0_r in He. exact He.
Qed.

Lemma name_bytes_filter (P : list Z → bool) l :
  (length (name_bytes (filter (λ n, P n = true) l)) ≤ length (name_bytes l))%nat.
Proof.
  induction l as [|n l IH]; [done|]. rewrite filter_cons. unfold name_bytes in *.
  case_decide; cbn; rewrite !length_app; cbn; lia.
Qed.

Lemma opened_wp flags d path s l :
  wp dir_env (if has flags FFDIRSCAN_USEFD then
      let! dir := u_fdopendir (d_fd d) in
      do* if dir =? 0 then call (u_close (d_fd d)) else Ret 0 in
      Ret (dir, DirScan (d_names d) (d_len d) (d_index d) (d_cur d) (d_wildcard d) (-1) (d_ptr d))
    else let! dir := u_opendir path in Ret (dir, d))
   (λ '(dir, d') w, d_wildcard d' = d_wildcard d ∧ w.2 = l ∧ us_mem w.1 = us_mem s ∧
      us_fds w.1 = (if has flags FFDIRSCAN_USEFD then us_fds s ∖ {[d_fd d]} else us_fds s) ∧
      ((dir = 0 ∧ us_dirs w.1 = us_dirs s) ∨
       (dir ≠ 0 ∧ (dir ∉ us_dirs s) ∧ us_dirs w.1 = {[dir]} ∪ us_dirs s))) never (s, l).
Proof.
  destruct (has flags FFDIRSCAN_USEFD).
  - cbn. intros dir [s1 l1] [(Hm & _ & _ & Hd) El]. cbn in Hm, Hd, El. subst l1.
    destruct Hd as [(-> & Hd & Hf)|(Hp & Hni & Hd & Hf)].
    + cbn. intros _ [s2 l2] [(Em & E1 & _ & _ & E2) El]. cbn in *. subst l2. split_and!; [done|done|congruence|congruence|].
      left. split; [done|congruence].
    + rewrite (proj2 (Z.eqb_neq _ _)) by lia. cbn. split_and!; [done..|]. right. split_and!; [lia|done..].
  - cbn. intros dir [s1 l1] [(Hf & Hm & _ & _ & Hd) El]. cbn in *. subst l1. split_and!; [done..|].
    destruct Hd as [[-> Hd]|(Hp & Hni & Hd)]; [by left|right]. split_and!; [lia|done..].
Qed.

(** What the names are when the scan succeeds. *)
Definition listed (d : ffdirscan) (flags : Z) (entries : list (list Z)) (d' : ffdirscan) : Prop :=
  let taken := filter (λ n, dir_keep false (d_wildcard d) flags n = true) entries in
  ∃ l, l ≡ₚ taken ∧
    (if has flags FFDIRSCAN_NOSORT then l = taken
     else StronglySorted (λ a b, _ffdirscan_filename_cmpz a b ≤ 0) l) ∧
    enumerates d' l ∧ d_cur d' = d_index d'.

(** From the loop on: the vectors as they are left, the names' block among what is still allocated. *)
Lemma scan_names_wp fuel d flags dir entries s :
  Forall name_ok entries → Z.of_nat (length (name_bytes entries)) < 2 ^ 32 → (length entries < fuel)%nat →
  wp dir_env (scan_names false fuel d flags dir)
    (λ '(rc, d', (offs, buf)) w, us_fds w.1 = us_fds s ∧ us_dirs w.1 = us_dirs s ∧
       ((rc = -1 ∧ holds2 (us_mem s) (v_ptr offs) (v_ptr buf) (us_mem w.1)) ∨
        (rc = 0 ∧ v_ptr buf = 0 ∧ 0 < d_ptr d' ∧ holds2 (us_mem s) (v_ptr offs) (d_ptr d') (us_mem w.1) ∧
         listed d flags entries d'))) never (s, entries).
Proof.
  intros Hok Hlen Hf. unfold scan_names. apply wp_bind.
  eapply wp_mono; [apply (vec_grow_wp dir_env dir_mem dir_same (us_mem s)), holds_none| |done].
  intros [[q d2] ok] [s2 l2] ((El & Ef & Ed) & HM & Ed2 & Hq). cbn in El, Ef, Ed, HM, Ed2, Hq. subst l2 d2.
  destruct ok; cbn [negb]; [|cbn; split_and!; [congruence..|left; split; [done|by apply holds2_none]]].
  apply wp_bind. eapply wp_mono;
    [apply (scan_loop (d_wildcard d) flags dir (us_mem s) entries fuel [] 0 q s2);
      [done|exact Hlen|by apply holds2_none|by apply Hq]| |done].
  intros [ok [offs buf]] [s3 l3] (Gf & Gd & GM & Hres). cbn in Gf, Gd, GM.
  destruct ok; cbn [negb]; [|cbn; split_and!; [congruence..|by left]].
  destruct (Hres eq_refl) as (Hb & Eo & Eb). cbn [app] in Eo, Eb. set (ns := kept (d_wildcard d) flags entries) in *.
  cbn [v_data v_ptr]. rewrite Eo, Eb.
  assert (∀ blk, let offs := if has flags FFDIRSCAN_NOSORT then name_offs 0 ns else
      ffsort (_ffdirscan_cmpname false (name_bytes ns)) (name_offs 0 ns) in
    let names := name_bytes ns ++ concat (map le32 offs) in
    let index := Z.of_nat (length (name_bytes ns)) in
    listed d flags entries (DirScan names (Z.of_nat (length names)) index index (d_wildcard d) (d_fd d) blk)) as HL.
  { intros blk. destruct (built_ok false ns (has flags FFDIRSCAN_NOSORT) (d_wildcard d) (d_fd d) blk) as (l & Hp & Hs & He).
    - by apply Forall_filter_sub.
    - pose proof (name_bytes_filter (dir_keep false (d_wildcard d) flags) entries). fold ns in H. lia.
    - by exists l. }
  set (o := if has flags FFDIRSCAN_NOSORT then name_offs 0 ns else _) in *.
  apply wp_bind. destruct (negb (Z.of_nat (length o) =? 0)).
  - eapply wp_mono; [apply (vec_grow_wp dir_env dir_mem dir_same (owned (v_ptr offs) ∪ us_mem s)), holds2_swap, GM| |done].
    intros [[q4 d4] ok] [s4 l4] ((El4 & If & Id) & IM & Ed4 & Hq4). cbn in El4, If, Id, IM, Ed4, Hq4. subst d4. rewrite Eb.
    assert (holds2 (us_mem s) (v_ptr offs) q4 (us_mem s4)) as HM4.
    { apply holds2_swap. split; [exact IM|apply (holds2_swap _ _ _ _ GM)]. }
    destruct ok; cbn; (split_and!; [congruence..|]); [right|by left]. split_and!; auto; apply HL.
  - cbn. rewrite Eb. split_and!; [congruence..|]. right. split_and!; auto; apply HL.
Qed.

(** What a scan of a directory with [entries] ends in, from the state [s]. *)
Definition dir_scanned (d : ffdirscan) (flags : Z) (entries : list (list Z)) (s : ustate)
    (r : Z * ffdirscan) (w : ustate * list (list Z)) : Prop :=
  us_dirs w.1 = us_dirs s ∧
  us_fds w.1 = (if has flags FFDIRSCAN_USEFD then us_fds s ∖ {[d_fd d]} else us_fds s) ∧
  ((r.1 = -1 ∧ us_mem w.1 = us_mem s) ∨
   (r.1 = 0 ∧ (d_ptr r.2 ∉ us_mem s) ∧ us_mem w.1 = {[d_ptr r.2]} ∪ us_mem s ∧ listed d flags entries r.2)).

(** C15: scanning a directory: whatever fails, the directory stream is closed, a descriptor that the caller
    passed (FFDIRSCAN_USEFD) is consumed, and no memory stays allocated but the block of the names, and
    that only on success; then iteration yields exactly the directory's names but "." and ".." (unless
    FFDIRSCAN_DOT) and those that the wildcard rejects, each once, in the order of the file name
    comparison unless FFDIRSCAN_NOSORT.  Fuel: one more than the number of entries. *)
Theorem dirscan_ok fuel d path flags entries s :
  Forall name_ok entries → Z.of_nat (length (name_bytes entries)) < 2 ^ 32 → (length entries < fuel)%nat →
  wp dir_env (ffdirscan_open false fuel d path flags) (dir_scanned d flags entries s) never (s, entries).
Proof.
  intros Hok Hlen Hf. unfold ffdirscan_open. apply wp_bind. eapply wp_mono; [apply opened_wp| |done].
  intros [dir d0] [s1 l1] (Hwc & El & Hm & Hfds & Hdir). cbn in El, Hm, Hfds, Hdir. subst l1.
  destruct Hdir as [[-> Hd]|(Hz & Hni & Hd)]; [cbn; unfold dir_scanned; auto|].
  rewrite (proj2 (Z.eqb_neq _ _) Hz). apply wp_bind. eapply wp_mono; [by apply scan_names_wp| |done].
  intros [[rc d'] [offs buf]] [s2 l2] (E1 & E2 & Hrc). cbn in E1, E2, Hrc. cbn [wp]. intros _ [s3 l3] [(F1 & F2 & _ & _ & F3) _].
  cbn in F1, F2, F3. rewrite Hm in Hrc.
  set (M := if rc =? 0 then owned (d_ptr d') ∪ us_mem s else us_mem s).
  assert (holds2 M (v_ptr offs) (v_ptr buf) (us_mem s3)) as HM.
  { rewrite F2. unfold M. destruct Hrc as [[-> HM]|(-> & -> & _ & HM & _)]; [exact HM|]. cbn. destruct HM as (HM & _ & _).
    split_and!; [|unfold owned; cbn; set_solver|lia]. unfold owned at 1. cbn. by rewrite (left_id_L ∅ union). }
  apply wp_bind. eapply wp_mono; [apply (vec_free_wp ffmem_free dir_env dir_mem dir_same (owned (v_ptr buf) ∪ M)); [|done|apply HM]| |done].
  { intros p u w' [(_ & ? & ? & _ & _ & ?) ?]. by repeat split. }
  intros _ [s4 l4] ((El4 & F4 & F5) & F6). cbn in El4, F4, F5, F6. unfold dir_mem in F6. cbn in F6.
  apply wp_bind. eapply wp_mono; [apply (vec_free_wp ffmem_free dir_env dir_mem dir_same M); [|done|]| |done].
  { intros p u w' [(_ & ? & ? & _ & _ & ?) ?]. by repeat split. }
  { split_and!; [exact F6|apply HM|apply HM]. }
  intros _ [s5 l5] ((El5 & G4 & G5) & G6). cbn in El5, G4, G5. unfold dir_mem in G6. cbn in G6. cbn [wp]. unfold dir_scanned. cbn [fst snd].
  split_and!; [rewrite G5, F5, F3, E2, Hd; set_solver|congruence|].
  destruct Hrc as [[-> _]|(-> & _ & Hp & HM' & HL)]; [left|right]; (split; [done|]); rewrite G6; unfold M; cbn; [done|].
  destruct HM' as (_ & Hdj & _). unfold owned in *. rewrite (proj2 (Z.eqb_neq _ _)) in * by lia.
  split_and!; [set_solver|done|]. unfold listed in *. by rewrite <- Hwc.
Qed.
End scan.

(** ** A concrete library, and a witness *)

Fixpoint ins_cmp (cmp : Z → Z → Z) (x : Z) (l : list Z) : list Z :=
  match l with [] => [x] | y :: l' => if cmp x y <=? 0 then x :: l else y :: ins_cmp cmp x l' end.
Fixpoint isort (cmp : Z → Z → Z) (l : list Z) : list Z :=
  match l with [] => [] | x :: l => ins_cmp cmp x (isort cmp l) end.

#[export] Instance RefDirLib : DirLib := {|
  ffsort := isort;
  ffs_wildcard p s _ := if bool_decide (p = s) then 0 else 1;
  ffsz_icmp a b := _ffdirscan_filename_cmpz (map fold_case a) (map fold_case b);
|}.

Lemma ins_perm cmp x l : ins_cmp cmp x l ≡ₚ x :: l.
Proof.
  induction l as [|y l IH]; cbn; [done|]. destruct (_ <=? _); [done|]. rewrite IH. apply Permutation_swap.
Qed.
Lemma isort_perm cmp l : isort cmp l ≡ₚ l.
Proof. induction l as [|x l IH]; cbn; [done|]. by rewrite ins_perm, IH. Qed.

Lemma ins_sorted_cmp cmp x l : cmp_order cmp (x :: l) →
  StronglySorted (λ a b, cmp a b ≤ 0) l → StronglySorted (λ a b, cmp a b ≤ 0) (ins_cmp cmp x l).
Proof.
  intros [Ht Htr] Hs. induction Hs as [|y l Hs IH Hy]; cbn; [by repeat constructor|].
  destruct (Z.leb_spec (cmp x y) 0).
  - constructor; [by constructor|]. constructor; [done|]. rewrite Forall_forall in *.
    intros z Hz. apply (Htr x y z); [set_solver..|done|by apply Hy].
  - constructor.
    + apply IH; intros; [apply Ht|eapply Htr; [| | |eassumption|eassumption]]; set_solver.
    + rewrite ins_perm. constructor; [|done]. destruct (Ht x y); [set_solver..|lia|done].
Qed.

Lemma fold_name_ok a : name_ok a → name_ok (map fold_case a).
Proof.
  intros Ha. apply Forall_fmap. eapply Forall_impl; [exact Ha|]. intros c Hc. unfold char_ok in *. cbn.
  rewrite fold_case_eq by lia. destruct (_ && _) eqn:E; zify_bools; lia.
Qed.

#[export] Instance RefDirLibLaws : DirLibLaws RefDirLib.
Proof.
  split.
  - intros cmp l. apply isort_perm.
  - intros cmp l [Ht Htr]. cbn. induction l as [|x l IH]; cbn; [constructor|].
    apply ins_sorted_cmp.
    + split; intros *; setoid_rewrite isort_perm; eauto.
    + apply IH; intros; [apply Ht|eapply Htr; [| | |eassumption|eassumption]]; set_solver.
  - intros a b Ha Hb. cbn. rewrite !cmpz_le by by apply fold_name_ok. rewrite lex_antisym. destruct (lex _ _); cbn; auto.
  - intros a b c Ha Hb Hc. cbn. rewrite !cmpz_le by by apply fold_name_ok. apply lex_trans.
Qed.

#[export] Instance RefVecDirLaws : DirVecLaws.
Proof.
  apply ref_grow_laws.
  - intros s n r s' [(? & ? & _ & _ & ?) ?]. split; [done|by apply alloc_no_trace].
  - by intros s p u s' [(_ & ? & ? & _ & _ & ?) ?].
  - unfold dir_same. intros ??? (? & ? & ?) (? & ? & ?). split_and!; congruence.
Qed.

Definition demo_scan : ffdirscan := DirScan [] 0 0 0 (bytes_of "b") 7 0.
Definition demo_state : ustate := UState 0 {[7]} ∅ ∅ ∅ [].

Lemma dirscan_ok_witness :
  wp dir_env (ffdirscan_open false 4 demo_scan (bytes_of "/d") (Z.lor FFDIRSCAN_DOT FFDIRSCAN_USEFD))
    (dir_scanned demo_scan (Z.lor FFDIRSCAN_DOT FFDIRSCAN_USEFD) [bytes_of "b"; bytes_of "."; bytes_of "A"] demo_state)
    never (demo_state, [bytes_of "b"; bytes_of "."; bytes_of "A"]).
Proof.
  apply (dirscan_ok 4 demo_scan (bytes_of "/d") (Z.lor FFDIRSCAN_DOT FFDIRSCAN_USEFD)
    [bytes_of "b"; bytes_of "."; bytes_of "A"] demo_state);
    [repeat constructor; vm_compute; congruence|vm_compute; reflexivity|cbn; lia].
Defined.
