(* ===== verification/DirScanWin.v ===== *)
(** * FFOS/dirscan.h: reading a directory on Windows

    The names come from FindFirstFileW() and FindNextFileW() and are converted to UTF-8; the buffer, the
    order and the iteration are those of [DirScan.v], for names whose case is ignored. *)
From stdpp Require Import sorting.
From S2P Require Import Prelude Prog Vec Unix Win StringW DirScan.

Definition SLASH := 47.
Definition BACKSLASH := 92.
Definition STAR := 42.
(** The capacity of the buffer for one name: 256 units of at most 4 bytes. *)
Definition namebuf_cap := 256 * 4.

Section dirscan_win.
Context `{DirLib, !VecLib winE, FfUni}.

(** "/dir" -> "/dir\*", or with the wildcard; the block that was allocated must hold it and its NUL. *)
Definition scan_pattern (path wildcard : list Z) (flags : Z) : prog winE (option wbuf) :=
  let usewc := has flags FFDIRSCAN_USEWILDCARD in
  let wclen := Z.of_nat (length wildcard) in
  let n := if usewc then 2 + wclen else 3 in
  let cap := (_ffs_utow 0 path).1 + n in
  let* w := ffs_alloc_utow_addcap path n in
  match w with
  | None => Ret None
  | Some (w, n) =>
      let u := take (Z.to_nat n) (w_str w) in
      match last u with
      | None => Halt OutOfBounds
      | Some c =>
          let u := if (c =? SLASH) || (c =? BACKSLASH) then take (length u - 1) u else u in
          let u := u ++ [BACKSLASH] in
          let u := if usewc
                   then let '(r, d) := _ffs_utow wclen wildcard in take (Z.to_nat (Z.of_nat (length u) + r)) (u ++ d)
                   else u ++ [STAR] in
          if cap <? Z.of_nat (length u) + 1 then Halt OutOfBounds else Ret (Some (WBuf u (w_ptr w)))
      end
  end.

(** The name of an entry in UTF-8, if the buffer can hold it. *)
Definition entry_name (ent : finddata) : option (list Z) :=
  let '(r, name) := ffsz_wtou namebuf_cap (cFileName ent) in if r <? 0 then None else Some name.

(** An entry is converted and taken, or passed over. *)
Definition take_entry (wildcard : list Z) (flags : Z) (ent : finddata) (st : dvec * dvec)
    : prog winE ((bool * finddata * (dvec * dvec)) + bool * (dvec * dvec)) :=
  let '(offsets, buf) := st in
  match entry_name ent with
  | None => do! SetLastError ERROR_INVALID_DATA in Ret (inr (false, st))
  | Some name =>
      if negb (dir_keep true wildcard flags name) then Ret (inl (false, ent, st)) else
      let* '(offsets, ok) := vec_grow offsets (4 * Z.of_nat (length (v_data offsets))) 4 in
      if negb ok then Ret (inr (false, (offsets, buf))) else
      let offsets := DVec (v_ptr offsets) (v_data offsets ++ [u32 (Z.of_nat (length (v_data buf)))]) in
      let* '(buf, ok) := vec_grow buf (Z.of_nat (length (v_data buf))) (Z.of_nat (length name) + 1) in
      if negb ok then Ret (inr (false, (offsets, buf))) else
      Ret (inl (false, ent, (offsets, DVec (v_ptr buf) (v_data buf ++ name ++ [0]))))
  end.

(** One turn: [first] and [ent] as the code has them, the offsets and the names. *)
Definition scan_entry_win (wildcard : list Z) (flags dir : Z) (st : bool * finddata * (dvec * dvec))
    : prog winE ((bool * finddata * (dvec * dvec)) + bool * (dvec * dvec)) :=
  let '(first, ent, st) := st in
  let* next := if first : bool
               then Ret (if dir =? INVALID_HANDLE_VALUE then inr true else inl ent)
               else let! '(ok, ent) := FindNextFileW dir in
                    if ok : bool then Ret (inl ent) else
                    let! e := GetLastError in Ret (inr (e =? ERROR_NO_MORE_FILES)) in
  match next with
  | inr ok => Ret (inr (ok, st))
  | inl ent => take_entry wildcard flags ent st
  end.

(** From the loop on: the names, sorted; both vectors as they are left. *)
Definition scan_names_win (fuel : nat) (d : ffdirscan) (flags dir : Z) (ent : finddata)
    : prog winE (Z * ffdirscan * (dvec * dvec)) :=
  let* '(buf, ok) := vec_grow vec_null 0 4096 in
  if negb ok then Ret (-1, d, (vec_null, buf)) else
  let* '(ok, (offsets, buf)) := loop fuel (scan_entry_win (d_wildcard d) flags dir) (true, ent, (vec_null, buf)) in
  if negb ok then Ret (-1, d, (offsets, buf)) else
  let offsets := DVec (v_ptr offsets) (if has flags FFDIRSCAN_NOSORT then v_data offsets
                                       else ffsort (_ffdirscan_cmpname true (v_data buf)) (v_data offsets)) in
  let index := Z.of_nat (length (v_data buf)) in
  let* '(buf, ok) := if negb (Z.of_nat (length (v_data offsets)) =? 0)
                     then vec_grow buf index (4 * Z.of_nat (length (v_data offsets))) else Ret (buf, true) in
  if negb ok
  then Ret (-1, DirScan (d_names d) (d_len d) index (d_cur d) (d_wildcard d) (d_fd d) (d_ptr d), (offsets, buf)) else
  let names := v_data buf ++ concat (map le32 (v_data offsets)) in
  Ret (0, DirScan names (Z.of_nat (length names)) index index (d_wildcard d) (d_fd d) (v_ptr buf), (offsets, vec_null)).

Definition ffdirscan_open_win (fuel : nat) (d : ffdirscan) (path : list Z) (flags : Z) : prog winE (Z * ffdirscan) :=
  match path with [] => do! SetLastError ERROR_PATH_NOT_FOUND in Ret (-1, d) | _ =>
  let* wpath := scan_pattern path (d_wildcard d) flags in
  match wpath with None => Ret (-1, d) | Some wpath =>
  let* r := if has flags FFDIRSCAN_USEFD
            then do! SetLastError ERROR_NOT_SUPPORTED in Ret (Some (INVALID_HANDLE_VALUE, inhabitant))
            else let! '(dir, ent) := FindFirstFileW (w_str wpath) in
                 if dir =? INVALID_HANDLE_VALUE then
                   let! e := GetLastError in
                   Ret (if negb (e =? ERROR_FILE_NOT_FOUND) then None else Some (dir, ent))
                 else Ret (Some (dir, ent)) in
  do! w_free (w_ptr wpath) in
  match r with None => Ret (-1, d) | Some (dir, ent) =>
  let! namebuf := w_alloc namebuf_cap in
  let* '(rc, d, (offsets, buf)) := if namebuf =? 0 then Ret (-1, d, (vec_null, vec_null))
                                   else scan_names_win fuel d flags dir ent in
  do* if negb (dir =? INVALID_HANDLE_VALUE) then call (FindClose dir) else Ret true in
  do* if negb (namebuf =? 0) then call (w_free namebuf) else Ret tt in
  do* vec_free w_free offsets in
  do* vec_free w_free buf in
  Ret (rc, d)
  end end end.

Definition ffdirscan_close_win (d : ffdirscan) : prog winE ffdirscan :=
  do! w_free (d_ptr d) in
  Ret (DirScan [] (d_len d) (d_index d) (d_cur d) (d_wildcard d) (d_fd d) 0).
End dirscan_win.

(** ** Properties *)

(** The environment: the system, and the entries that match the pattern and are still to be read. *)
Definition find_env : env winE (wstate * list finddata) := λ w X e,
  match e in winE X return X → wstate * list finddata → Prop with
  | FindFirstFileW _ => λ '(h, ent) w',
      (∃ l, w.2 = ent :: l ∧ w'.2 = l ∧ h ≠ -1 ∧ new_handle (-1) w.1 h w'.1) ∨
      (h = -1 ∧ w.2 = [] ∧ w'.2 = [] ∧ ws_err w'.1 = ERROR_FILE_NOT_FOUND ∧ wsame w.1 w'.1) ∨
      (h = -1 ∧ ws_err w'.1 ≠ ERROR_FILE_NOT_FOUND ∧ wsame w.1 w'.1)
  | FindNextFileW _ => λ '(ok, ent) w',
      (∃ l, ok = true ∧ w.2 = ent :: l ∧ w'.2 = l ∧ wsame w.1 w'.1) ∨
      (ok = false ∧ w.2 = [] ∧ ws_err w'.1 = ERROR_NO_MORE_FILES ∧ wsame w.1 w'.1) ∨
      (ok = false ∧ ws_err w'.1 ≠ ERROR_NO_MORE_FILES ∧ wsame w.1 w'.1)
  | e => λ x w', wstep w.1 _ e x w'.1 ∧ w'.2 = w.2
  end.

(** The heap, and what growing a vector leaves alone. *)
Definition find_mem (w : wstate * list finddata) : gset Z := ws_mem w.1.
Definition find_same (w w' : wstate * list finddata) : Prop :=
  w'.2 = w.2 ∧ ws_handles w'.1 = ws_handles w.1 ∧ ws_socks w'.1 = ws_socks w.1.
Abbreviation FindVecLaws := (VecLaws find_env find_mem find_same (λ _, True)).


Section scan.
Context `{D : DirLib, !DirLibLaws D, V : !VecLib winE, LV : !FindVecLaws, U : FfUni}.

Abbreviation kept wc flags l := (filter (λ n, dir_keep true wc flags n = true) l).
(** The names of the entries that can be converted. *)
Abbreviation names l := (omap entry_name l).

Lemma name_bytes_app l l' : name_bytes (l ++ l') = name_bytes l ++ name_bytes l'.
Proof using Type. unfold name_bytes. by rewrite map_app, concat_app. Qed.
Lemma kept_bytes wc flags l : (length (name_bytes (kept wc flags l)) ≤ length (name_bytes l))%nat.
Proof using Type. apply name_bytes_filter. Qed.

(** Handles and sockets are as they were. *)
Definition open_same (s s' : wstate) : Prop := ws_handles s' = ws_handles s ∧ ws_socks s' = ws_socks s.
Lemma open_same_trans s1 s2 s3 : open_same s1 s2 → open_same s2 s3 → open_same s1 s3.
Proof using Type. unfold open_same. intros [] []. split; congruence. Qed.

Lemma take_entry_wp wc flags ent ns s rem M p q :
  Z.of_nat (length (name_bytes ns)) < 2 ^ 32 → holds2 M p q (ws_mem s) → 0 < q →
  wp find_env (take_entry wc flags ent (DVec p (name_offs 0 ns), DVec q (name_bytes ns))) (λ r w', open_same s w'.1 ∧
    match r with
    | inl (first, _, (o, b)) => first = false ∧ w'.2 = rem ∧ holds2 M (v_ptr o) (v_ptr b) (ws_mem w'.1) ∧ 0 < v_ptr b ∧
        ∃ n, entry_name ent = Some n ∧
          v_data o = name_offs 0 (ns ++ kept wc flags [n]) ∧ v_data b = name_bytes (ns ++ kept wc flags [n])
    | inr (ok, (o, b)) => ok = false ∧ holds2 M (v_ptr o) (v_ptr b) (ws_mem w'.1)
    end) never (s, rem).
Proof using V LV.
  intros Hlen HM Hq. unfold take_entry. destruct (entry_name ent) as [n|].
  2:{ cbn. intros _ [s1 l1] [[_ (E1 & E2 & E3)] _]. cbn in *. rewrite E3. split; [by split|done]. }
  assert (kept wc flags [n] = if dir_keep true wc flags n then [n] else []) as Ek.
  { rewrite filter_cons, filter_nil. destruct (dir_keep true wc flags n); [by rewrite decide_True|by rewrite decide_False]. }
  destruct (dir_keep true wc flags n); cbn [negb].
  - apply wp_bind. eapply wp_mono; [apply (vec_grow_wp find_env find_mem find_same (owned q ∪ M)), HM| |done].
    intros [[p1 d1] ok] [s1 l1] ((El & H1 & H1') & HM1 & Ed & _). cbn in El, H1, H1', HM1, Ed. subst l1 d1.
    assert (holds2 M p1 q (ws_mem s1)) as HM1' by (split; [exact HM1|apply HM]).
    destruct ok; cbn [negb]; [|by cbn].
    apply wp_bind. eapply wp_mono; [apply (vec_grow_wp find_env find_mem find_same (owned p1 ∪ M)), holds2_swap, HM1'| |done].
    intros [[q2 d2] ok] [s2 l2] ((El & H2 & H2') & HM2 & Ed & Hq2). cbn in El, H2, H2', HM2, Ed, Hq2. subst l2 d2.
    assert (holds2 M p1 q2 (ws_mem s2)) as HM2' by (apply holds2_swap; split; [exact HM2|apply (holds2_swap _ _ _ _ HM1')]).
    destruct ok; cbn -[filter]; (split; [split; congruence|]); [|done].
    split_and!; [done..|by apply Hq2|]. exists n.
    rewrite Ek, u32_small, name_offs_snoc, name_bytes_snoc by (unfold is_u32; lia). done.
  - cbn -[filter]. split; [done|]. split_and!; [done..|]. exists n. by rewrite Ek, app_nil_r.
Qed.

(** The loop after the first entry. *)
Lemma find_loop wc flags dir M : ∀ rem fuel ns ent s o b,
  (length rem < fuel)%nat → Z.of_nat (length (name_bytes (ns ++ names rem))) < 2 ^ 32 →
  v_data o = name_offs 0 ns → v_data b = name_bytes ns → holds2 M (v_ptr o) (v_ptr b) (ws_mem s) → 0 < v_ptr b →
  wp find_env (loop fuel (scan_entry_win wc flags dir) (false, ent, (o, b)))
    (λ '(ok, (o, b)) w', open_same s w'.1 ∧ holds2 M (v_ptr o) (v_ptr b) (ws_mem w'.1) ∧
       (ok = true → 0 < v_ptr b ∧ Forall (λ e, is_Some (entry_name e)) rem ∧
         v_data o = name_offs 0 (ns ++ kept wc flags (names rem)) ∧ v_data b = name_bytes (ns ++ kept wc flags (names rem))))
    never (s, rem).
Proof using V LV.
  induction rem as [|e rem IH]; intros fuel ns ent s [p od] [q bd] Hf Hlen Eo Eb HM Hq; (destruct fuel as [|fuel]; [cbn in Hf; lia|]);
    cbn in Eo, Eb, HM, Hq; subst od bd;
    cbn [loop]; apply wp_bind; unfold scan_entry_win at 1; cbn -[take_entry loop filter omap name_bytes].
  - intros [ok ent'] [s1 l1] [(l & _ & [=] & _)|[(-> & _ & He & (H1 & H2 & H3))|(-> & He & (H1 & H2 & H3))]]; cbn in *;
      intros e [s2 l2] [[-> E2] _]; cbn in E2; subst s2; [rewrite He|rewrite (proj2 (Z.eqb_neq _ _)) by done]; cbn; rewrite H3;
      (split; [done|]); (split; [done|]); [|done]. intros _. by rewrite app_nil_r.
  - intros [ok ent'] [s1 l1] [(l & -> & [= <- <-] & El & (H1 & H2 & H3))|[(-> & [=] & _)|(-> & He & (H1 & H2 & H3))]]; cbn -[take_entry loop filter omap name_bytes] in *.
    + subst l1. rewrite <- H3 in HM. assert (Hn : Z.of_nat (length (name_bytes ns)) < 2 ^ 32).
      { rewrite name_bytes_app, length_app in Hlen. lia. }
      eapply wp_mono; [by apply take_entry_wp| |done].
      intros [[[first ent2] [o2 b2]]|[ok [o2 b2]]] [s2 l2]; cbn -[loop filter omap name_bytes].
      2:{ intros [[K1 K2] [-> HM2]]. split; [split; congruence|done]. }
      intros ([K1 K2] & -> & -> & HM2 & Hq2 & n & En & Eo2 & Eb2).
      assert (names (e :: rem) = n :: names rem) as Enames by (cbn; by rewrite En). rewrite Enames in Hlen |- *.
      eapply wp_mono; [apply (IH fuel (ns ++ kept wc flags [n])); [lia| |done..]| |done].
      * rewrite !name_bytes_app, !length_app in *. pose proof (kept_bytes wc flags [n]).
        change (n :: names rem) with ([n] ++ names rem) in Hlen. rewrite name_bytes_app, length_app in Hlen. lia.
      * intros [ok [o3 b3]] [s3 l3]. cbn [fst]. intros ([L1 L2] & HM3 & Hok). split; [split; congruence|]. split; [done|]. intros Ht.
        destruct (Hok Ht) as (Hb & HF & Ho3 & Hb3). split; [done|]. split; [constructor; [by eexists|done]|].
        change (n :: names rem) with ([n] ++ names rem). by rewrite filter_app, app_assoc.
    + intros e2 [s2 l2] [[-> E2] _]. cbn in E2. subst s2. rewrite (proj2 (Z.eqb_neq _ _)) by done. cbn. by rewrite H3.
Qed.

(** What the names are when the scan of the [entries] succeeds. *)
Definition win_listed (d : ffdirscan) (flags : Z) (entries : list finddata) (d' : ffdirscan) : Prop :=
  let taken := kept (d_wildcard d) flags (names entries) in
  Forall (λ e, is_Some (entry_name e)) entries ∧ ∃ l, l ≡ₚ taken ∧
    (if has flags FFDIRSCAN_NOSORT then l = taken else StronglySorted (λ a b, ffsz_icmp a b ≤ 0) l) ∧
    enumerates d' l ∧ d_cur d' = d_index d'.

Lemma scan_names_win_wp fuel d flags dir ent rem s :
  let entries := if dir =? INVALID_HANDLE_VALUE then [] else ent :: rem in
  Forall (λ e, ∀ n, entry_name e = Some n → name_ok n) entries →
  Z.of_nat (length (name_bytes (names entries))) < 2 ^ 32 → (length entries < fuel)%nat →
  wp find_env (scan_names_win fuel d flags dir ent)
    (λ '(rc, d', (o, b)) w', open_same s w'.1 ∧
       ((rc = -1 ∧ holds2 (ws_mem s) (v_ptr o) (v_ptr b) (ws_mem w'.1)) ∨
        (rc = 0 ∧ v_ptr b = 0 ∧ 0 < d_ptr d' ∧ holds2 (ws_mem s) (v_ptr o) (d_ptr d') (ws_mem w'.1) ∧
         win_listed d flags entries d'))) never (s, rem).
Proof using All.
  intros entries Hok Hlen Hf. unfold scan_names_win. apply wp_bind.
  eapply wp_mono; [apply (vec_grow_wp find_env find_mem find_same (ws_mem s)), holds_none| |done].
  intros [[q d1] ok] [s1 l1] ((El & H1 & H1') & HM & Ed & Hq). cbn in El, H1, H1', HM, Ed, Hq. subst l1 d1.
  destruct ok; cbn [negb]; [|cbn; split; [done|left; split; [done|by apply holds2_none]]].
  apply wp_bind. apply holds2_none in HM. specialize (Hq eq_refl).
  eapply (wp_mono _ _ (λ '(ok, (o, b)) w', open_same s1 w'.1 ∧ holds2 (ws_mem s) (v_ptr o) (v_ptr b) (ws_mem w'.1) ∧
    (ok = true → 0 < v_ptr b ∧ Forall (λ e, is_Some (entry_name e)) entries ∧
      v_data o = name_offs 0 (kept (d_wildcard d) flags (names entries)) ∧
      v_data b = name_bytes (kept (d_wildcard d) flags (names entries))))); [| |done].
  { unfold entries in *. destruct (dir =? INVALID_HANDLE_VALUE) eqn:Edir.
    - destruct fuel; [cbn in Hf; lia|]. cbn [loop]. unfold scan_entry_win at 1. cbn -[take_entry loop filter omap name_bytes]. rewrite Edir. cbn. by split.
    - destruct fuel as [|fuel]; [cbn in Hf; lia|]. cbn [loop]. apply wp_bind. unfold scan_entry_win at 1. cbn -[take_entry loop filter omap name_bytes].
      rewrite Edir. cbn -[take_entry loop filter omap name_bytes].
      eapply wp_mono; [apply (take_entry_wp _ _ _ [] s1 rem (ws_mem s) 0 q); [cbn; lia|done|done]| |done].
      intros [[[first ent2] [o2 b2]]|[ok [o2 b2]]] [s2 l2]; cbn -[loop filter omap name_bytes].
      2:{ intros [H2 [-> HM2]]. by split. }
      intros (H2 & -> & -> & HM2 & Hq2 & n & En & Eo2 & Eb2).
      assert (names (ent :: rem) = [n] ++ names rem) as Enames by (cbn; by rewrite En).
      rewrite Enames, name_bytes_app, length_app in Hlen. rewrite Enames.
      eapply wp_mono; [apply (find_loop _ _ _ (ws_mem s) rem fuel (kept (d_wildcard d) flags [n])); [cbn in Hf; lia| |done..]| |done].
      + pose proof (kept_bytes (d_wildcard d) flags [n]). rewrite name_bytes_app, length_app. lia.
      + intros [ok [o3 b3]] [s3 l3]. cbn [fst]. intros (H3 & HM3 & Hk). split; [eauto using open_same_trans|]. split; [done|]. intros Ht.
        destruct (Hk Ht) as (Hb & HF & Ho3 & Hb3). split; [done|]. split; [constructor; [by eexists|done]|]. by rewrite filter_app. }
  intros [ok [o b]] [s2 l2] ([H2 H2'] & HM2 & Hst). cbn in H2, H2', HM2.
  destruct ok; cbn [negb]; [|cbn; split; [split; congruence|by left]].
  destruct (Hst eq_refl) as (Hb & HF & Eo & Eb). set (ns := kept (d_wildcard d) flags (names entries)) in *.
  cbn [v_data v_ptr]. rewrite Eo, Eb.
  assert (∀ blk, let offs := if has flags FFDIRSCAN_NOSORT then name_offs 0 ns else
      ffsort (_ffdirscan_cmpname true (name_bytes ns)) (name_offs 0 ns) in
    let names := name_bytes ns ++ concat (map le32 offs) in
    let index := Z.of_nat (length (name_bytes ns)) in
    win_listed d flags entries (DirScan names (Z.of_nat (length names)) index index (d_wildcard d) (d_fd d) blk)) as HL.
  { intros blk. destruct (built_ok true ns (has flags FFDIRSCAN_NOSORT) (d_wildcard d) (d_fd d) blk) as (l & Hp & Hs & He).
    - apply Forall_filter_sub. rewrite Forall_forall. intros n (e & He & En)%list_elem_of_omap.
      rewrite Forall_forall in Hok. by eapply Hok.
    - pose proof (kept_bytes (d_wildcard d) flags (names entries)). fold ns in H. lia.
    - split; [done|]. by exists l. }
  set (offs := if has flags FFDIRSCAN_NOSORT then name_offs 0 ns else _) in *.
  apply wp_bind. destruct (negb (Z.of_nat (length offs) =? 0)).
  - eapply wp_mono; [apply (vec_grow_wp find_env find_mem find_same (owned (v_ptr o) ∪ ws_mem s)), holds2_swap, HM2| |done].
    intros [[q4 d4] ok] [s4 l4] ((El4 & If & Id) & IM & Ed4 & Hq4). cbn in El4, If, Id, IM, Ed4, Hq4. subst d4. rewrite Eb.
    assert (holds2 (ws_mem s) (v_ptr o) q4 (ws_mem s4)) as HM4.
    { apply holds2_swap. split; [exact IM|apply (holds2_swap _ _ _ _ HM2)]. }
    destruct ok; cbn; (split; [split; congruence|]); [right|by left]. split_and!; auto; apply HL.
  - cbn. rewrite Eb. split; [split; congruence|]. right. split_and!; auto; apply HL.
Qed.

(** What a scan of the [entries] ends in, from the state [s]. *)
Definition win_scanned (d : ffdirscan) (flags : Z) (entries : list finddata) (s : wstate) (r : Z * ffdirscan) (s' : wstate) : Prop :=
  open_same s s' ∧
  ((r.1 = -1 ∧ ws_mem s' = ws_mem s) ∨
   (r.1 = 0 ∧ (d_ptr r.2 ∉ ws_mem s) ∧ ws_mem s' = {[d_ptr r.2]} ∪ ws_mem s ∧ win_listed d flags entries r.2)).

(** The pattern fits in its block; the block is the only thing allocated. *)
Context `{!FfUtf16Laws U, !FfWtouLaws U}.

Lemma scan_pattern_wp path wildcard flags s l :
  path ≠ [] → utf16_size path < 2 ^ 60 → Z.of_nat (length wildcard) < 2 ^ 60 →
  wp find_env (scan_pattern path wildcard flags) (λ w w', w'.2 = l ∧ ws_handles w'.1 = ws_handles s ∧ ws_socks w'.1 = ws_socks s ∧
    match w with
    | None => ws_mem w'.1 = ws_mem s
    | Some w => 0 < w_ptr w ∧ (w_ptr w ∉ ws_mem s) ∧ ws_mem w'.1 = {[w_ptr w]} ∪ ws_mem s
    end) never (s, l).
Proof using All.
  intros Hne Hp Hw. unfold scan_pattern. set (usewc := has flags _). set (wclen := Z.of_nat (length wildcard)) in *.
  set (add := if usewc then 2 + wclen else 3).
  assert (2 ≤ add < 2 ^ 61) as Hadd by (unfold add, wclen; destruct usewc; lia).
  unfold ffs_alloc_utow_addcap.
  rewrite utow_count. destruct (Z.ltb_spec (utf16_size path) 0).
  { rewrite (proj2 (Z.ltb_lt _ _)) by done. by cbn. }
  assert (2 * Z.of_nat (length (utf16 path)) = utf16_size path) as Hl by (apply utf16_length; lia).
  set (k := Z.of_nat (length (utf16 path))) in *. assert (0 ≤ k < 2 ^ 60) as Hk by (unfold k in *; lia). rewrite (proj2 (Z.ltb_ge k 0)) by lia.
  assert (utf16 path ≠ []) as Hnil.
  { intros E. destruct (utf16_inv path) as [Hu1 Hu2]; [lia|]. rewrite E in Hu1, Hu2.
    pose proof (wtou_bound []) as Hb. cbn in Hb. assert (wtou_size [] = 0) as Hz by lia.
    assert (Z.of_nat (length (utf8 [])) = wtou_size []) as Hu3 by (apply wtou_length; lia).
    rewrite Hu2, Hz in Hu3. by destruct path. }
  rewrite u64_small by (unfold is_u64; clearbody k add; lia).
  assert (_ffs_utow (k + add) path = (k, utf16 path)) as Hc2.
  { apply utow_conv. rewrite u64_small by (unfold is_u64; lia). lia. }
  rewrite Hc2. cbn -[Z.add Z.sub take]. intros p [s1 l1] [(E1 & E2 & Hm) El]. cbn in E1, E2, El, Hm. subst l1.
  destruct Hm as [[-> Hm]|(Hpp & Hni & Hm)]; [by cbn|]. rewrite (proj2 (Z.eqb_neq p 0)) by lia.
  cbn -[Z.add Z.sub take]. unfold k. rewrite Nat2Z.id, firstn_all.
  destruct (last (utf16 path)) as [c|] eqn:Elast; [|by apply last_None in Elast].
  set (u := if (c =? SLASH) || (c =? BACKSLASH) then _ else _).
  assert (Z.of_nat (length u) ≤ k) as Hu by (unfold u, k; destruct (_ || _); rewrite ?length_take; lia).
  set (v := if usewc then _ else _).
  assert (Z.of_nat (length v) + 1 ≤ k + add) as Hv.
  { unfold v, add. destruct usewc; [|rewrite !length_app; cbn; lia].
    assert ((_ffs_utow wclen wildcard).1 ≤ wclen) as Hr.
    { unfold _ffs_utow, wclen. rewrite u64_small by (unfold is_u64; lia).
      destruct wildcard as [|c' wc].
      - change (Z.of_nat (length []) * 2) with 0. pose proof utf16_nil as Hn. unfold utf16_size in Hn.
        destruct (ffutf8_to_utf16 0 []) as [r d0]. cbn in Hn. subst r. cbn. lia.
      - set (n := Z.of_nat (length (c' :: wc))). assert (0 < n) as Hn by (unfold n; cbn [length]; lia).
        assert ((ffutf8_to_utf16 (n * 2) (c' :: wc)).1 ≤ n * 2) as Hcap by (apply utf16_cap; lia).
        destruct (ffutf8_to_utf16 (n * 2) (c' :: wc)) as [r d0]. cbn [fst] in Hcap. clear -Hcap Hn.
        destruct (Z.leb_spec r 0); cbn [fst]; [lia|]. rewrite Z.quot_div_nonneg by lia. dlia. }
    destruct (_ffs_utow wclen wildcard) as [r d0]. cbn [fst] in Hr. rewrite length_take, !length_app. cbn [length].
    clearbody k u. lia. }
  fold k. rewrite (proj2 (Z.ltb_ge _ _)) by lia. cbn. split_and!; done.
Qed.

(** The end of the scan: the buffer for names and both vectors are released. *)
Lemma released_wp M nb (o b : dvec) (r : Z * ffdirscan) s l :
  holds2 (owned nb ∪ M) (v_ptr o) (v_ptr b) (ws_mem s) → owned nb ## M → 0 ≤ nb →
  wp find_env (do* if negb (nb =? 0) then call (w_free nb) else Ret tt in
               do* vec_free w_free o in do* vec_free w_free b in Ret r)
    (λ r' w', r' = r ∧ open_same s w'.1 ∧ ws_mem w'.1 = M) never (s, l).
Proof using V LV.
  intros HM Hd Hz. set (o' := v_ptr o) in *. set (b' := v_ptr b) in *.
  assert (∀ p u w w', find_env w _ (w_free p) u w' → find_same w w' ∧ find_mem w' = find_mem w ∖ {[p]}) as Hfree.
  { intros p u w w' [(? & ? & _ & ?) ?]. by repeat split. }
  assert (holds (owned o' ∪ (owned b' ∪ M)) nb (ws_mem s)) as HN.
  { destruct HM as ((-> & D1 & _) & D2 & _). clearbody o' b'. clear -D1 D2 Hd Hz. split_and!; [set_solver|set_solver|done]. }
  apply wp_bind. eapply (wp_mono _ _ (λ _ w', find_same (s, l) w' ∧ find_mem w' = owned o' ∪ (owned b' ∪ M)));
    [|intros _ [s1 l1] [(El & F1 & F2) Em]|done].
  { assert (Hv := vec_free_wp w_free find_env find_mem find_same (owned o' ∪ (owned b' ∪ M)) (DVec (A := Z) nb []) (s, l)).
    unfold vec_free in Hv. cbn [v_ptr] in Hv. destruct (nb =? 0); cbn [negb]; apply Hv; eauto; done. }
  cbn in El, F1, F2, Em. subst l1. destruct HM as ((_ & D1 & Ho) & D2 & Hb).
  apply wp_bind. eapply wp_mono; [apply (vec_free_wp w_free find_env find_mem find_same (owned b' ∪ M)); [eauto|done|]| |done].
  { split_and!; [exact Em| |exact Ho]. fold o'. clearbody o' b'. clear -D1 D2. set_solver. }
  intros _ [s2 l2] [(El & G1 & G2) Em2]. cbn in El, G1, G2, Em2. subst l2.
  apply wp_bind. eapply wp_mono; [apply (vec_free_wp w_free find_env find_mem find_same M); [eauto|done|]| |done].
  { split_and!; [exact Em2| |exact Hb]. fold b'. clearbody b'. clear -D2. set_solver. }
  intros _ [s3 l3] [(El & K1 & K2) Em3]. cbn in *. split_and!; [done|split; congruence|done].
Qed.

(** C20: scanning a directory on Windows: whatever fails, the search is closed, and the pattern, the buffer for
    names and the vectors are released; only on success one more block is allocated, that of the names.
    The pattern fits in its block; on success every name could be converted, and iteration yields exactly
    the names of the entries that match the pattern but "." and ".." (unless FFDIRSCAN_DOT) and those that
    the wildcard rejects, in the order that ignores the case unless FFDIRSCAN_NOSORT.  With
    FFDIRSCAN_USEFD, which is not supported, success means no entries at all. *)
Theorem dirscan_win_ok fuel d path flags entries s :
  utf16_size path < 2 ^ 60 → Z.of_nat (length (d_wildcard d)) < 2 ^ 60 →
  Forall (λ e, ∀ n, entry_name e = Some n → name_ok n) entries →
  Z.of_nat (length (name_bytes (names entries))) < 2 ^ 32 → (length entries < fuel)%nat →
  wp find_env (ffdirscan_open_win fuel d path flags)
    (λ r w', win_scanned d flags (if has flags FFDIRSCAN_USEFD then [] else entries) s r w'.1) never (s, entries).
Proof using All.
  intros Hp Hw Hok Hlen Hf. unfold ffdirscan_open_win. destruct path as [|c0 path0] eqn:Ep.
  { cbn. intros _ [s1 l1] [[_ (? & ? & ?)] _]. split; [by split|by left]. }
  rewrite <- Ep in *. apply wp_bind. eapply wp_mono; [apply (scan_pattern_wp path _ _ s entries); [by rewrite Ep|done..]| |done].
  intros [w|] [s1 l1] (El & Eh & Es & Em); cbn in El, Eh, Es, Em; subst l1; [|cbn; split; [by split|by left]].
  destruct Em as (Hpp & Hni & Em).
  (* the handle and the entries left, or the failure of the search *)
  apply wp_bind.
  eapply (wp_mono _ _ (λ r w', ws_socks w'.1 = ws_socks s ∧ ws_mem w'.1 = ws_mem s1 ∧
    match r with
    | None => ws_handles w'.1 = ws_handles s
    | Some (dir, ent) => (if has flags FFDIRSCAN_USEFD then [] else entries) =
          (if dir =? INVALID_HANDLE_VALUE then [] else ent :: w'.2) ∧
        ((dir = -1 ∧ ws_handles w'.1 = ws_handles s) ∨
         (dir ≠ -1 ∧ (dir ∉ ws_handles s) ∧ ws_handles w'.1 = {[dir]} ∪ ws_handles s))
    end)).
  { destruct (has flags FFDIRSCAN_USEFD).
    - cbn. intros _ [s2 l2] [[_ (F1 & F2 & F3)] _]. cbn in *. split_and!; try congruence. left. split; [done|congruence].
    - cbn. intros [h ent] [s2 l2] [(l & -> & El & Hne & (G1 & G2 & Hh))|[(-> & -> & El & He & (G1 & G2 & G3))|(-> & He & (G1 & G2 & G3))]]; cbn in *.
      + unfold INVALID_HANDLE_VALUE. rewrite (proj2 (Z.eqb_neq h (-1))) by done. cbn. rewrite (proj2 (Z.eqb_neq h (-1))) by done.
        destruct Hh as [[? _]|(_ & Hn & Hh)]; [done|]. rewrite Eh in Hn, Hh. split_and!; [congruence..|by subst l2|]. right. done.
      + intros e [s3 l3] [[-> E3] E4]. cbn in *. subst s3 l3. rewrite He. cbn. split_and!; try congruence. left. split; [done|congruence].
      + intros e [s3 l3] [[-> E3] E4]. cbn in *. subst s3. rewrite (proj2 (Z.eqb_neq _ _)) by done. cbn. split_and!; congruence. }
  2:{ done. }
  intros r [s2 l2] (Es2 & Em2 & Hr). cbn -[scan_names_win]. cbn in Es2, Em2.
  intros _ [s3 l3] [(H3h & H3s & _ & H3m) El]. cbn in *. subst l3.
  assert (ws_mem s3 = ws_mem s) as Em3 by (rewrite H3m, Em2, Em; clear -Hni; set_solver).
  destruct r as [[dir ent]|]; [|cbn; split; [split; congruence|by left]].
  destruct Hr as [Eent Hdir]. cbn -[scan_names_win]. rewrite Eent.
  intros nb [s4 l4] [(H4h & H4s & H4m) El]. cbn in H4h, H4s, H4m, El. subst l4.
  assert (holds (ws_mem s) nb (ws_mem s4)) as Hnb.
  { rewrite Em3 in H4m. destruct H4m as [[-> E]|(Hnb & Hnn & E)]; rewrite E; [apply holds_none|].
    unfold holds, owned. rewrite (proj2 (Z.eqb_neq nb 0)) by lia. clear -Hnn Hnb. split_and!; [done|set_solver|lia]. }
  clear H4m. apply wp_bind.
  eapply (wp_mono _ _ (λ '(rc, d', (o, b)) w', open_same s4 w'.1 ∧
    ((rc = -1 ∧ holds2 (ws_mem s4) (v_ptr o) (v_ptr b) (ws_mem w'.1)) ∨
     (rc = 0 ∧ v_ptr b = 0 ∧ 0 < d_ptr d' ∧ holds2 (ws_mem s4) (v_ptr o) (d_ptr d') (ws_mem w'.1) ∧
      win_listed d flags (if dir =? INVALID_HANDLE_VALUE then [] else ent :: l2) d')))).
  { destruct (nb =? 0); [cbn; split; [done|left; split; [done|apply holds2_none, holds_none]]|].
    apply scan_names_win_wp; rewrite <- Eent; destruct (has flags FFDIRSCAN_USEFD); try done; cbn in *; lia. }
  2:{ done. }
  intros [[rc d'] [o b]] [s5 l5] ([H5h H5s] & Hres). cbn in H5h, H5s, Hres.
  set (M := if rc =? 0 then owned (d_ptr d') ∪ ws_mem s else ws_mem s).
  assert (holds2 (owned nb ∪ M) (v_ptr o) (v_ptr b) (ws_mem s5) ∧ owned nb ## M ∧ 0 ≤ nb) as (HM & Hnd & Hnz).
  { destruct Hnb as (Em4 & D0 & Hz). unfold M. destruct Hres as [[-> HM]|(-> & -> & _ & HM & _)]; cbn; rewrite Em4 in HM.
    - split_and!; [exact HM|exact D0|exact Hz].
    - destruct (holds2_hand_over _ _ _ _ _ HM D0). by split_and!. }
  assert (∀ s6 l6, ws_handles s6 = ws_handles s → ws_socks s6 = ws_socks s → ws_mem s6 = ws_mem s5 →
    wp find_env (do* if negb (nb =? 0) then call (w_free nb) else Ret tt in
      do* vec_free w_free o in do* vec_free w_free b in Ret (rc, d'))
      (λ r w', win_scanned d flags (if dir =? INVALID_HANDLE_VALUE then [] else ent :: l2) s r w'.1) never (s6, l6)) as HF.
  { intros s6 l6 G1 G2 G3. eapply wp_mono; [apply (released_wp M); rewrite ?G3; done| |done].
    intros r [s7 l7] (-> & [K1 K2] & Em7). cbn in K1, K2, Em7. split; [split; cbn; congruence|]. cbn [fst snd]. rewrite Em7. unfold M.
    destruct Hres as [[-> _]|(-> & _ & Hdp & ((_ & _ & _) & D2 & _) & HL)]; [by left|right]. cbn.
    destruct Hnb as (Em4 & _). rewrite Em4 in D2. unfold owned in *. rewrite (proj2 (Z.eqb_neq (d_ptr d') 0)) in * by lia.
    split_and!; [done|clear -D2; set_solver|done|done]. }
  destruct Hdir as [[-> Hd]|(Hne & Hn & Hd)].
  - cbn -[wp vec_free]. apply HF; cbn; congruence.
  - unfold INVALID_HANDLE_VALUE at 1. rewrite (proj2 (Z.eqb_neq dir (-1))) by done.
    cbn -[wp bind vec_free]. cbn [bind wp call]. intros x [s6 l6] [(K1 & K2 & K3) _]. cbn in K1, K2, K3. apply HF; [|congruence..].
    rewrite K3, H5h, H4h, H3h, Hd. clear -Hn. set_solver.
Qed.
End scan.

#[export] Instance RefWVecFindLaws : FindVecLaws.
Proof.
  apply ref_grow_laws.
  - intros s n r s' [(? & ? & ?) ?]. split; [done|by apply alloc_no_trace].
  - by intros s p u s' [(? & ? & _ & ?) ?].
  - unfold find_same. intros ??? (? & ? & ?) (? & ? & ?). split_and!; congruence.
Qed.

Definition demo_entries : list finddata := [FindData inhabitant (bytes_of "b"); FindData inhabitant (bytes_of "."); FindData inhabitant (bytes_of "A")].

Lemma dirscan_win_ok_witness :
  let d := DirScan [] 0 0 0 (bytes_of "*") 0 0 in
  wp find_env (@ffdirscan_open_win _ _ RefUni 4 d (bytes_of "C:\dir\") 0)
    (λ r w', @win_scanned _ RefUni d 0 demo_entries (WState 0 ∅ ∅ ∅) r w'.1) never (WState 0 ∅ ∅ ∅, demo_entries).
Proof.
  apply (@dirscan_win_ok _ _ _ _ RefUni _ _ 4 (DirScan [] 0 0 0 (bytes_of "*") 0 0) (bytes_of "C:\dir\") 0 demo_entries (WState 0 ∅ ∅ ∅)).
  - vm_compute. done.
  - vm_compute. done.
  - repeat constructor; intros n [= <-]; repeat constructor; vm_compute; congruence.
  - vm_compute. done.
  - cbn. lia.
Defined.
