(* ===== verification/Dir.v ===== *)
(** * FFOS/dir.h: directories

    A path is the list of its bytes; [path[off] = '\0'] around a call is the prefix of that
    length.  A directory entry carries the caller's buffer, whose capacity bounds full names. *)
From S2P Require Import Prelude Prog Ffbase Unix Win StringW.

Definition dir_mode := 511.    (* 0777 *)

(** ** UNIX *)

Definition ffdir_make (name : cstr) : prog unixE Z := call (u_mkdir name dir_mode).
Definition ffdir_remove (name : cstr) : prog unixE Z := call (u_rmdir name).

(** The loop of ffdir_make_all(): [rest] is what follows the first [off] bytes of [path]. *)
Fixpoint make_all_loop (path : list Z) (off : nat) (rest : list Z) : prog unixE Z :=
  let make (next : prog unixE Z) :=
    let* r := ffdir_make (take off path) in
    if negb (r =? 0) then
      let! e := get_errno in if negb (e =? EEXIST) then Ret r else next
    else next in
  match rest with
  | [] => make (Ret 0)
  | c :: rest =>
      if c =? SLASH then make (make_all_loop path (S off) rest) else make_all_loop path (S off) rest
  end.

Definition ffdir_make_all (path : list Z) (off : nat) : prog unixE Z :=
  let off := match path !! off with Some c => if c =? SLASH then S off else off | None => off end in
  make_all_loop path off (drop off path).

Definition ffdir_make_path `{FfStr} (name : list Z) (off : nat) : prog unixE Z :=
  let slash := ffs_rfindchar name SLASH in
  if slash <=? 0 then Ret 0 else ffdir_make_all (take (Z.to_nat slash) name) off.

Record ffdirentry := DirEntry { de_path : list Z; de_cap : Z; de_name : list Z; de_info : stat }.

Definition ffdir_open (path : cstr) (path_cap : Z) : prog unixE (Z * ffdirentry) :=
  let! d := u_opendir path in Ret (d, DirEntry path path_cap [] inhabitant).
Definition ffdir_close (d : Z) : prog unixE unit := do! u_closedir d in Ret tt.
Definition FFERR_NOMOREFILES := 0.
Definition ffdir_read (dir : Z) (ent : ffdirentry) : prog unixE (Z * ffdirentry) :=
  do! set_errno FFERR_NOMOREFILES in
  let! de := u_readdir dir in
  match de with
  | None => Ret (-1, ent)
  | Some n => Ret (0, DirEntry (de_path ent) (de_cap ent) n (de_info ent))
  end.
Definition ffdir_entry_name (ent : ffdirentry) : list Z := de_name ent.

(** The full name in the caller's buffer; [None] with EOVERFLOW when it does not fit. *)
Definition _ffdir_entry_fullpath (ent : ffdirentry) (name : list Z) : prog unixE (option (list Z)) :=
  if de_cap ent <=? Z.of_nat (length (de_path ent)) + Z.of_nat (length name) + 1
  then fail EOVERFLOW None
  else Ret (Some (de_path ent ++ [SLASH] ++ name)).

Definition ffdir_entry_info (ent : ffdirentry) : prog unixE (option stat * ffdirentry) :=
  let* full := _ffdir_entry_fullpath ent (ffdir_entry_name ent) in
  match full with
  | None => Ret (None, ent)
  | Some full =>
      let! '(r, st) := u_stat full in
      Ret (if r =? 0 then Some st else None, DirEntry (de_path ent) (de_cap ent) (de_name ent) st)
  end.

(** ** Windows *)

Section win.
Context `{FfUni}.

Definition ffdir_make_win (name : list Z) : prog winE Z :=
  let* w := ffsz_alloc_buf_utow (Some 256) name in
  match w with None => Ret (-1) | Some w =>
  let! ok := CreateDirectoryW (w_str w) in wbuf_free w (Ret (b2z (negb ok))) end.

Definition ffdir_remove_win (name : list Z) : prog winE Z :=
  let* w := ffsz_alloc_buf_utow (Some 256) name in
  match w with None => Ret (-1) | Some w =>
  let! ok := RemoveDirectoryW (w_str w) in wbuf_free w (Ret (b2z (negb ok))) end.

Definition is_sep (c : Z) : bool := (c =? SLASH) || (c =? BSLASH).

Fixpoint make_all_loop_win (w : list Z) (off : nat) (rest : list Z) : prog winE Z :=
  let make (next : Z → prog winE Z) :=
    let! ok := CreateDirectoryW (take off w) in
    let r := b2z (negb ok) in
    if negb (r =? 0) then
      let! e := GetLastError in if negb (e =? ERROR_ALREADY_EXISTS) then Ret r else next r
    else next r in
  match rest with
  | [] => make Ret
  | c :: rest =>
      if is_sep c then make (λ _, make_all_loop_win w (S off) rest) else make_all_loop_win w (S off) rest
  end.

(** Where to begin: behind "c:" and a separator. *)
Definition make_all_start (w : list Z) (off : nat) : nat :=
  let first := Z.lor (nth 0 w 0) 32 in
  let off := if (off =? 0)%nat && (97 <=? first) && (first <=? 122) && (nth 1 w 0 =? COLON) then 2%nat else off in
  if is_sep (nth off w 0) then S off else off.

Definition ffdir_make_all_win (path : list Z) (off : nat) : prog winE Z :=
  let* w := ffsz_alloc_buf_utow (Some 256) path in
  match w with None => Ret (-1) | Some w =>
  let off := make_all_start (w_str w) off in
  let* r := make_all_loop_win (w_str w) off (drop off (w_str w)) in
  wbuf_free w (Ret r) end.

Record ffdirentry_win := DirEntryWin { dw_data : finddata; dw_name : list Z; dw_next : bool }.

(** [None]: NULL. *)
Definition ffdir_open_win (path : list Z) (cap : Z) (ent : ffdirentry_win) : prog winE (option Z * ffdirentry_win) :=
  let len := Z.of_nat (length path) in
  if (len =? 0) || (cap <=? len + 2) then wfail ERROR_INVALID_DATA (None, ent) else
  let sep := match last path with Some c => is_sep c | None => false end in
  let* w := ffsz_alloc_buf_utow (Some 256) (path ++ (if sep then [] else [BSLASH]) ++ [42]) in
  match w with None => Ret (None, ent) | Some w =>
  let! '(dir, data) := FindFirstFileW (w_str w) in
  wbuf_free w (Ret (if dir =? INVALID_HANDLE_VALUE then (None, DirEntryWin data (dw_name ent) (dw_next ent))
                    else (Some dir, DirEntryWin data (dw_name ent) false))) end.
Definition ffdir_close_win (dir : Z) : prog winE unit := do! FindClose dir in Ret tt.

Definition ffdir_read_win (dir : Z) (ent : ffdirentry_win) : prog winE (Z * ffdirentry_win) :=
  let* '(ok, data) := if negb (dw_next ent) then Ret (true, dw_data ent)
                      else call (FindNextFileW dir) in
  if negb ok then Ret (-1, ent) else
  let '(r, name) := ffsz_wtou 1024 (cFileName data) in
  let ent := DirEntryWin data name true in
  if r <=? 0 then wfail ERROR_INVALID_DATA (-1, ent) else Ret (0, ent).
Definition ffdir_entry_name_win (ent : ffdirentry_win) : list Z := dw_name ent.
Definition ffdir_entry_info_win (ent : ffdirentry_win) : fileattr :=
  let fd := fd_info (dw_data ent) in
  FileAttr (fa_attr fd) (fa_ctime fd) (fa_atime fd) (fa_mtime fd) (fa_size_hi fd) (fa_size_lo fd) 0 0.

Definition ffdir_make_path_win `{FfStr} (name : list Z) (off : nat) : prog winE Z :=
  let slash := ffs_rfindany name [SLASH; BSLASH] in
  if slash <=? 0 then Ret 0 else ffdir_make_all_win (take (Z.to_nat slash) name) off.
End win.

(** ** Properties *)

(** The environment: which directories exist.  mkdir() makes one that does not exist, reports
    EEXIST for one that does, or fails otherwise. *)
Definition mk_env : env unixE (ustate * gset (list Z)) := λ w X e,
  match e in unixE X return X → ustate * gset (list Z) → Prop with
  | u_mkdir name _ => λ r w', same w.1 w'.1 ∧
      ((r = 0 ∧ w'.2 = {[name]} ∪ w.2) ∨
       (r = -1 ∧ us_errno w'.1 = EEXIST ∧ name ∈ w.2 ∧ w'.2 = w.2) ∨
       (r = -1 ∧ us_errno w'.1 ≠ EEXIST ∧ w'.2 = w.2))
  | e => λ x w', ustep w.1 _ e x w'.1 ∧ w'.2 = w.2
  end.

(** The directories that the functions make: the prefixes of [path] of [off] bytes or more that
    end before a slash, and the whole path. *)
Fixpoint make_prefixes (path : list Z) (off : nat) (rest : list Z) : list (list Z) :=
  match rest with
  | [] => [take off path]
  | c :: rest => (if c =? SLASH then [take off path] else []) ++ make_prefixes path (S off) rest
  end.

Lemma make_one_wp path off next Q w :
  (∀ w', take off path ∈ w'.2 → w'.2 = {[take off path]} ∪ w.2 → wp mk_env next Q never w') →
  (∀ w', us_errno w'.1 ≠ EEXIST → w'.2 = w.2 → Q (-1) w') →
  wp mk_env (let* r := ffdir_make (take off path) in
    if negb (r =? 0) then let! e := get_errno in if negb (e =? EEXIST) then Ret r else next
    else next) Q never w.
Proof.
  intros Hnext Hfail. cbn. intros r [s1 l1] [_ [[-> Hl]|[(-> & He & Hin & Hl)|(-> & He & Hl)]]]; cbn in *.
  - apply Hnext; cbn; [set_solver|done].
  - intros e [s2 l2] [[-> E] E2]. cbn in E, E2. subst s2 l2. rewrite He. cbn. apply Hnext; cbn; set_solver.
  - intros e [s2 l2] [[-> E] E2]. cbn in E, E2. subst s2 l2. destruct (Z.eqb_spec (us_errno s1) EEXIST); [done|].
    by apply Hfail.
Qed.

(** ffdir_make_all(): when it returns 0, every directory on the way, in the order of the path,
    and the path itself exist, and nothing else was made; when it fails, it fails with an error
    other than "exists", and what was made by then is a first part of these directories. *)
Theorem make_all_ok path off w :
  let off' := match path !! off with Some c => if c =? SLASH then S off else off | None => off end in
  let dirs := make_prefixes path off' (drop off' path) in
  wp mk_env (ffdir_make_all path off)
    (λ r w', (r = 0 ∧ w'.2 = list_to_set dirs ∪ w.2) ∨
       (r = -1 ∧ us_errno w'.1 ≠ EEXIST ∧ ∃ done rest, dirs = done ++ rest ∧ rest ≠ [] ∧
          w'.2 = list_to_set done ∪ w.2)) never w.
Proof.
  intros off' dirs. unfold ffdir_make_all. fold off'. unfold dirs. clear dirs.
  generalize (drop off' path) as rest. intros rest. clearbody off'. revert off' w.
  induction rest as [|c rest IH]; intros k w; cbn [make_all_loop make_prefixes].
  - apply make_one_wp.
    + intros w' _ Hw. cbn. left. split; [done|]. rewrite Hw. set_solver.
    + intros w' He Hw. right. split_and!; [done..|]. exists [], [take k path]. split_and!; [done..|].
      rewrite Hw. set_solver.
  - destruct (c =? SLASH); [|apply IH]. apply make_one_wp.
    + intros w' _ Hw. eapply wp_mono; [apply IH| |done].
      intros r w2 [[-> H2]|(-> & He & dn & rs & Hd & Hne & H2)].
      * left. split; [done|]. rewrite H2, Hw. cbn. set_solver.
      * right. split_and!; [done..|]. exists (take k path :: dn), rs. split_and!; [by cbn; rewrite Hd|done|].
        rewrite H2, Hw. cbn. set_solver.
    + intros w' He Hw. right. split_and!; [done..|]. exists [], (take k path :: make_prefixes path (S k) rest).
      split_and!; [done..|]. rewrite Hw. set_solver.
Qed.

(** the full name of an entry never exceeds the caller's buffer, NUL included; the descriptor of
    the directory and the entry's path are unchanged. *)
Theorem fullpath_fits ent name s :
  wp ustep (_ffdir_entry_fullpath ent name)
    (λ r s', same s s' ∧
       match r with
       | Some full => full = de_path ent ++ [SLASH] ++ name ∧ Z.of_nat (length full) + 1 ≤ de_cap ent
       | None => us_errno s' = EOVERFLOW ∧ de_cap ent < Z.of_nat (length (de_path ent ++ [SLASH] ++ name)) + 1
       end) never s.
Proof.
  unfold _ffdir_entry_fullpath. rewrite !length_app. cbn [length].
  destruct (Z.leb_spec (de_cap ent) (Z.of_nat (length (de_path ent)) + Z.of_nat (length name) + 1)); cbn.
  - intros _ s' [He Hs]. split_and!; [done|done|lia].
  - split_and!; [done|done|]. rewrite !length_app. cbn [length]. lia.
Qed.
