(* ===== verification/Environ.v ===== *)
(** * FFOS/environ.h: expansion of environment variables, the user's language

    The environment is the list of "NAME=value" strings.  The output of ffenv_expand() is the bytes
    written and their block; its growth belongs to ffbase ([VecLib]). *)
From S2P Require Import Prelude Prog Ffbase Vec Unix Win StringW.

Definition DOLLAR := 36.

(** ** UNIX *)

Definition is_name_char (ch : Z) : bool :=
  let l := Z.lor ch 32 in
  ((97 <=? l) && (l <=? 122)) || ((48 <=? ch) && (ch <=? 57)) || (ch =? 95).

Fixpoint name_len (s : list Z) : nat :=
  match s with c :: s => if is_name_char c then S (name_len s) else O | [] => O end.

(** [_ff_environ = env]: the result and the variable. *)
Definition ffenv_init (env : list (list Z)) : Z * list (list Z) := (0, env).

Section unix.
Context `{FfStr, !VecLib unixE}.
Context (environ : list (list Z)).        (* _ff_environ *)

(** The next chunk of text or $-name, and the rest. *)
Definition _ffsvar_next (s : list Z) : list Z * list Z :=
  match s with
  | c :: s' =>
      if negb (c =? DOLLAR) then
        let pos := ffstr_findchar s DOLLAR in
        let pos := if pos <? 0 then length s else Z.to_nat pos in
        (take pos s, drop pos s)
      else
        let i := S (name_len s') in (take i s, drop i s)
  | [] => ([], [])
  end.

Fixpoint env_find (env : list (list Z)) (key : list Z) : option (list Z) :=
  match env with
  | [] => None
  | e :: env =>
      if ffsz_match e key && (nth (length key) e 0 =? 61) then Some (drop (S (length key)) e)
      else env_find env key
  end.
Definition _ffenv_val (key : list Z) : option (list Z) := env_find environ key.

(** One turn of the loop of ffenv_expand(): input and output ([v_ptr]: its block, 0 for the caller's
    buffer); [inr None]: out of memory. *)
Definition expand_step (cap : option Z) (st : list Z * dvec) : prog unixE ((list Z * dvec) + option dvec) :=
  let '(inp, out) := st in
  match inp with
  | [] => Ret (inr (Some out))
  | _ =>
      let '(s, inp) := _ffsvar_next inp in
      let add (s : list Z) :=
        match cap with
        | Some cap => Ret (inl (inp, DVec (v_ptr out) (ffstr_add2 (v_data out) cap s)))
        | None =>
            let* '(out, ok) := vec_grow out (Z.of_nat (length (v_data out))) (Z.of_nat (length s)) in
            Ret (if negb ok then inr None else inl (inp, DVec (v_ptr out) (v_data out ++ s)))
        end in
      match s with
      | c :: name =>
          if c =? DOLLAR then
            match name with
            | [] => Ret (inl (inp, out))
            | _ => add (default [] (_ffenv_val name))
            end
          else add s
      | [] => add s
      end
  end.

(** [cap]: the caller's buffer; the result is what is written, the terminating NUL included, and its block. *)
Definition ffenv_expand (fuel : nat) (cap : option Z) (src : list Z) : prog unixE (option dvec) :=
  let* out := loop fuel (expand_step cap) (src, vec_null) in
  match out with
  | None => Ret None
  | Some out =>
      match cap with
      | Some cap => Ret (Some (DVec (v_ptr out) (ffstr_add2 (v_data out) cap [0])))
      | None =>
          let* '(out, ok) := vec_grow out (Z.of_nat (length (v_data out))) 1 in
          Ret (if negb ok then None else Some (DVec (v_ptr out) (v_data out ++ [0])))
      end
  end.

(** [buf]: whether there is a buffer; the number of bytes (-1: error) and what is copied to it. *)
Definition FFENV_LANGUAGE := 1.
Definition ffenv_locale (buf : bool) (buf_cap flags : Z) : Z * list Z :=
  if flags =? FFENV_LANGUAGE then
    match _ffenv_val (bytes_of "LANG") with
    | None => (-1, [])
    | Some s =>
        let '(_, s, _) := ffstr_splitby s DOT in
        let n := Z.min (Z.of_nat (length s)) buf_cap in
        (n, if buf then take (Z.to_nat n) s else [])
    end
  else (-1, []).
End unix.

(** ** Windows *)

Section win.
Context `{FfUni}.

(** [cap]: the caller's buffer; the result is the buffer's block (0: the caller's) and the bytes.
    The second call of ExpandEnvironmentStringsW() fills the buffer sized by the first. *)
Definition ffenv_expand_win (cap : option Z) (src : list Z) : prog winE (option (Z * list Z)) :=
  let* w := ffsz_alloc_buf_utow (Some 256) src in
  match w with None => Ret None | Some w =>
  let! wsize := ExpandEnvironmentStringsW (w_str w) in
  let wlen := Z.of_nat (length wsize) in
  let! wdst := w_alloc (u64 (wlen * 2)) in
  if wdst =? 0 then wbuf_free w (do! w_free 0 in Ret None) else
  let! exp := ExpandEnvironmentStringsW (w_str w) in
  let exp := take (Z.to_nat wlen) exp in
  let* res :=
    match cap with
    | Some cap => Ret (Some (0, (ffs_wtou cap exp).2))
    | None =>
        let cap := (ffs_wtou 0 exp).1 in
        let! p := w_alloc (u64 cap) in
        Ret (if p =? 0 then None else Some (p, (ffs_wtou cap exp).2))
    end in
  wbuf_free w (do! w_free wdst in Ret res) end.
End win.

(** ** Properties *)

(** A template: text without "$", and variables ("$" alone has an empty name). *)
Inductive item := Text (s : list Z) | Var (name : list Z).

#[export] Instance item_eq : EqDecision item.
Proof. solve_decision. Defined.

Definition render1 (i : item) : list Z := match i with Text s => s | Var n => DOLLAR :: n end.
Definition render (l : list item) : list Z := concat (map render1 l).

(** Well-formed: the items are the ones that the longest match reads. *)
Fixpoint items_ok (l : list item) : Prop :=
  match l with
  | [] => True
  | Text s :: l => s ≠ [] ∧ Forall (λ c, c ≠ DOLLAR) s ∧
      match l with Text _ :: _ => False | _ => True end ∧ items_ok l
  | Var n :: l => Forall (λ c, is_name_char c = true) n ∧
      match l with Text (c :: _) :: _ => is_name_char c = false | _ => True end ∧ items_ok l
  end.

Section expand.
Context `{F : FfStr, !FfStrLaws F, V : !VecLib unixE}.
Context (environ : list (list Z)).

Definition item_value (i : item) : list Z :=
  match i with
  | Text s => s
  | Var [] => []
  | Var n => default [] (_ffenv_val environ n)
  end.
Definition expansion (l : list item) : list Z := concat (map item_value l).

Lemma next_text s l : items_ok (Text s :: l) → _ffsvar_next (s ++ render l) = (s, render l).
Proof.
  intros (Hne & Hs & Hl & Hok). destruct s as [|c s]; [done|]. cbn [app]. unfold _ffsvar_next.
  apply Forall_cons in Hs as [Hc Hs]. rewrite (proj2 (Z.eqb_neq _ _) Hc). cbn [negb].
  rewrite findchar_eq, app_comm_cons, find_first_app.
  2:{ constructor; [apply Z.eqb_neq; congruence|]. eapply Forall_impl; [exact Hs|].
      intros x Hx. apply Z.eqb_neq. congruence. }
  assert (Hf : find_first (Z.eqb DOLLAR) (render l) = if decide (l = []) then None else Some O).
  { destruct l as [|[s'|n] l]; done. }
  rewrite Hf. destruct (decide (l = [])) as [->|Hne'].
  - cbn [fmap option_fmap option_map idx]. change (-1 <? 0) with true. cbv iota zeta.
    rewrite app_nil_r. by rewrite take_ge, drop_ge by done.
  - cbn [fmap option_fmap option_map idx]. rewrite Nat.add_0_r.
    destruct (Z.ltb_spec (Z.of_nat (length (c :: s))) 0) as [|_]; [lia|]. rewrite Nat2Z.id.
    by rewrite take_app_length, drop_app_length.
Qed.

Lemma name_len_app n r : Forall (λ c, is_name_char c = true) n →
  match r with c :: _ => is_name_char c = false | [] => True end → name_len (n ++ r) = length n.
Proof.
  induction 1 as [|c n Hc Hn IH]; intros Hr; cbn; [|by rewrite Hc, IH].
  destruct r as [|c r]; cbn; [done|]. by rewrite Hr.
Qed.

Lemma next_var n l : items_ok (Var n :: l) → _ffsvar_next (DOLLAR :: n ++ render l) = (DOLLAR :: n, render l).
Proof.
  intros (Hn & Hl & Hok). unfold _ffsvar_next. rewrite Z.eqb_refl. cbn [negb].
  rewrite name_len_app; [cbn; by rewrite take_app_length, drop_app_length|done|].
  destruct l as [|[[|c s]|m] l]; cbn in *; [done| |done|done]. by destruct Hok.
Qed.

Lemma add2_cap cap out s full : 0 ≤ cap → out = take (Z.to_nat cap) full →
  ffstr_add2 out cap s = take (Z.to_nat cap) (full ++ s).
Proof.
  intros Hc ->. rewrite add2_law.
  - rewrite take_app. f_equal. f_equal. rewrite length_take. lia.
  - rewrite length_take. lia.
Qed.

(** The parts that the loop reads, one by one, whatever is done with their values. *)
Lemma expand_turn cap i l out :
  items_ok (i :: l) →
  ∃ add : list Z → prog unixE ((list Z * dvec) + option dvec),
    (∀ s, add s = match cap with
       | Some cap => Ret (inl (render l, DVec (v_ptr out) (ffstr_add2 (v_data out) cap s)))
       | None =>
           let* '(out, ok) := vec_grow out (Z.of_nat (length (v_data out))) (Z.of_nat (length s)) in
           Ret (if negb ok then inr None else inl (render l, DVec (v_ptr out) (v_data out ++ s)))
       end) ∧
    expand_step environ cap (render (i :: l), out) =
      if decide (i = Var []) then Ret (inl (render l, out)) else add (item_value i).
Proof using FfStrLaws0.
  intros Hok. eexists (λ s, _). split; [intros s; reflexivity|]. destruct i as [s|n].
  - rewrite decide_False by done. change (render (Text s :: l)) with (s ++ render l). assert (Hn := next_text s l Hok).
    destruct Hok as (Hne & Hs & _). destruct s as [|c s]; [done|]. cbn [app] in *.
    unfold expand_step. rewrite Hn. apply Forall_cons in Hs as [Hcd _]. by rewrite (proj2 (Z.eqb_neq _ _) Hcd).
  - change (render (Var n :: l)) with (DOLLAR :: n ++ render l). unfold expand_step.
    rewrite (next_var n l Hok), Z.eqb_refl. destruct n as [|c n]; [by rewrite decide_True|by rewrite decide_False].
Qed.
Lemma items_tail i l : items_ok (i :: l) → items_ok l.
Proof using Type. destruct i; cbn; tauto. Qed.
Lemma expansion_cons i l : expansion (i :: l) = item_value i ++ expansion l.
Proof using Type. done. Qed.

Lemma expand_loop cap l : ∀ fuel full,
  0 ≤ cap → items_ok l → (length l < fuel)%nat →
  loop fuel (expand_step environ (Some cap)) (render l, DVec 0 (take (Z.to_nat cap) full)) =
    Ret (Some (DVec 0 (take (Z.to_nat cap) (full ++ expansion l)))).
Proof using FfStrLaws0.
  induction l as [|i l IH]; intros fuel full Hc Hok Hf; (destruct fuel as [|fuel]; [cbn in Hf; lia|]); cbn [loop].
  - unfold expansion. cbn. by rewrite app_nil_r.
  - destruct (expand_turn (Some cap) i l (DVec 0 (take (Z.to_nat cap) full)) Hok) as (add & Hadd & ->).
    rewrite expansion_cons, app_assoc. apply items_tail in Hok.
    case_decide as Hi; [subst i; cbn [bind item_value]; rewrite app_nil_r|rewrite Hadd; cbn [bind v_ptr v_data];
      rewrite (add2_cap cap _ _ full) by done]; (apply IH; [done..|cbn in Hf; lia]).
Qed.

(** Without a buffer: the whole expansion in one new block, or out of memory, with what was allocated so far. *)
Context {LV : UVecLaws}.
Definition expanded (M : gset Z) (full : list Z) (r : option dvec) (s' : ustate) : Prop :=
  match r with
  | Some v => v_data v = full ∧ holds M (v_ptr v) (us_mem s')
  | None => ∃ p, holds M p (us_mem s')
  end.

Lemma expand_alloc_loop M l : ∀ fuel out s,
  items_ok l → (length l < fuel)%nat → holds M (v_ptr out) (us_mem s) →
  wp ustep (loop fuel (expand_step environ None) (render l, out))
    (λ r s', but_mem s s' ∧ expanded M (v_data out ++ expansion l) r s') never s.
Proof using FfStrLaws0 LV.
  induction l as [|i l IH]; intros fuel out s Hok Hf HM; (destruct fuel as [|fuel]; [cbn in Hf; lia|]); cbn [loop].
  - unfold expansion. cbn. by rewrite app_nil_r.
  - destruct (expand_turn None i l out Hok) as (add & Hadd & ->). rewrite expansion_cons, app_assoc.
    assert (length l < fuel)%nat by (cbn in Hf; lia). apply items_tail in Hok.
    case_decide as Hi; [subst i; cbn [bind item_value]; rewrite app_nil_r; by apply IH|].
    rewrite Hadd. do 2 apply wp_bind. eapply wp_mono; [apply (vec_grow_wp ustep us_mem but_mem M), HM| |done].
    intros [[p d] ok] s1 (H1 & HM1 & Hd & _). cbn in HM1, Hd. subst d.
    destruct ok; cbn [negb wp]; [|split; [done|by exists p]].
    eapply wp_mono; [by apply IH| |done]. intros r s2 [H2 Hr]. split; [by eapply but_mem_trans|exact Hr].
Qed.

(** C19: expansion: for every template, the output is the text with each "$NAME" replaced by its value (nothing
    when it is not set; a lone "$" disappears).  In the caller's buffer it is cut at the capacity, and the
    terminating NUL is written only when a byte is left, so a result that fills the buffer is not
    terminated; no call is made.  Without a buffer it is whole and terminated, in a block that is the only
    new one, or NULL is returned; then what had been allocated for the output is still allocated. *)
Theorem expand_ok l fuel :
  items_ok l → (length l < fuel)%nat →
  (∀ cap, 0 ≤ cap → ffenv_expand environ fuel (Some cap) (render l) =
     Ret (Some (DVec 0 (take (Z.to_nat cap) (expansion l ++ [0]))))) ∧
  (∀ s, wp ustep (ffenv_expand environ fuel None (render l)) (λ r s', but_mem s s' ∧
     match r with
     | Some v => v_data v = expansion l ++ [0] ∧ 0 < v_ptr v ∧ (v_ptr v ∉ us_mem s) ∧ us_mem s' = {[v_ptr v]} ∪ us_mem s
     | None => ∃ p, holds (us_mem s) p (us_mem s')
     end) never s).
Proof using FfStrLaws0 LV.
  intros Hok Hf. split.
  - intros cap Hc. unfold ffenv_expand. assert (E := expand_loop cap l fuel [] Hc Hok Hf). rewrite take_nil in E.
    unfold vec_null. rewrite E. cbn [bind app v_ptr v_data]. by rewrite (add2_cap cap _ [0] (expansion l)).
  - intros s. unfold ffenv_expand. apply wp_bind.
    eapply wp_mono; [apply (expand_alloc_loop (us_mem s)); [done|done|apply holds_none]| |done].
    intros [out|] s1 [H1 Hr]; cbn in Hr; [|by cbn]. destruct Hr as [Ed HM].
    apply wp_bind. eapply wp_mono; [apply (vec_grow_wp ustep us_mem but_mem (us_mem s)), HM| |done].
    intros [[p d] ok] s2 (H2 & HM2 & Hd & Hp). cbn in HM2, Hd, Hp. subst d. assert (but_mem s s2) by by eapply but_mem_trans.
    destruct ok; cbn; (split; [done|]); [|by exists p]. destruct (holds_some _ _ _ HM2) as [E Hni]; [by apply Hp|].
    rewrite Ed. split_and!; auto.
Qed.
End expand.

Definition demo_env : list (list Z) := [bytes_of "HOMES=x"; bytes_of "HOME=/root"].
Lemma expand_ok_witness :
  let l := [Text (bytes_of "a:"); Var (bytes_of "HOME"); Text (bytes_of "/b")] in
  ffenv_expand demo_env 4 (Some 9) (render l) = Ret (Some (DVec 0 (take 9 (expansion demo_env l ++ [0])))) ∧
  take 9 (expansion demo_env l ++ [0]) = bytes_of "a:/root/b".
Proof.
  split; [|by vm_compute].
  apply (expand_ok demo_env [Text (bytes_of "a:"); Var (bytes_of "HOME"); Text (bytes_of "/b")] 4); [|cbn; lia|lia].
  repeat split; try done; repeat constructor; vm_compute; congruence.
Defined.
