(* ===== verification/EnvironWin.v ===== *)
(** * FFOS/environ.h on Windows: changes of the environment, the locale, expansion *)
From S2P Require Import Prelude Prog Ffbase Unix Win StringW Environ.

Definition ffenv_update : prog winE Z := let! r := SendMessageTimeout (bytes_of "Environment") 5000 in Ret (b2z (r =? 0)).
Definition ffenv_init_win : Z := 0.

Definition LOCALE_NAME_MAX_LENGTH := 85.
Definition LOCALE_RETURN_NUMBER := 536870912.
Definition MINUS := 45.
Definition UNDERSCORE := 95.

(** [ffmem_ncopy]: what fits. *)
Definition ncopy (cap : Z) (s : list Z) : list Z := take (Z.to_nat cap) s.

Section locale.
Context `{FfUni, FfStr}.

(** "language[_REGION]" from the parts. *)
Definition locale_text (buf_cap : option Z) (lang region : list Z) : Z * list Z :=
  match buf_cap with
  | Some cap =>
      let d := ncopy cap lang in
      let n := Z.of_nat (length d) in
      if (n <? cap) && negb (Z.of_nat (length region) =? 0) then
        let d := d ++ [UNDERSCORE] ++ ncopy (cap - (n + 1)) region in (Z.of_nat (length d), d)
      else (n, d)
  | None =>
      (Z.of_nat (length lang) + (if negb (Z.of_nat (length region) =? 0) then 1 + Z.of_nat (length region) else 0), [])
  end.

(** [buf_cap]: [None]: no buffer.  The number of bytes and what is written. *)
Definition ffenv_locale_win (buf_cap : option Z) (flags : Z) : prog winE (Z * list Z) :=
  if flags =? FFENV_LANGUAGE then
    let! '(n, ws) := GetUserDefaultLocaleName LOCALE_NAME_MAX_LENGTH in
    let n := if negb (n =? 0) then n - 1 else n in
    let '(r, sb) := ffs_wtou LOCALE_NAME_MAX_LENGTH (take (Z.to_nat n) ws) in
    let n := u32 r in
    if LOCALE_NAME_MAX_LENGTH <? n then Halt OutOfBounds else
    let '(_, lang, s) := ffstr_splitby (take (Z.to_nat n) sb) MINUS in
    let '(_, _, s) := ffstr_splitby s MINUS in
    let '(_, region, _) := ffstr_splitby s MINUS in
    Ret (locale_text buf_cap lang region)
  else
    let! '(_, val) := GetLocaleInfoW (Z.lor flags LOCALE_RETURN_NUMBER) 4 in
    Ret (Z.land (default 0 (val !! O)) 255, []).
End locale.

(** ** Properties *)

(** *** The locale *)

(** A system whose locale has this name: its units and their number with the NUL. *)
Definition locale_env (name : wstr) : env winE unit := λ _ X e,
  match e in winE X return X → unit → Prop with
  | GetUserDefaultLocaleName cap => λ '(n, ws) _, n = Z.of_nat (length name) + 1 ∧ ws = name
  | _ => λ _ _, True
  end.

(** A part of a name: letters only. *)
Definition part_ok (p : list Z) : Prop := Forall (λ c, c ≠ MINUS) p.

Section locale_laws.
Context `{U : FfUni, !FfWtouLaws U, F : FfStr, !FfStrLaws F}.

Lemma split_part p r : part_ok p →
  ffstr_splitby (p ++ MINUS :: r) MINUS = (Z.of_nat (length p), p, r) ∧ ffstr_splitby p MINUS = (-1, p, []).
Proof using All.
  intros Hp. rewrite !splitby_eq.
  assert (Forall (λ c, (MINUS =? c) = false) p) as Hf.
  { eapply Forall_impl; [exact Hp|]. intros c Hc. apply (proj2 (Z.eqb_neq MINUS c)). congruence. }
  rewrite find_first_app by done. cbn [find_first]. rewrite Z.eqb_refl. cbn [fmap option_fmap option_map split_at].
  rewrite Nat.add_0_r. split.
  - rewrite take_app_length, drop_app_ge by lia. by replace (S (length p) - length p)%nat with 1%nat by lia.
  - assert (find_first (Z.eqb MINUS) p = None) as ->; [|done].
    destruct (find_first_spec (Z.eqb MINUS) p) as [[E _]|(i & c & E & Hi & Hc & _)]; destruct (find_first _ p); cbn in E; try done; try lia.
    rewrite Forall_lookup in Hf. rewrite (Hf i c Hi) in Hc. done.
Qed.

(** The locale as it is asked for. *)
Definition locale_full (lang region : list Z) : list Z := lang ++ if bool_decide (region = []) then [] else UNDERSCORE :: region.
Definition locale_result (buf_cap : option Z) (t : list Z) : Z * list Z :=
  match buf_cap with
  | Some cap => (Z.of_nat (length (take (Z.to_nat cap) t)), take (Z.to_nat cap) t)
  | None => (Z.of_nat (length t), [])
  end.

Lemma locale_text_eq buf_cap lang region : (∀ c, buf_cap = Some c → 0 ≤ c) →
  locale_text buf_cap lang region = locale_result buf_cap (locale_full lang region).
Proof using Type.
  intros Hc. unfold locale_text, locale_result, locale_full, ncopy.
  assert ((Z.of_nat (length region) =? 0) = bool_decide (region = [])) as ->.
  { destruct region; [done|]. cbn [length]. rewrite bool_decide_eq_false_2 by done. apply Z.eqb_neq. lia. }
  destruct buf_cap as [cap|].
  - specialize (Hc cap eq_refl). destruct (bool_decide (region = [])); cbn [negb].
    { by rewrite andb_false_r, app_nil_r. }
    rewrite andb_true_r, length_take. destruct (Z.ltb_spec (Z.of_nat (Z.to_nat cap `min` length lang)) cap) as [Hlt|Hge].
    + rewrite (take_ge lang) by lia. rewrite take_app_ge by lia.
      destruct (Z.to_nat cap - length lang)%nat as [|k] eqn:Ek; [lia|]. cbn [firstn].
      replace (Z.to_nat (cap - (Z.of_nat (Z.to_nat cap `min` length lang) + 1))) with k by lia. done.
    + by rewrite take_app_le, length_take by lia.
  - destruct (bool_decide _); cbn [negb]; rewrite length_app; cbn [length]; f_equal; lia.
Qed.

(** The first and the third part of a name. *)
Definition locale_parts (t : list Z) : list Z * list Z :=
  let '(_, lang, s) := ffstr_splitby t MINUS in
  let '(_, _, s) := ffstr_splitby s MINUS in
  let '(_, region, _) := ffstr_splitby s MINUS in (lang, region).

Lemma locale_wp buf_cap name (Q : Z * list Z → unit → Prop) :
  0 ≤ wtou_size name ≤ LOCALE_NAME_MAX_LENGTH →
  Q (let '(lang, region) := locale_parts (utf8 name) in locale_text buf_cap lang region) tt →
  wp (locale_env name) (ffenv_locale_win buf_cap FFENV_LANGUAGE) Q never tt.
Proof using All.
  intros Hs HQ. unfold ffenv_locale_win. rewrite Z.eqb_refl.
  cbn -[LOCALE_NAME_MAX_LENGTH u32 take locale_text]. intros [n ws] [] [-> ->].
  rewrite (proj2 (Z.eqb_neq _ 0)) by lia. cbn [negb]. replace (Z.of_nat (length name) + 1 - 1) with (Z.of_nat (length name)) by lia.
  rewrite Nat2Z.id, (take_ge name) by done. rewrite wtou_fits by done.
  unfold LOCALE_NAME_MAX_LENGTH in *. rewrite u32_small by (unfold is_u32; lia). rewrite (proj2 (Z.ltb_ge _ _)) by lia.
  rewrite take_ge by (pose proof (wtou_length name); lia). unfold locale_parts in HQ.
  destruct (ffstr_splitby (utf8 name) MINUS) as [[? lang] s1]. destruct (ffstr_splitby s1 MINUS) as [[? ?] s2].
  by destruct (ffstr_splitby s2 MINUS) as [[? region] ?].
Qed.

(** the locale on Windows for a name "language-Script-REGION", with a buffer of any size and
    without: "language_REGION", cut off at the capacity; the number of bytes is what is written, or, without a
    buffer, what is needed. *)
Theorem locale_win_ok buf_cap name lang script region :
  0 ≤ wtou_size name ≤ LOCALE_NAME_MAX_LENGTH → utf8 name = lang ++ MINUS :: script ++ MINUS :: region →
  part_ok lang → part_ok script → part_ok region → (∀ c, buf_cap = Some c → 0 ≤ c) →
  wp (locale_env name) (ffenv_locale_win buf_cap FFENV_LANGUAGE)
    (λ r _, r = locale_result buf_cap (locale_full lang region)) never tt.
Proof using All.
  intros Hs Hu Hl Hsc Hr Hc. apply locale_wp; [done|]. unfold locale_parts. rewrite Hu.
  rewrite (proj1 (split_part lang _ Hl)), (proj1 (split_part script _ Hsc)), (proj2 (split_part region [] Hr)).
  by apply locale_text_eq.
Qed.

(** A name of two parts, as most locales have, loses its region. *)
Lemma locale_two_parts cap name lang region :
  0 ≤ wtou_size name ≤ LOCALE_NAME_MAX_LENGTH → utf8 name = lang ++ MINUS :: region →
  part_ok lang → part_ok region → 0 ≤ cap →
  wp (locale_env name) (ffenv_locale_win (Some cap) FFENV_LANGUAGE) (λ r _, r.2 = take (Z.to_nat cap) lang) never tt.
Proof using All.
  intros Hs Hu Hl Hr Hc. apply locale_wp; [done|]. unfold locale_parts. rewrite Hu.
  rewrite (proj1 (split_part lang _ Hl)), (proj2 (split_part region [] Hr)), (proj2 (split_part [] [] ltac:(constructor))).
  rewrite locale_text_eq by (by intros c [= <-]). unfold locale_result, locale_full.
  by rewrite bool_decide_eq_true_2, app_nil_r.
Qed.
End locale_laws.

Lemma locale_win_ok_witness :
  wp (locale_env (bytes_of "uz-Latn-UZ")) (@ffenv_locale_win RefUni RefStr (Some 4) FFENV_LANGUAGE)
    (λ r _, r = (4, bytes_of "uz_U")) never tt.
Proof.
  eapply wp_mono; [apply (@locale_win_ok RefUni RefWtouLaws RefStr RefStrLaws (Some 4) (bytes_of "uz-Latn-UZ") (bytes_of "uz") (bytes_of "Latn") (bytes_of "UZ"))| |done].
  - vm_compute. split; congruence.
  - vm_compute. reflexivity.
  - repeat constructor; vm_compute; congruence.
  - repeat constructor; vm_compute; congruence.
  - repeat constructor; vm_compute; congruence.
  - intros c [= <-]. lia.
  - intros r [] ->. reflexivity.
Defined.

(** *** Expansion *)

(** A system where the strings expand to this text, the NUL included. *)
Definition expand_env (text : wstr) : env winE wstate := λ s X e x s', wstep s X e x s' ∧
  match e in winE X return X → Prop with ExpandEnvironmentStringsW _ => λ x, x = text | _ => λ _, True end x.

(** The expansion on Windows: the result is all that stays allocated, in a new block without a buffer; it is the
    whole text with its NUL, unless the caller's buffer is too small, which is not reported. *)
Lemma expand_win_ok `{U : FfUni, !FfWtouLaws U} text cap src s :
  0 ≤ wtou_size text → Z.of_nat (length text) < 2 ^ 60 → (0 ∉ ws_mem s) →
  wp (expand_env text) (ffenv_expand_win cap src) (λ r s', ws_handles s' = ws_handles s ∧
    match r with
    | None => ws_mem s' = ws_mem s
    | Some (p, d) =>
        match cap with
        | None => 0 < p ∧ (p ∉ ws_mem s) ∧ ws_mem s' = {[p]} ∪ ws_mem s ∧ d = utf8 text
        | Some cap => p = 0 ∧ ws_mem s' = ws_mem s ∧ (wtou_size text ≤ cap → d = utf8 text)
        end
    end) never s.
Proof.
  intros Ht Hl H0. unfold ffenv_expand_win. apply wp_bind.
  eapply wp_mono; [eapply wp_env; [|apply alloc_buf_utow_owns]| |done]; [by intros ????? []|].
  intros [w|] s1 Ho; [|by destruct Ho as (? & ? & ?)].
  assert (∀ d (P : gset Z) (r : option (Z * list Z)) t, ws_handles t = ws_handles s1 → ws_mem t = P ∪ ws_mem s1 →
    (w_ptr w ∉ P) → wp (expand_env text) (wbuf_free w (do! w_free d in Ret r))
      (λ r' s', r' = r ∧ ws_handles s' = ws_handles s ∧ ws_mem s' = ((P ∪ ws_mem s) ∖ {[d]})) never t) as HF.
  { destruct Ho as (E1 & _ & Hm). intros d P r t F1 F2 Hw. unfold wbuf_free.
    destruct Hm as [[-> Hm]|(Hp & Hni & Hm)]; [|rewrite (proj2 (Z.eqb_neq _ 0)) by lia; cbn; intros [] t' [(G1 & _ & _ & G2) _]];
      cbn; intros [] t2 [(K1 & _ & _ & K2) _].
    - rewrite Hm in F2. split_and!; congruence.
    - split_and!; [done|congruence|]. rewrite K2, G2, F2, Hm. clear -Hw Hni. set_solver. }
  assert (∀ q, 0 < q → (q ∉ ws_mem s1) → w_ptr w ≠ q) as Hw.
  { intros q Hq Hni Eq. destruct Ho as (_ & _ & [[? _]|(_ & _ & E)]); [lia|]. rewrite E in Hni. set_solver. }
  assert (∀ q, (q ∉ ws_mem s1) → (q ∉ ws_mem s)) as Hsub.
  { intros q Hni. destruct Ho as (_ & _ & [[_ E]|(_ & _ & E)]); rewrite E in Hni; set_solver. }
  cbn -[u64 Z.mul take]. intros ? s2 [(A1 & _ & A2) ->] wdst s3 [(B1 & _ & B2) _].
  destruct B2 as [[-> B2]|(Hp & Hni & B2)].
  { cbn. eapply wp_mono; [apply (HF 0 ∅); [congruence|rewrite B2, A2; set_solver|set_solver]| |done].
    intros r t (-> & ? & ->). split; [done|]. clear -H0. set_solver. }
  rewrite (proj2 (Z.eqb_neq wdst 0)) by lia. rewrite A2 in Hni, B2. cbn -[u64 Z.mul take].
  intros ? s4 [(C1 & _ & C2) ->]. rewrite Nat2Z.id, (take_ge text) by done. apply wp_bind. destruct cap as [cap|]; cbn -[u64].
  - eapply wp_mono; [apply (HF wdst {[wdst]}); [congruence|by rewrite C2, B2|pose proof (Hw wdst); set_solver]| |done].
    intros r t (-> & ? & ->). split; [done|]. split_and!; [done|pose proof (Hsub wdst Hni); set_solver|].
    intros Hc. by rewrite wtou_fits.
  - fold (wtou_size text). pose proof (wtou_bound text). rewrite wtou_fits by lia. intros p s5 [(D1 & _ & D2) _].
    destruct D2 as [[-> D2]|(Hpp & Hpi & D2)].
    + cbn. eapply wp_mono; [apply (HF wdst {[wdst]}); [congruence|by rewrite D2, C2, B2|pose proof (Hw wdst); set_solver]| |done].
      intros r t (-> & ? & ->). split; [done|]. pose proof (Hsub wdst Hni). set_solver.
    + rewrite (proj2 (Z.eqb_neq p 0)) by lia. rewrite C2, B2 in Hpi. cbn.
      eapply wp_mono; [apply (HF wdst ({[p]} ∪ {[wdst]})); [congruence|rewrite D2, C2, B2; clear; set_solver|]| |done].
      { pose proof (Hw wdst). pose proof (Hw p). set_solver. }
      intros r t (-> & ? & ->). split; [done|]. pose proof (Hsub wdst Hni). pose proof (Hsub p). cbn.
      split_and!; [done|set_solver| |done]. clear -Hpi H2. set_solver.
Qed.
