(* ===== verification/NetConf.v ===== *)
(** * FFOS/netconf.h: DNS server addresses from /etc/resolv.conf (UNIX) *)
From S2P Require Import Prelude Prog Bytes Ffbase Vec Unix FileUnix.

Definition FFNETCONF_DNS_ADDR := 1.
Definition resolv_conf : cstr := bytes_of "/etc/resolv.conf".
Definition nameserver : list Z := bytes_of "nameserver".
Definition SPACE := 32.
Definition TAB := 9.
Definition CR := 13.
Definition LF := 10.

(** [dns_addrs]: the block and what it holds: the pointers at its beginning, the strings behind them. *)
Record ffnetconf := NetConf { nc_block : Z; nc_mem : list Z; nc_num : Z }.

(** ffmem_alloc(): the block has the size that was asked for. *)
Definition new_block (size : Z) : prog unixE (Z * list Z) :=
  let! p := ffmem_alloc size in Ret (p, if p =? 0 then [] else replicate (Z.to_nat size) 0).

(** "ptr1 ptr2 ... data1 data2 ...": the loop over the strings, which stores into the block [block] with the
    content [mem]; [ptr] and [data] are offsets in it.  [None]: a byte would be stored outside of the block. *)
Fixpoint dns_fill (servers : list (list Z)) (block : Z) (mem : list Z) (ptr data : Z) : option (list Z) :=
  match servers with
  | [] => Some mem
  | el :: servers =>
      mem ← mem_write mem (Z.to_nat data) el;
      mem ← mem_write mem (Z.to_nat ptr) (le 8 (block + data));
      let data := data + Z.of_nat (length el) in
      mem ← mem_write mem (Z.to_nat data) [0];
      dns_fill servers block mem (ptr + 8) (data + 1)
  end.

Section netconf.
Context `{FfStr, !VecLib unixE}.

(** The address on a line, if it is a "nameserver" line. *)
Definition dns_line (line : list Z) : option (list Z) :=
  let line := ffstr_skipany line [SPACE; TAB; CR] in
  let '(_, word, line) := ffstr_splitbyany line [SPACE; TAB] in
  if ffstr_eqz word nameserver then
    let '(_, word, _) := ffstr_splitbyany line [SPACE; TAB] in Some word
  else None.

(** The loop over the lines: the rest of the input, the words so far, and the size of their text with a NUL each
    ([cap]); whether there was room for all. *)
Definition sizeof_ffstr := 16.
Definition dns_step (st : list Z * vec (list Z) * Z)
    : prog unixE ((list Z * vec (list Z) * Z) + bool * vec (list Z) * Z) :=
  let '(inp, servers, cap) := st in
  match inp with
  | [] => Ret (inr (true, servers, cap))
  | _ =>
      let '(_, line, inp) := ffstr_splitby inp LF in
      match dns_line line with
      | None => Ret (inl (inp, servers, cap))
      | Some word =>
          let* '(servers, ok) := vec_grow servers (sizeof_ffstr * Z.of_nat (length (v_data servers))) sizeof_ffstr in
          Ret (if negb ok then inr (false, servers, cap)
               else inl (inp, DVec (v_ptr servers) (v_data servers ++ [word]), u64 (cap + Z.of_nat (length word) + 1)))
      end
  end.

(** [goto end]: the descriptor, the vector and the file's data are released on every path. *)
Definition _ffnetconf_dns (fuel : nat) (nc : ffnetconf) : prog unixE (Z * ffnetconf) :=
  let cap := 4 * 1024 in
  let* '(fdata, fmem) := new_block cap in
  let* '(rc, nc, fd, servers) :=
    if fdata =? 0 then Ret (-1, nc, -1, vec_null) else
    let! fd := u_open resolv_conf O_RDONLY 0 in
    if fd =? -1 then Ret (-1, nc, fd, vec_null) else
    let! '(n, d) := u_read fd cap in
    match mem_write fmem 0 d with
    | None => Halt OutOfBounds
    | Some fmem =>
        if n <=? 0 then Ret (-1, nc, fd, vec_null) else
        let* '(ok, servers, cap) := loop fuel dns_step (take (Z.to_nat n) fmem, vec_null, 0) in
        if negb ok then Ret (-1, nc, fd, servers) else
        let els := v_data servers in
        let n := Z.of_nat (length els) in
        let* '(p, mem) := new_block (u64 (cap + n * 8)) in
        if p =? 0 then Ret (-1, NetConf 0 [] (nc_num nc), fd, servers) else
        match dns_fill els p mem 0 (n * 8) with
        | None => Halt OutOfBounds
        | Some mem => Ret (0, NetConf p mem (u32 n), fd, servers)
        end
    end in
  do! u_close fd in
  do* vec_free ffmem_free servers in
  do* if fdata =? 0 then Ret tt else call (ffmem_free fdata) in
  Ret (rc, nc).

Definition ffnetconf_get (fuel : nat) (nc : ffnetconf) (flags : Z) : prog unixE (Z * ffnetconf) :=
  if flags =? FFNETCONF_DNS_ADDR then _ffnetconf_dns fuel nc else Ret (-1, nc).

Definition ffnetconf_destroy (nc : ffnetconf) : prog unixE ffnetconf :=
  do! ffmem_free (nc_block nc) in Ret (NetConf 0 (nc_mem nc) (nc_num nc)).
End netconf.

(** ** Properties *)

Section properties.
Context `{F : FfStr, !FfStrLaws F, V : !VecLib unixE, LV : !UVecLaws}.

Definition is_sep (c : Z) : bool := mem_ch [SPACE; TAB] c.

(** *** The lines of the file *)

(** The lines of a text: each ends with a line feed, or at the end of the text. *)
Fixpoint lines (s : list Z) : list (list Z) :=
  match s with
  | [] => []
  | c :: s => if LF =? c then [] :: lines s else match lines s with [] => [[c]] | l :: ls => (c :: l) :: ls end
  end.

(** A line that names a server: blanks (or carriage returns), the keyword, one blank, the address up to the next
    blank; or the keyword alone, with an empty address. *)
Inductive server_line : list Z → list Z → Prop :=
  | server_addr pre sep addr post : Forall (λ c, mem_ch [SPACE; TAB; CR] c = true) pre → is_sep sep = true →
      Forall (λ c, is_sep c = false) addr → match post with c :: _ => is_sep c = true | [] => True end →
      server_line (pre ++ nameserver ++ sep :: addr ++ post) addr
  | server_bare pre : Forall (λ c, mem_ch [SPACE; TAB; CR] c = true) pre → server_line (pre ++ nameserver) [].

(** The addresses of the lines that name a server, in order. *)
Inductive servers_of : list (list Z) → list (list Z) → Prop :=
  | servers_none : servers_of [] []
  | servers_add line ls addr l : server_line line addr → servers_of ls l → servers_of (line :: ls) (addr :: l)
  | servers_skip line ls l : (∀ addr, ¬ server_line line addr) → servers_of ls l → servers_of (line :: ls) l.

Lemma split_word w r : Forall (λ c, is_sep c = false) w →
  match r with c :: _ => is_sep c = true | [] => True end →
  (ffstr_splitbyany (w ++ r) [SPACE; TAB]).1.2 = w ∧ (ffstr_splitbyany (w ++ r) [SPACE; TAB]).2 = tail r.
Proof.
  intros Hw Hr. rewrite splitbyany_eq. change (mem_ch [SPACE; TAB]) with is_sep.
  assert (Hf : find_first is_sep (w ++ r) = match r with [] => None | _ => Some (length w) end).
  { induction Hw as [|c w Hc Hw IH]; cbn [find_first app length]; [destruct r; cbn [find_first]; [done|by rewrite Hr]|].
    rewrite Hc, IH. by destruct r. }
  rewrite Hf. destruct r as [|c r]; cbn [split_at fst snd tail].
  - by rewrite app_nil_r.
  - rewrite take_app_length. split; [done|].
    rewrite (drop_app_ge w) by lia. by replace (S (length w) - length w)%nat with 1%nat by lia.
Qed.

Lemma split_word_inv s o w r : ffstr_splitbyany s [SPACE; TAB] = (o, w, r) →
  Forall (λ c, is_sep c = false) w ∧ ((s = w ∧ r = []) ∨ ∃ c, is_sep c = true ∧ s = w ++ c :: r).
Proof.
  rewrite splitbyany_eq. change (mem_ch [SPACE; TAB]) with is_sep. revert o w r.
  induction s as [|c s IH]; intros o w r; cbn [find_first split_at].
  - intros [= <- <- <-]. by split; [|left].
  - destruct (is_sep c) eqn:Ec; cbn [split_at take drop].
    + intros [= <- <- <-]. split; [done|]. right. by exists c.
    + destruct (find_first is_sep s) as [n|]; cbn [fmap option_fmap option_map split_at take drop] in *; intros [= <- <- <-].
      * destruct (IH _ _ _ eq_refl) as [Hw [[Hs Hr]|(d & Hd & Hs)]]; (split; [by constructor|]).
        -- left. split; [by f_equal|exact Hr].
        -- right. exists d. split; [done|]. cbn. by f_equal.
      * destruct (IH _ _ _ eq_refl) as [Hw _]. split; [by constructor|by left].
Qed.

Lemma skip_prefix pre s : Forall (λ c, mem_ch [SPACE; TAB; CR] c = true) pre →
  (∀ c, head s = Some c → mem_ch [SPACE; TAB; CR] c = false) →
  ffstr_skipany (pre ++ s) [SPACE; TAB; CR] = s.
Proof.
  intros Hp Hs. destruct (skipany_law (pre ++ s) [SPACE; TAB; CR]) as (l & E & Hl & Hh).
  by eapply strip_unique.
Qed.

(** The code's reading of a line, by its two splits. *)
Lemma dns_line_keyword pre s : Forall (λ c, mem_ch [SPACE; TAB; CR] c = true) pre →
  match s with c :: _ => is_sep c = true | [] => True end →
  dns_line (pre ++ nameserver ++ s) = Some (ffstr_splitbyany (tail s) [SPACE; TAB]).1.2.
Proof.
  intros Hp Hs. assert (Hns : Forall (λ c, is_sep c = false) nameserver) by (repeat constructor).
  unfold dns_line. rewrite skip_prefix; [|done|by intros c [= <-]].
  destruct (split_word nameserver s Hns Hs) as [E1 E2].
  destruct (ffstr_splitbyany (nameserver ++ s) [SPACE; TAB]) as [[n w] r]. cbn [fst snd] in *.
  subst w r. rewrite eqz_decide, bool_decide_true by done.
  by destruct (ffstr_splitbyany (tail s) [SPACE; TAB]) as [[? ?] ?].
Qed.

Lemma dns_line_complete line addr : server_line line addr → dns_line line = Some addr.
Proof.
  intros [pre sep a post Hp Hs Ha Hpost|pre Hp].
  - rewrite (dns_line_keyword pre (sep :: a ++ post)) by done. cbn [tail]. f_equal. by apply (split_word a post).
  - rewrite <- (app_nil_r nameserver), dns_line_keyword by done. cbn [tail]. f_equal. by apply (split_word [] []).
Qed.

Lemma dns_line_sound line addr : dns_line line = Some addr → server_line line addr.
Proof.
  unfold dns_line. destruct (skipany_law line [SPACE; TAB; CR]) as (pre & E & Hp & _).
  set (s := ffstr_skipany line _) in *. clearbody s. subst line.
  destruct (ffstr_splitbyany s [SPACE; TAB]) as [[o w] r] eqn:E1. apply split_word_inv in E1 as [_ Hs].
  rewrite eqz_decide. destruct (bool_decide (w = nameserver)) eqn:Ew; [|done]. apply bool_decide_eq_true in Ew as ->.
  destruct (ffstr_splitbyany r [SPACE; TAB]) as [[o2 w2] r2] eqn:E2. apply split_word_inv in E2 as [Hw Hr].
  intros [= ->]. destruct Hs as [[-> ->]|(c & Hc & ->)].
  - assert (addr = []) as -> by (destruct Hr as [[<- _]|(d & _ & Hr)]; [done|by destruct addr]). by constructor.
  - destruct Hr as [[-> _]|(d & Hd & ->)].
    + rewrite <- (app_nil_r addr) at 1. by constructor.
    + by constructor.
Qed.

Lemma dns_line_none line addr : dns_line line = None → ¬ server_line line addr.
Proof. intros H ?%dns_line_complete. congruence. Qed.

Lemma server_line_length line addr : server_line line addr → (length addr + 1 ≤ length line)%nat.
Proof.
  assert (length nameserver = 10%nat) as E by done.
  intros []; rewrite !length_app, E; cbn [length]; rewrite ?length_app; lia.
Qed.

(** a line of the configuration file: after leading blanks, the keyword "nameserver" and one
    blank, the address is the text up to the next blank.  With a second blank after the keyword
    (which resolv.conf allows) the address is empty: the separator is skipped only once. *)
Theorem nameserver_line pre sep addr post :
  Forall (λ c, mem_ch [SPACE; TAB; CR] c = true) pre → is_sep sep = true →
  Forall (λ c, is_sep c = false) addr → match post with c :: _ => is_sep c = true | [] => True end →
  dns_line (pre ++ nameserver ++ [sep] ++ addr ++ post) = Some addr ∧
  dns_line (pre ++ nameserver ++ [sep; SPACE] ++ addr ++ post) = Some [].
Proof.
  intros Hp Hs Ha Hpost. split; apply dns_line_complete.
  - by apply (server_addr pre sep addr post).
  - apply (server_addr pre sep [] (SPACE :: addr ++ post)); done.
Qed.

Lemma lines_split c s : let '(_, line, rest) := split_at (c :: s) (find_first (Z.eqb LF) (c :: s)) in
  lines (c :: s) = line :: lines rest ∧ (length line + length rest ≤ length (c :: s))%nat ∧ (length rest < length (c :: s))%nat.
Proof.
  revert c. induction s as [|d s IH]; intros c.
  - cbn [find_first lines]. destruct (LF =? c); cbn; split; (done || lia).
  - specialize (IH d). change (lines (c :: d :: s)) with
      (if LF =? c then [] :: lines (d :: s) else match lines (d :: s) with [] => [[c]] | l :: ls => (c :: l) :: ls end).
    cbn [find_first] in *. destruct (LF =? c); [cbn [split_at take drop]; split; [done|cbn; lia]|].
    destruct (LF =? d); cbn [fmap option_fmap option_map split_at] in *.
    + destruct IH as [-> IH]. cbn in *. split; [done|lia].
    + destruct (find_first (Z.eqb LF) s); cbn [split_at fmap option_fmap option_map] in *;
        destruct IH as [-> IH]; cbn in *; (split; [done|lia]).
Qed.

(** *** The block *)

(** What the block holds: the pointers, and the strings with their NULs. *)
Definition dns_data (servers : list (list Z)) : list Z := concat (map (λ el, el ++ [0]) servers).
Fixpoint dns_ptrs (data : Z) (servers : list (list Z)) : list Z :=
  match servers with
  | [] => []
  | el :: servers => data :: dns_ptrs (data + Z.of_nat (length el) + 1) servers
  end.

(** The loop ends and finds the addresses of all lines and their size, unless memory is short: each turn consumes a
    byte or more, and at least as many as it adds to the size. *)
Lemma lines_terminate M fuel inp v cap s : (length inp < fuel)%nat → holds M (v_ptr v) (us_mem s) →
  cap = Z.of_nat (length (dns_data (v_data v))) → cap + Z.of_nat (length inp) < 2 ^ 64 →
  wp ustep (loop fuel dns_step (inp, v, cap)) (λ '(ok, v', cap') s', but_mem s s' ∧ holds M (v_ptr v') (us_mem s') ∧
    (ok = true → ∃ l, servers_of (lines inp) l ∧ v_data v' = v_data v ++ l ∧
       cap' = Z.of_nat (length (dns_data (v_data v'))) ∧ cap' ≤ cap + Z.of_nat (length inp))) never s.
Proof.
  revert inp v cap s. induction fuel as [|fuel IH]; intros inp v cap s Hf HM Hc Hb; [lia|]. cbn [loop].
  unfold dns_step at 1. destruct inp as [|c inp].
  { cbn. split_and!; [done..|]. intros _. exists []. rewrite app_nil_r. split_and!; [constructor|done|done|lia]. }
  rewrite splitby_eq. pose proof (lines_split c inp) as HL.
  destruct (split_at (c :: inp) _) as [[p line] rest]. cbn [fst snd] in *. destruct HL as (-> & Hlen1 & Hlen).
  destruct (dns_line line) as [w|] eqn:Ew; cbn [bind].
  - apply dns_line_sound in Ew. pose proof (server_line_length _ _ Ew) as Hw.
    do 2 apply wp_bind. eapply wp_mono; [apply (vec_grow_wp ustep us_mem but_mem M), HM| |done].
    intros [[q dd] ok] s1 (H1 & HM1 & Hd & _). cbn in HM1, Hd. subst dd.
    destruct ok; cbn [negb wp]; [|by split_and!].
    assert (Hdata : dns_data (v_data v ++ [w]) = dns_data (v_data v) ++ w ++ [0])
      by (unfold dns_data; rewrite map_app, concat_app; cbn; by rewrite app_nil_r).
    assert (Hlen2 : Z.of_nat (length (dns_data (v_data v ++ [w]))) = cap + Z.of_nat (length w) + 1)
      by (rewrite Hdata, !length_app; cbn; lia).
    rewrite u64_small by (unfold is_u64; lia).
    eapply wp_mono; [apply (IH rest (DVec q (v_data v ++ [w]))); cbn [v_ptr v_data]; [lia|done|by rewrite Hlen2|lia]| |done].
    intros [[ok v'] cap'] s2 (F1 & F2 & F3). split_and!; [by eapply but_mem_trans|done|]. intros Hr.
    destruct (F3 Hr) as (l & Hl & Hv & Hc' & Hle). cbn [v_data] in Hv. exists (w :: l).
    split_and!; [by constructor|by rewrite Hv, <- app_assoc|done|lia].
  - eapply wp_mono; [apply (IH rest v); [lia|done|done|lia]| |done].
    intros [[ok v'] cap'] s2 (F1 & F2 & F3). split_and!; [done..|]. intros Hr.
    destruct (F3 Hr) as (l & Hl & Hv & Hc' & Hle). exists l.
    split_and!; [|done|done|lia]. constructor; [|done]. intros addr. by apply dns_line_none.
Qed.
End properties.

Lemma mem_write_mid a x b y : length x = length y → mem_write (a ++ x ++ b) (length a) y = Some (a ++ y ++ b).
Proof.
  intros Hl. unfold mem_write. rewrite decide_True by (rewrite !length_app; lia). f_equal.
  rewrite take_app_length, <- Hl. f_equal. f_equal. rewrite app_assoc, drop_app_length'; [done|]. by rewrite length_app.
Qed.

Lemma room (n : nat) (l : list Z) : (n ≤ length l)%nat → ∃ l1 l2, l = l1 ++ l2 ∧ length l1 = n.
Proof. intros H. exists (take n l), (drop n l). rewrite take_drop, length_take. split; [done|lia]. Qed.

(** The loop of the strings fills the block exactly: [P], [D]: the pointers and the strings so far; [J], [K]: the room for
    the others. *)
Lemma dns_fill_ok block servers : ∀ P J D K, length J = (8 * length servers)%nat → length K = length (dns_data servers) →
  dns_fill servers block (P ++ J ++ D ++ K) (Z.of_nat (length P)) (Z.of_nat (length (P ++ J ++ D))) =
  Some (P ++ concat (map (le 8) (dns_ptrs (block + Z.of_nat (length (P ++ J ++ D))) servers)) ++ D ++ dns_data servers).
Proof.
  induction servers as [|el l IH]; intros P J D K HJ HK.
  { destruct J, K; [done|done..]. }
  cbn [dns_fill]. change (dns_data (el :: l)) with ((el ++ [0]) ++ dns_data l) in *. rewrite !length_app in HK. cbn [length] in *.
  destruct (room 8 J) as (J1 & J2 & -> & HJ1); [lia|]. destruct (room (length el) K) as (K1 & K' & -> & HK1); [lia|].
  rewrite length_app in HJ, HK. destruct K' as [|k K2]; [cbn in HK; lia|]. cbn [length] in HK.
  set (off := Z.of_nat (length (P ++ (J1 ++ J2) ++ D))).
  assert (Z.to_nat off = length (P ++ (J1 ++ J2) ++ D)) as -> by apply Nat2Z.id.
  replace (P ++ (J1 ++ J2) ++ D ++ K1 ++ k :: K2) with ((P ++ (J1 ++ J2) ++ D) ++ K1 ++ k :: K2) by by rewrite <- !app_assoc.
  rewrite mem_write_mid by done. cbn [mbind option_bind].
  replace ((P ++ (J1 ++ J2) ++ D) ++ el ++ k :: K2) with (P ++ J1 ++ (J2 ++ D ++ el ++ k :: K2)) by by rewrite <- !app_assoc.
  rewrite Nat2Z.id, mem_write_mid by by rewrite length_le. cbn [mbind option_bind].
  set (p8 := le 8 (block + off)).
  assert (H8 : length p8 = 8%nat) by apply length_le.
  replace (P ++ p8 ++ J2 ++ D ++ el ++ k :: K2) with ((P ++ p8 ++ J2 ++ D ++ el) ++ [k] ++ K2) by by rewrite <- !app_assoc.
  assert (off + Z.of_nat (length el) = Z.of_nat (length (P ++ p8 ++ J2 ++ D ++ el))) as Eoff.
  { unfold off. rewrite !length_app, HJ1, H8. lia. }
  rewrite Eoff, Nat2Z.id, mem_write_mid by done. cbn [mbind option_bind].
  replace ((P ++ p8 ++ J2 ++ D ++ el) ++ [0] ++ K2) with ((P ++ p8) ++ J2 ++ (D ++ el ++ [0]) ++ K2) by by rewrite <- !app_assoc.
  replace (Z.of_nat (length P) + 8) with (Z.of_nat (length (P ++ p8))) by (rewrite length_app; lia).
  assert (Z.of_nat (length (P ++ p8 ++ J2 ++ D ++ el)) + 1 = Z.of_nat (length ((P ++ p8) ++ J2 ++ D ++ el ++ [0]))) as E1
    by (rewrite !length_app; cbn; lia).
  rewrite E1, IH by lia. rewrite <- E1, <- Eoff. cbn [dns_ptrs map concat]. fold p8.
  rewrite <- !app_assoc. do 3 f_equal. by rewrite Z.add_assoc, Z.add_assoc.
Qed.

(** Each pointer is the address of the string with its number, within the data. *)
Lemma dns_layout servers : ∀ d i el, servers !! i = Some el →
  ∃ pre post, dns_data servers = pre ++ el ++ 0 :: post ∧ dns_ptrs d servers !! i = Some (d + Z.of_nat (length pre)).
Proof.
  induction servers as [|e l IH]; intros d [|i] el; cbn; try done.
  - intros [= <-]. exists [], (dns_data l). split; [by rewrite <- app_assoc|]. f_equal. cbn. lia.
  - intros Hi. destruct (IH (d + Z.of_nat (length e) + 1) i el Hi) as (pre & post & E & E2).
    exists ((e ++ [0]) ++ pre), post. split; [unfold dns_data in *; cbn; by rewrite E, <- !app_assoc|].
    etransitivity; [exact E2|]. f_equal. rewrite !length_app. cbn. lia.
Qed.

(** The number of pointers, and the size of the block. *)
Lemma length_dns_ptrs l : ∀ d, length (dns_ptrs d l) = length l.
Proof. induction l as [|e l IH]; intros d; [done|]. cbn [dns_ptrs length]. by rewrite IH. Qed.
Lemma length_le8s (q : list Z) : length (concat (map (le 8) q)) = (8 * length q)%nat.
Proof. induction q as [|y q IH]; [done|]. cbn [map concat]. rewrite length_app, length_le, IH. cbn [length]. lia. Qed.

Lemma rd_ptrs (l : list Z) i x post : l !! i = Some x →
  rd 8 (concat (map (le 8) l) ++ post) (8 * Z.of_nat i) = Some (un_le (le 8 x)).
Proof.
  intros Hi. rewrite <- (take_drop_middle l i x Hi), map_app, concat_app. cbn [map concat].
  rewrite <- !app_assoc. unfold rd. set (pre := concat (map (le 8) (take i l))).
  assert (Hp : length pre = (8 * i)%nat).
  { unfold pre. rewrite length_le8s, length_take. pose proof (lookup_lt_Some _ _ _ Hi). lia. }
  rewrite !length_app, length_le. rewrite (proj2 (Z.leb_le _ _)), (proj2 (Z.leb_le _ _)) by lia. cbn [andb]. f_equal. f_equal.
  replace (Z.to_nat (8 * Z.of_nat i)) with (length pre) by lia. by rewrite drop_app_length, take_app_length' by by rewrite length_le.
Qed.

(** The result for a list of addresses: in one block, pointers first, each the address (within 64 bits) of its string,
    which ends with a NUL inside of the block. *)
Definition dns_result (nc : ffnetconf) (servers : list (list Z)) : Prop :=
  nc_num nc = u32 (Z.of_nat (length servers)) ∧
  ∀ i ip, servers !! i = Some ip → ∃ off, (8 * length servers ≤ off)%nat ∧
    rd 8 (nc_mem nc) (8 * Z.of_nat i) = Some (u64 (nc_block nc + Z.of_nat off)) ∧
    take (length ip + 1) (drop off (nc_mem nc)) = ip ++ [0].

Lemma un_le_le_mod n : ∀ x, un_le (le n x) = x mod 256 ^ Z.of_nat n.
Proof.
  induction n as [|n IH]; intros x; cbn -[Z.mul Z.pow Z.of_nat]; [by rewrite Z.mod_1_r|].
  rewrite IH, Nat2Z.inj_succ, Z.pow_succ_r, Z.rem_mul_r by lia. done.
Qed.
Lemma un_le_le8 x : un_le (le 8 x) = u64 x.
Proof. apply (un_le_le_mod 8). Qed.

(** A block with the pointers and the strings. *)
Lemma dns_result_mem p servers :
  let start := p + Z.of_nat (8 * length servers) in
  dns_result (NetConf p (concat (map (le 8) (dns_ptrs start servers)) ++ dns_data servers) (u32 (Z.of_nat (length servers)))) servers.
Proof.
  split; [done|]. intros i ip Hi. cbn [nc_mem nc_block].
  destruct (dns_layout servers (p + Z.of_nat (8 * length servers)) i ip Hi) as (pre & post & Ed & Ep).
  exists (8 * length servers + length pre)%nat. split_and!; [lia| |].
  - rewrite (rd_ptrs _ _ _ _ Ep), un_le_le8. do 2 f_equal. lia.
  - rewrite drop_app_ge by (rewrite length_le8s, length_dns_ptrs; lia). rewrite length_le8s, length_dns_ptrs, Ed.
    replace (8 * length servers + length pre - 8 * length servers)%nat with (length pre) by lia.
    rewrite drop_app_length. replace (ip ++ 0 :: post) with ((ip ++ [0]) ++ post) by by rewrite <- app_assoc.
    rewrite take_app_length'; [done|]. by rewrite length_app.
Qed.

(** What a loop that fills the room of the pointers and of the strings leaves in a new block. *)
Lemma dns_result_ok (fill : list (list Z) → Z → list Z → Z → Z → option (list Z)) p servers size :
  (∀ P J D K, length J = (8 * length servers)%nat → length K = length (dns_data servers) →
    fill servers p (P ++ J ++ D ++ K) (Z.of_nat (length P)) (Z.of_nat (length (P ++ J ++ D))) =
    Some (P ++ concat (map (le 8) (dns_ptrs (p + Z.of_nat (length (P ++ J ++ D))) servers)) ++ D ++ dns_data servers)) →
  size = Z.of_nat (8 * length servers + length (dns_data servers)) →
  ∃ mem, fill servers p (replicate (Z.to_nat size) 0) 0 (Z.of_nat (length servers) * 8) = Some mem ∧
    dns_result (NetConf p mem (u32 (Z.of_nat (length servers)))) servers.
Proof.
  intros Hfill ->. rewrite Nat2Z.id, replicate_add.
  set (J := replicate (8 * length servers) 0). set (K := replicate (length (dns_data servers)) 0).
  assert (HJ : length J = (8 * length servers)%nat) by apply length_replicate.
  pose proof (Hfill [] J [] K HJ (length_replicate _ _)) as E. cbn [app length] in E.
  rewrite app_nil_r in E. replace (Z.of_nat (length J)) with (Z.of_nat (length servers) * 8) in E by lia.
  eexists. split; [exact E|]. replace (Z.of_nat (length servers) * 8) with (Z.of_nat (8 * length servers)) by lia.
  apply dns_result_mem.
Qed.

Section properties.
Context `{F : FfStr, !FfStrLaws F, V : !VecLib unixE, LV : !UVecLaws}.

(** The block holds the servers that the file names, as it was read. *)
Definition read_servers (s : ustate) (nc : ffnetconf) (s' : ustate) : Prop :=
  ∃ fd d l, us_io s' = us_io s ++ [IoRead fd d] ∧ servers_of (lines d) l ∧ dns_result nc l.

(** What the function leaves, before it has released its own block ([M]) and after. *)
Definition dns_left (s : ustate) (M : gset Z) (rc : Z) (nc : ffnetconf) (s' : ustate) : Prop :=
  (rc = -1 ∧ us_mem s' = M) ∨
  (rc = 0 ∧ (nc_block nc ∉ M) ∧ us_mem s' = {[nc_block nc]} ∪ M ∧
   read_servers s nc s').

(** The end of the function: the file, the vector and the data of the file are released. *)
Lemma dns_end_wp s s1 fdata rc nc fd (v : vec (list Z)) s2 :
  ((fdata = 0 ∧ us_mem s1 = us_mem s) ∨ (0 < fdata ∧ (fdata ∉ us_mem s) ∧ us_mem s1 = {[fdata]} ∪ us_mem s)) → us_fds s2 ∖ {[fd]} = us_fds s →
  ((rc = -1 ∧ holds (us_mem s1) (v_ptr v) (us_mem s2)) ∨
   (rc = 0 ∧ (nc_block nc ∉ us_mem s1) ∧ holds ({[nc_block nc]} ∪ us_mem s1) (v_ptr v) (us_mem s2) ∧
     read_servers s nc s2)) →
  wp ustep
    (do! u_close fd in do* vec_free ffmem_free v in
     do* if fdata =? 0 then Ret tt else call (ffmem_free fdata) in Ret (rc, nc))
    (λ '(rc, nc) s', us_fds s' = us_fds s ∧ dns_left s (us_mem s) rc nc s') never s2.
Proof.
  intros Hfd Hfds Hres. cbn [wp]. intros _ s3 (G1 & _ & _ & Gi & G2).
  unfold read_servers in Hres. rewrite <- G1, <- Gi in Hres. rewrite <- G2 in Hfds. apply wp_bind.
  set (M := if rc =? 0 then {[nc_block nc]} ∪ us_mem s1 else us_mem s1).
  eapply wp_mono; [apply (ufree_wp M)| |done].
  { unfold M. destruct Hres as [[-> ?]|(-> & _ & ? & _)]; done. }
  intros _ s4 ((H1 & _ & _ & H4) & H5). unfold M in H5. clear M.
  assert (Hres' : dns_left s (us_mem s1) rc nc s4).
  { unfold dns_left, read_servers. rewrite H4. destruct Hres as [[-> ?]|(-> & ? & ? & ?)]; [by left|by right]. }
  clear Hres. destruct (Z.eqb_spec fdata 0) as [->|Hz]; cbn.
  - destruct Hfd as [[_ Hfd]|[? _]]; [|lia]. rewrite Hfd in Hres'. split; [congruence|done].
  - destruct Hfd as [[? _]|(_ & Hni & Hfd)]; [done|]. intros _ s5 (_ & I1 & _ & _ & Ii & I2).
    split; [congruence|]. destruct Hres' as [[-> Hr]|(-> & Hnb & Hr & Hs)]; [left|right].
    + split; [done|]. rewrite I2, Hr, Hfd. clear -Hni. set_solver.
    + unfold read_servers in *. rewrite Hfd in Hnb, Hr. rewrite Ii. split_and!; [done|clear -Hnb; set_solver| |done].
      rewrite I2, Hr. clear -Hnb Hni. set_solver.
Qed.

(** C37: reading the DNS configuration terminates, closes the file and frees its data and the vector on every path, and
    stores nothing outside of its blocks.  On success one new block remains, the one that is returned.  It holds
    exactly the addresses that the lines of what was read name, in order: pointers first, each the address of its
    string in the block, which ends with a NUL.  A line names a server when it has, after blanks, the keyword
    "nameserver"; the address is what stands between the first blank behind it and the next blank or the end of the
    line, so it is empty when two blanks follow the keyword.  On failure nothing remains. *)
Theorem netconf_ok nc s :
  (-1 ∉ us_fds s) →
  wp ustep (ffnetconf_get (Z.to_nat (4 * 1024) + 1) nc FFNETCONF_DNS_ADDR)
    (λ '(rc, nc') s', us_fds s' = us_fds s ∧
       ((rc = -1 ∧ us_mem s' = us_mem s) ∨
        (rc = 0 ∧ (nc_block nc' ∉ us_mem s) ∧ us_mem s' = {[nc_block nc']} ∪ us_mem s ∧
         ∃ fd d l, us_io s' = us_io s ++ [IoRead fd d] ∧ servers_of (lines d) l ∧ dns_result nc' l))) never s.
Proof.
  intros Hm1. unfold ffnetconf_get. change (FFNETCONF_DNS_ADDR =? FFNETCONF_DNS_ADDR) with true. cbv iota.
  unfold _ffnetconf_dns, new_block. cbn [bind wp]. intros fdata s1 (Ef & _ & _ & Ei & Hfd). apply wp_bind.
  (* the state at [end]: [fd] is to be closed, the vector and [fdata] to be freed *)
  set (P := λ '(rc, nc', fd, v) s', us_fds s' ∖ {[fd]} = us_fds s ∧
    ((rc = -1 ∧ holds (us_mem s1) (v_ptr (A := list Z) v) (us_mem s')) ∨
     (rc = 0 ∧ (nc_block nc' ∉ us_mem s1) ∧ holds ({[nc_block nc']} ∪ us_mem s1) (v_ptr v) (us_mem s') ∧
       read_servers s nc' s'))).
  apply (wp_mono _ _ P _ never); [|by intros [[[rc nc'] fd] v] s2 [Hfds Hres]; eapply dns_end_wp|done].
  assert (∀ s', us_mem s' = us_mem s1 → holds (us_mem s1) 0 (us_mem s')) as H0 by (intros s' ->; apply holds_none).
  destruct (Z.eqb_spec fdata 0) as [->|Hz].
  { cbn. split; [rewrite Ef; set_solver|left; auto]. }
  cbn [wp]. intros fd s2 (F1 & _ & _ & Fi & Hopen).
  destruct (Z.eqb_spec fd (-1)) as [->|Hne].
  { cbn. destruct Hopen as [[_ E]|[? _]]; [|lia]. split; [rewrite E, Ef; set_solver|left; split; [done|apply H0; congruence]]. }
  destruct Hopen as [[? _]|(Hp & Hni & Hopen)]; [done|].
  assert (Hclose : us_fds s2 ∖ {[fd]} = us_fds s) by (rewrite Hopen, Ef; rewrite Ef in Hni; set_solver).
  cbn [wp]. intros [n d] s3 (G1 & G2 & _ & _ & Hr & Gi). cbn [fst snd] in *. unfold read_ok in Hr. cbn [fst snd] in Hr.
  assert (Hd : (length d ≤ Z.to_nat (4 * 1024))%nat) by (destruct Hr as [[= -> ->]|Hr]; simpl; lia).
  destruct (mem_write_ok (replicate (Z.to_nat (4 * 1024)) 0) 0 d) as (fmem & -> & _ & Hmem).
  { rewrite length_replicate. lia. }
  destruct (n <=? 0) eqn:Hn; [cbn; split; [congruence|left; split; [done|apply H0; congruence]]|].
  apply Z.leb_gt in Hn. rewrite (proj2 (Z.eqb_neq n (-1))) in Gi by lia.
  destruct Hr as [[= -> ->]|[Hr1 Hr2]]; [lia|].
  assert (take (Z.to_nat n) fmem = d) as -> by (replace (Z.to_nat n) with (0 + length d)%nat by lia; done).
  apply wp_bind. eapply wp_mono; [apply (lines_terminate (us_mem s1)); [lia|apply H0; congruence|done|lia]| |done].
  intros [[ok servers] cap] s4 ((H1 & _ & _ & H3) & HM & H4). destruct ok; cbn [negb]; [|cbn; split; [congruence|by left]].
  destruct (H4 eq_refl) as (l & Hl & Hv & Hc & Hle). cbn [app v_data vec_null] in Hv. rewrite Hv in *. clear H4 Hv.
  cbn [bind wp]. intros p s5 (I1 & _ & _ & I2 & Hp5).
  destruct (Z.eqb_spec p 0) as [->|Hpz]; cbn [wp].
  - destruct Hp5 as [[_ E]|[? _]]; [|lia]. rewrite <- E in HM. split; [congruence|by left].
  - destruct Hp5 as [[? _]|(_ & Hni5 & E)]; [done|].
    assert (Hsz : Z.of_nat (length l) ≤ cap).
    { rewrite Hc. unfold dns_data. clear. induction l as [|x l IH]; [done|]. cbn [map concat]. rewrite !length_app. cbn [length] in *. lia. }
    rewrite u64_small by (unfold is_u64; lia).
    destruct (dns_result_ok dns_fill p l (cap + Z.of_nat (length l) * 8)) as (mem & -> & Hres); [apply dns_fill_ok|lia|].
    cbn [wp]. split; [congruence|]. right.
    destruct HM as (Em & Hdj & Hz0). rewrite Em in Hni5, E. cbn [nc_block]. split_and!; [done|clear -Hni5; set_solver| |].
    + split_and!; [rewrite E; clear; set_solver|clear -Hni5 Hdj; set_solver|done].
    + exists fd, d, l. split_and!; [congruence|done|done].
Qed.
End properties.

Lemma nameserver_line_witness :
  dns_line (bytes_of " " ++ nameserver ++ [SPACE] ++ bytes_of "1.1.1.1" ++ []) = Some (bytes_of "1.1.1.1") ∧
  dns_line (bytes_of " " ++ nameserver ++ [SPACE; SPACE] ++ bytes_of "1.1.1.1" ++ []) = Some [].
Proof.
  apply (nameserver_line (bytes_of " ") SPACE (bytes_of "1.1.1.1") []); try done; repeat constructor.
Defined.

Lemma netconf_ok_witness :
  wp ustep (ffnetconf_get (Z.to_nat (4 * 1024) + 1) (NetConf 0 [] 0) FFNETCONF_DNS_ADDR)
    (λ '(rc, nc') s', us_fds s' = ∅ ∧ (rc = -1 ∨ us_mem s' = {[nc_block nc']})) never no_resources.
Proof.
  eapply wp_mono; [apply (netconf_ok (NetConf 0 [] 0) no_resources); cbn; set_solver| |done].
  intros [rc nc'] s' [E [[-> _]|(_ & _ & Em & _)]]; (split; [exact E|]); [by left|right]. rewrite Em. cbn. set_solver.
Defined.
