(* ===== verification/NetConfWin.v ===== *)
(** * FFOS/netconf.h on Windows: DNS server addresses from GetNetworkParams() *)
From S2P Require Import Prelude Prog Bytes Ffbase Unix Win NetConf.

Definition ERROR_BUFFER_OVERFLOW := 111.

Section netconf.
Context (sizeof_FIXED_INFO : Z).

(** A turn of the loop: whether it is the first and the size; or the block with the list of addresses
    ([None]: nothing is left allocated). *)
Definition info_step (st : bool * Z) : prog winE ((bool * Z) + option (Z * list (list Z))) :=
  let '(first, sz) := st in
  let! info := w_alloc sz in
  if info =? 0 then Ret (inr None) else
  let! '(r, (sz, ips)) := GetNetworkParams sz in
  if r =? ERROR_BUFFER_OVERFLOW then
    if negb first then do! w_free info in Ret (inr None) else
    do! w_free info in Ret (inl (false, sz))
  else if negb (r =? 0) then do! w_free info in Ret (inr None)
  else Ret (inr (Some (info, ips))).

Definition _ffnetconf_info (fuel : nat) : prog winE (option (Z * list (list Z))) :=
  loop fuel info_step (true, sizeof_FIXED_INFO).

(** "ptr1 ptr2 ... data1 data2 ...", as on UNIX, each string with its NUL at once; [None]: a byte would be stored
    outside of the block. *)
Fixpoint dns_fill_win (ips : list (list Z)) (block : Z) (mem : list Z) (ptr data : Z) : option (list Z) :=
  match ips with
  | [] => Some mem
  | ip :: ips =>
      let len := Z.of_nat (length ip) + 1 in
      mem ← mem_write mem (Z.to_nat data) (ip ++ [0]);
      mem ← mem_write mem (Z.to_nat ptr) (le 8 (block + data));
      dns_fill_win ips block mem (ptr + 8) (data + len)
  end.

(** The size of the text, and the number of the strings. *)
Fixpoint dns_size_win (ips : list (list Z)) (cap n : Z) : Z * Z :=
  match ips with
  | [] => (cap, n)
  | ip :: ips => dns_size_win ips (u64 (cap + (Z.of_nat (length ip) + 1))) (u32 (n + 1))
  end.

Definition _ffnetconf_dns_win (nc : ffnetconf) (ips : list (list Z)) : prog winE (Z * ffnetconf) :=
  let '(cap, n) := dns_size_win ips 0 0 in
  let size := u64 (cap + n * 8) in
  let! p := w_alloc size in
  if p =? 0 then Ret (-1, NetConf 0 [] (nc_num nc)) else
  match dns_fill_win ips p (replicate (Z.to_nat size) 0) 0 (n * 8) with
  | None => Halt OutOfBounds
  | Some mem => Ret (0, NetConf p mem n)
  end.

Definition ffnetconf_get_win (fuel : nat) (nc : ffnetconf) (flags : Z) : prog winE (Z * ffnetconf) :=
  if flags =? FFNETCONF_DNS_ADDR then
    let* info := _ffnetconf_info fuel in
    match info with
    | None => Ret (-1, nc)
    | Some (info, ips) =>
        let* '(rc, nc) := _ffnetconf_dns_win nc ips in
        do! w_free info in Ret (rc, nc)
    end
  else Ret (-1, nc).
End netconf.

(** ** Properties *)

(** A system with these addresses, whose description takes [need] bytes. *)
Definition params_env (ips : list (list Z)) (need : Z) : env winE (gset Z) := λ m X e,
  match e in winE X return X → gset Z → Prop with
  | w_alloc _ => λ r m', (r = 0 ∧ m' = m) ∨ (0 < r ∧ (r ∉ m) ∧ m' = {[r]} ∪ m)
  | w_free p => λ _ m', m' = (m ∖ {[p]})
  | GetNetworkParams sz => λ '(r, (sz', l)) m', m' = m ∧
      ((r = ERROR_BUFFER_OVERFLOW ∧ sz < need ∧ sz' = need) ∨ (r = 0 ∧ need ≤ sz ∧ l = ips) ∨
       (r ≠ ERROR_BUFFER_OVERFLOW ∧ r ≠ 0))
  | _ => λ _ m', m' = m
  end.

Lemma dns_fill_win_ok block ips : ∀ P J D K, length J = (8 * length ips)%nat → length K = length (dns_data ips) →
  dns_fill_win ips block (P ++ J ++ D ++ K) (Z.of_nat (length P)) (Z.of_nat (length (P ++ J ++ D))) =
  Some (P ++ concat (map (le 8) (dns_ptrs (block + Z.of_nat (length (P ++ J ++ D))) ips)) ++ D ++ dns_data ips).
Proof.
  induction ips as [|ip l IH]; intros P J D K HJ HK.
  { destruct J, K; [done|done..]. }
  cbn [dns_fill_win]. change (dns_data (ip :: l)) with ((ip ++ [0]) ++ dns_data l) in *.
  set (el := ip ++ [0]) in *. assert (Hel : Z.of_nat (length ip) + 1 = Z.of_nat (length el)) by (unfold el; rewrite length_app; cbn; lia).
  rewrite length_app in HK. cbn [length] in *.
  destruct (room 8 J) as (J1 & J2 & -> & HJ1); [lia|]. destruct (room (length el) K) as (K1 & K2 & -> & HK1); [lia|].
  rewrite length_app in HJ, HK. set (off := Z.of_nat (length (P ++ (J1 ++ J2) ++ D))).
  assert (Z.to_nat off = length (P ++ (J1 ++ J2) ++ D)) as -> by apply Nat2Z.id.
  replace (P ++ (J1 ++ J2) ++ D ++ K1 ++ K2) with ((P ++ (J1 ++ J2) ++ D) ++ K1 ++ K2) by by rewrite <- !app_assoc.
  rewrite mem_write_mid by done. cbn [mbind option_bind].
  replace ((P ++ (J1 ++ J2) ++ D) ++ el ++ K2) with (P ++ J1 ++ (J2 ++ D ++ el ++ K2)) by by rewrite <- !app_assoc.
  rewrite Nat2Z.id, mem_write_mid by by rewrite length_le. cbn [mbind option_bind].
  set (p8 := le 8 (block + off)). assert (H8 : length p8 = 8%nat) by apply length_le.
  replace (P ++ p8 ++ J2 ++ D ++ el ++ K2) with ((P ++ p8) ++ J2 ++ (D ++ el) ++ K2) by by rewrite <- !app_assoc.
  replace (Z.of_nat (length P) + 8) with (Z.of_nat (length (P ++ p8))) by (rewrite length_app; lia).
  assert (off + (Z.of_nat (length ip) + 1) = Z.of_nat (length ((P ++ p8) ++ J2 ++ D ++ el))) as E1
    by (unfold off; rewrite !length_app, HJ1, H8; lia).
  rewrite E1, IH by lia. rewrite <- E1. cbn [dns_ptrs map concat]. fold p8. rewrite <- !app_assoc. do 3 f_equal.
  by rewrite !Z.add_assoc.
Qed.

Lemma dns_size_win_ok ips : ∀ cap n, 0 ≤ cap → 0 ≤ n → cap + Z.of_nat (length (dns_data ips)) < 2 ^ 64 →
  n + Z.of_nat (length ips) < 2 ^ 32 →
  dns_size_win ips cap n = (cap + Z.of_nat (length (dns_data ips)), n + Z.of_nat (length ips)).
Proof.
  induction ips as [|ip l IH]; intros cap n Hc Hn Hcap Hnum; cbn [dns_size_win]; [cbn; f_equal; lia|].
  change (dns_data (ip :: l)) with ((ip ++ [0]) ++ dns_data l) in *. rewrite !length_app in *. cbn [length] in *.
  rewrite u64_small, u32_small by (unfold is_u64, is_u32; lia). rewrite IH by lia. f_equal; lia.
Qed.

Section properties.
Context (ips : list (list Z)) (need first_size : Z).

(** What the loop leaves: the description in a new block, or nothing. *)
Definition info_done (m : gset Z) (r : option (Z * list (list Z))) (m' : gset Z) : Prop :=
  match r with
  | None => m' = m
  | Some (p, l) => 0 < p ∧ (p ∉ m) ∧ m' = {[p]} ∪ m ∧ l = ips
  end.

Lemma info_step_wp first sz m :
  wp (params_env ips need) (info_step (first, sz)) (λ r m',
    match r with
    | inl st => st = (false, need) ∧ first = true ∧ m' = m
    | inr r => info_done m r m'
    end) never m.
Proof using Type.
  cbn -[ERROR_BUFFER_OVERFLOW]. intros p m1 [[-> ->]|(Hp & Hni & ->)]; [by cbn|].
  rewrite (proj2 (Z.eqb_neq p 0)) by lia. cbn -[ERROR_BUFFER_OVERFLOW]. intros [r [sz' l]] m2 [-> Hr].
  assert ((({[p]} ∪ m) ∖ {[p]}) = m) as HD by (clear -Hni; set_solver).
  destruct (Z.eqb_spec r ERROR_BUFFER_OVERFLOW) as [->|Hne].
  - destruct Hr as [(_ & _ & ->)|[[? _]|[? _]]]; [|done..]. destruct first; cbn; intros [] m3 ->; rewrite HD; done.
  - destruct (Z.eqb_spec r 0) as [->|Hz]; cbn.
    + destruct Hr as [(? & _)|[(_ & _ & ->)|[_ ?]]]; [done| |done]. done.
    + by intros [] m3 ->.
Qed.

(** Two turns are enough, whatever the system answers. *)
Lemma info_wp fuel m : (2 ≤ fuel)%nat →
  wp (params_env ips need) (_ffnetconf_info first_size fuel) (info_done m) never m.
Proof using Type.
  intros Hf. destruct fuel as [|[|fuel]]; [lia..|]. unfold _ffnetconf_info. cbn [loop]. apply wp_bind.
  eapply wp_mono; [apply info_step_wp| |done]. intros [st|r] m1; [|by cbn]. intros (-> & _ & ->).
  apply wp_bind. eapply wp_mono; [apply info_step_wp| |done]. intros [st|r] m2; [by intros (_ & ? & _)|by cbn].
Qed.

(** reading the DNS configuration on Windows: it asks the system at most twice; on success exactly
    the returned block stays allocated and its pointers are the addresses of the strings, in order, each with
    its NUL; on failure nothing stays allocated. *)
Theorem netconf_win_ok fuel nc m : (2 ≤ fuel)%nat → Z.of_nat (length (dns_data ips)) < 2 ^ 32 →
  wp (params_env ips need) (ffnetconf_get_win first_size fuel nc FFNETCONF_DNS_ADDR) (λ '(rc, nc') m',
    (rc = -1 ∧ m' = m) ∨
    (rc = 0 ∧ (nc_block nc' ∉ m) ∧ m' = {[nc_block nc']} ∪ m ∧ dns_result nc' ips)) never m.
Proof using Type.
  intros Hf Hd. unfold ffnetconf_get_win. rewrite Z.eqb_refl. apply wp_bind.
  eapply wp_mono; [by apply info_wp| |done]. intros [[info l]|] m1; [|intros ->; cbn; by left].
  intros (Hp & Hni & -> & ->). unfold _ffnetconf_dns_win. apply wp_bind.
  assert (Hn : Z.of_nat (length ips) ≤ Z.of_nat (length (dns_data ips))).
  { clear. unfold dns_data. induction ips as [|x l IH]; [done|]. cbn [map concat]. rewrite !length_app. cbn [length] in *. lia. }
  rewrite dns_size_win_ok, !Z.add_0_l by lia. rewrite u64_small by (unfold is_u64; lia). cbn -[u32 dns_data Z.mul Z.add Z.of_nat Z.to_nat dns_fill_win replicate].
  intros p m2 [[-> ->]|(Hpp & Hpi & ->)].
  - cbn. intros [] m3 ->. left. split; [done|]. clear -Hni. set_solver.
  - rewrite (proj2 (Z.eqb_neq p 0)) by lia.
    destruct (dns_result_ok dns_fill_win p ips (Z.of_nat (length (dns_data ips)) + Z.of_nat (length ips) * 8)) as (mem & -> & Hres);
      [apply dns_fill_win_ok|lia|].
    cbn -[u32 dns_data]. intros [] m3 ->. right. rewrite u32_small in Hres by (unfold is_u32; lia).
    split_and!; [done|set_solver|clear -Hni Hpi; set_solver|done].
Qed.
End properties.

Lemma netconf_win_ok_witness :
  wp (params_env [[49]; [50; 51]] 700) (ffnetconf_get_win 584 2 (NetConf 0 [] 0) FFNETCONF_DNS_ADDR)
    (λ '(rc, nc') m', rc = -1 ∨ (m' = {[nc_block nc']} ∧ nc_num nc' = 2)) never ∅.
Proof.
  eapply wp_mono; [apply (netconf_win_ok [[49]; [50; 51]] 700 584 2 (NetConf 0 [] 0) ∅); [lia|cbn; lia]| |done].
  intros [rc nc'] m' [[-> _]|(_ & _ & -> & -> & _)]; [by left|right]. split; [set_solver|done].
Defined.
