(* ===== verification/Process.v ===== *)
(** * FFOS/process.h: starting and waiting for processes, the name of the executable

    [Section win] models the Windows half: the command line that is built of the arguments, the
    start of a process with redirected standard handles.  [Section unix] models the UNIX half: the
    code between vfork() and execve(), which runs in the child, the wait, the name of the
    executable with the caller's buffer as its bytes. *)
From S2P Require Import Prelude Prog Ffbase Unix Win StringW.

(** Standard descriptors: [None] stands for the value "not given" (-1, INVALID_HANDLE_VALUE). *)
Record ffps_execinfo := ExecInfo {
  ei_argv : list cstr; ei_workdir : option cstr; ei_env : list cstr;
  ei_in : option Z; ei_out : option Z; ei_err : option Z }.

(** [ffps_exec]: the same on both systems. *)
Definition ffps_exec_info_of (argv env : list cstr) : ffps_execinfo := ExecInfo argv None env None None None.

(** ** Windows *)

Definition FFPS_NULL_win := INVALID_HANDLE_VALUE.
Abbreviation QUOTE := 34%Z (only parsing).
Abbreviation SPACE := 32%Z (only parsing).

(** [args[k] = units]: a store of units at an index; outside of the block it is a fault. *)
Definition put (args : list Z) (k : Z) (units : list Z) : prog winE (list Z) :=
  if k <? 0 then Halt OutOfBounds else
  match mem_write args (Z.to_nat k) units with None => Halt OutOfBounds | Some args => Ret args end.

Section win.
Context `{FfUni, FfStr}.

Definition ffps_id_win (ps : Z) : prog winE Z := call (GetProcessId ps).

(** The first loop: room for every argument, two quotes and a space each. *)
Fixpoint argv_cap (argv : list cstr) (cap : Z) : option Z :=
  match argv with
  | [] => Some cap
  | a :: argv => let r := (ffsz_utow 0 a).1 in
                 if r <=? 0 then None else argv_cap argv (u64 (cap + (r + 3)))
  end.

Definition has_char (a : cstr) (c : Z) : bool := 0 <=? ffsz_findchar a c.

(** One turn of the second loop: the units of one argument and a space after it. *)
Definition put_arg (cap : Z) (a : cstr) (args : list Z) (k : Z) : prog winE (list Z * Z) :=
  let has_space := has_char a SPACE in
  let* args := if has_space then put args k [QUOTE] else Ret args in
  let k := if has_space then k + 1 else k in
  let '(r, d) := ffsz_utow (u64 (cap - k)) a in
  let* args := if 0 <? r then put args k (d ++ [0]) else Ret args in
  let k := k + (r - 1) in
  let* args := if has_space then put args k [QUOTE] else Ret args in
  let k := if has_space then k + 1 else k in
  let* args := put args k [SPACE] in
  Ret (args, k + 1).

Fixpoint put_args (cap : Z) (argv : list cstr) (args : list Z) (k : Z) : prog winE (option (list Z * Z)) :=
  match argv with
  | [] => Ret (Some (args, k))
  | a :: argv =>
      if has_char a QUOTE then Ret None else
      let* '(args, k) := put_arg cap a args k in
      put_args cap argv args k
  end.

Definition _ffargv_to_cmdln (argv : list cstr) : prog winE (option wbuf) :=
  match argv_cap argv 1 with
  | None => do! SetLastError ERROR_INVALID_PARAMETER in Ret None
  | Some cap =>
      let! p := w_alloc (u64 (u64 (cap + 1) * 2)) in
      if p =? 0 then Ret None else
      let* r := put_args cap argv (replicate (Z.to_nat (cap + 1)) 0) 0 in
      match r with
      | None => do! w_free p in do! SetLastError ERROR_INVALID_PARAMETER in Ret None
      | Some (args, k) =>
          let k := if negb (k =? 0) then k - 1 else k in
          let* args := put args k [0] in
          Ret (Some (WBuf (strz args) p))
      end
  end.

(** [SetHandleInformation(h, HANDLE_FLAG_INHERIT, on)] for a handle that is given. *)
Definition set_inherit (h : option Z) (on : Z) : prog winE unit :=
  match h with Some h => do! SetHandleInformation h on in Ret tt | None => Ret tt end.

Definition _ffps_exec_cmdln (filename cmdln : wstr) (i : ffps_execinfo) : prog winE Z :=
  do* set_inherit (ei_in i) 1 in
  do* set_inherit (ei_out i) 1 in
  do* set_inherit (ei_err i) 1 in
  let inherit_handles := match ei_in i, ei_out i, ei_err i with None, None, None => false | _, _, _ => true end in
  let! '(b, info) := CreateProcessW filename cmdln inherit_handles (ei_in i) (ei_out i) (ei_err i) in
  do* set_inherit (ei_in i) 0 in
  do* set_inherit (ei_out i) 0 in
  do* set_inherit (ei_err i) 0 in
  if negb b then Ret FFPS_NULL_win else
  do! CloseHandle info.2 in Ret info.1.

Definition ffps_exec_info_win (filename : cstr) (info : ffps_execinfo) : prog winE Z :=
  let* wfn := ffsz_alloc_buf_utow (Some 256) filename in
  match wfn with None => Ret FFPS_NULL_win | Some wfn =>
  let* args := _ffargv_to_cmdln (ei_argv info) in
  let* ps := match args with
             | None => Ret FFPS_NULL_win
             | Some args => _ffps_exec_cmdln (w_str wfn) (w_str args) info
             end in
  wbuf_free wfn (match args with None => Ret ps | Some args => do! w_free (w_ptr args) in Ret ps end) end.

Definition ffps_exec_win (filename : cstr) (argv env : list cstr) : prog winE Z :=
  ffps_exec_info_win filename (ffps_exec_info_of argv env).

(** The result and the exit code, where it was stored. *)
Definition ffps_wait_win (ps timeout_ms : Z) (want_code : bool) : prog winE (Z * option Z) :=
  let! r := WaitForSingleObject ps timeout_ms in
  let r := s32 r in
  if r =? WAIT_OBJECT_0 then
    let* code := if want_code then let! c := GetExitCodeProcess ps in Ret (Some (s32 c)) else Ret None in
    do! CloseHandle ps in Ret (0, code)
  else if r =? WAIT_TIMEOUT then do! SetLastError WSAETIMEDOUT in Ret (r, None)
  else Ret (r, None).

Definition ffps_kill_win (ps : Z) : prog winE Z := let! ok := TerminateProcess ps 9 in Ret (b2z (negb ok)).
Definition ffps_close_win (ps : Z) : prog winE unit := do! CloseHandle ps in Ret tt.
Definition ffps_curhdl_win : prog winE Z := call GetCurrentProcess.
Definition ffps_curid_win : prog winE Z := call GetCurrentProcessId.
Definition ffps_exit_win (status : Z) : prog winE unit := do! ExitProcess status in Halt Exited.

(** [ffsz_wtou(name, cap, w)], then the release of the name read into a heap block [blk] (0: none). *)
Definition name_out (cap : Z) (w : wstr) (blk : Z) (good : bool) : prog winE (option (list Z)) :=
  let res := if good then let '(n, d) := ffsz_wtou cap w in if n <? 0 then None else Some d else None in
  if blk =? 0 then Ret res else do! w_free blk in Ret res.

(** The result is the string stored in the caller's buffer. *)
Definition ffps_filename_win (cap : Z) : prog winE (option (list Z)) :=
  let! '(n, w) := GetModuleFileNameW 256 in
  if n =? 0 then Ret None else
  if n =? 256 then
    let! p := w_alloc (4096 * 4) in
    if p =? 0 then Ret None else
    let! '(n, w) := GetModuleFileNameW 4096 in
    name_out cap w p (negb (n =? 0))
  else name_out cap w 0 true.

Definition ffps_curdir_win (cap : Z) : prog winE (option (list Z)) :=
  let! '(n, w) := GetCurrentDirectoryW 256 in
  if n =? 0 then Ret None else
  if 256 <? n then
    let! p := w_alloc (u64 (n * 4)) in
    if p =? 0 then Ret None else
    let! '(n, w) := GetCurrentDirectoryW n in
    name_out cap w p (negb (n =? 0))
  else name_out cap w 0 true.
End win.

(** ** UNIX *)

Definition FFPS_NULL := -1.
Definition SIGKILL := 9.
Definition SIGPIPE := 13.
Definition SIG_DFL := 0.
Definition WNOHANG := 1.
Definition WEXITED := 4.
Definition CLD_EXITED := 1.

(** [if (fd != -1) dup2(fd, to)] *)
Definition redirect (fd : option Z) (to : Z) : prog unixE unit :=
  match fd with Some fd => do! u_dup2 fd to in Ret tt | None => Ret tt end.

(** In the parent vfork() returns the process or -1; in the child 0. *)
Definition ffps_exec_info (filename : cstr) (info : ffps_execinfo) : prog unixE Z :=
  let! p := u_vfork in
  if negb (p =? 0) then Ret p else
  do! u_sigaction SIGPIPE SIG_DFL 0 in
  do* redirect (ei_in info) 0 in
  do* redirect (ei_out info) 1 in
  do* redirect (ei_err info) 2 in
  let* failed := match ei_workdir info with
                 | Some d => let! r := u_chdir d in Ret (negb (r =? 0))
                 | None => Ret false
                 end in
  do* if failed : bool then Ret 0 else call (u_execve filename (ei_argv info) (ei_env info)) in
  do! u_exit 255 in Halt Exited.

Definition ffps_exec (filename : cstr) (argv env : list cstr) : prog unixE Z :=
  ffps_exec_info filename (ffps_exec_info_of argv env).

(** [do { waitid() } while (r != 0 && errno == EINTR)] *)
Definition wait_step (ps f : Z) (_ : unit) : prog unixE (unit + option siginfo) :=
  let! '(r, s) := u_waitid ps (Z.lor WEXITED f) in
  if r =? 0 then Ret (inr (Some s)) else
  let! e := get_errno in
  if e =? EINTR then Ret (inl tt) else Ret (inr None).

Definition ffps_wait (fuel : nat) (ps timeout_ms : Z) (want_code : bool) : prog unixE (Z * option Z) :=
  let f := if negb (timeout_ms =? 2 ^ 32 - 1) then WNOHANG else 0 in
  let* s := loop fuel (wait_step ps f) tt in
  match s with
  | None => Ret (-1, None)
  | Some s =>
      if si_pid s =? 0 then fail ETIMEDOUT (-1, None) else
      Ret (0, if want_code then Some (if si_code s =? CLD_EXITED then si_status s else - si_status s) else None)
  end.

Definition ffps_id (ps : Z) : Z := u32 ps.
Definition ffps_kill (ps : Z) : prog unixE Z := call (u_kill ps SIGKILL).
Definition ffps_sig (ps sig : Z) : prog unixE Z := call (u_kill ps sig).
Definition ffps_close (ps : Z) : prog unixE unit := Ret tt.
Definition ffps_curhdl : prog unixE Z := call u_getpid.
Definition ffps_curid : prog unixE Z := let! p := u_getpid in Ret (u32 p).
Definition ffps_exit (status : Z) : prog unixE unit := do! u_exit status in Halt Exited.

(** A store into the caller's buffer. *)
Definition store (name : list Z) (k : nat) (d : list Z) (f : list Z → prog unixE (option (list Z)))
    : prog unixE (option (list Z)) :=
  match mem_write name k d with None => Halt OutOfBounds | Some name => f name end.

(** [name]: the bytes of the caller's buffer, [cap] of them; the result is the buffer after the call. *)
Definition _ffpath_real (name : list Z) (argv0 : cstr) : prog unixE (option (list Z)) :=
  let! real := u_realpath argv0 in
  match real with
  | None => Ret None
  | Some real =>
      let n := u32 (Z.of_nat (length real) + 1) in
      if Z.of_nat (length name) <? n then Ret None else
      store name 0 (real ++ [0]) (λ name, Ret (Some name))
  end.

(** [readlink()] of a link to the executable, or what follows. *)
Definition from_link (link : cstr) (name : list Z) (k : prog unixE (option (list Z))) : prog unixE (option (list Z)) :=
  let! '(n, d) := u_readlink link (Z.of_nat (length name)) in
  if 0 <=? n then
    store name 0 d (λ name, store name (Z.to_nat n) [0] (λ name, Ret (Some name)))
  else k.

Definition ffps_filename (os : unix_os) (name : list Z) (argv0 : cstr) : prog unixE (option (list Z)) :=
  match os with
  | Linux | Android => from_link (bytes_of "/proc/self/exe") name (_ffpath_real name argv0)
  | BSD =>
      let! '(r, d) := u_sysctl_pathname (Z.of_nat (length name)) in
      if r =? 0 then store name 0 d (λ name, Ret (Some name)) else
      from_link (bytes_of "/proc/curproc/file") name
        (from_link (bytes_of "/proc/curproc/exe") name (_ffpath_real name argv0))
  | Apple =>
      let! '(r, fn) := u_NSGetExecutablePath 4096 in
      _ffpath_real name (if r =? 0 then fn else argv0)
  end.

Definition ffps_curdir (name : list Z) : prog unixE (Z * list Z) :=
  let! r := u_getcwd (Z.of_nat (length name)) in
  match r with None => Ret (1, name) | Some d =>
    match mem_write name 0 (d ++ [0]) with None => Halt OutOfBounds | Some name => Ret (0, name) end end.

(** ** The command line of Windows *)

(** What the arguments are meant to be for the program that receives them: words separated by
    spaces, where a quotation mark starts and ends a stretch in which spaces do not separate.
    [cur]: the word that is being read, if any. *)
Fixpoint split_args (quoted : bool) (cur : option wstr) (l : wstr) : list wstr :=
  match l with
  | [] => match cur with Some w => [w] | None => [] end
  | c :: l =>
      if c =? QUOTE then split_args (negb quoted) (Some (default [] cur)) l
      else if (c =? SPACE) && negb quoted then
        match cur with Some w => [w] | None => [] end ++ split_args false None l
      else split_args quoted (Some (default [] cur ++ [c])) l
  end.

(** An environment where memory may or may not run out. *)
Definition astep (enough : bool) : env winE wstate := λ s X e x s',
  wstep s X e x s' ∧
  match e in winE X return X → Prop with w_alloc _ => λ p, enough = true → p ≠ 0 | _ => λ _, True end x.

Section cmdln.
Context `{U : FfUni, LU : !FfUniLaws U, F : FfStr, L : !FfStrLaws F}.

(** An argument that can be passed: it converts, and has no quotation mark. *)
Definition arg_ok (a : cstr) : Prop := 0 < utow_size a ∧ QUOTE ∉ a.
#[export] Instance arg_ok_dec a : Decision (arg_ok a).
Proof. unfold arg_ok. apply _. Defined.

Definition quote_arg (a : cstr) : wstr :=
  if decide (SPACE ∈ a) then [QUOTE] ++ utow_units a ++ [QUOTE] else utow_units a.
(** Every argument with its space. *)
Definition spaced (argv : list cstr) : wstr := concat (map (λ a, quote_arg a ++ [SPACE]) argv).
(** The room the first loop counts. *)
Definition room (argv : list cstr) : Z := foldr (λ a n, Z.max 0 (utow_size a) + 3 + n) 0 argv.

Lemma has_char_spec a c : has_char a c = bool_decide (c ∈ a).
Proof using L.
  unfold has_char. rewrite (is_first_unique _ _ _ (sz_findchar_law a c)).
  destruct (find_first (Z.eqb c) a) eqn:E; cbn; symmetry.
  - rewrite (proj2 (Z.leb_le _ _)) by lia. apply bool_decide_eq_true.
    pose proof (find_first_spec (Z.eqb c) a) as [[Hr _]|(i & d & Hr & Hi & Hd & _)]; rewrite E in Hr; cbn in Hr; [lia|].
    apply Z.eqb_eq in Hd as ->. by eapply list_elem_of_lookup_2.
  - apply bool_decide_eq_false. intros Hc.
    pose proof (find_first_spec (Z.eqb c) a) as [[_ HF]|(i & d & Hr & _)]; [|rewrite E in Hr; cbn in Hr; lia].
    rewrite Forall_forall in HF. apply HF in Hc. lia.
Qed.

Lemma room_nonneg argv : 0 ≤ room argv.
Proof using Type. unfold room in *. induction argv as [|a argv IH]; cbn [foldr]; lia. Qed.

Lemma argv_cap_spec argv : ∀ cap, 0 ≤ cap → cap + room argv < 2 ^ 62 →
  argv_cap argv cap = (if decide (Forall (λ a, 0 < utow_size a) argv) then Some (cap + room argv) else None).
Proof using Type.
  induction argv as [|a argv IH]; intros cap Hc Hr; cbn [argv_cap room foldr] in *.
  { rewrite decide_True by constructor. f_equal. lia. }
  fold (utow_size a). fold (room argv) in *. pose proof (room_nonneg argv) as Hn.
  destruct (Z.leb_spec (utow_size a) 0) as [Ha|Ha].
  { rewrite decide_False; [done|]. intros HF. inversion HF. lia. }
  rewrite u64_small by (unfold is_u64; lia). rewrite IH by lia.
  repeat case_decide; try (f_equal; lia); try done.
  - exfalso. apply H0. by constructor.
  - exfalso. apply H. by inversion H0.
Qed.

(** A store inside of the block. *)
Lemma put_ok args k l : 0 ≤ k → k + Z.of_nat (length l) ≤ Z.of_nat (length args) →
  ∃ args', put args k l = Ret args' ∧ length args' = length args ∧
    take (Z.to_nat (k + Z.of_nat (length l))) args' = take (Z.to_nat k) args ++ l.
Proof using Type.
  intros Hk Hl. unfold put. rewrite (proj2 (Z.ltb_ge _ _)) by lia.
  destruct (mem_write_ok args (Z.to_nat k) l) as (args' & -> & H1 & H2); [lia|].
  exists args'. split_and!; [done..|]. rewrite <- H2. f_equal. lia.
Qed.

Lemma put_one args k c : 0 ≤ k → k + 1 ≤ Z.of_nat (length args) →
  ∃ args', put args k [c] = Ret args' ∧ length args' = length args ∧
    take (Z.to_nat (k + 1)) args' = take (Z.to_nat k) args ++ [c].
Proof using Type. intros Hk Hl. destruct (put_ok args k [c]) as (args' & ?); [done|cbn; lia|]. by exists args'. Qed.

(** The units of a string and its NUL, which what comes next overwrites. *)
Lemma put_units args k u : 0 ≤ k → k + Z.of_nat (length u) + 1 ≤ Z.of_nat (length args) →
  ∃ args', put args k (u ++ [0]) = Ret args' ∧ length args' = length args ∧
    take (Z.to_nat (k + Z.of_nat (length u))) args' = take (Z.to_nat k) args ++ u.
Proof using Type.
  intros Hk Hl. destruct (put_ok args k (u ++ [0])) as (args' & E & L1 & T); [done|rewrite length_app; cbn; lia|].
  exists args'. split_and!; [done..|].
  apply (f_equal (take (Z.to_nat (k + Z.of_nat (length u))))) in T.
  rewrite take_take_le in T by (rewrite length_app; lia). rewrite T.
  rewrite app_assoc, take_app_le by (rewrite length_app, length_take; lia).
  rewrite take_ge; [done|rewrite length_app, length_take; lia].
Qed.

Lemma put_arg_ok cap a args k : arg_ok a → 0 ≤ k → cap < 2 ^ 62 → Z.of_nat (length args) = cap + 1 →
  k + utow_size a + 3 ≤ cap →
  ∃ args' k', put_arg cap a args k = Ret (args', k') ∧ length args' = length args ∧
    k' = k + Z.of_nat (length (quote_arg a)) + 1 ∧ k' ≤ k + utow_size a + 2 ∧
    take (Z.to_nat k') args' = take (Z.to_nat k) args ++ quote_arg a ++ [SPACE].
Proof using L LU.
  intros [Ha _] Hk Hcap Hlen Hroom. unfold put_arg, quote_arg.
  rewrite has_char_spec. pose proof (utow_length a Ha) as Hu. set (u := utow_units a) in *.
  assert (Hn : utow_size a - 1 = Z.of_nat (length u)) by lia.
  destruct (decide (SPACE ∈ a)) as [Hsp|Hsp].
  - rewrite bool_decide_eq_true_2 by done.
    destruct (put_one args k QUOTE) as (a1 & -> & L1 & T1); [lia|lia|]. cbn [bind].
    rewrite u64_small by (unfold is_u64; lia). rewrite utow_fits by lia. fold u. cbv beta iota.
    rewrite (proj2 (Z.ltb_lt _ _)), Hn by lia.
    destruct (put_units a1 (k + 1) u) as (a2 & -> & L2 & T2); [lia|lia|]. cbn [bind].
    destruct (put_one a2 (k + 1 + Z.of_nat (length u)) QUOTE) as (a3 & -> & L3 & T3); [lia|lia|]. cbn [bind].
    destruct (put_one a3 (k + 1 + Z.of_nat (length u) + 1) SPACE) as (a4 & -> & L4 & T4); [lia|lia|]. cbn [bind].
    do 2 eexists. split_and!; [done|lia|rewrite !length_app; cbn; lia|lia|].
    rewrite T4, T3, T2, T1. by rewrite <- !app_assoc.
  - rewrite bool_decide_eq_false_2 by done. cbn [bind].
    rewrite u64_small by (unfold is_u64; lia). rewrite utow_fits by lia. fold u. cbv beta iota.
    rewrite (proj2 (Z.ltb_lt _ _)), Hn by lia.
    destruct (put_units args k u) as (a2 & -> & L2 & T2); [lia|lia|]. cbn [bind].
    destruct (put_one a2 (k + Z.of_nat (length u)) SPACE) as (a4 & -> & L4 & T4); [lia|lia|]. cbn [bind].
    do 2 eexists. split_and!; [done|lia|lia|lia|].
    rewrite T4, T2. by rewrite <- !app_assoc.
Qed.

Lemma put_args_ok cap argv : ∀ args k, Forall (λ a, 0 < utow_size a) argv → 0 ≤ k → cap < 2 ^ 62 →
  Z.of_nat (length args) = cap + 1 → k + room argv ≤ cap →
  if decide (Forall arg_ok argv) then
    ∃ args' k', put_args cap argv args k = Ret (Some (args', k')) ∧ length args' = length args ∧
      k' = k + Z.of_nat (length (spaced argv)) ∧ k' ≤ cap ∧
      take (Z.to_nat k') args' = take (Z.to_nat k) args ++ spaced argv
  else put_args cap argv args k = Ret None.
Proof using L LU.
  induction argv as [|a argv IH]; intros args k HF Hk Hcap Hlen Hroom; cbn [put_args room foldr] in *.
  { rewrite decide_True by constructor. exists args, k. unfold spaced. cbn.
    rewrite app_nil_r. split_and!; [done|done|lia|lia|done]. }
  fold (room argv) in *. pose proof (room_nonneg argv). inversion_clear HF as [|?? Ha HF'].
  rewrite has_char_spec. destruct (decide (QUOTE ∈ a)) as [Hq|Hq].
  { rewrite bool_decide_eq_true_2 by done. rewrite decide_False; [done|].
    intros HF. inversion_clear HF as [|?? [_ Hq'] _]. done. }
  rewrite bool_decide_eq_false_2 by done.
  destruct (put_arg_ok cap a args k) as (a1 & k1 & -> & L1 & K1 & B1 & T1); [done|done|done|done|lia|].
  cbn [bind]. specialize (IH a1 k1 HF'). do 4 (premise IH; [lia|]).
  destruct (decide (Forall arg_ok argv)) as [Hok|Hok].
  - rewrite decide_True by by constructor. destruct IH as (a2 & k2 & -> & L2 & K2 & B2 & T2).
    exists a2, k2. unfold spaced in *. cbn [map concat]. rewrite !length_app. cbn [length].
    split_and!; [done|lia|lia|lia|]. rewrite T2, T1. by rewrite <- !app_assoc.
  - rewrite decide_False; [done|]. intros HF. by inversion HF.
Qed.
(** The arguments with spaces between them. *)
Fixpoint cmdline (argv : list cstr) : wstr :=
  match argv with
  | [] => []
  | [a] => quote_arg a
  | a :: argv => quote_arg a ++ [SPACE] ++ cmdline argv
  end.

Lemma spaced_cmdline argv : argv ≠ [] → spaced argv = cmdline argv ++ [SPACE].
Proof using Type.
  unfold spaced. induction argv as [|a [|b argv] IH]; intros Hne; [done|cbn; by rewrite app_nil_r|].
  rewrite map_cons. cbn [concat]. rewrite IH by done.
  change (cmdline (a :: b :: argv)) with (quote_arg a ++ [SPACE] ++ cmdline (b :: argv)).
  by rewrite <- !app_assoc.
Qed.

Lemma quote_arg_units a : arg_ok a → Forall (λ c, c ≠ 0) (quote_arg a).
Proof using LU.
  intros [Ha _]. unfold quote_arg. pose proof (utow_no_nul a Ha). case_decide; [|done].
  apply Forall_app; split; [by repeat constructor|]. apply Forall_app; split; [done|by repeat constructor].
Qed.

Lemma cmdline_units argv : Forall arg_ok argv → Forall (λ c, c ≠ 0) (cmdline argv).
Proof using LU.
  induction 1 as [|a [|b argv] Ha HF IH]; [constructor|by apply quote_arg_units|].
  change (cmdline (a :: b :: argv)) with (quote_arg a ++ [SPACE] ++ cmdline (b :: argv)).
  apply Forall_app; split; [by apply quote_arg_units|]. apply Forall_app; split; [by repeat constructor|done].
Qed.

(** The last steps: the NUL over the last space. *)
Lemma finish_ok args k argv : Forall arg_ok argv → k = Z.of_nat (length (spaced argv)) →
  k < Z.of_nat (length args) → take (Z.to_nat k) args = spaced argv →
  ∃ args', put args (if negb (k =? 0) then k - 1 else k) [0] = Ret args' ∧ strz args' = cmdline argv.
Proof using LU.
  intros Hok Hk Hlt Ht. set (k2 := if negb (k =? 0) then k - 1 else k).
  assert (H2 : 0 ≤ k2 ∧ k2 ≤ k ∧ take (Z.to_nat k2) args = cmdline argv).
  { subst k2. destruct (Z.eqb_spec k 0) as [E|E]; cbn.
    - destruct argv as [|a argv]; [split_and!; [lia|lia|by rewrite Ht]|]. exfalso.
      rewrite spaced_cmdline, length_app in Hk by done. cbn in Hk. lia.
    - assert (argv ≠ []) by (intros ->; cbn in Hk; lia). rewrite spaced_cmdline in * by done.
      rewrite length_app in Hk. cbn in Hk. split_and!; [lia|lia|].
      rewrite <- (take_take_le _ _ (Z.to_nat k)), Ht, take_app_le, take_ge by lia. done. }
  destruct H2 as (H20 & H2k & H2).
  destruct (put_one args k2 0) as (args' & E & _ & T); [done|lia|].
  exists args'. split; [done|]. rewrite <- (take_drop (Z.to_nat (k2 + 1)) args'), T, H2, <- app_assoc.
  by apply strz_app, cmdline_units.
Qed.

(** *** Reading the command line back *)

(** A stretch without quotation marks, and without spaces unless it is quoted. *)
Lemma split_stretch q w l : ∀ cur,
  Forall (λ c, c ≠ QUOTE ∧ (c = SPACE → q = true)) w →
  split_args q cur (w ++ l) = split_args q (match w with [] => cur | _ => Some (default [] cur ++ w) end) l.
Proof using Type.
  induction w as [|c w IH]; intros cur HF; [done|]. inversion_clear HF as [|?? [Hq Hs] HF']. cbn.
  rewrite (proj2 (Z.eqb_neq _ _) Hq).
  assert ((c =? SPACE) && negb q = false) as ->.
  { destruct (Z.eqb_spec c SPACE); [|done]. cbn. by rewrite Hs. }
  rewrite IH by done. f_equal. destruct w; [done|]. cbn. by rewrite <- app_assoc.
Qed.

Lemma split_quoted a l : arg_ok a →
  split_args false None (quote_arg a ++ l) =
    split_args false (if decide (utow_units a = []) then None else Some (utow_units a)) l.
Proof using LU.
  intros [Ha Hq]. unfold quote_arg.
  assert (Hqu : QUOTE ∉ utow_units a) by (by rewrite utow_ascii by lia).
  destruct (decide (SPACE ∈ a)) as [Hs|Hs].
  - assert (Hne : utow_units a ≠ []).
    { intros E. apply (utow_ascii a SPACE Ha) in Hs; [|lia]. rewrite E in Hs. by apply not_elem_of_nil in Hs. }
    rewrite decide_False by done. rewrite <- !app_assoc. cbn.
    rewrite split_stretch; [|apply Forall_forall; intros c Hc; split; [congruence|done]].
    destruct (utow_units a) as [|c u] eqn:E; [done|]. cbn. done.
  - assert (Hsu : SPACE ∉ utow_units a) by (by rewrite utow_ascii by lia).
    rewrite split_stretch; [|apply Forall_forall; intros c Hc; split; congruence].
    by destruct (utow_units a).
Qed.

Lemma split_cmdline argv : Forall arg_ok argv →
  split_args false None (cmdline argv) = filter (λ u, u ≠ []) (map utow_units argv).
Proof using LU.
  induction 1 as [|a [|b argv] Ha HF IH]; [done| |].
  - change (cmdline [a]) with (quote_arg a).
    rewrite <- (app_nil_r (quote_arg a)), split_quoted, map_cons, filter_cons by done. by repeat case_decide.
  - change (cmdline (a :: b :: argv)) with (quote_arg a ++ [SPACE] ++ cmdline (b :: argv)).
    rewrite split_quoted, map_cons, filter_cons by done. cbn [app split_args].
    change ((SPACE =? QUOTE)) with false. change ((SPACE =? SPACE) && negb false) with true. cbn iota.
    rewrite IH. by repeat case_decide.
Qed.

(** *** The whole function *)

Lemma cmdln_wp enough argv s : room argv < 2 ^ 61 →
  wp (astep enough) (_ffargv_to_cmdln argv) (λ r s', owns s r s' ∧
    match r with
    | Some b => 0 < w_ptr b ∧ Forall arg_ok argv ∧ w_str b = cmdline argv
    | None => enough = true → ¬ Forall arg_ok argv ∧ ws_err s' = ERROR_INVALID_PARAMETER
    end) never s.
Proof using L LU.
  intros Hb. unfold _ffargv_to_cmdln. pose proof (room_nonneg argv) as Hr. rewrite argv_cap_spec by lia.
  destruct (decide (Forall (λ a, 0 < utow_size a) argv)) as [Hc|Hc].
  - cbn [wp bind]. intros p s1 [(Hh & Hk & Hm) Hal].
    destruct (Z.eqb_spec p 0) as [->|Hp]; cbn [wp].
    { destruct Hm as [[_ Hm]|Hm]; [|lia]. split; [done|]. intros He. by destruct (Hal He). }
    destruct Hm as [[-> _]|(Hp0 & Hni & Hm)]; [done|].
    pose proof (put_args_ok (1 + room argv) argv (replicate (Z.to_nat (1 + room argv + 1)) 0) 0 Hc) as H.
    rewrite length_replicate in H. do 4 (premise H; [lia|]).
    destruct (decide (Forall arg_ok argv)) as [Hok|Hok].
    + destruct H as (args & k & -> & Hl & Hkk & Hkb & Ht). cbn [bind].
      destruct (finish_ok args k argv) as (args' & -> & Hz); [done|lia|lia|done|].
      cbn [wp]. split; [|by split_and!]. split_and!; [done..|]. right. by split_and!.
    + rewrite H. cbn. intros _ s2 [(G1 & G2 & G3 & G4) _] _ s3 [[He (F1 & F2 & F3)] _].
      split; [|done]. unfold owns. split_and!; [congruence|congruence|]. rewrite F3, G4, Hm. set_solver.
  - cbn. intros _ s1 [[He (F1 & F2 & F3)] _]. split_and!; try done.
    intros _. split; [|done]. intros HF. apply Hc. eapply Forall_impl; [exact HF|]. by intros a [? _].
Qed.

(** C17: the command line of Windows.  Whatever the arguments are (of a total length below 2^61), no
    unit is stored outside of the block.  The result is a new block, the only one allocated, with the
    arguments, quoted where they have spaces, and one space between them; a program that splits it at
    the unquoted spaces gets back the units of every argument that is not empty.  NULL with
    ERROR_INVALID_PARAMETER, and nothing allocated, is returned exactly for arguments that do not
    convert or have quotation marks (or when memory runs out). *)
Theorem argv_to_cmdln_ok enough argv s : room argv < 2 ^ 61 →
  wp (astep enough) (_ffargv_to_cmdln argv) (λ r s', owns s r s' ∧
    match r with
    | Some b => Forall arg_ok argv ∧ w_str b = cmdline argv ∧
        split_args false None (w_str b) = filter (λ u, u ≠ []) (map utow_units argv)
    | None => enough = true → ¬ Forall arg_ok argv ∧ ws_err s' = ERROR_INVALID_PARAMETER
    end) never s.
Proof using L LU.
  intros Hb. eapply wp_mono; [by apply cmdln_wp| |done]. intros [b|] s' [Ho Hr]; [|done].
  destruct Hr as (_ & Hok & Hw). split_and!; [by auto..|]. rewrite Hw. by apply split_cmdline.
Qed.

Lemma set_inherit_wp h on s : wp wstep (set_inherit h on) (λ _ s', wsame s s') never s.
Proof using Type. destruct h; cbn; [by intros _ s' Hs|done]. Qed.

Lemma set_inherits_wp (i : ffps_execinfo) on {A} (k : prog winE A) Q s :
  (∀ s', wsame s s' → wp wstep k Q never s') →
  wp wstep (do* set_inherit (ei_in i) on in do* set_inherit (ei_out i) on in do* set_inherit (ei_err i) on in k) Q never s.
Proof using Type.
  intros Hk. apply wp_bind. eapply wp_mono; [apply set_inherit_wp| |done]. intros [] s1 H1.
  apply wp_bind. eapply wp_mono; [apply set_inherit_wp| |done]. intros [] s2 H2.
  apply wp_bind. eapply wp_mono; [apply set_inherit_wp| |done]. intros [] s3 H3.
  apply Hk. eauto using wsame_trans.
Qed.

(** The handle of the thread is closed, the handle of the process is returned. *)
Lemma exec_cmdln_wp filename cmdln i s :
  wp wstep (_ffps_exec_cmdln filename cmdln i) (λ ps s', new_handle FFPS_NULL_win s ps s') never s.
Proof using L LU.
  unfold _ffps_exec_cmdln. apply set_inherits_wp. intros s1 (A1 & A2 & A3). cbn [wp].
  intros [b [hp ht]] s2 (B1 & B2 & B3). apply set_inherits_wp. intros s3 (C1 & C2 & C3). cbn in B3.
  destruct B3 as [[-> B3]|(-> & Hp & Ht & Hne & Hni & Hnt & B3)]; cbn.
  - unfold new_handle. split_and!; [congruence..|]. left. split; [done|congruence].
  - intros _ s4 (D1 & D2 & D3). unfold new_handle. split_and!; [congruence..|]. right.
    split_and!; [done|congruence|]. rewrite D3, C1, B3, A1. set_solver.
Qed.

Lemma release2_wp filename_w args ps s s1 s2 s3 :
  owns s (Some filename_w) s1 → owns s1 (Some args) s2 → 0 < w_ptr args → new_handle FFPS_NULL_win s2 ps s3 →
  wp wstep (wbuf_free filename_w (do! w_free (w_ptr args) in Ret ps))
    (λ ps s', new_handle FFPS_NULL_win s ps s') never s3.
Proof using L LU.
  intros (A1 & A2 & A3) (B1 & B2 & B3) Hp (C1 & C2 & C3).
  destruct B3 as [[? _]|(_ & Bn & B3)]; [lia|].
  assert (Hfin : ∀ s4 s5, ws_handles s4 = ws_handles s3 → ws_socks s4 = ws_socks s3 →
    ws_mem s4 = {[w_ptr args]} ∪ ws_mem s → (w_ptr args ∉ ws_mem s) →
    ws_handles s5 = ws_handles s4 → ws_socks s5 = ws_socks s4 → ws_mem s5 = (ws_mem s4 ∖ {[w_ptr args]}) →
    new_handle FFPS_NULL_win s ps s5).
  { intros s4 s5 E1 E2 E3 En F1 F2 F3. unfold new_handle. rewrite F1, E1, F2, E2, C1, B2, A2, F3, E3.
    split_and!; [done|clear -En; set_solver|]. rewrite <- A1, <- B1. by destruct C3 as [[-> ->]|]; auto. }
  unfold wbuf_free. destruct A3 as [[-> A3]|(Ap & An & A3)]; cbn [Z.eqb].
  - intros _ s5 (F1 & F2 & _ & F4). eapply (Hfin s3 s5); try done; [congruence|congruence].
  - rewrite (proj2 (Z.eqb_neq _ _)) by lia. intros _ s4 (E1 & E2 & _ & E4) _ s5 (F1 & F2 & _ & F4).
    assert (w_ptr filename_w ≠ w_ptr args) by (intros E; rewrite A3, E in Bn; clear -Bn; set_solver).
    eapply (Hfin s4 s5); try done; [|rewrite A3 in Bn; clear -Bn; set_solver].
    rewrite E4, C2, B3, A3. clear -An H. set_solver.
Qed.

(** starting a process on Windows: the converted name and the command line are released on every
    path, the handle of the thread is closed, and the only new handle is the returned one. *)
Theorem exec_info_win_clean filename info s : room (ei_argv info) < 2 ^ 61 →
  wp wstep (ffps_exec_info_win filename info) (λ ps s', new_handle FFPS_NULL_win s ps s') never s.
Proof using L LU.
  intros Hb. unfold ffps_exec_info_win. apply with_name_wp.
  { intros s' (? & ? & ?). unfold new_handle. auto. }
  intros w s1 Ho. apply wp_bind. eapply (wp_env _ (astep false)); [by intros; split; [done|destruct e]|].
  eapply wp_mono; [by apply cmdln_wp| |done]. intros [b|] s2 [Ho2 Hr]; cbn [bind].
  - apply wp_bind. eapply wp_mono; [apply exec_cmdln_wp| |done]. intros ps s3 Hn.
    eapply release2_wp; [done..|by destruct Hr|done].
  - eapply wbuf_free_wp; [exact Ho|by destruct Ho2 as (? & ? & ?)..|].
    intros s3 (? & ? & ?) _. cbn. unfold new_handle. auto.
Qed.
End cmdln.

(** *** Inheritance of the standard handles

    What [SetHandleInformation] and [CreateProcessW] act upon: the set of inheritable handles, and the
    processes started so far, each with the inheritable handles at that moment. *)
Record spawn := Spawn {
  sp_name : wstr; sp_cmdln : wstr; sp_inherit : bool; sp_std : option Z * option Z * option Z;
  sp_inheritable : gset Z }.
Record pstate := PState { p_inherit : gset Z; p_spawned : list spawn }.

Definition pstep : env winE pstate := λ s X e x s',
  match e in winE X return X → Prop with
  | SetHandleInformation h on => λ _,
      s' = PState (if on =? 0 then p_inherit s ∖ {[h]} else {[h]} ∪ p_inherit s) (p_spawned s)
  | CreateProcessW name cmdln inherit hin hout herr => λ _,
      s' = PState (p_inherit s) (p_spawned s ++ [Spawn name cmdln inherit (hin, hout, herr) (p_inherit s)])
  | _ => λ _, s' = s
  end x.

Definition given (h : option Z) : gset Z := match h with Some h => {[h]} | None => ∅ end.
Definition given_handles (i : ffps_execinfo) : gset Z := given (ei_in i) ∪ given (ei_out i) ∪ given (ei_err i).

Lemma set_inherit_pstep h on {A} (k : prog winE A) Q F s :
  wp pstep k Q F (PState (if on =? 0 then p_inherit s ∖ given h else given h ∪ p_inherit s) (p_spawned s)) →
  wp pstep (do* set_inherit h on in k) Q F s.
Proof.
  destruct h as [h|]; cbn; [by intros Hk _ s' ->|].
  destruct s as [inh sp]. cbn.
  replace (if on =? 0 then inh ∖ ∅ else ∅ ∪ inh) with inh; [done|]. destruct (on =? 0); set_solver.
Qed.

(** the child process is started once, with the command line and the standard handles that were
    given; at that moment they are inheritable, and the flag to inherit is set exactly if one was given.
    Afterwards, also when the start fails, none of them is inheritable and the other handles are as
    before. *)
Theorem exec_cmdln_inherit filename cmdln i s :
  wp pstep (_ffps_exec_cmdln filename cmdln i) (λ _ s',
    p_inherit s' = (p_inherit s ∖ given_handles i) ∧
    ∃ sp, p_spawned s' = p_spawned s ++ [sp] ∧ sp_name sp = filename ∧ sp_cmdln sp = cmdln ∧
      sp_std sp = (ei_in i, ei_out i, ei_err i) ∧ sp_inheritable sp = given_handles i ∪ p_inherit s ∧
      (sp_inherit sp = true ↔ given_handles i ≠ ∅)) never s.
Proof.
  unfold _ffps_exec_cmdln, given_handles. do 3 apply set_inherit_pstep. cbn [wp Z.eqb p_inherit p_spawned].
  intros [b info] s1 ->. do 3 apply set_inherit_pstep. cbn [Z.eqb p_inherit p_spawned].
  match goal with |- wp _ _ ?Q _ ?st => assert (HQ : ∀ r : Z, Q r st) end.
  { intros _. cbn. split; [set_solver|]. eexists. split_and!; [done..| |]; cbn; [set_solver|].
    destruct (ei_in i), (ei_out i), (ei_err i); cbn; split; (done || set_solver). }
  destruct b; cbn [negb wp]; [|apply (HQ 0)]. intros ? s2 H. cbn in H. subst s2. apply (HQ 0).
Qed.

(** ** The child of vfork() *)

(** The process in which the code runs: its descriptors (the files they refer to), its directory, the
    signals it has set, the calls of execve() (each with what the new image would start with) and its
    exit status. *)
Record image := Image {
  im_name : cstr; im_argv : list cstr; im_env : list cstr; im_fds : gmap Z Z; im_dir : option cstr;
  im_sigs : list (Z * Z) }.
Record cstate := CState {
  cs_child : bool; cs_fds : gmap Z Z; cs_dir : option cstr; cs_sigs : list (Z * Z);
  cs_execs : list image; cs_exit : option Z }.

(** [enter d]: the directory [d] can be entered. *)
Definition cstep (enter : cstr → bool) : env unixE cstate := λ s X e x s',
  match e in unixE X return X → Prop with
  | u_vfork => λ p, s' = CState (p =? 0) (cs_fds s) (cs_dir s) (cs_sigs s) (cs_execs s) (cs_exit s)
  | u_dup2 fd to => λ _, s' = CState (cs_child s)
      (match cs_fds s !! fd with Some f => <[to := f]> (cs_fds s) | None => cs_fds s end)
      (cs_dir s) (cs_sigs s) (cs_execs s) (cs_exit s)
  | u_chdir d => λ r,
      if enter d then r = 0 ∧ s' = CState (cs_child s) (cs_fds s) (Some d) (cs_sigs s) (cs_execs s) (cs_exit s)
      else r = -1 ∧ s' = s
  | u_sigaction sig h _ => λ _,
      s' = CState (cs_child s) (cs_fds s) (cs_dir s) (cs_sigs s ++ [(sig, h)]) (cs_execs s) (cs_exit s)
  | u_execve name argv env => λ r, r = -1 ∧ s' = CState (cs_child s) (cs_fds s) (cs_dir s) (cs_sigs s)
      (cs_execs s ++ [Image name argv env (cs_fds s) (cs_dir s) (cs_sigs s)]) (cs_exit s)
  | u_exit st => λ _, s' = CState (cs_child s) (cs_fds s) (cs_dir s) (cs_sigs s) (cs_execs s) (Some st)
  | _ => λ _, s' = s
  end x.

(** The table of descriptors with [to] referring to the file of [fd], if it is given. *)
Definition redirected (fd : option Z) (to : Z) (m : gmap Z Z) : gmap Z Z :=
  match fd with Some fd => match m !! fd with Some f => <[to := f]> m | None => m end | None => m end.

Lemma redirect_wp enter fd to {A} (k : prog unixE A) Q F s :
  wp (cstep enter) k Q F (CState (cs_child s) (redirected fd to (cs_fds s)) (cs_dir s) (cs_sigs s) (cs_execs s) (cs_exit s)) →
  wp (cstep enter) (do* redirect fd to in k) Q F s.
Proof. destruct fd as [fd|]; cbn; [by intros Hk _ s' ->|]. by destruct s. Qed.

(** A descriptor that is not one of the three standard ones, and is open. *)
Definition passable (m : gmap Z Z) (fd : option Z) : Prop :=
  match fd with Some fd => 2 < fd ∧ is_Some (m !! fd) | None => True end.
(** What descriptor [to] of the new program refers to. *)
Definition std_file (m : gmap Z Z) (fd : option Z) (to : Z) : option Z :=
  match fd with Some fd => m !! fd | None => m !! to end.

Lemma redirected_ne fd to m n : n ≠ to → redirected fd to m !! n = m !! n.
Proof. intros Hn. unfold redirected. destruct fd as [fd|]; [|done]. destruct (m !! fd); [|done]. by rewrite lookup_insert_ne. Qed.

Lemma redirected_eq fd to m : passable m fd → redirected fd to m !! to = std_file m fd to.
Proof.
  unfold redirected, std_file. destruct fd as [fd|]; [|done]. intros [_ [f ->]]. by rewrite lookup_insert_eq.
Qed.

Lemma std_file_redirected fd0 to0 m fd to : to ≠ to0 → to0 ≤ 2 → passable m fd →
  std_file (redirected fd0 to0 m) fd to = std_file m fd to ∧ passable (redirected fd0 to0 m) fd.
Proof.
  intros Hto H0 Hp. unfold std_file, passable in *. destruct fd as [fd|].
  - destruct Hp as [Hfd Hs]. rewrite redirected_ne by lia. auto.
  - by rewrite redirected_ne.
Qed.

(** The three redirections: each standard descriptor refers to the given file, or to what it did. *)
Lemma redirected_std m i : passable m (ei_in i) → passable m (ei_out i) → passable m (ei_err i) →
  let m' := redirected (ei_err i) 2 (redirected (ei_out i) 1 (redirected (ei_in i) 0 m)) in
  m' !! 0 = std_file m (ei_in i) 0 ∧ m' !! 1 = std_file m (ei_out i) 1 ∧ m' !! 2 = std_file m (ei_err i) 2 ∧
  ∀ n, 2 < n → m' !! n = m !! n.
Proof.
  intros Hi Ho He. cbn zeta.
  destruct (std_file_redirected (ei_in i) 0 m (ei_out i) 1) as [Ho1 Hop]; [done..|].
  destruct (std_file_redirected (ei_in i) 0 m (ei_err i) 2) as [He1 Hep]; [done..|].
  destruct (std_file_redirected (ei_out i) 1 (redirected (ei_in i) 0 m) (ei_err i) 2) as [He2 Hep2]; [done..|].
  split_and!.
  - rewrite !redirected_ne by lia. by apply redirected_eq.
  - rewrite redirected_ne by lia. by rewrite redirected_eq, Ho1.
  - by rewrite redirected_eq, He2, He1.
  - intros n Hn. by rewrite !redirected_ne by lia.
Qed.

(** C16: starting a process on UNIX.  The parent gets the process or an error and nothing of it changes.
    The child never returns to the caller's code: it ends with exit status 255; before that it has called
    execve(), which fails, once when the directory that is asked for could be entered or none is asked for, and
    not at all otherwise; the call is made with the file, the arguments and the environment given, SIGPIPE reset, and descriptors 0,
    1, 2 referring to the given files (which are open and none of the three themselves). *)
Theorem exec_info_child enter filename info s :
  passable (cs_fds s) (ei_in info) → passable (cs_fds s) (ei_out info) → passable (cs_fds s) (ei_err info) →
  wp (cstep enter) (ffps_exec_info filename info)
    (λ p s', p ≠ 0 ∧ s' = CState false (cs_fds s) (cs_dir s) (cs_sigs s) (cs_execs s) (cs_exit s))
    (λ h s', h = Exited ∧ cs_child s' = true ∧ cs_exit s' = Some 255 ∧
       if from_option enter true (ei_workdir info) then
        ∃ im, cs_execs s' = cs_execs s ++ [im] ∧ im_name im = filename ∧ im_argv im = ei_argv info ∧
          im_env im = ei_env info ∧ im_dir im = (match ei_workdir info with Some d => Some d | None => cs_dir s end) ∧
          im_sigs im = cs_sigs s ++ [(SIGPIPE, SIG_DFL)] ∧
          im_fds im !! 0 = std_file (cs_fds s) (ei_in info) 0 ∧
          im_fds im !! 1 = std_file (cs_fds s) (ei_out info) 1 ∧
          im_fds im !! 2 = std_file (cs_fds s) (ei_err info) 2 ∧
          (∀ n, 2 < n → im_fds im !! n = cs_fds s !! n)
       else cs_execs s' = cs_execs s) s.
Proof.
  intros Hi Ho He. pose proof (redirected_std _ _ Hi Ho He) as Hstd. cbn zeta in Hstd.
  unfold ffps_exec_info. cbn [wp]. intros p s1 ->. destruct (Z.eqb_spec p 0) as [->|Hp]; cbn [negb wp]; [|done].
  intros ? s2 ->. do 3 apply redirect_wp. cbn [cs_child cs_fds cs_dir cs_sigs cs_execs cs_exit].
  destruct (ei_workdir info) as [d|]; cbn.
  - intros r s3. destruct (enter d); intros [-> ->]; cbn.
    + intros ? s4 [_ ->] ? s5 ->. cbn. split_and!; [done..|]. eexists. split_and!; try done; apply Hstd.
    + by intros ? s4 ->.
  - intros ? s4 [_ ->] ? s5 ->. cbn. split_and!; [done..|]. eexists. split_and!; try done; apply Hstd.
Qed.

(** Descriptors among the standard ones: exchanging the output and the error stream gives the child one
    file for both. *)
Theorem exec_swap_loses : ∃ s, cs_fds s = {[1 := 10; 2 := 20]} ∧
  wp (cstep (λ _, true)) (ffps_exec_info [] (ExecInfo [] None [] None (Some 2) (Some 1))) (λ _ _, True)
    (λ _ s', ∃ im, cs_execs s' = [im] ∧ im_fds im !! 1 = Some 20 ∧ im_fds im !! 2 = Some 20) s.
Proof.
  exists (CState false {[1 := 10; 2 := 20]} None [] [] None). split; [done|].
  cbn [wp ffps_exec_info]. intros p s1 ->. destruct (p =? 0); [|done]. cbn [negb wp].
  intros ? s2 ->. do 3 apply redirect_wp. cbn. intros ? s4 [_ ->] ? s5 ->. cbn. eexists. by split_and!.
Qed.

(** ** Waiting *)

Inductive child := Running | ExitedWith (code : Z) | KilledBy (sig : Z) | Reaped.
(** Signals that will still interrupt the wait, the child, errno. *)
Record wait_state := WaitState { wa_intr : nat; wa_child : child; wa_errno : Z }.

Definition ECHILD := 10.

(** waitid(): an interruption; or the state of the child, which is reaped when it has ended.  A call
    that waits for a running child does not return. *)
Definition wait_env (ps : Z) : env unixE wait_state := λ s X e x s',
  match e in unixE X return X → Prop with
  | u_waitid pid options => λ '(r, si),
      match wa_intr s with
      | S n => r = -1 ∧ s' = WaitState n (wa_child s) EINTR
      | O =>
          match wa_child s with
          | Running => has options WNOHANG = true ∧ r = 0 ∧ si_pid si = 0 ∧ s' = s
          | ExitedWith c => r = 0 ∧ si = SigInfo ps CLD_EXITED c ∧ s' = WaitState O Reaped (wa_errno s)
          | KilledBy n => r = 0 ∧ si_pid si = ps ∧ si_code si ≠ CLD_EXITED ∧ si_status si = n ∧
                          s' = WaitState O Reaped (wa_errno s)
          | Reaped => r = -1 ∧ s' = WaitState O Reaped ECHILD
          end
      end
  | get_errno => λ r, r = wa_errno s ∧ s' = s
  | set_errno e => λ _, s' = WaitState (wa_intr s) (wa_child s) e
  | _ => λ _, s' = s
  end x.

(** C35: waiting for a process on UNIX: however many signals interrupt it, the wait ends and reports the
    state of the child: its exit code, the negated signal that killed it, ETIMEDOUT for a child that
    still runs (only without an infinite timeout), the error for one that is gone.  A child that has
    ended is reaped. *)
Theorem wait_ok fuel ps timeout want s : (wa_intr s < fuel)%nat → ps ≠ 0 →
  wp (wait_env ps) (ffps_wait fuel ps timeout want) (λ '(r, code) s',
    match wa_child s with
    | Running => timeout ≠ 2 ^ 32 - 1 ∧ r = -1 ∧ wa_errno s' = ETIMEDOUT ∧ wa_child s' = Running
    | ExitedWith c => r = 0 ∧ code = (if want then Some c else None) ∧ wa_child s' = Reaped
    | KilledBy n => r = 0 ∧ code = (if want then Some (- n) else None) ∧ wa_child s' = Reaped
    | Reaped => r = -1 ∧ wa_errno s' = ECHILD ∧ wa_child s' = Reaped
    end) never s.
Proof.
  intros Hf Hps. unfold ffps_wait. apply wp_bind.
  eapply (wp_loop _ _ (λ n _ w, (wa_intr w < n)%nat ∧ wa_child w = wa_child s)); [|clear Hf|done]; [lia|].
  intros n [] w [Hlt Hc]. rewrite <- Hc. cbn [wp wait_step]. intros [r si] w1 Hw. cbn in Hw.
  destruct (wa_intr w) as [|m].
  - destruct (wa_child w) eqn:Ec.
    + destruct Hw as (Ho & -> & Hpid & ->). cbn [bind wp Z.eqb]. rewrite Hpid. cbn.
      intros _ w2 ->. cbn. destruct (Z.eqb_spec timeout (2 ^ 32 - 1)) as [->|Ht]; cbn in Ho; [done|auto].
    + destruct Hw as (-> & -> & ->). cbn. rewrite (proj2 (Z.eqb_neq _ _) Hps). by destruct want.
    + destruct Hw as (-> & Hpid & Hcode & <- & ->). cbn. rewrite Hpid, (proj2 (Z.eqb_neq _ _) Hps). cbn.
      rewrite (proj2 (Z.eqb_neq _ _) Hcode). by destruct want.
    + destruct Hw as (-> & ->). cbn. intros e w2 [-> ->]. cbn. auto.
  - destruct Hw as (-> & ->). cbn. intros e w2 [-> ->]. cbn. split; [lia|done].
Qed.

(** ** The name of the executable *)

(** A link to [exe]: readlink() stores as much as fits, without a NUL. *)
Definition link_env (exe : cstr) : env unixE unit := λ s X e x s',
  match e in unixE X return X → Prop with
  | u_readlink _ cap => λ '(n, d), d = take (Z.to_nat cap) exe ∧ n = Z.of_nat (length d)
  | _ => λ _, True
  end x.

(** the name of the executable on Linux, for a caller's buffer of any size: a name that fits with its
    NUL is returned, and nothing else in the buffer changes; a name that does not makes the function
    store the NUL behind the end of the buffer, whichever name and buffer it is. *)
Theorem filename_linux name exe argv0 : Forall (λ c, c ≠ 0) exe →
  ((length exe < length name)%nat →
     wp (link_env exe) (ffps_filename Linux name argv0)
       (λ r _, ∃ buf, r = Some buf ∧ strz buf = exe ∧ length buf = length name ∧
          drop (S (length exe)) buf = drop (S (length exe)) name) never tt) ∧
  ((length name ≤ length exe)%nat →
     wp (link_env exe) (ffps_filename Linux name argv0) (λ _ _, False) (λ h _, h = OutOfBounds) tt).
Proof.
  intros Hnz. cbn [ffps_filename]. unfold from_link, store, mem_write. split; intros Hl; cbn [wp].
  - intros [n d] [] [-> ->]. rewrite Nat2Z.id, (take_ge exe) by lia.
    rewrite (proj2 (Z.leb_le _ _)) by lia. rewrite decide_True by lia. rewrite !Nat2Z.id, take_0. cbn [app Nat.add].
    rewrite decide_True by (rewrite length_app, length_drop; cbn; lia). cbn [wp].
    eexists. split; [done|]. rewrite take_app_length. cbn [app]. split_and!.
    + by apply strz_app.
    + rewrite length_app. cbn. rewrite length_drop, length_app, length_drop. lia.
    + rewrite drop_app_ge by lia. replace (S (length exe) - length exe)%nat with 1%nat by lia. cbn.
      rewrite drop_0, drop_app_ge, drop_drop by lia. f_equal. lia.
  - intros [n d] [] [-> ->]. rewrite Nat2Z.id.
    assert (Hd : length (take (length name) exe) = length name) by (rewrite length_take; lia).
    rewrite (proj2 (Z.leb_le _ _)) by lia. rewrite decide_True by lia. rewrite Nat2Z.id, take_0. cbn [app Nat.add].
    rewrite decide_False; [done|]. rewrite length_app, length_drop. cbn. lia.
Qed.

(** ** Witnesses *)

Definition w0 : wstate := WState 0 ∅ ∅ ∅.
Definition demo_argv : list cstr := [bytes_of "prog"; bytes_of "a b"; bytes_of "c"].

Example demo_cmdline : @cmdline RefUni demo_argv = bytes_of "prog " ++ [QUOTE] ++ bytes_of "a b" ++ [QUOTE] ++ bytes_of " c".
Proof. vm_compute. reflexivity. Qed.

Lemma argv_to_cmdln_ok_witness :
  wp (astep true) (@_ffargv_to_cmdln RefUni RefStr demo_argv) (λ r s', owns w0 r s' ∧
    match r with
    | Some b => Forall (@arg_ok RefUni) demo_argv ∧ w_str b = @cmdline RefUni demo_argv ∧
        split_args false None (w_str b) = filter (λ u, u ≠ []) (map (@utow_units RefUni) demo_argv)
    | None => true = true → ¬ Forall (@arg_ok RefUni) demo_argv ∧ ws_err s' = ERROR_INVALID_PARAMETER
    end) never w0.
Proof. apply (@argv_to_cmdln_ok RefUni RefUniLaws RefStr RefStrLaws true demo_argv w0). vm_compute. reflexivity. Defined.

Definition demo_info : ffps_execinfo := ExecInfo demo_argv (Some (bytes_of "/tmp")) [] (Some 5) None (Some 6).

Lemma exec_info_win_clean_witness :
  wp wstep (@ffps_exec_info_win RefUni RefStr (bytes_of "prog") demo_info)
    (λ ps s', new_handle FFPS_NULL_win w0 ps s') never w0.
Proof.
  apply (@exec_info_win_clean RefUni RefUniLaws RefStr RefStrLaws (bytes_of "prog") demo_info w0).
  vm_compute. reflexivity.
Defined.

Definition c0 : cstate := CState false {[0 := 100; 1 := 101; 2 := 102; 5 := 105; 6 := 106]} None [] [] None.

Lemma exec_info_child_witness :
  (2 < 5 ∧ is_Some (cs_fds c0 !! 5)) ∧
  wp (cstep (λ _, true)) (ffps_exec_info (bytes_of "prog") demo_info) (λ p _, p ≠ 0)
    (λ h s', h = Exited ∧ ∃ im, cs_execs s' = [im] ∧ im_dir im = Some (bytes_of "/tmp") ∧
       im_fds im !! 0 = Some 105 ∧ im_fds im !! 1 = Some 101 ∧ im_fds im !! 2 = Some 106) c0.
Proof.
  split; [split; [lia|by eexists]|].
  eapply wp_mono; [apply (exec_info_child (λ _, true) (bytes_of "prog") demo_info c0);
    cbn; first [exact I | split; [lia|by eexists]]|by intros ? ? []|].
  intros h s' (-> & _ & _ & im & H1 & _ & _ & _ & H2 & _ & H3 & H4 & H5 & _).
  split; [done|]. exists im. by rewrite H2, H3, H4, H5.
Defined.

Lemma wait_ok_witness :
  wp (wait_env 7) (ffps_wait 3 7 (2 ^ 32 - 1) true) (λ '(r, code) s',
    r = 0 ∧ code = Some (- 9) ∧ wa_child s' = Reaped) never (WaitState 2 (KilledBy 9) 0).
Proof. apply (wait_ok 3 7 (2 ^ 32 - 1) true (WaitState 2 (KilledBy 9) 0)); [cbn; lia|lia]. Defined.

Lemma filename_linux_witness :
  wp (link_env (bytes_of "/bin/a")) (ffps_filename Linux (replicate 6 1) []) (λ _ _, False)
    (λ h _, h = OutOfBounds) tt.
Proof.
  assert (H : Forall (λ c, c ≠ 0) (bytes_of "/bin/a")) by (cbn; repeat constructor; lia).
  apply (proj2 (filename_linux (replicate 6 1) (bytes_of "/bin/a") [] H)). cbn. lia.
Defined.
