(* ===== verification/Pipe.v ===== *)
(** * FFOS/pipe.h: unnamed and named pipes

    On UNIX a named pipe is a stream socket of the family AF_UNIX: its address is the list of the
    bytes of sockaddr_un (two bytes of family, 108 of path).  On Windows an asynchronous accept has
    the task record of the sockets. *)
From S2P Require Import Prelude Prog Unix Win StringW Socket SocketWin.

Definition FFPIPE_ASYNC := 2.

(** ** Windows *)

Definition FFPIPE_NULL_win := INVALID_HANDLE_VALUE.
Definition FFPIPE_NONBLOCK_win := 1.
Definition FFPIPE_EINPROGRESS_win := ERROR_IO_PENDING.
Definition PIPE_NOWAIT := 1.
Definition PIPE_READMODE_BYTE := 0.
Definition PIPE_ACCESS_DUPLEX := 3.

Section win.
Context `{FfUni}.

(** The result (0: success), the two ends. *)
Definition ffpipe_create_win : prog winE (Z * (Z * Z)) :=
  let! '(ok, p) := CreatePipe in Ret (b2z (negb ok), p).

Definition ffpipe_nonblock_win (p nonblock : Z) : prog winE Z :=
  let mode := Z.lor PIPE_READMODE_BYTE (if truthy nonblock then PIPE_NOWAIT else 0) in
  let! ok := SetNamedPipeHandleState p mode in Ret (b2z (negb ok)).

Definition ffpipe_create2_win (flags : Z) : prog winE (Z * (Z * Z)) :=
  let* '(r, (rd, wr)) := ffpipe_create_win in
  if negb (r =? 0) then Ret (-1, (rd, wr)) else
  if has flags FFPIPE_NONBLOCK_win then
    let* r := ffpipe_nonblock_win rd 1 in
    let* r := if negb (r =? 0) then Ret r else ffpipe_nonblock_win wr 1 in
    if negb (r =? 0) then
      do! CloseHandle rd in do! CloseHandle wr in Ret (-1, (rd, wr))
    else Ret (0, (rd, wr))
  else Ret (0, (rd, wr)).

Definition ffpipe_create_named_win (name : cstr) (flags : Z) : prog winE Z :=
  if has flags FFPIPE_NONBLOCK_win then wfail ERROR_INVALID_PARAMETER FFPIPE_NULL_win else
  let* w := ffsz_alloc_buf_utow (Some 256) name in
  match w with None => Ret FFPIPE_NULL_win | Some w =>
  let f := if has flags FFPIPE_ASYNC then FILE_FLAG_OVERLAPPED else 0 in
  let! p := CreateNamedPipeW (w_str w) (Z.lor (Z.lor PIPE_ACCESS_DUPLEX FILE_FLAG_FIRST_PIPE_INSTANCE) f) 0 in
  wbuf_free w (Ret p) end.

Definition ffpipe_peer_close_win (p : Z) : prog winE unit := do! DisconnectNamedPipe p in Ret tt.
Definition ffpipe_close_win (p : Z) : prog winE unit := do! CloseHandle p in Ret tt.

Definition ffpipe_accept_win (listen_pipe : Z) : prog winE Z :=
  let! b := ConnectNamedPipe listen_pipe None in
  if negb b then
    let! e := GetLastError in
    if e =? ERROR_PIPE_CONNECTED then Ret listen_pipe else Ret FFPIPE_NULL_win
  else Ret listen_pipe.

Definition ffpipe_accept_async_win (listen_pipe : Z) (task : task_win) : prog winE (Z * task_win) :=
  if truthy (tw_active task) then
    let* r := ovl_check (tw_ovl task) in
    match r with
    | Pending => Ret (FFPIPE_NULL_win, task)
    | Failed => Ret (FFPIPE_NULL_win, set_tw_active 0 task)
    | Finished _ => Ret (listen_pipe, set_tw_active 0 task)
    end
  else
    let task := TaskWin (tw_ovl task) 0 0 in     (* ffmem_zero_obj(task) *)
    let! b := ConnectNamedPipe listen_pipe (Some (tw_ovl task)) in
    if negb b then
      let! e := GetLastError in
      if e =? ERROR_PIPE_CONNECTED then Ret (listen_pipe, task)
      else Ret (FFPIPE_NULL_win, set_tw_active (if negb (e =? ERROR_IO_PENDING) then 0 else 1) task)
    else Ret (FFPIPE_NULL_win, set_tw_active 1 task).

Definition ffpipe_connect_win (name : cstr) : prog winE Z :=
  let* w := ffsz_alloc_buf_utow (Some 256) name in
  match w with None => Ret FFPIPE_NULL_win | Some w =>
  let! p := CreateFileW (w_str w) (Z.lor GENERIC_READ GENERIC_WRITE) (Z.lor FILE_SHARE_READ FILE_SHARE_WRITE)
              OPEN_EXISTING 0 in
  wbuf_free w (Ret p) end.

Definition ffpipe_read_win (p cap : Z) : prog winE (Z * list Z) :=
  let! '(ok, (rd, d)) := ReadFile p (Z.min cap (2 ^ 32 - 1)) None in
  if negb ok then
    let! e := GetLastError in
    if e =? ERROR_BROKEN_PIPE then Ret (0, [])
    else if e =? ERROR_NO_DATA then wfail WSAEWOULDBLOCK (-1, [])
    else Ret (-1, [])
  else Ret (rd, d).

Definition ffpipe_write_win (p : Z) (data : list Z) : prog winE Z :=
  let! '(ok, wr) := WriteFile p (take (Z.to_nat (2 ^ 32 - 1)) data) None in
  Ret (if ok : bool then wr else -1).
End win.

(** ** UNIX *)

Definition FFPIPE_NULL := -1.
Definition FFPIPE_NONBLOCK := O_NONBLOCK.
Definition FFPIPE_EINPROGRESS := EINPROGRESS.
Definition AF_UNIX := 1.
Definition SOCK_STREAM_unix := 1.
Definition sizeof_sun_path : nat := 108.

Definition ffpipe_nonblock (p nonblock : Z) : prog unixE Z := call (u_ioctl_fionbio p nonblock).

(** The result, the two ends. *)
Definition ffpipe_create2 (os : unix_os) (flags : Z) : prog unixE (Z * (Z * Z)) :=
  match os with
  | Apple =>
      let! '(r, (rd, wr)) := u_pipe2 0 in          (* pipe() *)
      if negb (r =? 0) then Ret (-1, (rd, wr)) else
      if has flags FFPIPE_NONBLOCK then
        let* r := ffpipe_nonblock rd 1 in
        let* r := if negb (r =? 0) then Ret r else ffpipe_nonblock wr 1 in
        if negb (r =? 0) then do! u_close rd in do! u_close wr in Ret (-1, (rd, wr))
        else Ret (0, (rd, wr))
      else Ret (0, (rd, wr))
  | _ =>
      let! '(r, (rd, wr)) := u_pipe2 flags in
      if negb (r =? 0) then Ret (-1, (rd, wr)) else Ret (0, (rd, wr))
  end.
Definition ffpipe_create (os : unix_os) : prog unixE (Z * (Z * Z)) := ffpipe_create2 os 0.

(** [struct sockaddr_un] of a name; [None]: EINVAL.  A copy outside of the path would be a fault. *)
Definition sun_addr (name : cstr) : prog unixE (option (list Z)) :=
  let len := Z.of_nat (length name) in
  if Z.of_nat sizeof_sun_path <? len + 1 then fail EINVAL None else
  match mem_write (replicate sizeof_sun_path 0) 0 (name ++ [0]) with
  | None => Halt OutOfBounds
  | Some path => Ret (Some (le16 AF_UNIX ++ path))
  end.

Definition ffpipe_create_named (name : cstr) (flags : Z) : prog unixE Z :=
  let* a := sun_addr name in
  match a with None => Ret FFPIPE_NULL | Some a =>
  let! p := u_socket AF_UNIX SOCK_STREAM_unix 0 in
  if p =? FFPIPE_NULL then Ret FFPIPE_NULL else
  let err := do! u_close p in Ret FFPIPE_NULL in
  let* r := if has flags (Z.lor FFPIPE_NONBLOCK FFPIPE_ASYNC) then ffpipe_nonblock p 1 else Ret 0 in
  if negb (r =? 0) then err else
  let! r := u_bind p a in
  if negb (r =? 0) then err else
  let! r := u_listen p 0 in
  if negb (r =? 0) then err else Ret p end.

Definition ffpipe_close (p : Z) : prog unixE unit := do! u_close p in Ret tt.
Definition ffpipe_peer_close (p : Z) : prog unixE unit := do! u_close p in Ret tt.

Definition ffpipe_connect (name : cstr) : prog unixE Z :=
  let* a := sun_addr name in
  match a with None => Ret FFPIPE_NULL | Some a =>
  let! p := u_socket AF_UNIX SOCK_STREAM_unix 0 in
  if p =? -1 then Ret FFPIPE_NULL else
  let! r := u_connect p a in
  if negb (r =? 0) then do! u_close p in Ret FFPIPE_NULL else Ret p end.

Definition ffpipe_accept (listen_pipe : Z) : prog unixE Z :=
  let! '(c, _) := u_accept listen_pipe 0 in Ret c.

Definition ffpipe_accept_async (listen_pipe : Z) (task : ffkq_task) : prog unixE Z :=
  let! '(c, _) := u_accept listen_pipe 0 in
  if c =? -1 then
    let! e := get_errno in
    if e =? EAGAIN then fail EINPROGRESS (-1) else Ret (-1)
  else Ret c.

Definition ffpipe_read (p size : Z) : prog unixE (Z * list Z) := call (u_read p size).
Definition ffpipe_write (p : Z) (buf : list Z) : prog unixE Z := call (u_write p buf).

(** ** No pipe is lost *)

(** Both ends are new and open, or nothing is. *)
Definition new_pipe (s : ustate) : Z * (Z * Z) → ustate → Prop := λ '(r, (rd, wr)) s',
  us_mem s' = us_mem s ∧ us_dirs s' = us_dirs s ∧
  ((r = -1 ∧ us_fds s' = us_fds s) ∨
   (r = 0 ∧ rd ≠ wr ∧ (rd ∉ us_fds s) ∧ (wr ∉ us_fds s) ∧ us_fds s' = {[rd; wr]} ∪ us_fds s)).

Definition new_pipe_win (s : wstate) : Z * (Z * Z) → wstate → Prop := λ '(r, (rd, wr)) s',
  ws_mem s' = ws_mem s ∧ ws_socks s' = ws_socks s ∧
  ((r = -1 ∧ ws_handles s' = ws_handles s) ∨
   (r = 0 ∧ rd ≠ wr ∧ (rd ∉ ws_handles s) ∧ (wr ∉ ws_handles s) ∧ ws_handles s' = {[rd; wr]} ∪ ws_handles s)).

Lemma sun_addr_wp name s :
  wp ustep (sun_addr name) (λ a s', same s s' ∧
    match a with
    | Some a => length a = 110%nat ∧ (length name < sizeof_sun_path)%nat
    | None => us_errno s' = EINVAL ∧ (sizeof_sun_path ≤ length name)%nat
    end) never s.
Proof.
  unfold sun_addr. destruct (Z.ltb_spec (Z.of_nat sizeof_sun_path) (Z.of_nat (length name) + 1)).
  - cbn [wp fail]. intros _ s1 [He Hs]. split_and!; [done|done|lia].
  - destruct (mem_write_ok (replicate sizeof_sun_path 0) 0 (name ++ [0])) as (path & -> & Hl & _).
    { rewrite length_app, length_replicate. cbn. lia. }
    cbn [wp]. split_and!; [done| |lia]. rewrite length_app, Hl, length_replicate. done.
Qed.

Lemma create2_wp os flags s : wp ustep (ffpipe_create2 os flags) (new_pipe s) never s.
Proof.
  assert (Hok : ∀ r rd wr s1, us_mem s1 = us_mem s → us_dirs s1 = us_dirs s →
    (r = -1 ∧ us_fds s1 = us_fds s ∨ r = 0 ∧ 0 ≤ rd ∧ 0 ≤ wr ∧ rd ≠ wr ∧ (rd ∉ us_fds s) ∧ (wr ∉ us_fds s) ∧
      us_fds s1 = {[rd; wr]} ∪ us_fds s) →
    ∀ s2, same s1 s2 → new_pipe s (r, (rd, wr)) s2).
  { intros r rd wr s1 E1 E2 E3 s2 (F1 & F2 & F3 & _). unfold new_pipe. rewrite F1, F2, F3.
    split_and!; [done..|]. destruct E3 as [?|(? & ? & ? & ? & ? & ? & ?)]; auto 10. }
  assert (Hfail : ∀ rd wr s1 s2 s3, (rd ∉ us_fds s) → (wr ∉ us_fds s) →
    us_mem s1 = us_mem s → us_dirs s1 = us_dirs s → us_fds s1 = {[rd; wr]} ∪ us_fds s →
    same s1 s2 → ∀ s4, us_mem s3 = us_mem s2 ∧ us_dirs s3 = us_dirs s2 ∧ us_fds s3 = (us_fds s2 ∖ {[rd]}) →
    us_mem s4 = us_mem s3 ∧ us_dirs s4 = us_dirs s3 ∧ us_fds s4 = (us_fds s3 ∖ {[wr]}) →
    new_pipe s (-1, (rd, wr)) s4).
  { intros rd wr s1 s2 s3 H1 H2 E1 E2 E3 (F1 & F2 & F3 & _) s4 (G1 & G2 & G3) (I1 & I2 & I3).
    unfold new_pipe. split_and!; [congruence..|]. left. split; [done|]. rewrite I3, G3, F1, E3.
    clear -H1 H2. set_solver. }
  assert (Hdef : ∀ flags, wp ustep (let! '(r, (rd, wr)) := u_pipe2 flags in
    if negb (r =? 0) then Ret (-1, (rd, wr)) else Ret (0, (rd, wr))) (new_pipe s) never s).
  { intros fl. cbn [wp]. intros [r [rd wr]] s1 (E1 & E2 & _ & _ & E3). cbn in E3.
    destruct E3 as [[-> E3]|(-> & E3)]; cbn [Z.eqb negb wp]; apply (Hok _ rd wr s1 E1 E2); auto 10; apply same_refl. }
  destruct os; try apply Hdef. cbn [ffpipe_create2 wp]. intros [r [rd wr]] s1 (E1 & E2 & _ & _ & E3). cbn in E3.
  destruct E3 as [[-> E3]|(-> & E3)]; cbn [Z.eqb negb wp];
    [apply (Hok _ rd wr s1 E1 E2); auto; apply same_refl|].
  destruct (has flags FFPIPE_NONBLOCK); [|apply (Hok _ rd wr s1 E1 E2); auto; apply same_refl].
  destruct E3 as (Hr & Hw & Hne & Hnr & Hnw & E3). cbn. intros r1 s2 H2.
  destruct (negb (r1 =? 0)) eqn:E; cbn; [rewrite E|].
  - intros ? s3 (G1 & G2 & _ & _ & G5) ? s4 (I1 & I2 & _ & _ & I5).
    by eapply (Hfail rd wr s1 s2 s3).
  - intros r2 s3 H3. assert (same s1 s3) by by eapply same_trans. destruct (negb (r2 =? 0)); cbn.
    + intros ? s4 (G1 & G2 & _ & _ & G5) ? s5 (I1 & I2 & _ & _ & I5).
      by eapply (Hfail rd wr s1 s3 s4).
    + apply (Hok _ rd wr s1 E1 E2); auto 10.
Qed.

Lemma create_named_wp name flags s : wp ustep (ffpipe_create_named name flags) (new_fd s) never s.
Proof.
  unfold ffpipe_create_named. apply wp_bind. eapply wp_mono; [apply sun_addr_wp| |done].
  intros [a|] s1 [Hs1 _]; cbn [wp].
  2: { destruct Hs1 as (? & ? & ? & ? & ?). unfold new_fd. auto 10. }
  intros p s2 H2. assert (H2' : new_fd s p s2) by (eapply new_fd_of; [exact Hs1|exact H2|apply same_refl]).
  unfold FFPIPE_NULL. destruct (Z.eqb_spec p (-1)) as [->|Hp]; [exact H2'|].
  assert (Herr : ∀ s3, same s2 s3 → wp ustep (do! u_close p in Ret (-1)) (new_fd s) never s3).
  { intros s3 H3. cbn [wp]. intros r s4 H4. by eapply closed_fd. }
  apply wp_bind. eapply (wp_mono _ _ (λ _ s3, same s2 s3)); [|cbn beta|done].
  { destruct (has _ _); cbn; [by intros r s3 ?|apply same_refl]. }
  intros r s3 H3. destruct (negb (r =? 0)); [by apply Herr|].
  cbn [wp]. intros r2 s4 H4. assert (same s2 s4) by by eapply same_trans.
  destruct (negb (r2 =? 0)); [by apply Herr|].
  cbn [wp]. intros r3 s5 H5. assert (same s2 s5) by by eapply same_trans.
  destruct (negb (r3 =? 0)); [by apply Herr|]. cbn [wp].
  eapply new_fd_of; [apply same_refl|exact H2'|done].
Qed.

Lemma connect_wp name s : wp ustep (ffpipe_connect name) (new_fd s) never s.
Proof.
  unfold ffpipe_connect. apply wp_bind. eapply wp_mono; [apply sun_addr_wp| |done].
  intros [a|] s1 [Hs1 _]; cbn [wp].
  2: { destruct Hs1 as (? & ? & ? & ? & ?). unfold new_fd. auto 10. }
  intros p s2 H2. assert (H2' : new_fd s p s2) by (eapply new_fd_of; [exact Hs1|exact H2|apply same_refl]).
  destruct (Z.eqb_spec p (-1)) as [->|Hp]; [exact H2'|].
  cbn [wp]. intros r s3 H3. destruct (negb (r =? 0)); cbn [wp].
  - intros r2 s4 H4. by eapply closed_fd.
  - eapply new_fd_of; [apply same_refl|exact H2'|done].
Qed.

(** pipes on UNIX, every system: an unnamed pipe leaves both ends open or none; a named pipe, a
    connection and an accepted connection leave exactly the returned descriptor open, and nothing when an
    error is returned, at whichever step; a name longer than the address is refused before it is copied;
    an asynchronous accept that would block reports EINPROGRESS and never EAGAIN. *)
Theorem pipes_no_leak os name flags p task s :
  wp ustep (ffpipe_create2 os flags) (new_pipe s) never s ∧
  wp ustep (ffpipe_create_named name flags)
    (λ r s', new_fd s r s' ∧ ((sizeof_sun_path ≤ length name)%nat → r = -1 ∧ us_errno s' = EINVAL)) never s ∧
  wp ustep (ffpipe_connect name) (new_fd s) never s ∧
  wp ustep (ffpipe_accept_async p task)
    (λ r s', new_fd s r s' ∧ (r = -1 → us_errno s' ≠ EAGAIN)) never s.
Proof.
  split_and!; [apply create2_wp| |apply connect_wp|].
  - pose proof (create_named_wp name flags s) as H. revert H. unfold ffpipe_create_named, sun_addr.
    destruct (Z.ltb_spec (Z.of_nat sizeof_sun_path) (Z.of_nat (length name) + 1)) as [Hl|Hl].
    + cbn. intros H x s1 Hs. split; [by apply (H x s1)|]. by destruct Hs.
    + intros H. eapply wp_mono; [exact H| |done]. intros r s1 Hn. split; [done|]. lia.
  - unfold ffpipe_accept_async. cbn [wp]. intros [c d] s1 H1. cbn in H1.
    destruct (Z.eqb_spec c (-1)) as [->|Hc]; cbn [wp]; [|done].
    intros e s2 [-> ->]. destruct (Z.eqb_spec (us_errno s1) EAGAIN) as [He|He]; cbn [wp fail].
    + intros ? s3 [He3 Hs3]. split; [|by rewrite He3].
      eapply new_fd_of; [apply same_refl|exact H1|exact Hs3].
    + done.
Qed.

(** ** Windows *)

Section win_properties.
Context `{U : FfUni}.

Lemma create2_win_wp flags s : wp wstep (ffpipe_create2_win flags) (new_pipe_win s) never s.
Proof.
  unfold ffpipe_create2_win, ffpipe_create_win. cbn [wp bind]. intros [ok [rd wr]] s1 (E1 & E2 & E3). cbn in E3.
  destruct E3 as [[-> E3]|(-> & Hr & Hw & Hne & Hnr & Hnw & E3)]; cbn -[new_pipe_win].
  { unfold new_pipe_win. auto 10. }
  assert (Hok : ∀ s2, wsame s1 s2 → new_pipe_win s (0, (rd, wr)) s2).
  { intros s2 (F1 & F2 & F3). unfold new_pipe_win. rewrite F1, F2, F3. split_and!; auto 10. }
  assert (Herr : ∀ s2, wsame s1 s2 →
    wp wstep (do! CloseHandle rd in do! CloseHandle wr in Ret (-1, (rd, wr))) (new_pipe_win s) never s2).
  { intros s2 (F1 & F2 & F3). cbn [wp]. intros ? s3 (G1 & G2 & G3) ? s4 (I1 & I2 & I3). unfold new_pipe_win.
    split_and!; [congruence..|]. left. split; [done|]. rewrite I3, G3, F1, E3. clear -Hnr Hnw. set_solver. }
  destruct (has flags FFPIPE_NONBLOCK_win); [|by apply Hok].
  cbn -[new_pipe_win]. intros b1 s2 H2. destruct b1; cbn -[new_pipe_win].
  - intros b2 s3 H3. assert (wsame s1 s3) by by eapply wsame_trans. destruct b2; [by apply Hok|by apply Herr].
  - by apply Herr.
Qed.

(** pipes on Windows: an unnamed pipe leaves both ends open or none; a named pipe and a connection
    leave the returned handle open only, and no memory. *)
Theorem pipes_win_no_leak name flags s :
  wp wstep (ffpipe_create2_win flags) (new_pipe_win s) never s ∧
  wp wstep (ffpipe_create_named_win name flags) (new_handle FFPIPE_NULL_win s) never s ∧
  wp wstep (ffpipe_connect_win name) (new_handle FFPIPE_NULL_win s) never s.
Proof.
  split_and!; [apply create2_win_wp| |].
  - unfold ffpipe_create_named_win. destruct (has flags FFPIPE_NONBLOCK_win).
    { cbn [wp wfail]. intros ? s1 [_ Hs]. by apply new_handle_none. }
    apply with_name_wp; [by apply new_handle_none|]. intros w s1 Ho. cbn [wp]. intros p s2 H2.
    by eapply release_handle_wp.
  - apply with_name_wp; [by apply new_handle_none|]. intros w s1 Ho. cbn [wp]. intros p s2 H2.
    by eapply release_handle_wp.
Qed.
End win_properties.

(** an asynchronous accept on a Windows pipe, from a task whose flag is 0 or 1: nothing is opened.
    The pipe is returned exactly when the task is not active any more and a client is connected: the
    pending operation has finished, or there is a client already.  While it is pending the flag stays 1,
    and the error is ERROR_IO_PENDING (given that ConnectNamedPipe() on an overlapped pipe fails with it,
    as documented); after a failure the flag is 0. *)
Theorem pipe_accept_async_win pipe task s : pipe ≠ FFPIPE_NULL_win →
  tw_active task = 0 ∨ tw_active task = 1 →
  wp (λ s X e x s', wstep s X e x s' ∧
       match e in winE X return X → Prop with ConnectNamedPipe _ (Some _) => λ b, b = false | _ => λ _, True end x)
    (ffpipe_accept_async_win pipe task)
    (λ '(r, t) s', wsame s s' ∧
       ((r = pipe ∧ tw_active t = 0) ∨
        (r = FFPIPE_NULL_win ∧ tw_active t = 1 ∧ ws_err s' = ERROR_IO_PENDING) ∨
        (r = FFPIPE_NULL_win ∧ tw_active t = 0))) never s.
Proof.
  intros Hp Ht. unfold ffpipe_accept_async_win, ovl_check. destruct (truthy (tw_active task)) eqn:Ea.
  - assert (tw_active task = 1) by (destruct Ht as [E|E]; [by rewrite E in Ea|done]). cbn [wp bind].
    intros [ok n] s1 [Hs1 _]. destruct ok; cbn [wp bind]; [auto|].
    intros e s2 [[-> ->] _]. destruct (_ =? _); cbn [wp bind]; [|auto].
    intros ? s3 [[He Hs3] _]. split; [by eapply wsame_trans|auto].
  - cbn [wp]. intros b s1 [Hs1 ->]. cbn [negb wp]. intros e s2 [[-> ->] _].
    destruct (ws_err s1 =? ERROR_PIPE_CONNECTED); cbn [wp]; [auto|].
    destruct (Z.eqb_spec (ws_err s1) ERROR_IO_PENDING); cbn; auto 10.
Qed.

Lemma pipe_accept_async_win_witness : ∃ t,
  wp (λ s X e x s', wstep s X e x s' ∧
       match e in winE X return X → Prop with ConnectNamedPipe _ (Some _) => λ b, b = false | _ => λ _, True end x)
    (ffpipe_accept_async_win 8 t)
    (λ '(r, t') s', wsame (WState 0 {[8]} ∅ ∅) s' ∧
       ((r = 8 ∧ tw_active t' = 0) ∨
        (r = FFPIPE_NULL_win ∧ tw_active t' = 1 ∧ ws_err s' = ERROR_IO_PENDING) ∨
        (r = FFPIPE_NULL_win ∧ tw_active t' = 0))) never (WState 0 {[8]} ∅ ∅).
Proof.
  exists (TaskWin 1 0 0).
  apply (pipe_accept_async_win 8 (TaskWin 1 0 0) (WState 0 {[8]} ∅ ∅)); [done|by left].
Defined.
