(* ===== verification/Netlink.v ===== *)
(** * FFOS/netlink.h: sockets, requests and messages of the Linux netlink protocol

    A received buffer is the list of its bytes; an [ffstr] into it is a [span].  The macros NLMSG_* and
    RTA_* of the Linux headers are written out at their integer widths.  A read outside of the buffer is
    a fault ([None]). *)
From S2P Require Import Prelude Prog Unix Bytes.

Definition AF_NETLINK := 16.
Definition SOCK_DGRAM_nl := 2.
Definition NLM_F_REQUEST := 1.
Definition NLM_F_DUMP := 768.
Definition MSG_TRUNC := 32.
Definition FFSOCK_NULL_nl := -1.

(** [struct sockaddr_nl] *)
Definition sockaddr_nl (groups : Z) : list Z := le 2 AF_NETLINK ++ le 2 0 ++ le 4 0 ++ le 4 groups.

Definition ffnetlink_create (proto groups flags : Z) : prog unixE Z :=
  let! nl := u_socket AF_NETLINK (Z.lor SOCK_DGRAM_nl flags) proto in
  if nl =? -1 then Ret (-1) else
  let! r := u_bind nl (sockaddr_nl groups) in
  if negb (r =? 0) then do! u_close nl in Ret (-1) else Ret nl.

Definition ffnetlink_close (nl : Z) : prog unixE unit :=
  if nl =? -1 then Ret tt else do! u_close nl in Ret tt.

Definition NLMSG_HDRLEN := 16.
Definition NLMSG_LENGTH (len : Z) : Z := u32 (len + NLMSG_HDRLEN).

(** [struct nlmsghdr] *)
Record nlmsghdr := NlHdr { nlmsg_len : Z; nlmsg_type : Z; nlmsg_flags : Z; nlmsg_seq : Z; nlmsg_pid : Z }.
Definition nl_bytes (h : nlmsghdr) : list Z :=
  le 4 (nlmsg_len h) ++ le 2 (nlmsg_type h) ++ le 2 (nlmsg_flags h) ++ le 4 (nlmsg_seq h) ++ le 4 (nlmsg_pid h).

Definition _ffnetlink_hdr_set (type body_len seq : Z) : nlmsghdr :=
  NlHdr (NLMSG_LENGTH body_len) (u16 type) (Z.lor NLM_F_REQUEST NLM_F_DUMP) seq 0.

(** [_ffnetlink_msg_set]: the address and the vector of a message. *)
Definition _ffnetlink_msg_set (iov : list (list Z)) : list Z * list (list Z) := (sockaddr_nl 0, iov).

Definition ffnetlink_send (nl type : Z) (d : list Z) (seq : Z) : prog unixE Z :=
  let n := Z.of_nat (length d) in
  let h := _ffnetlink_hdr_set type (u32 n) seq in
  let '(addr, iov) := _ffnetlink_msg_set [nl_bytes h; d] in
  let! r := u_sendmsg nl addr iov in
  if negb (16 + n =? u32 r) then Ret (-1) else Ret 0.

Definition ffnetlink_recv (nl n : Z) : prog unixE (Z * list Z) :=
  let! '(r, d, flags) := u_recvmsg nl n in
  let r := s32 r in
  if r <=? 0 then Ret (r, d) else
  if has flags MSG_TRUNC then fail EMSGSIZE (-1, d) else Ret (r, d).

(** [NLMSG_ALIGN] and [RTA_ALIGN] are unsigned 32-bit expressions. *)
Definition NLMSG_ALIGN (len : Z) : Z := Z.ldiff (u32 (len + 3)) 3.
Definition NLMSG_SPACE (len : Z) : Z := NLMSG_ALIGN (NLMSG_LENGTH len).

(** The result: the offset of the header (if there is a message), the rest of the buffer, the body. *)
Definition ffnetlink_next (mem : list Z) (buf : span) : option (option Z * span * span) :=
  let nh := sp_off buf in
  if sp_len buf <? 16 then Some (None, buf, Span 0 0) else
  len ← rd 4 mem nh;
  if (len <? 16) || (sp_len buf <? len) then Some (None, buf, Span 0 0) else
  let buf' := shift buf (NLMSG_ALIGN len) in
  Some (Some nh, buf', Span (nh + NLMSG_HDRLEN) (u32 (len - NLMSG_SPACE 4))).

Definition ffnetlink_rtattr_next (mem : list Z) (buf : span) : option (option Z * span * span) :=
  let a := sp_off buf in
  if sp_len buf <? 4 then Some (None, buf, Span 0 0) else
  len ← rd 2 mem a;
  if (len <? 4) || (sp_len buf <? len) then Some (None, buf, Span 0 0) else
  let buf' := shift buf (NLMSG_ALIGN len) in
  Some (Some a, buf', Span (a + 4) (len - 4)).

(** The header at an offset, and the type of an attribute, as a caller reads them. *)
Definition nl_hdr (mem : list Z) (nh : Z) : option nlmsghdr :=
  l ← rd 4 mem nh; t ← rd 2 mem (nh + 4); f ← rd 2 mem (nh + 6); s ← rd 4 mem (nh + 8);
  p ← rd 4 mem (nh + 12); Some (NlHdr l t f s p).
Definition rta_type (mem : list Z) (a : Z) : option Z := rd 2 mem (a + 2).

(** The loop of a caller: every attribute with its bytes, until NULL. *)
Fixpoint attributes (fuel : nat) (mem : list Z) (buf : span) : option (list (Z * list Z)) :=
  match fuel with
  | O => None
  | S fuel =>
      '(a, buf', body) ← ffnetlink_rtattr_next mem buf;
      match a with
      | None => Some []
      | Some a =>
          t ← rta_type mem a; d ← span_bytes mem body; l ← attributes fuel mem buf'; Some ((t, d) :: l)
      end
  end.

(** ** Messages as they are sent *)

(** An attribute: a 16-bit type and at most 65531 bytes. *)
Definition attr_ok (a : Z * list Z) : Prop := 0 ≤ a.1 < 65536 ∧ Z.of_nat (length a.2) + 4 < 65536.
Definition attr_bytes (a : Z * list Z) : list Z :=
  le 2 (Z.of_nat (length a.2) + 4) ++ le 2 a.1 ++ a.2 ++ padding (length a.2).
Definition attrs_bytes (l : list (Z * list Z)) : list Z := concat (map attr_bytes l).

Lemma NLMSG_ALIGN_spec len : 0 ≤ len < 2 ^ 32 - 3 → NLMSG_ALIGN len = align4 len.
Proof. intros H. unfold NLMSG_ALIGN, align4. rewrite u32_small; [done|]. unfold is_u32. lia. Qed.

Lemma length_attr_bytes a : Z.of_nat (length (attr_bytes a)) = align4 (Z.of_nat (length a.2) + 4).
Proof.
  unfold attr_bytes. rewrite !length_app, !length_le. pose proof (length_padding (length a.2)) as H.
  rewrite align4_spec in *. dlia.
Qed.

(** One attribute of a buffer that has room for it. *)
Lemma rtattr_next_ok pre a post len : attr_ok a →
  Z.of_nat (length a.2) + 4 ≤ len < 2 ^ 64 →
  let mem := pre ++ attr_bytes a ++ post in
  ∃ body, ffnetlink_rtattr_next mem (Span (Z.of_nat (length pre)) len) =
      Some (Some (Z.of_nat (length pre)),
            Span (Z.of_nat (length (pre ++ attr_bytes a))) (u64 (len - Z.of_nat (length (attr_bytes a)))), body) ∧
    rta_type mem (Z.of_nat (length pre)) = Some a.1 ∧ span_bytes mem body = Some a.2.
Proof.
  intros [Ht Hl] Hlen mem. unfold ffnetlink_rtattr_next. cbn [sp_len sp_off].
  rewrite (proj2 (Z.ltb_ge _ _)) by lia.
  assert (rd 2 mem (Z.of_nat (length pre)) = Some (Z.of_nat (length a.2) + 4)) as ->.
  { unfold mem, attr_bytes. rewrite <- !app_assoc. apply rd_at; [done|]. change (256 ^ Z.of_nat 2) with 65536. lia. }
  cbn [mbind option_bind]. rewrite (proj2 (Z.ltb_ge _ _)), (proj2 (Z.ltb_ge _ _)) by lia. cbn [orb].
  eexists. split_and!.
  - unfold shift. cbn [sp_off sp_len]. rewrite NLMSG_ALIGN_spec, <- length_attr_bytes by lia.
    by rewrite length_app, Nat2Z.inj_add.
  - unfold rta_type, mem, attr_bytes. rewrite <- !app_assoc, app_assoc.
    apply rd_at; [rewrite length_app, length_le; lia|]. change (256 ^ Z.of_nat 2) with 65536. lia.
  - unfold mem, attr_bytes. rewrite <- !app_assoc.
    rewrite (app_assoc pre), (app_assoc (pre ++ _)). apply span_bytes_at; cbn [sp_off sp_len]; [|lia].
    rewrite !length_app, !length_le. lia.
Qed.

(** A buffer of attributes, and what is left of it behind them. *)
Lemma attributes_ok l mem eoff elen : ∀ pre post len fuel, Forall attr_ok l → (length l < fuel)%nat →
  mem = pre ++ attrs_bytes l ++ post → len < 2 ^ 63 → 0 ≤ elen →
  eoff = Z.of_nat (length pre + length (attrs_bytes l)) → len = elen + Z.of_nat (length (attrs_bytes l)) →
  (∃ b, ffnetlink_rtattr_next mem (Span eoff elen) = Some (None, Span eoff elen, b)) →
  attributes fuel mem (Span (Z.of_nat (length pre)) len) = Some l.
Proof.
  induction l as [|a l IH]; intros pre post len fuel Hok Hf Hmem Hlen He Ho Hl Hend;
    destruct fuel as [|fuel]; cbn [length] in Hf; try lia; cbn [attributes].
  - change (attrs_bytes []) with (@nil Z) in *. cbn [length] in Ho, Hl. destruct Hend as [b Hend].
    replace (Z.of_nat (length pre)) with eoff by lia. replace len with elen by lia. by rewrite Hend.
  - change (attrs_bytes (a :: l)) with (attr_bytes a ++ attrs_bytes l) in *. inversion_clear Hok as [|?? Ha Hok'].
    rewrite length_app in Ho, Hl. pose proof (length_attr_bytes a) as Hla. rewrite align4_spec in Hla.
    rewrite <- app_assoc in Hmem.
    destruct (rtattr_next_ok pre a (attrs_bytes l ++ post) len Ha) as (body & Hn & Ht & Hb); [dlia|].
    rewrite <- Hmem in Hn, Ht, Hb. rewrite Hn. cbn [mbind option_bind]. rewrite Ht, Hb. cbn [mbind option_bind].
    rewrite u64_small by (unfold is_u64; dlia).
    rewrite (IH (pre ++ attr_bytes a) post); [by destruct a|done|lia| |lia|done| |lia|done].
    + by rewrite Hmem, <- !app_assoc.
    + rewrite length_app. lia.
Qed.

(** No room for a header, or for the attribute whose header is there. *)
Lemma rtattr_end mem off len : 0 ≤ len →
  (len < 4 ∨ ∃ n, rd 2 mem off = Some n ∧ len < n) →
  ∃ b, ffnetlink_rtattr_next mem (Span off len) = Some (None, Span off len, b).
Proof.
  intros H0 H. unfold ffnetlink_rtattr_next. cbn [sp_len sp_off]. eexists.
  destruct (Z.ltb_spec len 4); [done|]. destruct H as [?|(n & -> & Hn)]; [lia|].
  cbn [mbind option_bind]. rewrite (proj2 (Z.ltb_lt len n)) by lia. by rewrite orb_true_r.
Qed.

(** the attributes of a buffer are read back: in order, each with its type and exactly its bytes, for
    any list of attributes each padded to four bytes; every read lies inside of the buffer, and the loop
    ends with NULL after as many calls as there are attributes, and one. *)
Theorem rtattr_roundtrip pre l post : Forall attr_ok l → Z.of_nat (length (attrs_bytes l)) < 2 ^ 63 →
  attributes (S (length l)) (pre ++ attrs_bytes l ++ post)
    (Span (Z.of_nat (length pre)) (Z.of_nat (length (attrs_bytes l)))) = Some l.
Proof.
  intros Hok Hlen. eapply (attributes_ok l _ _ 0 pre post); [done|lia|done|done|done|done|lia|].
  apply rtattr_end; [done|by left].
Qed.

(** A message: a header and a body, whose length the header gives; the other fields (flags, sequence number, process)
    are whatever the sender has chosen.  In a buffer a message is padded to four bytes. *)
Definition msg_ok (m : nlmsghdr * list Z) : Prop :=
  nlmsg_len m.1 = Z.of_nat (length m.2) + 16 ∧ Z.of_nat (length m.2) + 16 < 2 ^ 32 - 3 ∧
  0 ≤ nlmsg_type m.1 < 2 ^ 16 ∧ 0 ≤ nlmsg_flags m.1 < 2 ^ 16 ∧ 0 ≤ nlmsg_seq m.1 < 2 ^ 32 ∧ 0 ≤ nlmsg_pid m.1 < 2 ^ 32.
Definition message (m : nlmsghdr * list Z) : list Z := nl_bytes m.1 ++ m.2 ++ padding (length m.2).

(** The loop of a caller: every message with its header and the body that is handed out, until NULL. *)
Fixpoint messages (fuel : nat) (mem : list Z) (buf : span) : option (list (nlmsghdr * list Z)) :=
  match fuel with
  | O => None
  | S fuel =>
      '(nh, buf', body) ← ffnetlink_next mem buf;
      match nh with
      | None => Some []
      | Some nh =>
          h ← nl_hdr mem nh; d ← span_bytes mem body; l ← messages fuel mem buf'; Some ((h, d) :: l)
      end
  end.

Lemma length_nl_bytes h : length (nl_bytes h) = 16%nat.
Proof. unfold nl_bytes. by rewrite !length_app, !length_le. Qed.

Lemma length_message m : Z.of_nat (length (message m)) = align4 (Z.of_nat (length m.2) + 16).
Proof.
  unfold message. rewrite !length_app, length_nl_bytes. pose proof (length_padding (length m.2)) as H.
  rewrite align4_spec in *. dlia.
Qed.

(** A field behind [pre]. *)
Ltac rd_field pre :=
  apply (rd_field _ pre);
  [eexists; rewrite <- ?app_assoc; reflexivity
  |rewrite ?length_app; lia|done].

Lemma nl_hdr_at pre h post : 0 ≤ nlmsg_len h < 2 ^ 32 → 0 ≤ nlmsg_type h < 2 ^ 16 → 0 ≤ nlmsg_flags h < 2 ^ 16 →
  0 ≤ nlmsg_seq h < 2 ^ 32 → 0 ≤ nlmsg_pid h < 2 ^ 32 →
  nl_hdr (pre ++ nl_bytes h ++ post) (Z.of_nat (length pre)) = Some h.
Proof.
  intros H1 H2 H3 H4 H5. unfold nl_bytes. rewrite <- !app_assoc. set (mem := pre ++ _). set (off := Z.of_nat (length pre)).
  set (l := le 4 (nlmsg_len h)). set (t := le 2 (nlmsg_type h)). set (f := le 2 (nlmsg_flags h)).
  set (s := le 4 (nlmsg_seq h)).
  assert (length l = 4%nat ∧ length t = 2%nat ∧ length f = 2%nat ∧ length s = 4%nat) as (Ll & Lt & Lf & Ls)
    by (split_and!; apply length_le).
  assert (rd 4 mem off = Some (nlmsg_len h)) as E1 by rd_field pre.
  assert (rd 2 mem (off + 4) = Some (nlmsg_type h)) as E2 by rd_field (pre ++ l).
  assert (rd 2 mem (off + 6) = Some (nlmsg_flags h)) as E3 by rd_field (pre ++ l ++ t).
  assert (rd 4 mem (off + 8) = Some (nlmsg_seq h)) as E4 by rd_field (pre ++ l ++ t ++ f).
  assert (rd 4 mem (off + 12) = Some (nlmsg_pid h)) as E5 by rd_field (pre ++ l ++ t ++ f ++ s).
  unfold nl_hdr. rewrite E1, E2, E3, E4, E5. cbn [mbind option_bind].
  by destruct h.
Qed.

Lemma nl_hdr_len mem nh h : nl_hdr mem nh = Some h → rd 4 mem nh = Some (nlmsg_len h).
Proof.
  unfold nl_hdr. intros H. destruct (rd 4 mem nh) as [l|]; [|done]. cbn [mbind option_bind] in H.
  repeat (apply bind_Some in H as (? & _ & H)). by simplify_eq.
Qed.

(** The next message of a buffer. *)
Lemma next_ok pre m post len : msg_ok m → Z.of_nat (length (message m)) ≤ len < 2 ^ 63 →
  let mem := pre ++ message m ++ post in
  ffnetlink_next mem (Span (Z.of_nat (length pre)) len) =
    Some (Some (Z.of_nat (length pre)),
          Span (Z.of_nat (length (pre ++ message m))) (len - Z.of_nat (length (message m))),
          Span (Z.of_nat (length pre) + 16) (u32 (Z.of_nat (length m.2) - 4))) ∧
  nl_hdr mem (Z.of_nat (length pre)) = Some m.1.
Proof.
  destruct m as [h body]. intros (Hl & Hb & Ht & Hf & Hs & Hp) Hlen mem. cbn [fst snd] in *.
  assert (Hh : nl_hdr mem (Z.of_nat (length pre)) = Some h).
  { unfold mem, message. cbn [fst snd]. rewrite <- !app_assoc. apply nl_hdr_at; lia. }
  split; [|done]. rewrite length_message in *. cbn [snd] in *. pose proof Hlen as Hlen'. rewrite align4_spec in Hlen'.
  unfold ffnetlink_next. cbn [sp_len sp_off]. rewrite (proj2 (Z.ltb_ge len 16)) by dlia.
  rewrite (nl_hdr_len _ _ _ Hh). cbn [mbind option_bind].
  rewrite Hl, (proj2 (Z.ltb_ge _ 16)), (proj2 (Z.ltb_ge len _)) by dlia. cbn [orb].
  rewrite NLMSG_ALIGN_spec by lia. unfold shift. cbn [sp_off sp_len].
  rewrite u64_small by (unfold is_u64; rewrite align4_spec; dlia).
  rewrite length_app, Nat2Z.inj_add, length_message. cbn [snd].
  unfold NLMSG_HDRLEN. change (NLMSG_SPACE 4) with 20. do 4 f_equal. lia.
Qed.

Lemma body_read pre m post : msg_ok m → (4 ≤ length m.2)%nat →
  span_bytes (pre ++ message m ++ post) (Span (Z.of_nat (length pre) + 16) (u32 (Z.of_nat (length m.2) - 4))) =
    Some (take (length m.2 - 4) m.2).
Proof.
  destruct m as [h body]. intros (_ & Hb & _) H4. cbn [fst snd] in *.
  assert (Hmem : pre ++ message (h, body) ++ post = (pre ++ nl_bytes h) ++ take (length body - 4) body ++
    (drop (length body - 4) body ++ padding (length body) ++ post)).
  { unfold message. cbn [fst snd]. rewrite (app_assoc (take _ _)), take_drop. by rewrite <- !app_assoc. }
  rewrite Hmem. apply span_bytes_at; cbn [sp_off sp_len].
  - rewrite length_app, length_nl_bytes. lia.
  - rewrite length_take, u32_small by (unfold is_u32; lia). lia.
Qed.

(** A body of less than four bytes is handed out with a length of almost 2^32. *)
Lemma short_body pre m post len : msg_ok m → Z.of_nat (length (message m)) ≤ len < 2 ^ 63 → (length m.2 < 4)%nat →
  ∃ nh buf b, ffnetlink_next (pre ++ message m ++ post) (Span (Z.of_nat (length pre)) len) = Some (nh, buf, b) ∧
    sp_len b = 2 ^ 32 - 4 + Z.of_nat (length m.2).
Proof.
  intros Hm Hl H4. destruct (next_ok pre m post len Hm Hl) as [Hn _]. do 3 eexists. split; [exact Hn|]. cbn [sp_len].
  unfold u32, uwrap. symmetry. apply Z.mod_unique with (-1); lia.
Qed.

(** A request of ffnetlink_send() is such a message. *)
Lemma request_ok type d seq : Z.of_nat (length d) + 16 < 2 ^ 32 - 3 → 0 ≤ seq < 2 ^ 32 →
  msg_ok (_ffnetlink_hdr_set type (u32 (Z.of_nat (length d))) seq, d).
Proof.
  intros Hd Hs. unfold msg_ok, _ffnetlink_hdr_set, NLMSG_LENGTH, NLMSG_HDRLEN, u16. cbn [fst snd nlmsg_len nlmsg_type nlmsg_flags nlmsg_seq nlmsg_pid].
  rewrite (u32_small (Z.of_nat _)), u32_small by (unfold is_u32; lia).
  pose proof (Z.mod_pos_bound type (2 ^ 16) eq_refl). unfold uwrap. split_and!; (done || lia).
Qed.

(** What ends the loop: less than a header, or a header whose length is too small or more than what is there. *)
Definition no_message (rest : list Z) : Prop :=
  (length rest < 16)%nat ∨
  ∃ n r, rest = le 4 n ++ r ∧ 0 ≤ n < 2 ^ 32 ∧ (n < 16 ∨ Z.of_nat (length rest) < n).

Lemma next_end pre rest post : no_message rest →
  ∃ b, ffnetlink_next (pre ++ rest ++ post) (Span (Z.of_nat (length pre)) (Z.of_nat (length rest))) =
    Some (None, Span (Z.of_nat (length pre)) (Z.of_nat (length rest)), b).
Proof.
  intros H. unfold ffnetlink_next. cbn [sp_len sp_off]. eexists.
  destruct (Z.ltb_spec (Z.of_nat (length rest)) 16) as [|H16]; [done|].
  destruct H as [H|(n & r & -> & Hn & H)]; [lia|]. rewrite <- (app_assoc (le 4 n)), rd_at by done. cbn [mbind option_bind].
  destruct (Z.ltb_spec n 16); [done|]. cbn [orb]. by rewrite (proj2 (Z.ltb_lt _ n)) by lia.
Qed.

(** C36: the messages of a buffer, as the kernel answers a request: any number of messages, each with any type, flags,
    sequence number and process in its header, a body of at least four bytes and its padding; behind them what is not
    a message (nothing, less than a header, or a header whose length does not fit); whatever stands before and after
    the buffer.  The loop over ffnetlink_next() finds every message, in order, with its header unchanged, ends
    with NULL after as many calls as there are messages, and one, and reads nothing outside of the memory.  The body
    that is handed out lacks the last four bytes of what was sent, as the code computes it. *)
Theorem messages_read pre l rest post : Forall (λ m, msg_ok m ∧ (4 ≤ length m.2)%nat) l → no_message rest →
  Z.of_nat (length (concat (map message l) ++ rest)) < 2 ^ 63 →
  messages (S (length l)) (pre ++ (concat (map message l) ++ rest) ++ post)
    (Span (Z.of_nat (length pre)) (Z.of_nat (length (concat (map message l) ++ rest)))) =
    Some (map (λ m, (m.1, take (length m.2 - 4) m.2)) l).
Proof.
  intros Hok Hrest. revert pre Hok. induction l as [|m l IH]; intros pre Hok Hlen.
  { cbn -[ffnetlink_next]. destruct (next_end pre rest post Hrest) as [b ->]. done. }
  apply Forall_cons in Hok as [[Hm H4] Hok]. cbn [map concat] in *.
  replace ((message m ++ concat (map message l)) ++ rest) with (message m ++ (concat (map message l) ++ rest)) in * by by rewrite app_assoc.
  set (tl := concat (map message l) ++ rest) in *. rewrite length_app in Hlen |- *. rewrite <- (app_assoc (message m)).
  destruct (next_ok pre m (tl ++ post) (Z.of_nat (length (message m) + length tl))) as [Hn Hh]; [done|lia|].
  change (messages (S (length (m :: l)))) with (λ mem buf, '(nh, buf', body) ← ffnetlink_next mem buf;
    match nh with
    | None => Some []
    | Some nh => h ← nl_hdr mem nh; d ← span_bytes mem body; l ← messages (S (length l)) mem buf'; Some ((h, d) :: l)
    end). cbn beta.
  rewrite Hn. cbn [mbind option_bind]. rewrite Hh. cbn [mbind option_bind].
  rewrite body_read by done. cbn [mbind option_bind].
  replace (Z.of_nat (length (message m) + length tl) - Z.of_nat (length (message m))) with (Z.of_nat (length tl)) by lia.
  rewrite (app_assoc pre), IH by (done || lia). done.
Qed.

(** what the four missing bytes do: of the attributes of a message (behind a fixed part of [fixed]
    bytes, a multiple of four, as ifinfomsg and ifaddrmsg), the loop over the handed-out body finds all
    but the last one. *)
Theorem last_attribute_lost pre h fixed l a post len :
  Forall attr_ok (l ++ [a]) → Z.of_nat (length fixed) mod 4 = 0 →
  let m := (h, fixed ++ attrs_bytes (l ++ [a])) in
  msg_ok m → Z.of_nat (length (message m)) ≤ len < 2 ^ 63 →
  let mem := pre ++ message m ++ post in
  ∃ nh rest b, ffnetlink_next mem (Span (Z.of_nat (length pre)) len) = Some (Some nh, rest, b) ∧
    attributes (S (length l)) mem (shift b (Z.of_nat (length fixed))) = Some l.
Proof.
  intros Hok Hfix m Hm Hlen mem. destruct (next_ok pre m post len) as [Hn _]; [done..|].
  do 3 eexists. split; [exact Hn|]. unfold shift. cbn [sp_off sp_len].
  destruct Hm as (_ & Hb & _). set (body := m.2) in *.
  apply Forall_app in Hok as [Hok Ha]. inversion_clear Ha as [|?? Ha' _].
  assert (Hbl : length body = (length fixed + length (attrs_bytes l) + length (attr_bytes a))%nat).
  { unfold body, m, attrs_bytes. cbn [snd]. rewrite map_app, concat_app, !length_app. cbn. rewrite app_nil_r. lia. }
  pose proof (length_attr_bytes a) as Hla. rewrite align4_spec in Hla.
  assert (Hal : Z.of_nat (length (attrs_bytes l)) mod 4 = 0).
  { clear. induction l as [|b l IH]; [done|]. change (attrs_bytes (b :: l)) with (attr_bytes b ++ attrs_bytes l).
    rewrite length_app, Nat2Z.inj_add, length_attr_bytes, align4_spec. dlia. }
  rewrite (u32_small (_ - _)) by (unfold is_u32; dlia). rewrite u64_small by (unfold is_u64; dlia).
  assert (Hh : length (nl_bytes h) = 16%nat) by apply length_nl_bytes.
  replace (Z.of_nat (length pre) + 16 + Z.of_nat (length fixed)) with (Z.of_nat (length (pre ++ nl_bytes h ++ fixed)))
    by (rewrite !length_app, Hh; lia).
  assert (Hmem : mem = (pre ++ nl_bytes h ++ fixed) ++ attrs_bytes l ++ attr_bytes a ++ padding (length body) ++ post).
  { unfold mem, message. cbn [fst snd m]. rewrite <- !app_assoc. unfold body, m at 1, attrs_bytes.
    cbn [snd]. rewrite map_app, concat_app. cbn [map concat]. rewrite app_nil_r, <- !app_assoc. done. }
  eapply (attributes_ok l mem (Z.of_nat (length (pre ++ nl_bytes h ++ fixed) + length (attrs_bytes l)))
            (Z.of_nat (length (attr_bytes a)) - 4) (pre ++ nl_bytes h ++ fixed)); [done|lia|exact Hmem|lia| |done|lia|].
  { rewrite Hla. dlia. }
  apply rtattr_end; [rewrite Hla; dlia|]. right. exists (Z.of_nat (length a.2) + 4). split; [|rewrite Hla; dlia].
  rewrite Hmem, app_assoc. unfold attr_bytes. rewrite <- !(app_assoc (le 2 _)).
  apply (rd_at 2 ((pre ++ nl_bytes h ++ fixed) ++ attrs_bytes l)); [by rewrite (length_app (pre ++ _))|].
  change (256 ^ Z.of_nat 2) with 65536. unfold attr_ok in Ha'. lia.
Qed.

(** An attribute whose padding was cut off at the end of the buffer: the length wraps around, and the
    next call reads behind the buffer. *)
Example unpadded_attribute : attributes 2 (le 2 5 ++ le 2 1 ++ [7]) (Span 0 5) = None.
Proof. vm_compute. reflexivity. Qed.

(** A netlink socket is left open exactly when it is returned. *)
Lemma netlink_create_clean proto groups flags s :
  wp ustep (ffnetlink_create proto groups flags) (new_fd s) never s.
Proof.
  unfold ffnetlink_create. cbn [wp]. intros nl s1 H1. destruct (Z.eqb_spec nl (-1)) as [->|Hn]; [exact H1|].
  cbn [wp]. intros r s2 H2. destruct (negb (r =? 0)); cbn [wp].
  - intros ? s3 H3. by eapply closed_fd.
  - by eapply new_fd_of; [apply same_refl|exact H1|].
Qed.

(** ** Witnesses *)

Definition demo_attrs : list (Z * list Z) := [(3, bytes_of "eth0" ++ [0]); (1, [1; 2; 3; 4; 5; 6]); (4, [])].

Lemma demo_attrs_ok : Forall attr_ok demo_attrs.
Proof. repeat constructor; cbn; lia. Qed.

Lemma rtattr_roundtrip_witness :
  attributes 4 ([9; 9] ++ attrs_bytes demo_attrs ++ [7]) (Span 2 28) = Some demo_attrs.
Proof. apply (rtattr_roundtrip [9; 9] demo_attrs [7]); [apply demo_attrs_ok|vm_compute; done]. Defined.

(** Two answers: flags NLM_F_MULTI, with the process of the receiver; NLMSG_DONE. *)
Definition demo_msgs : list (nlmsghdr * list Z) :=
  [(NlHdr 22 16 2 7 4321, [2; 0; 0; 0; 5; 6]); (NlHdr 20 3 2 7 4321, [0; 0; 0; 0])].

Lemma messages_read_witness :
  messages 3 ([9] ++ (concat (map message demo_msgs) ++ le 4 40 ++ replicate 12 0) ++ [1; 2; 3]) (Span 1 60) =
    Some [(NlHdr 22 16 2 7 4321, [2; 0]); (NlHdr 20 3 2 7 4321, [])].
Proof.
  apply (messages_read [9] demo_msgs (le 4 40 ++ replicate 12 0) [1; 2; 3]); [| |vm_compute; done].
  - repeat constructor; cbn; lia.
  - right. exists 40, (replicate 12 0). split_and!; (done || lia || (right; cbn; lia)).
Defined.

Lemma last_attribute_lost_witness :
  let m := (NlHdr 60 16 2 7 4321, replicate 16 0 ++ attrs_bytes demo_attrs) in
  ∃ nh rest b, ffnetlink_next ([] ++ message m ++ []) (Span 0 60) = Some (Some nh, rest, b) ∧
    attributes 3 ([] ++ message m ++ []) (shift b 16) =
      Some [(3, bytes_of "eth0" ++ [0]); (1, [1; 2; 3; 4; 5; 6])].
Proof.
  apply (last_attribute_lost [] (NlHdr 60 16 2 7 4321) (replicate 16 0) [(3, bytes_of "eth0" ++ [0]); (1, [1; 2; 3; 4; 5; 6])]
           (4, []) [] 60); first [lia|apply demo_attrs_ok|vm_compute; intuition congruence].
Defined.
