(* ===== verification/FileMon.v ===== *)
(** * FFOS/filemon.h: monitoring of files and directories

    [Section linux]: inotify, the events of a buffer read from it.  [Section win]: the list of watched
    directories (each a handle and a heap block), reading the changes of one, the records of a buffer. *)
From S2P Require Import Prelude Bytes Prog Ffbase Unix Win StringW Path FileWin SocketWin.

(** ** Linux *)

Definition FFFILEMON_NULL := -1.
Definition FFFILEMON_EINPROGRESS := EINPROGRESS.
(** The bits of <sys/inotify.h>, in the order of the code. *)
Definition FFFILEMON_EV_CHANGE : Z :=
  let '(IN_CREATE, IN_MODIFY, IN_ATTRIB, IN_CLOSE_WRITE) := (256, 2, 4, 8) in
  let '(IN_DELETE, IN_MOVED_FROM, IN_MOVED_TO, IN_DELETE_SELF, IN_MOVE_SELF) := (512, 64, 128, 1024, 2048) in
  foldl Z.lor IN_CREATE [IN_MODIFY; IN_ATTRIB; IN_CLOSE_WRITE; IN_DELETE; IN_MOVED_FROM; IN_MOVED_TO;
    IN_DELETE_SELF; IN_MOVE_SELF].

Definition fffilemon_open (flags : Z) : prog unixE Z := call (u_inotify_init1 flags).
Definition fffilemon_close (fm : Z) : prog unixE unit :=
  if fm =? FFFILEMON_NULL then Ret tt else do! u_close fm in Ret tt.
Definition fffilemon_add (fm : Z) (path : cstr) (events : Z) : prog unixE Z := call (u_inotify_add_watch fm path events).
Definition fffilemon_rm (fm wd : Z) : prog unixE Z := call (u_inotify_rm_watch fm wd).

Definition fffilemon_read_async (fm cap : Z) : prog unixE (Z * list Z) :=
  let! '(r, d) := u_read fm cap in
  if r <? 0 then
    let! e := get_errno in
    if e =? EAGAIN then fail EINPROGRESS (r, d) else Ret (r, d)
  else Ret (r, d).

(** What fffilemon_next() stores: the watch descriptor that is returned, the name, the events. *)
Record fmevent := FmEvent { fm_wd : Z; fm_name : list Z; fm_events : Z }.

(** [None]: a read outside of the buffer.  The event, if there is one, and the rest of the input. *)
Definition fffilemon_next `{FfStr} (mem : list Z) (input : span) : option (option fmevent * span) :=
  if sp_len input <? 16 then Some (None, input) else
  let ie := sp_off input in
  len ← rd 4 mem (ie + 12);
  let n := 16 + len in
  if sp_len input <? n then Some (None, input) else
  name ← (if 0 <? len then
            name ← span_bytes mem (Span (ie + 16) (len - 1)); Some (ffstr_rskipchar name 0)
          else Some []);
  mask ← rd 4 mem (ie + 4);
  wd ← rd 4 mem ie;
  Some (Some (FmEvent (s32 wd) name mask), shift input n).

(** ** Windows *)

(** [struct _fffilemon_watch] and the block it is in; [struct fffilemon_s], its block, the block of its
    vector (0: none). *)
Record watch := Watch { w_blk : Z; w_d : Z; w_events : Z; w_dir : bool; w_namez : list Z }.
Record fffilemon_s := FileMon { fm_blk : Z; fm_vec : Z; fm_wl : list watch }.

(** ffvec_pushT() on a vector of pointers: its block, the number of elements; the new block. *)
(** ffstr_grow() on the caller's buffer: room for so many bytes, the capacity after it. *)
Class NameGrow := { name_grow : Z → option Z }.
Class WVecPush := { wvec_push : Z → Z → prog winE (Z * bool) }.

Definition FFFILEMON_EINPROGRESS_win := ERROR_IO_PENDING.
(** The bits of FILE_NOTIFY_CHANGE_*, in the order of the code. *)
Definition FFFILEMON_EV_CHANGE_win : Z :=
  let '(FILE_NAME, DIR_NAME, SIZE, LAST_WRITE) := (1, 2, 8, 16) in
  let '(ATTRIBUTES, CREATION, SECURITY) := (4, 64, 256) in
  foldl Z.lor FILE_NAME [DIR_NAME; SIZE; LAST_WRITE; ATTRIBUTES; CREATION; SECURITY].

Section win.
Context `{FfUni, FfStr, WVecPush, NameGrow}.

Definition fffilemon_open_win (flags : Z) : prog winE (option fffilemon_s) :=
  let! p := w_alloc 32 in Ret (if p =? 0 then None else Some (FileMon p 0 [])).

Fixpoint close_watches (wl : list watch) : prog winE unit :=
  match wl with
  | [] => Ret tt
  | w :: wl => do! CloseHandle (w_d w) in do! w_free (w_blk w) in close_watches wl
  end.

Definition free_if (p : Z) : prog winE unit := if p =? 0 then Ret tt else call (w_free p).

Definition fffilemon_close_win (fm : option fffilemon_s) : prog winE unit :=
  match fm with None => Ret tt | Some fm =>
    do* close_watches (fm_wl fm) in
    do* free_if (fm_vec fm) in
    do! w_free (fm_blk fm) in Ret tt end.

(** From the open directory to the element of the list; the result, the object. *)
Definition add_watch (fm : fffilemon_s) (d size events : Z) (dir : bool) (namez : list Z) : prog winE (Z * fffilemon_s) :=
  let! w := w_alloc size in
  let fail fm := do! CloseHandle d in do* free_if w in Ret (-1, fm) in
  if w =? 0 then fail fm else
  let* '(vec, ok) := wvec_push (fm_vec fm) (Z.of_nat (length (fm_wl fm))) in
  if negb ok then fail (FileMon (fm_blk fm) vec (fm_wl fm)) else
  let wl := fm_wl fm ++ [Watch w d events dir namez] in
  Ret (Z.of_nat (length wl) - 1, FileMon (fm_blk fm) vec wl).

Definition FFFILE_READONLY_OVL := Z.lor FFFILE_READONLY_win FILE_FLAG_OVERLAPPED.

Definition fffilemon_add_dir (fm : fffilemon_s) (path : cstr) (events : Z) : prog winE (Z * fffilemon_s) :=
  let* d := fffile_open_win path FFFILE_READONLY_OVL in
  if d =? INVALID_HANDLE_VALUE then Ret (-1, fm) else add_watch fm d 17 events true [].

(** [dir0]: what the bit [dir] of the new block happens to be; it is not assigned. *)
Definition fffilemon_add_file (dir0 : bool) (fm : fffilemon_s) (path : cstr) (events : Z) : prog winE (Z * fffilemon_s) :=
  let '(_, dir, name) := ffpath_splitpath_str true path in
  let! dirz := w_alloc (Z.of_nat (length dir) + 1) in
  if dirz =? 0 then Ret (-1, fm) else
  let* d := fffile_open_win dir FFFILE_READONLY_OVL in
  let* res := if d =? INVALID_HANDLE_VALUE then Ret (-1, fm)
              else add_watch fm d (16 + Z.of_nat (length name) + 1) events dir0 name in
  do! w_free dirz in Ret res.

Definition fffilemon_rm_win (fm wd : Z) : prog winE Z := wfail ERROR_NOT_SUPPORTED (-1).

Definition _fffilemon_watch_read_async (w : watch) (cap : Z) (task : task_win) : prog winE (Z * task_win) :=
  if truthy (tw_active task) then
    let* r := ovl_check (tw_ovl task) in
    match r with
    | Pending => Ret (-1, task)
    | Failed => Ret (-1, set_tw_active 0 task)
    | Finished _ => Ret (s32 cap, set_tw_active 0 task)
    end
  else
    let! r := ReadDirectoryChangesW (w_d w) (Z.min cap (2 ^ 32 - 1)) (w_events w) (tw_ovl task) in
    let* pending := if r =? 1 then do! SetLastError ERROR_IO_PENDING in Ret true
                    else let! e := GetLastError in Ret (e =? ERROR_IO_PENDING) in
    Ret (-1, if pending : bool then set_tw_active 1 task else task).

(** What one record gives: the action (-1: no more data, -2: an error), the input, the name. *)
Definition _fffilemon_next1 (mem : list Z) (input : span) (name : list Z) : option (Z * span * list Z) :=
  if sp_len input =? 0 then Some (-1, input, name) else
  if sp_len input <? 16 then Some (-2, input, name) else
  let i := sp_off input in
  n ← rd 4 mem (i + 8);
  if sp_len input <? 16 + n then Some (-2, input, name) else
  res ← (if negb (n =? 0) then
           bytes ← span_bytes mem (Span (i + 12) (2 * (n / 2)));
           let units := units_of bytes in
           let '(r, _) := ffs_wtou 0 units in
           if r <=? 0 then Some None else
           match name_grow r with
           | None => Some None
           | Some cap => let '(_, d) := ffs_wtou cap units in Some (Some d)
           end
         else Some (Some []));
  match res with
  | None => Some (-2, input, [])
  | Some d =>
      next ← rd 4 mem i;
      action ← rd 4 mem (i + 4);
      let input := shift input next in
      let input := if next =? 0 then shift input (sp_len input) else input in
      Some (s32 action, input, d)
  end.

(** The position of the first watch that a name belongs to. *)
Fixpoint find_watch (wl : list watch) (name : list Z) (idx : Z) : option Z :=
  match wl with
  | [] => None
  | w :: wl => if w_dir w || ffstr_eqz name (w_namez w) then Some idx else find_watch wl name (idx + 1)
  end.

(** The descriptor (or -1, -2), the events, the input, the name; the fuel bounds the number of records. *)
Fixpoint fffilemon_next_win (fuel : nat) (fm : fffilemon_s) (mem : list Z) (input : span) (name : list Z)
    : option (Z * Z * span * list Z) :=
  match fuel with
  | O => None
  | S fuel =>
      '(r, input, name) ← _fffilemon_next1 mem input name;
      if r <? 0 then Some (r, 0, input, name) else
      match find_watch (fm_wl fm) name 0 with
      | Some wd => Some (wd, r, input, name)
      | None => fffilemon_next_win fuel fm mem input name
      end
  end.
End win.

(** ** Linux: the events of a buffer *)

(** An event as the kernel stores it: the name, if any, with one NUL at least. *)
Record inotify := Inotify { in_wd : Z; in_mask : Z; in_cookie : Z; in_name : list Z; in_pad : nat }.
Definition name_field (e : inotify) : list Z :=
  match in_name e with [] => [] | _ => in_name e ++ replicate (S (in_pad e)) 0 end.
Definition in_bytes (e : inotify) : list Z :=
  le 4 (u32 (in_wd e)) ++ le 4 (in_mask e) ++ le 4 (in_cookie e) ++ le 4 (Z.of_nat (length (name_field e))) ++ name_field e.
Definition inotify_ok (e : inotify) : Prop :=
  is_s32 (in_wd e) ∧ is_u32 (in_mask e) ∧ is_u32 (in_cookie e) ∧
  Z.of_nat (length (name_field e)) < 2 ^ 32 ∧ last (in_name e) ≠ Some 0.

Section linux.
Context `{F : FfStr, L : !FfStrLaws F}.

(** The loop of a caller. *)
Fixpoint events (fuel : nat) (mem : list Z) (input : span) : option (list fmevent * span) :=
  match fuel with
  | O => None
  | S fuel =>
      '(e, input) ← fffilemon_next mem input;
      match e with
      | None => Some ([], input)
      | Some e => '(l, input) ← events fuel mem input; Some (e :: l, input)
      end
  end.

Lemma name_field_name e : last (in_name e) ≠ Some 0 → name_field e ≠ [] →
  ffstr_rskipchar (take (length (name_field e) - 1) (name_field e)) 0 = in_name e.
Proof using L.
  intros Hn Hne. unfold name_field in *. destruct (in_name e) as [|c n] eqn:E; [done|]. rewrite <- E in *.
  rewrite replicate_S_end, app_assoc, length_app. cbn [length].
  rewrite take_app_le, take_ge by (rewrite length_app; cbn; lia). by apply rskipchar_eq.
Qed.

(** One event at the start of the input. *)
Lemma next_event pre e post len : inotify_ok e → Z.of_nat (length (in_bytes e)) ≤ len < 2 ^ 63 →
  fffilemon_next (pre ++ in_bytes e ++ post) (Span (Z.of_nat (length pre)) len) =
    Some (Some (FmEvent (in_wd e) (in_name e) (in_mask e)),
          Span (Z.of_nat (length (pre ++ in_bytes e))) (len - Z.of_nat (length (in_bytes e)))).
Proof using L.
  intros (Hwd & Hmask & Hck & Hlen & Hlast) Hl.
  set (mem := pre ++ in_bytes e ++ post). set (off := Z.of_nat (length pre)).
  assert (Hib : length (in_bytes e) = (16 + length (name_field e))%nat)
    by (unfold in_bytes; rewrite !length_app, !length_le; lia).
  assert (E0 : rd 4 mem off = Some (u32 (in_wd e))).
  { apply (rd_field _ pre); [eexists; unfold mem, in_bytes; by rewrite <- !app_assoc|done|apply u32_range]. }
  assert (E1 : rd 4 mem (off + 4) = Some (in_mask e)).
  { apply (rd_field _ (pre ++ le 4 (u32 (in_wd e)))); [eexists; unfold mem, in_bytes; by rewrite <- !app_assoc| |done].
    rewrite length_app, length_le. lia. }
  assert (E3 : rd 4 mem (off + 12) = Some (Z.of_nat (length (name_field e)))).
  { apply (rd_field _ (pre ++ le 4 (u32 (in_wd e)) ++ le 4 (in_mask e) ++ le 4 (in_cookie e)));
      [eexists; unfold mem, in_bytes; by rewrite <- !app_assoc| |change (256 ^ Z.of_nat 4) with (2 ^ 32); lia].
    rewrite !length_app, !length_le. lia. }
  unfold fffilemon_next. cbn [sp_len sp_off]. fold off. rewrite (proj2 (Z.ltb_ge len 16)) by lia.
  rewrite E3. cbn [mbind option_bind]. rewrite (proj2 (Z.ltb_ge len _)) by lia.
  assert ((if 0 <? Z.of_nat (length (name_field e)) then
            name ← span_bytes mem (Span (off + 16) (Z.of_nat (length (name_field e)) - 1)); Some (ffstr_rskipchar name 0)
          else Some []) = Some (in_name e)) as ->.
  { destruct (Z.ltb_spec 0 (Z.of_nat (length (name_field e)))) as [Hp|Hp].
    - set (hd := le 4 (u32 (in_wd e)) ++ le 4 (in_mask e) ++ le 4 (in_cookie e) ++ le 4 (Z.of_nat (length (name_field e)))).
      assert (Hm : mem = (pre ++ hd) ++ take (length (name_field e) - 1) (name_field e) ++
                     (drop (length (name_field e) - 1) (name_field e) ++ post)).
      { unfold mem, in_bytes, hd. rewrite (app_assoc (take _ _)), take_drop. by rewrite <- !app_assoc. }
      rewrite Hm, (span_bytes_at (pre ++ hd)); cbn [sp_off sp_len mbind option_bind].
      + f_equal. apply name_field_name; [done|]. intros E. rewrite E in Hp. cbn in Hp. lia.
      + unfold hd, off. rewrite !length_app, !length_le. lia.
      + rewrite length_take. lia.
    - unfold name_field in *. destruct (in_name e); [done|]. rewrite length_app in Hp. cbn in Hp. lia. }
  cbn [mbind option_bind]. rewrite E1, E0. cbn [mbind option_bind]. unfold shift. cbn [sp_off sp_len].
  rewrite u64_small by (unfold is_u64; lia). rewrite s32_u32 by done.
  do 2 f_equal. f_equal; rewrite ?length_app; lia.
Qed.

(** C29: the events of an inotify buffer: every event is returned in order with its watch descriptor, its
    mask and its name, without the NULs the kernel adds; then -1.  No read lies outside of the input, an
    incomplete event at the end is left there, and the loop ends after as many calls as there are events,
    and one. *)
Theorem inotify_roundtrip l : ∀ pre rest post, Forall inotify_ok l → (length rest < 16)%nat →
  Z.of_nat (length (concat (map in_bytes l)) + length rest) < 2 ^ 63 →
  events (S (length l)) (pre ++ concat (map in_bytes l) ++ rest ++ post)
    (Span (Z.of_nat (length pre)) (Z.of_nat (length (concat (map in_bytes l)) + length rest))) =
    Some (map (λ e, FmEvent (in_wd e) (in_name e) (in_mask e)) l,
          Span (Z.of_nat (length pre + length (concat (map in_bytes l)))) (Z.of_nat (length rest))).
Proof using L.
  induction l as [|e l IH]; intros pre rest post Hok Hr Hb; cbn [length events map concat] in *.
  - unfold fffilemon_next. cbn [sp_len app length Nat.add]. rewrite (proj2 (Z.ltb_lt _ 16)) by lia.
    cbn [mbind option_bind]. by rewrite Nat.add_0_r.
  - inversion_clear Hok as [|?? He Hok']. rewrite length_app in *. rewrite <- app_assoc, next_event by (done || lia).
    cbn [mbind option_bind]. rewrite (app_assoc pre).
    replace (Z.of_nat (length (in_bytes e) + length (concat (map in_bytes l)) + length rest) -
      Z.of_nat (length (in_bytes e))) with (Z.of_nat (length (concat (map in_bytes l)) + length rest)) by lia.
    rewrite IH by (done || lia). cbn [mbind option_bind]. rewrite length_app. do 3 f_equal. lia.
Qed.
End linux.

(** ** Windows: the object and its watches *)

Class WVecPushLaws (V : WVecPush) : Prop := {
  wpush_law blk n s : wp wstep (wvec_push blk n) (λ '(blk', ok) s',
    ws_handles s' = ws_handles s ∧ ws_socks s' = ws_socks s ∧
    ((ok = false ∧ blk' = blk ∧ ws_mem s' = ws_mem s) ∨
     (ok = true ∧ 0 < blk' ∧
      ((blk' = blk ∧ ws_mem s' = ws_mem s) ∨
       ((blk' ∉ ws_mem s) ∧ ws_mem s' = {[blk']} ∪ (if blk =? 0 then ws_mem s else ws_mem s ∖ {[blk]})))))) never s;
}.

(** What an object owns; the rest of the process: handles [H], memory [M]. *)
Definition fm_blocks (fm : fffilemon_s) : gset Z :=
  {[fm_blk fm]} ∪ (if fm_vec fm =? 0 then ∅ else {[fm_vec fm]}) ∪ list_to_set (map w_blk (fm_wl fm)).
Definition fm_handles (fm : fffilemon_s) : gset Z := list_to_set (map w_d (fm_wl fm)).
Definition fm_inv (H M K : gset Z) (fm : fffilemon_s) (s : wstate) : Prop :=
  ws_socks s = K ∧ ws_handles s = fm_handles fm ∪ H ∧ fm_handles fm ## H ∧
  ws_mem s = fm_blocks fm ∪ M ∧ fm_blocks fm ## M ∧
  (fm_vec fm ≠ 0 → fm_vec fm ≠ fm_blk fm ∧ (fm_vec fm ∉ (list_to_set (map w_blk (fm_wl fm)) : gset Z))).

Section lifecycle.
Context `{U : FfUni, F : FfStr, V : WVecPush, LV : !WVecPushLaws V}.

Lemma free_if_wp p s : wp wstep (free_if p) (λ _ s', ws_handles s' = ws_handles s ∧ ws_socks s' = ws_socks s ∧
  ws_mem s' = if p =? 0 then ws_mem s else ws_mem s ∖ {[p]}) never s.
Proof using Type.
  unfold free_if. destruct (p =? 0); cbn; [done|]. by intros _ s1 (? & ? & _ & ?).
Qed.

(** Adding the element fails with everything undone, or appends it. *)
Lemma add_watch_wp H M K fm d size ev dir namez s s1 :
  fm_inv H M K fm s → (d ∉ ws_handles s) → ws_handles s1 = {[d]} ∪ ws_handles s → ws_socks s1 = ws_socks s →
  ws_mem s1 = ws_mem s →
  wp wstep (add_watch fm d size ev dir namez) (λ '(r, fm') s', fm_inv H M K fm' s' ∧
    ((r = -1 ∧ fm_wl fm' = fm_wl fm) ∨
     (r = Z.of_nat (length (fm_wl fm)) ∧ ∃ w, fm_wl fm' = fm_wl fm ++ [Watch w d ev dir namez]))) never s1.
Proof using LV.
  intros (I1 & I2 & I3 & I4 & I5 & I6) Hd E1 E2 E3. unfold add_watch. cbn [wp]. intros w s2 (A1 & A2 & A3).
  assert (Hfail : ∀ fm' s3, ws_handles s3 = ws_handles s2 → ws_socks s3 = ws_socks s2 →
    fm_wl fm' = fm_wl fm → (∀ s4, ws_handles s4 = ws_handles s → ws_socks s4 = ws_socks s →
       (ws_mem s4 = if w =? 0 then ws_mem s3 else ws_mem s3 ∖ {[w]}) → fm_inv H M K fm' s4) →
    wp wstep (do! CloseHandle d in do* free_if w in Ret (-1, fm')) (λ '(r, fm') s', fm_inv H M K fm' s' ∧
    ((r = -1 ∧ fm_wl fm' = fm_wl fm) ∨
     (r = Z.of_nat (length (fm_wl fm)) ∧ ∃ w, fm_wl fm' = fm_wl fm ++ [Watch w d ev dir namez]))) never s3).
  { intros fm' s3 B1 B2 Hwl Hinv. cbn [wp]. intros ? s4 (C1 & C2 & C3).
    apply wp_bind. eapply wp_mono; [apply free_if_wp| |done]. intros ? s5 (D1 & D2 & D3). cbn.
    split; [|auto]. apply Hinv; [|congruence|by rewrite D3, C2].
    rewrite D1, C3, B1, A1, E1. clear -Hd. set_solver. }
  destruct (Z.eqb_spec w 0) as [->|Hw].
  { apply Hfail; [done|done|done|]. intros s4 B1 B2 B3. cbn in B3. destruct A3 as [[_ A3]|[? _]]; [|lia].
    unfold fm_inv. rewrite B1, B2, B3, A3, E3. by split_and!. }
  destruct A3 as [[? _]|(Hw0 & Hwn & A3)]; [done|]. rewrite E3 in Hwn, A3.
  apply wp_bind. eapply wp_mono; [apply wpush_law| |done]. intros [vec ok] s3 (B1 & B2 & B3).
  destruct B3 as [(-> & -> & B3)|(-> & Hv & B3)]; cbn [negb].
  { apply Hfail; [done|done|done|]. intros s4 C1 C2 C3.
    assert (ws_mem s4 = ws_mem s) as C4 by (rewrite C3, B3, A3; clear -Hwn; set_solver).
    unfold fm_inv, fm_blocks, fm_handles in *. cbn. rewrite C1, C2, C4. by split_and!. }
  cbn [wp]. rewrite length_app. cbn [length].
  split; [|right; split; [lia|by eexists]].
  unfold fm_inv, fm_blocks, fm_handles in *. cbn [fm_blk fm_vec fm_wl]. rewrite !map_app, !list_to_set_app_L. cbn.
  rewrite !union_empty_r_L. rewrite (proj2 (Z.eqb_neq vec 0)) by lia.
  rewrite B1, B2, A1, A2, E1, E2, I2. rewrite I4 in *.
  set (bs := list_to_set (map w_blk (fm_wl fm)) : gset Z) in *.
  set (hs := list_to_set (map w_d (fm_wl fm)) : gset Z) in *.
  assert (Hdh : d ∉ H) by (rewrite I2 in Hd; clear -Hd; set_solver).
  destruct B3 as [[-> B3]|(Hvn & B3)].
  - rewrite (proj2 (Z.eqb_neq (fm_vec fm) 0)) in * by lia. specialize (I6 ltac:(lia)).
    clearbody bs hs. clear Hfail. split_and!; [done|clear; set_solver|clear -I3 Hdh; set_solver| |
      clear -I5 Hwn; set_solver|intros _; split; [tauto|]; clear -I6 Hwn; set_solver].
    rewrite B3, A3. clear. set_solver.
  - rewrite A3 in Hvn. assert (vec ≠ w) by (intros ->; clear -Hvn; set_solver).
    clearbody bs hs. clear Hfail. split_and!; [done|clear; set_solver|clear -I3 Hdh; set_solver| | | ].
    + rewrite B3, A3. destruct (Z.eqb_spec (fm_vec fm) 0) as [E|E]; [clear; set_solver|].
      specialize (I6 E). clear -I5 I6 Hwn. apply set_eq. intros x.
      destruct (decide (x = fm_vec fm)) as [->|]; set_solver.
    + clear -I5 Hvn Hwn. destruct (fm_vec fm =? 0); set_solver.
    + intros _. clear -Hvn H0. set_solver.
Qed.
Lemma no_nodosname : has FFFILE_READONLY_OVL FFFILE_NODOSNAME = false.
Proof using Type. reflexivity. Qed.

(** What a call that adds a path promises. *)
Definition added (H M K : gset Z) (fm : fffilemon_s) : Z * fffilemon_s → wstate → Prop := λ '(r, fm') s',
  fm_inv H M K fm' s' ∧
  ((r = -1 ∧ fm_wl fm' = fm_wl fm) ∨
   (r = Z.of_nat (length (fm_wl fm)) ∧ ∃ w, fm_wl fm' = fm_wl fm ++ [w] ∧ (w_d w ∉ fm_handles fm ∪ H))).

Lemma add_opened_wp H M K fm path size ev dir namez s : fm_inv H M K fm s →
  wp wstep (let* d := fffile_open_win path FFFILE_READONLY_OVL in
            if d =? INVALID_HANDLE_VALUE then Ret (-1, fm) else add_watch fm d size ev dir namez)
    (added H M K fm) never s.
Proof using LV.
  intros Hi. apply wp_bind. eapply wp_mono; [apply open_win_wp, no_nodosname| |done].
  intros d s1 (E1 & E2 & E3). destruct E3 as [[-> E3]|(Hd & Hn & E3)].
  - cbn. split; [|auto]. unfold fm_inv. rewrite E1, E2, E3. exact Hi.
  - rewrite (proj2 (Z.eqb_neq _ _)) by (unfold INVALID_HANDLE_VALUE; lia).
    eapply wp_mono; [by eapply add_watch_wp| |done]. intros [r fm'] s2 [Hi2 Hr]. split; [done|].
    destruct Hr as [?|[-> [w Hw]]]; [by left|]. right. split; [done|]. eexists. split; [exact Hw|].
    cbn. destruct Hi as (_ & Hh & _). by rewrite <- Hh.
Qed.

Lemma add_dir_wp H M K fm path ev s : fm_inv H M K fm s →
  wp wstep (fffilemon_add_dir fm path ev) (added H M K fm) never s.
Proof using LV. apply add_opened_wp. Qed.

(** A temporary block of the caller, as part of the rest of the memory. *)
Lemma fm_inv_more H M K fm s p s1 : fm_inv H M K fm s → (p ∉ ws_mem s) →
  ws_handles s1 = ws_handles s → ws_socks s1 = ws_socks s → ws_mem s1 = {[p]} ∪ ws_mem s →
  fm_inv H ({[p]} ∪ M) K fm s1.
Proof using Type.
  intros (I1 & I2 & I3 & I4 & I5 & I6) Hp E1 E2 E3. rewrite I4 in *. unfold fm_inv. rewrite E1, E2, E3.
  set (b := fm_blocks fm) in *. clearbody b. split_and!; try done; clear -Hp I5; set_solver.
Qed.
Lemma fm_inv_less H M K fm s p s1 : fm_inv H ({[p]} ∪ M) K fm s → (p ∉ M) →
  ws_handles s1 = ws_handles s → ws_socks s1 = ws_socks s → ws_mem s1 = (ws_mem s ∖ {[p]}) →
  fm_inv H M K fm s1.
Proof using Type.
  intros (I1 & I2 & I3 & I4 & I5 & I6) Hp E1 E2 E3. unfold fm_inv. rewrite E1, E2, E3, I4.
  set (b := fm_blocks fm) in *. clearbody b. split_and!; try done; clear -Hp I5; set_solver.
Qed.

Lemma add_file_wp H M K dir0 fm path ev s : fm_inv H M K fm s →
  wp wstep (fffilemon_add_file dir0 fm path ev) (added H M K fm) never s.
Proof using LV.
  intros Hi. unfold fffilemon_add_file. destruct (ffpath_splitpath_str true path) as [[? dir] name].
  cbn [wp]. intros p s1 (E1 & E2 & E3). destruct E3 as [[-> E3]|(Hp & Hn & E3)].
  { cbn. split; [|auto]. unfold fm_inv. rewrite E1, E2, E3. exact Hi. }
  rewrite (proj2 (Z.eqb_neq p 0)) by lia.
  assert (HM : p ∉ M) by (destruct Hi as (_ & _ & _ & Em & _); rewrite Em in Hn; clear -Hn; set_solver).
  assert (Hi1 : fm_inv H ({[p]} ∪ M) K fm s1) by by eapply fm_inv_more.
  pose proof (add_opened_wp H ({[p]} ∪ M) K fm dir (16 + Z.of_nat (length name) + 1) ev dir0 name s1 Hi1) as Hw.
  apply wp_bind_inv in Hw. apply wp_bind. eapply wp_mono; [exact Hw| |done].
  intros d s2 Hq. apply wp_bind. eapply wp_mono; [exact Hq| |done]. intros [r fm'] s3 [Hi3 Hr]. cbn [wp].
  intros ? s4 (F1 & F2 & _ & F4). split; [by eapply fm_inv_less|exact Hr].
Qed.

Lemma close_watches_wp wl s : wp wstep (close_watches wl) (λ _ s',
  ws_handles s' = (ws_handles s ∖ list_to_set (map w_d wl)) ∧ ws_socks s' = ws_socks s ∧
  ws_mem s' = (ws_mem s ∖ list_to_set (map w_blk wl))) never s.
Proof using Type.
  revert s. induction wl as [|w wl IH]; intros s; cbn [close_watches wp map list_to_set].
  { split_and!; [clear; set_solver|done|clear; set_solver]. }
  intros ? s1 (A1 & A2 & A3) ? s2 (B1 & B2 & _ & B4). eapply wp_mono; [apply IH| |done].
  intros ? s3 (C1 & C2 & C3). cbn. rewrite C1, C2, C3, B1, B2, B4, A1, A2, A3.
  split_and!; [clear; set_solver|done|clear; set_solver].
Qed.

Lemma close_wp H M K fm s : fm_inv H M K fm s →
  wp wstep (fffilemon_close_win (Some fm)) (λ _ s', ws_handles s' = H ∧ ws_mem s' = M ∧ ws_socks s' = K) never s.
Proof using Type.
  intros (I1 & I2 & I3 & I4 & I5 & _). cbn [fffilemon_close_win].
  apply wp_bind. eapply wp_mono; [apply close_watches_wp| |done]. intros ? s1 (A1 & A2 & A3).
  apply wp_bind. eapply wp_mono; [apply free_if_wp| |done]. intros ? s2 (B1 & B2 & B3).
  cbn [wp]. intros ? s3 (C1 & C2 & _ & C4). rewrite C1, C2, C4, B1, B2, B3, A1, A2, A3, I1, I2, I4.
  unfold fm_handles, fm_blocks in *.
  set (bs := list_to_set (map w_blk (fm_wl fm)) : gset Z) in *.
  set (hs := list_to_set (map w_d (fm_wl fm)) : gset Z) in *. clearbody bs hs. clear -I3 I5.
  split_and!; [set_solver|destruct (fm_vec fm =? 0); set_solver|done].
Qed.

(** The calls of a client between opening and closing. *)
Inductive add_call := AddDir (path : cstr) (events : Z) | AddFile (path : cstr) (events : Z) (dir0 : bool).
Definition run_add (fm : fffilemon_s) (c : add_call) : prog winE (Z * fffilemon_s) :=
  match c with
  | AddDir path ev => fffilemon_add_dir fm path ev
  | AddFile path ev dir0 => fffilemon_add_file dir0 fm path ev
  end.
Fixpoint run_adds (fm : fffilemon_s) (l : list add_call) : prog winE (list Z * fffilemon_s) :=
  match l with
  | [] => Ret ([], fm)
  | c :: l => let* '(r, fm) := run_add fm c in let* '(rs, fm) := run_adds fm l in Ret (r :: rs, fm)
  end.

Lemma run_adds_wp H M K l : ∀ fm s, fm_inv H M K fm s →
  wp wstep (run_adds fm l) (λ '(rs, fm') s', fm_inv H M K fm' s' ∧
    filter (λ r, r ≠ -1) rs = map Z.of_nat (seq (length (fm_wl fm)) (length (fm_wl fm') - length (fm_wl fm))) ∧
    (length (fm_wl fm) ≤ length (fm_wl fm'))%nat) never s.
Proof using LV.
  induction l as [|c l IH]; intros fm s Hi; cbn [run_adds wp].
  { rewrite Nat.sub_diag. by split_and!. }
  apply wp_bind. eapply wp_mono with (Q := added H M K fm); [destruct c; [by apply add_dir_wp|by apply add_file_wp]| |done].
  intros [r fm1] s1 [Hi1 Hr]. apply wp_bind. eapply wp_mono; [by apply IH| |done].
  intros [rs fm2] s2 (Hi2 & Hf & Hl). cbn [wp]. split; [done|]. rewrite filter_cons, Hf.
  destruct Hr as [[-> Ew]|(-> & w & Ew & _)]; rewrite Ew in *.
  - by rewrite decide_False by auto.
  - rewrite decide_True by lia. rewrite length_app in *. cbn [length] in *. split; [|lia].
    destruct (length (fm_wl fm2) - length (fm_wl fm))%nat as [|k] eqn:E; [lia|]. cbn [seq map]. f_equal.
    replace (S (length (fm_wl fm))) with (length (fm_wl fm) + 1)%nat by lia. do 2 f_equal. lia.
Qed.

(** C30: the life of a Windows monitor: however many directories and files are added, and whichever of
    the additions fail, at whichever step (conversion, opening, memory), the descriptors that are returned
    are 0, 1, 2... in order, and closing the monitor leaves the handles and the memory as before it was
    opened. *)
Theorem filemon_lifecycle flags l s :
  wp wstep (let* fm := fffilemon_open_win flags in
            match fm with
            | None => Ret None
            | Some fm => let* '(rs, fm) := run_adds fm l in do* fffilemon_close_win (Some fm) in Ret (Some rs)
            end)
    (λ r s', wsame s s' ∧
       match r with
       | Some rs => ∃ n, filter (λ r, r ≠ -1) rs = map Z.of_nat (seq 0 n)
       | None => True
       end) never s.
Proof using LV.
  cbn [fffilemon_open_win bind wp]. intros p s1 (E1 & E2 & E3). destruct (Z.eqb_spec p 0) as [->|Hp].
  - cbn. destruct E3 as [[_ E3]|[? _]]; [|lia]. by split_and!.
  - destruct E3 as [[? _]|(_ & Hn & E3)]; [done|]. apply wp_bind.
    eapply wp_mono; [apply (run_adds_wp (ws_handles s) (ws_mem s) (ws_socks s))| |done].
    + unfold fm_inv, fm_blocks, fm_handles. cbn. split_and!; [done|rewrite E1; clear; set_solver|clear; set_solver|
        rewrite E3; clear; set_solver|clear -Hn; set_solver|done].
    + intros [rs fm] s2 (Hi & Hf & _). apply wp_bind. eapply wp_mono; [by eapply close_wp| |done].
      intros ? s3 (F1 & F2 & F3). cbn. split; [done|]. by eexists.
Qed.
End lifecycle.

(** A finished reading of changes reports the capacity of the buffer, whatever number of bytes the system
    has stored in it. *)
Theorem watch_read_reports_cap w cap task n : tw_active task = 1 →
  wp (λ (_ : unit) X e x _, match e in winE X return X → Prop with
        GetOverlappedResult _ => λ x, x = (true, n) | _ => λ _, True end x)
     (_fffilemon_watch_read_async w cap task) (λ '(r, t) _, r = s32 cap ∧ tw_active t = 0) never tt.
Proof.
  intros Ha. unfold _fffilemon_watch_read_async. rewrite Ha. cbn. intros x [] ->. done.
Qed.

(** A watch of a file whose bit [dir] happens to be set takes the events of every other file. *)
Example stale_dir_bit : let w := Watch 1 8 0 true (bytes_of "a") in
  find_watch [w] (bytes_of "b") 0 = Some 0.
Proof. reflexivity. Qed.

(** ** Witnesses *)

Definition demo_events : list inotify :=
  [Inotify 1 256 0 (bytes_of "file") 11; Inotify (-1) 16384 0 [] 0; Inotify 2 8 7 (bytes_of "x") 0].

Lemma inotify_roundtrip_witness :
  events 4 ([0; 0] ++ concat (map in_bytes demo_events) ++ [1; 2] ++ []) (Span 2 68) =
    Some ([FmEvent 1 (bytes_of "file") 256; FmEvent (-1) [] 16384; FmEvent 2 (bytes_of "x") 8], Span 68 2).
Proof.
  apply (inotify_roundtrip demo_events [0; 0] [1; 2] []); [|cbn; lia|vm_compute; done].
  repeat constructor; vm_compute; (done || congruence).
Defined.

(** A vector whose block is allocated with the first element and is large enough then. *)
#[export] Instance RefWPush : WVecPush := {|
  wvec_push blk n := if blk =? 0 then let! p := w_alloc 4096 in Ret (p, negb (p =? 0)) else Ret (blk, 0 <? blk) |}.
#[export] Instance RefWPushLaws : WVecPushLaws RefWPush.
Proof.
  split. intros blk n s. cbn. destruct (Z.eqb_spec blk 0) as [->|Hb]; cbn.
  - intros p s1 (E1 & E2 & [[-> E3]|(Hp & Hn & E3)]); cbn; [by auto 10|].
    rewrite (proj2 (Z.eqb_neq p 0)) by lia. split_and!; [done|done|]. right. by auto 10.
  - destruct (Z.ltb_spec 0 blk); by auto 10.
Qed.

Lemma filemon_lifecycle_witness :
  wp wstep (let* fm := fffilemon_open_win 0 in
            match fm with
            | None => Ret None
            | Some fm => let* '(rs, fm) := @run_adds RefUni RefStr RefWPush fm [AddDir (bytes_of "d") 1; AddFile (bytes_of "d/f") 1 false] in
                         do* fffilemon_close_win (Some fm) in Ret (Some rs)
            end)
    (λ r s', wsame (WState 0 ∅ ∅ ∅) s' ∧
       match r with
       | Some rs => ∃ n, filter (λ r, r ≠ -1) rs = map Z.of_nat (seq 0 n)
       | None => True
       end) never (WState 0 ∅ ∅ ∅).
Proof.
  apply (@filemon_lifecycle RefUni RefStr RefWPush RefWPushLaws 0
           [AddDir (bytes_of "d") 1; AddFile (bytes_of "d/f") 1 false] (WState 0 ∅ ∅ ∅)).
Defined.
