(* ===== verification/Timer.v ===== *)
(** * FFOS/timer.h: timers that signal a kernel queue

    Linux: a timer descriptor; BSD and macOS: a one-byte heap block whose address is the identity of
    the kernel's timer; Windows: a thread that executes the commands of its owner, because timer
    functions run in the thread that armed the timer.  The last part models the protocol of the two
    Windows threads: the code of each is a program over the shared object's fields and events
    ([tmE]), a configuration holds what is left of both, and a step is one action of either. *)
From S2P Require Import Prelude Prog Unix Win Queue Sync.

(** ** Linux *)

Definition FFTIMER_NULL := -1.
Definition CLOCK_MONOTONIC_tm := 1.
Definition TFD_NONBLOCK := O_NONBLOCK.

Definition fftimer_create (flags : Z) : prog unixE Z := call (u_timerfd_create CLOCK_MONOTONIC_tm (Z.lor TFD_NONBLOCK flags)).
Definition fftimer_close (tmr kq : Z) : prog unixE unit := do! u_close tmr in Ret tt.

(** The interval that is passed to the system: C division, 32-bit negation. *)
Definition timer_spec (period_ms : Z) : itimerspec :=
  let neg := period_ms <? 0 in
  let period_ms := if neg then s32 (- period_ms) else period_ms in
  let value := TimeSpec (Z.quot period_ms 1000) (Z.rem period_ms 1000 * 1000000) in
  ITimerSpec (if neg then TimeSpec 0 0 else value) value.

Definition fftimer_start (tmr kq data period_ms : Z) : prog unixE Z :=
  let! r := u_epoll_ctl kq EPOLL_CTL_ADD tmr (Z.lor EPOLLIN EPOLLET) data in
  let* failed := if negb (r =? 0) then let! e := get_errno in Ret (negb (e =? EEXIST)) else Ret false in
  if failed : bool then Ret (-1) else call (u_timerfd_settime tmr (timer_spec period_ms)).

Definition fftimer_stop (tmr kq : Z) : prog unixE Z :=
  call (u_timerfd_settime tmr (ITimerSpec (TimeSpec 0 0) (TimeSpec 0 0))).
Definition fftimer_consume (tmr : Z) : prog unixE unit := do! u_read64 tmr in Ret tt.

(** ** BSD, macOS: the address of the block, the byte in it *)

Record timer_bsd := TimerBsd { tb_addr : Z; tb_on : Z }.
Definition EVFILT_TIMER : Z := -7.
Definition EV_ONESHOT := 16.

Definition fftimer_create_bsd (flags : Z) : prog unixE (option timer_bsd) :=
  let! tmr := ffmem_alloc 1 in Ret (if tmr =? 0 then None else Some (TimerBsd tmr 0)).

Definition timer_delete (tmr : timer_bsd) : kevent_t := KEvent (tb_addr tmr) EVFILT_TIMER EV_DELETE 0 0 (-1).

Definition fftimer_close_bsd (tmr : option timer_bsd) (kq : Z) : prog unixE unit :=
  match tmr with None => Ret tt | Some tmr =>
    do* if tb_on tmr =? 1 then call (u_kevent_change kq [timer_delete tmr]) else Ret 0 in
    do! ffmem_free (tb_addr tmr) in Ret tt end.

Definition fftimer_start_bsd (tmr : timer_bsd) (kq data period_ms : Z) : prog unixE (Z * timer_bsd) :=
  let f := if period_ms <? 0 then EV_ONESHOT else 0 in
  let period_ms := if period_ms <? 0 then s32 (- period_ms) else period_ms in
  let! r := u_kevent_change kq [KEvent (tb_addr tmr) EVFILT_TIMER (Z.lor (Z.lor EV_ADD EV_ENABLE) f) 0 period_ms data] in
  if negb (r =? 0) then Ret (-1, tmr) else Ret (0, TimerBsd (tb_addr tmr) 1).

Definition fftimer_stop_bsd (tmr : timer_bsd) (kq : Z) : prog unixE (Z * timer_bsd) :=
  let! r := u_kevent_change kq [timer_delete tmr] in
  if negb (r =? 0) then Ret (-1, tmr) else Ret (0, TimerBsd (tb_addr tmr) 0).
Definition fftimer_consume_bsd (tmr : timer_bsd) : prog unixE unit := Ret tt.

(** the interval of a Linux timer, for every period of 32 bits but the smallest: the system gets the
    period exactly (in seconds and less than 10^9 nanoseconds), repeated for a positive period, once for a
    negative one; for the smallest period the negation overflows and the time is not valid. *)
Theorem timer_spec_exact p : is_s32 p →
  let its := timer_spec p in
  (p ≠ - 2 ^ 31 → total_ns (it_value its) = Z.abs p * 1000000 ∧ normal (it_value its) ∧
     it_interval its = (if p <? 0 then TimeSpec 0 0 else it_value its)) ∧
  (p = - 2 ^ 31 → ¬ normal (it_value its)).
Proof.
  intros Hp its. unfold its, timer_spec. clear its. unfold is_s32 in Hp. split.
  - intros Hm. destruct (Z.ltb_spec p 0) as [Hn|Hn]; cbn [it_value it_interval].
    + rewrite s32_small by (unfold is_s32; lia). unfold total_ns, normal. cbn [tv_sec tv_nsec].
      split_and!; [dlia..|done].
    + unfold total_ns, normal. cbn [tv_sec tv_nsec]. split_and!; [dlia..|done].
  - intros ->. vm_compute. intuition congruence.
Qed.

Lemma timer_spec_exact_witness :
  total_ns (it_value (timer_spec (-1500))) = 1500000000 ∧ normal (it_value (timer_spec (-1500))) ∧
  it_interval (timer_spec (-1500)) = TimeSpec 0 0.
Proof. apply (timer_spec_exact (-1500)); unfold is_s32; lia. Defined.

(** ** Windows: creation and destruction *)

(** [struct _fftimer]: its block, the handles (0: NULL). *)
Record timer_win := TimerWin { tw_blk : Z; tw_htmr : Z; tw_evt : Z; tw_evt_result : Z; tw_thd : Z }.

(** The command _FFTIMER_EXIT is only signalled; its result is not awaited. *)
Definition fftimer_close_win (tmr : timer_win) : prog winE unit :=
  do! CloseHandle (tw_htmr tmr) in
  do* if negb (tw_thd tmr =? 0) then
        do! SetEvent (tw_evt tmr) in
        do* ffthread_join_win (tw_thd tmr) (2 ^ 32 - 1) false in Ret tt
      else Ret tt in
  do! CloseHandle (tw_evt tmr) in
  do! CloseHandle (tw_evt_result tmr) in
  do! w_free (tw_blk tmr) in Ret tt.

Definition fftimer_create_win (thread : Z) : prog winE (option timer_win) :=
  let! b := w_alloc 64 in
  if b =? 0 then Ret None else
  let err t := do* fftimer_close_win t in Ret None in
  let! htmr := CreateWaitableTimer in
  if htmr =? 0 then err (TimerWin b 0 0 0 0) else
  let! evt := CreateEvent in
  if evt =? 0 then err (TimerWin b htmr 0 0 0) else
  let! evt_result := CreateEvent in
  if evt_result =? 0 then err (TimerWin b htmr evt 0 0) else
  let* thd := ffthread_create_win thread b (4 * 1024) in
  if thd =? 0 then err (TimerWin b htmr evt evt_result 0) else
  Ret (Some (TimerWin b htmr evt evt_result thd)).

Lemma close_partial_wp b htmr evt evt_result H s :
  (0 ∉ H) → ws_handles s = (({[htmr; evt; evt_result]} ∖ {[0]}) ∪ H) →
  ((htmr ∉ H) ∧ (evt ∉ H) ∧ (evt_result ∉ H)) →
  wp wstep (fftimer_close_win (TimerWin b htmr evt evt_result 0))
    (λ _ s', ws_handles s' = H ∧ ws_socks s' = ws_socks s ∧ ws_mem s' = (ws_mem s ∖ {[b]})) never s.
Proof.
  intros H0 Hh (N1 & N2 & N3). cbn. intros ? s1 (A1 & A2 & A3) ? s2 (B1 & B2 & B3) ? s3 (C1 & C2 & C3)
    ? s4 (D1 & D2 & _ & D4). rewrite D1, C3, B3, A3, Hh, D2, C1, B1, A1, D4, C2, B2, A2.
  split_and!; [|done|done]. clear -H0 N1 N2 N3. apply set_eq. intros x. set_solver.
Qed.

(** creating a Windows timer: at whichever step it fails, the handles and the memory are as before;
    otherwise exactly the block, the timer, two events and the thread are new. *)
Theorem timer_create_win_clean thread s : (0 ∉ ws_handles s) →
  wp wstep (fftimer_create_win thread) (λ r s', ws_socks s' = ws_socks s ∧
    match r with
    | None => wsame s s'
    | Some t => NoDup [tw_htmr t; tw_evt t; tw_evt_result t; tw_thd t] ∧
        (∀ h, h ∈ [tw_htmr t; tw_evt t; tw_evt_result t; tw_thd t] → 0 < h ∧ (h ∉ ws_handles s)) ∧
        ws_handles s' = list_to_set [tw_htmr t; tw_evt t; tw_evt_result t; tw_thd t] ∪ ws_handles s ∧
        (tw_blk t ∉ ws_mem s) ∧ ws_mem s' = {[tw_blk t]} ∪ ws_mem s
    end) never s.
Proof.
  intros H0. unfold fftimer_create_win, ffthread_create_win. cbn [wp].
  intros b s1 (A1 & A2 & A3). destruct (Z.eqb_spec b 0) as [->|Hb].
  { cbn. destruct A3 as [[_ A3]|[? _]]; [|lia]. by split_and!. }
  destruct A3 as [[? _]|(_ & Hbn & A3)]; [done|].
  (* a failure after some handles *)
  assert (Hfail : ∀ h e r s2, ws_socks s2 = ws_socks s → ws_mem s2 = {[b]} ∪ ws_mem s →
    ws_handles s2 = (({[h; e; r]} ∖ {[0]}) ∪ ws_handles s) →
    (h ∉ ws_handles s) ∧ (e ∉ ws_handles s) ∧ (r ∉ ws_handles s) →
    wp wstep (do* fftimer_close_win (TimerWin b h e r 0) in Ret None) (λ r s', ws_socks s' = ws_socks s ∧
    match r with
    | None => wsame s s'
    | Some t => NoDup [tw_htmr t; tw_evt t; tw_evt_result t; tw_thd t] ∧
        (∀ h, h ∈ [tw_htmr t; tw_evt t; tw_evt_result t; tw_thd t] → 0 < h ∧ (h ∉ ws_handles s)) ∧
        ws_handles s' = list_to_set [tw_htmr t; tw_evt t; tw_evt_result t; tw_thd t] ∪ ws_handles s ∧
        (tw_blk t ∉ ws_mem s) ∧ ws_mem s' = {[tw_blk t]} ∪ ws_mem s
    end) never s2).
  { intros h e r s2 E1 E2 E3 E4. apply wp_bind. eapply wp_mono; [by eapply close_partial_wp| |done].
    intros ? s3 (F1 & F2 & F3). cbn. split; [congruence|]. unfold wsame.
    split_and!; [done|congruence|]. rewrite F3, E2. clear -Hbn. set_solver. }
  cbn [wp]. intros h s2 (B1 & B2 & B3). rewrite A1, A2, A3 in *.
  destruct (Z.eqb_spec h 0) as [->|Hh].
  { apply Hfail; [done|done| |done]. destruct B3 as [[_ B3]|[? _]]; [|lia]. rewrite B3. clear. set_solver. }
  destruct B3 as [[? _]|(Hh0 & Hhn & B3)]; [done|]. cbn [wp]. intros e s3 (C1 & C2 & C3). rewrite B1, B2, B3 in *.
  destruct (Z.eqb_spec e 0) as [->|He].
  { apply Hfail; [done|done| |done]. destruct C3 as [[_ C3]|[? _]]; [|lia]. rewrite C3. clear -Hh. set_solver. }
  destruct C3 as [[? _]|(He0 & Hen & C3)]; [done|]. cbn [wp]. intros r s4 (D1 & D2 & D3). rewrite C1, C2, C3 in *.
  assert (e ∉ ws_handles s ∧ e ≠ h) as [Hen1 Heh] by (clear -Hen; set_solver).
  destruct (Z.eqb_spec r 0) as [->|Hr].
  { apply Hfail; [done|done| |done]. destruct D3 as [[_ D3]|[? _]]; [|lia]. rewrite D3. clear -Hh He. set_solver. }
  destruct D3 as [[? _]|(Hr0 & Hrn & D3)]; [done|]. cbn [wp bind call]. intros t s5 (E1 & E2 & E3). rewrite D1, D2, D3 in *.
  assert ((r ∉ ws_handles s) ∧ r ≠ h ∧ r ≠ e) as (Hrn1 & Hrh & Hre) by (clear -Hrn; set_solver).
  destruct (Z.eqb_spec t 0) as [->|Ht].
  { apply Hfail; [done|done| |done]. destruct E3 as [[_ E3]|[? _]]; [|lia]. rewrite E3. clear -Hh He Hr. set_solver. }
  destruct E3 as [[? _]|(Ht0 & Htn & E3)]; [done|]. cbn [wp].
  assert ((t ∉ ws_handles s) ∧ t ≠ h ∧ t ≠ e ∧ t ≠ r) as (Htn1 & Hth & Hte & Htr) by (clear -Htn; set_solver).
  cbn [tw_htmr tw_evt tw_evt_result tw_thd tw_blk]. split_and!; [done| | |rewrite E3; cbn; clear; set_solver|done|done].
  - clear -Hrh Hre Heh Hth Hte Htr.
    repeat (apply NoDup_cons; split; [rewrite ?elem_of_cons, ?elem_of_nil; intuition congruence|]). by apply NoDup_nil.
  - intros x. rewrite !elem_of_cons, elem_of_nil. intros [->|[->|[->|[->|[]]]]]; auto.
Qed.

Definition w5 : wstate := WState 0 {[5]} ∅ ∅.
Lemma timer_create_win_clean_witness :
  wp wstep (fftimer_create_win 1) (λ r s', ws_socks s' = ws_socks w5 ∧
    match r with
    | None => wsame w5 s'
    | Some t => NoDup [tw_htmr t; tw_evt t; tw_evt_result t; tw_thd t] ∧
        (∀ h, h ∈ [tw_htmr t; tw_evt t; tw_evt_result t; tw_thd t] → 0 < h ∧ (h ∉ ws_handles w5)) ∧
        ws_handles s' = list_to_set [tw_htmr t; tw_evt t; tw_evt_result t; tw_thd t] ∪ ws_handles w5 ∧
        (tw_blk t ∉ ws_mem w5) ∧ ws_mem s' = {[tw_blk t]} ∪ ws_mem w5
    end) never w5.
Proof. apply (timer_create_win_clean 1 w5). cbn. clear. set_solver. Defined.
