(* ===== verification/TimerThread.v ===== *)
(** * FFOS/timer.h on Windows: the timer thread and its owner

    The fields of struct _fftimer and its two auto-reset events are shared by two threads.  The code
    of each thread is a program over [tmE]; [act] says what one action does to the shared state, when
    it can be done, and what it answers; a configuration holds what is left of both programs, and
    [step] lets either thread do its next action.  The owner is a client that executes a list of
    commands and closes the timer.  Memory is sequentially consistent: the fences of the code order
    its stores before the events that publish them. *)
From S2P Require Import Prelude Prog Win Queue.

Definition _FFTIMER_EXIT := 0.
Definition _FFTIMER_START := 1.
Definition _FFTIMER_STOP := 2.
Definition WAIT_IO_COMPLETION := 192.

Inductive tmE : Type → Type :=
  (* fields of the object *)
  | ReadKq : tmE Z | WriteKq (v : Z) : tmE unit
  | ReadData : tmE Z | WriteData (v : Z) : tmE unit
  | ReadPeriod : tmE Z | WritePeriod (v : Z) : tmE unit
  | ReadCtl : tmE Z | WriteCtl (v : Z) : tmE unit
  | ReadResult : tmE Z | WriteResult (v : Z) : tmE unit
  (* SetEvent, WaitForSingleObject[Ex] on tmr->evt and tmr->evt_result *)
  | SetEvt : tmE bool | WaitEvt : tmE Z
  | SetEvtResult : tmE bool | WaitEvtResult : tmE Z
  (* the waitable timer, the kernel queue, the last error of a thread *)
  | TSet (due period : Z) : tmE bool | TCancel : tmE bool
  | TPost (kq data : Z) : tmE bool
  | TGetLastError : tmE Z | TSetLastError (e : Z) : tmE unit
  (* CloseHandle(htmr), joining the thread, CloseHandle(evt), CloseHandle(evt_result), ffmem_free(tmr) *)
  | TCloseTimer : tmE unit | TJoin : tmE Z | TCloseEvt : tmE unit | TCloseEvtResult : tmE unit | TFree : tmE unit.

(** ** The timer thread *)

(** Called while the thread waits, when the timer fires. *)
Definition _fftimer_onfire : prog tmE unit :=
  let! kq := ReadKq in
  let! data := ReadData in
  let post := ffkq_post_attach_win kq data in
  let! data := ReadData in
  let! ok := TPost post data in
  if ok : bool then Ret tt else Halt AssertFail.

(** The commands: the result code. *)
Definition timer_exec (cmd : Z) : prog tmE Z :=
  if cmd =? _FFTIMER_START then
    let! p := ReadPeriod in
    let due_ns100 := s64 (p * 1000 * -10) in
    let! p := ReadPeriod in
    let* period_ms := if 0 <=? p then call ReadPeriod else Ret 0 in
    let! ok := TSet due_ns100 period_ms in
    if ok : bool then Ret 0 else call TGetLastError
  else if cmd =? _FFTIMER_STOP then
    let! ok := TCancel in
    if ok : bool then Ret 0 else call TGetLastError
  else Ret 0.

(** One turn of the loop; [inr]: the thread ends. *)
Definition _fftimer_thread : prog tmE (unit + Z) :=
  let! r := WaitEvt in
  if r =? WAIT_IO_COMPLETION then do* _fftimer_onfire in Ret (inl tt)
  else if r =? WAIT_OBJECT_0 then
    let! cmd := ReadCtl in
    if cmd =? _FFTIMER_EXIT then Ret (inr 0) else
    let* r := timer_exec cmd in
    do! WriteResult r in
    let! ok := SetEvtResult in
    if ok : bool then Ret (inl tt) else Halt AssertFail
  else Halt AssertFail.

(** ** The owner *)

Definition _fftimer_cmd (cmd : Z) : prog tmE Z :=
  do! WriteCtl cmd in
  let! ok := SetEvt in
  if negb ok then Ret (-1) else
  if cmd =? _FFTIMER_EXIT then Ret 0 else
  let! r := WaitEvtResult in
  if negb (r =? WAIT_OBJECT_0) then Ret (-1) else
  let! r := ReadResult in
  do! TSetLastError r in Ret r.

Definition fftimer_start_win (kq data period_ms : Z) : prog tmE Z :=
  do! WriteKq kq in do! WriteData data in do! WritePeriod period_ms in _fftimer_cmd _FFTIMER_START.
Definition fftimer_stop_win : prog tmE Z := _fftimer_cmd _FFTIMER_STOP.
Definition fftimer_consume_win : prog tmE unit := Ret tt.

(** The end of fftimer_close(), when the thread has ended. *)
Definition timer_release : prog tmE unit :=
  do! TCloseEvt in do! TCloseEvtResult in do! TFree in Ret tt.
(** fftimer_close() of a timer that has a thread. *)
Definition timer_close : prog tmE unit :=
  do! TCloseTimer in do* _fftimer_cmd _FFTIMER_EXIT in do! TJoin in timer_release.

Inductive tcmd := Start (kq data period_ms : Z) | Stop.
Definition run_cmd (c : tcmd) : prog tmE Z :=
  match c with Start kq data p => fftimer_start_win kq data p | Stop => fftimer_stop_win end.

(** The results of the commands so far, then of the rest. *)
Fixpoint client (cmds : list tcmd) (acc : list Z) : prog tmE (list Z) :=
  match cmds with
  | [] => do* timer_close in Ret acc
  | c :: cmds => let* r := run_cmd c in client cmds (acc ++ [r])
  end.

(** ** The shared state and the actions *)

(** What a command did to the waitable timer. *)
Inductive effect := Armed (due period : Z) | Cancelled.

Record shared := Shared {
  sh_kq : Z; sh_data : Z; sh_period : Z; sh_ctl : Z; sh_result : Z;
  sh_evt : bool; sh_res : bool;                (* the events *)
  sh_armed : option (Z * Z);                   (* the waitable timer *)
  sh_err_o : Z; sh_err_t : Z;                  (* last errors: owner, thread *)
  sh_log : list (effect * Z);                  (* commands executed, with 0 or the error *)
  sh_posts : list (Z * Z);
  sh_freed : bool;
}.

Definition with_fields (s : shared) kq data period ctl result : shared :=
  Shared kq data period ctl result (sh_evt s) (sh_res s) (sh_armed s) (sh_err_o s) (sh_err_t s) (sh_log s)
    (sh_posts s) (sh_freed s).
Definition with_events (s : shared) evt res : shared :=
  Shared (sh_kq s) (sh_data s) (sh_period s) (sh_ctl s) (sh_result s) evt res (sh_armed s) (sh_err_o s)
    (sh_err_t s) (sh_log s) (sh_posts s) (sh_freed s).
Definition with_timer (s : shared) armed err_t log : shared :=
  Shared (sh_kq s) (sh_data s) (sh_period s) (sh_ctl s) (sh_result s) (sh_evt s) (sh_res s) armed (sh_err_o s)
    err_t log (sh_posts s) (sh_freed s).
Definition with_rest (s : shared) err_o posts freed : shared :=
  Shared (sh_kq s) (sh_data s) (sh_period s) (sh_ctl s) (sh_result s) (sh_evt s) (sh_res s) (sh_armed s) err_o
    (sh_err_t s) (sh_log s) posts freed.

(** [act ended s e x s']: action [e] can be done, answers [x] and leads to [s'].  A wait is possible when
    its event is signalled, which it resets; the alertable wait also when the timer is armed (it fires);
    joining when the thread has [ended].  The timer functions succeed, or fail with an error that is not
    0; SetEvent() on a valid event succeeds, a wait on one does not fail. *)
Definition act (ended : bool) (s : shared) X (e : tmE X) : X → shared → Prop :=
  match e in tmE X return X → shared → Prop with
  | ReadKq => λ x s', x = sh_kq s ∧ s' = s
  | WriteKq v => λ _ s', s' = with_fields s v (sh_data s) (sh_period s) (sh_ctl s) (sh_result s)
  | ReadData => λ x s', x = sh_data s ∧ s' = s
  | WriteData v => λ _ s', s' = with_fields s (sh_kq s) v (sh_period s) (sh_ctl s) (sh_result s)
  | ReadPeriod => λ x s', x = sh_period s ∧ s' = s
  | WritePeriod v => λ _ s', s' = with_fields s (sh_kq s) (sh_data s) v (sh_ctl s) (sh_result s)
  | ReadCtl => λ x s', x = sh_ctl s ∧ s' = s
  | WriteCtl v => λ _ s', s' = with_fields s (sh_kq s) (sh_data s) (sh_period s) v (sh_result s)
  | ReadResult => λ x s', x = sh_result s ∧ s' = s
  | WriteResult v => λ _ s', s' = with_fields s (sh_kq s) (sh_data s) (sh_period s) (sh_ctl s) v
  | SetEvt => λ x s', x = true ∧ s' = with_events s true (sh_res s)
  | SetEvtResult => λ x s', x = true ∧ s' = with_events s (sh_evt s) true
  | WaitEvt => λ x s',
      (sh_evt s = true ∧ x = WAIT_OBJECT_0 ∧ s' = with_events s false (sh_res s)) ∨
      (is_Some (sh_armed s) ∧ x = WAIT_IO_COMPLETION ∧ s' = s)
  | WaitEvtResult => λ x s', sh_res s = true ∧ x = WAIT_OBJECT_0 ∧ s' = with_events s (sh_evt s) false
  | TSet due p => λ x s',
      (x = true ∧ s' = with_timer s (Some (due, p)) (sh_err_t s) (sh_log s ++ [(Armed due p, 0)])) ∨
      (x = false ∧ ∃ e, e ≠ 0 ∧ s' = with_timer s (sh_armed s) e (sh_log s ++ [(Armed due p, e)]))
  | TCancel => λ x s',
      (x = true ∧ s' = with_timer s None (sh_err_t s) (sh_log s ++ [(Cancelled, 0)])) ∨
      (x = false ∧ ∃ e, e ≠ 0 ∧ s' = with_timer s (sh_armed s) e (sh_log s ++ [(Cancelled, e)]))
  | TPost kq data => λ x s', x = true ∧ s' = with_rest s (sh_err_o s) (sh_posts s ++ [(kq, data)]) (sh_freed s)
  | TGetLastError => λ x s', x = sh_err_t s ∧ s' = s
  | TSetLastError e => λ _ s', s' = with_rest s e (sh_posts s) (sh_freed s)
  | TCloseTimer => λ _ s', s' = with_timer s None (sh_err_t s) (sh_log s)
  | TJoin => λ x s', ended = true ∧ x = 0 ∧ s' = s
  | TCloseEvt | TCloseEvtResult => λ _ s', s' = with_rest s (sh_err_o s) (sh_posts s) true
  | TFree => λ _ s', s' = with_rest s (sh_err_o s) (sh_posts s) true
  end.

(** One action of a program. *)
Definition pstep {A} (ended : bool) : prog tmE A → shared → prog tmE A → shared → Prop := pnext (act ended).

Record config := Config { owner : prog tmE (list Z); thr : option (prog tmE (unit + Z)); sh : shared }.

Inductive step : config → config → Prop :=
  | step_owner p p' t s s' :
      pstep (match t with None => true | Some _ => false end) p s p' s' →
      step (Config p t s) (Config p' t s')
  | step_thread p t t' s s' : pstep false t s t' s' → step (Config p (Some t) s) (Config p (Some t') s')
  | step_loop p s : step (Config p (Some (Ret (inl tt))) s) (Config p (Some _fftimer_thread) s)
  | step_end p r s : step (Config p (Some (Ret (inr r))) s) (Config p None s).

Definition initial (cmds : list tcmd) (s : shared) : config := Config (client cmds []) (Some _fftimer_thread) s.
(** A new object: no event is signalled, the timer is not armed. *)
Definition fresh (s : shared) : Prop :=
  sh_evt s = false ∧ sh_res s = false ∧ sh_armed s = None ∧ sh_log s = [] ∧ sh_freed s = false.

(** What a command is meant to do. *)
Definition effect_of (c : tcmd) : effect :=
  match c with
  | Start _ _ p => Armed (s64 (p * 1000 * -10)) (if 0 <=? p then p else 0)
  | Stop => Cancelled
  end.

(** ** The protocol

    [inv cmds] describes the configurations that can be reached: which command is being executed, how far
    its owner and the thread are, which event is signalled. *)

Definition results (s : shared) : list Z := map snd (sh_log s).
(** The commands [done] have been executed. *)
Definition executed (done : list tcmd) (s : shared) : Prop :=
  map fst (sh_log s) = map effect_of done ∧ sh_freed s = false.

Definition code (c : tcmd) : Z := match c with Start _ _ _ => _FFTIMER_START | Stop => _FFTIMER_STOP end.
Definition prepared (c : tcmd) (s : shared) : Prop :=
  match c with Start _ _ p => sh_period s = p | Stop => True end.

(** [_fftimer_thread] once the event is signalled. *)
Definition turn : prog tmE (unit + Z) :=
  let! cmd := ReadCtl in
  if cmd =? _FFTIMER_EXIT then Ret (inr 0) else
  let* r := timer_exec cmd in
  do! WriteResult r in
  let! ok := SetEvtResult in
  if ok : bool then Ret (inl tt) else Halt AssertFail.

(** The thread waits for a command, or tells the queue that the timer has fired. *)
Inductive idle : prog tmE (unit + Z) → Prop :=
  | idle_wait : idle _fftimer_thread
  | idle_fire : idle (do* _fftimer_onfire in Ret (inl tt))
  | idle_data kq :
      idle (let! data := ReadData in let! data' := ReadData in
            let! ok := TPost (ffkq_post_attach_win kq data) data' in
            bind (if ok : bool then Ret tt else Halt AssertFail) (λ _, Ret (inl tt)))
  | idle_post kq :
      idle (let! data := ReadData in let! ok := TPost kq data in
            bind (if ok : bool then Ret tt else Halt AssertFail) (λ _, Ret (inl tt)))
  | idle_send kq data :
      idle (let! ok := TPost kq data in
            bind (if ok : bool then Ret tt else Halt AssertFail) (λ _, Ret (inl tt)))
  | idle_again : idle (Ret (inl tt)).

(** The owner has a command to give. *)
Definition wait_result : prog tmE Z :=
  let! r := WaitEvtResult in
  if negb (r =? WAIT_OBJECT_0) then Ret (-1) else
  let! r := ReadResult in
  do! TSetLastError r in Ret r.
Definition signal : prog tmE Z := let! ok := SetEvt in if negb ok then Ret (-1) else wait_result.

Inductive ready (s : shared) : tcmd → prog tmE Z → Prop :=
  | ready_start kq d p : ready s (Start kq d p) (fftimer_start_win kq d p)
  | ready_data kq d p :
      ready s (Start kq d p) (do! WriteData d in do! WritePeriod p in _fftimer_cmd _FFTIMER_START)
  | ready_period kq d p : ready s (Start kq d p) (do! WritePeriod p in _fftimer_cmd _FFTIMER_START)
  | ready_ctl c : prepared c s → ready s c (_fftimer_cmd (code c))
  | ready_set c : prepared c s → sh_ctl s = code c → ready s c signal.

(** The owner closes the timer and has not yet told the thread. *)
Inductive closing (s : shared) : prog tmE unit → Prop :=
  | closing_timer : closing s timer_close
  | closing_ctl : closing s (do* _fftimer_cmd _FFTIMER_EXIT in do! TJoin in timer_release)
  | closing_set :
      sh_ctl s = _FFTIMER_EXIT →
      closing s (let! ok := SetEvt in
                 bind (if negb ok then Ret (-1) else Ret 0) (λ _ : Z, do! TJoin in timer_release)).

(** A program of the thread that ends in [Q], and satisfies [I] before each of its actions. *)
Fixpoint upto {A} (I : shared → Prop) (Q : A → shared → Prop) (p : prog tmE A) (s : shared) : Prop :=
  match p with
  | Ret a => Q a s
  | Halt _ => False
  | Vis e k => I s ∧ (∃ x s', act false s _ e x s') ∧ ∀ x s', act false s _ e x s' → upto I Q (k x) s'
  end.

(** The command [c] has been executed and its result is ready. *)
Definition reported (done : list tcmd) (c : tcmd) (s : shared) : Prop :=
  executed (done ++ [c]) s ∧ sh_evt s = false.
Definition busy (s : shared) : Prop := sh_evt s = false ∧ sh_res s = false.
Definition working (s : shared) : Prop := busy s ∧ sh_freed s = false.

(** What the owner does with the result of a command. *)
Definition continue (rest : list tcmd) (acc : list Z) : Z → prog tmE (list Z) := λ r, client rest (acc ++ [r]).

(** The owner closes the events and frees the object. *)
Inductive releasing : prog tmE unit → Prop :=
  | releasing_all : releasing timer_release
  | releasing_result : releasing (do! TCloseEvtResult in do! TFree in Ret tt)
  | releasing_object : releasing (do! TFree in Ret tt).

Inductive inv (cmds : list tcmd) : config → Prop :=
  | inv_ready done c rest p t s :
      cmds = done ++ c :: rest → executed done s → busy s → idle t → ready s c p →
      inv cmds (Config (bind p (continue rest (results s))) (Some t) s)
  | inv_set done c rest t s :
      cmds = done ++ c :: rest → executed done s → sh_evt s = true → sh_res s = false → idle t →
      prepared c s → sh_ctl s = code c →
      inv cmds (Config (bind wait_result (continue rest (results s))) (Some t) s)
  | inv_exec done c rest acc t s :
      cmds = done ++ c :: rest →
      upto working (λ r s', r = inl tt ∧ reported done c s' ∧ sh_res s' = true ∧ results s' = acc ++ [sh_result s']) t s →
      inv cmds (Config (bind wait_result (continue rest acc)) (Some t) s)
  | inv_result done c rest acc t s :
      cmds = done ++ c :: rest → reported done c s → sh_res s = true → results s = acc ++ [sh_result s] → idle t →
      inv cmds (Config (bind wait_result (continue rest acc)) (Some t) s)
  | inv_got done c rest acc t s :
      cmds = done ++ c :: rest → reported done c s → sh_res s = false → results s = acc ++ [sh_result s] → idle t →
      inv cmds (Config (let! r := ReadResult in do! TSetLastError r in continue rest acc r) (Some t) s)
  | inv_err done c rest acc t s :
      cmds = done ++ c :: rest → reported done c s → sh_res s = false → results s = acc ++ [sh_result s] → idle t →
      inv cmds (Config (do! TSetLastError (sh_result s) in continue rest acc (sh_result s)) (Some t) s)
  | inv_close p t s :
      executed cmds s → busy s → idle t → closing s p →
      inv cmds (Config (bind p (λ _, Ret (results s))) (Some t) s)
  | inv_exit t s :
      executed cmds s → sh_ctl s = _FFTIMER_EXIT →
      (idle t ∧ sh_evt s = true) ∨ t = turn ∨ t = Ret (inr 0) →
      inv cmds (Config (do! TJoin in do* timer_release in Ret (results s)) (Some t) s)
  | inv_ended s :
      executed cmds s → inv cmds (Config (do! TJoin in do* timer_release in Ret (results s)) None s)
  | inv_joined p s : map fst (sh_log s) = map effect_of cmds → releasing p →
      inv cmds (Config (do* p in Ret (results s)) None s)
  | inv_freed s : map fst (sh_log s) = map effect_of cmds → inv cmds (Config (Ret (results s)) None s).

(** *** Its steps *)

(** What the notices of the idle thread change. *)
Definition notice (s s' : shared) : Prop := ∃ posts, s' = with_rest s (sh_err_o s) posts (sh_freed s).

Lemma idle_step t s t' s' :
  idle t → pstep false t s t' s' →
  (idle t' ∧ notice s s') ∨ (t' = turn ∧ sh_evt s = true ∧ s' = with_events s false (sh_res s)).
Proof.
  intros Ht Hx. assert (notice s s) as Hs by (exists (sh_posts s); by destruct s).
  destruct Ht; cbn in Hx; [..|done]; destruct Hx as (x & Ha & ->); cbn in Ha.
  - destruct Ha as [(He & -> & ->)|(_ & -> & ->)]; [right|left]; split_and!; try done; constructor.
  - destruct Ha as [-> ->]. left. split; [constructor|done].
  - destruct Ha as [-> ->]. left. split; [constructor|done].
  - destruct Ha as [-> ->]. left. split; [constructor|done].
  - destruct Ha as [-> ->]. left. split; [constructor|by eexists].
Qed.

(** The actions of a program that is on its way to [Q]. *)
Lemma upto_step {A} I (Q : A → shared → Prop) p s p' s' :
  upto I Q p s → pstep false p s p' s' → upto I Q p' s'.
Proof. destruct p; cbn; [done| |done]. intros (_ & _ & H) (y & Hy & ->). by apply H. Qed.

(** An action of an [upto] whose answer is determined. *)
Ltac plain := split; [done|]; split; [by do 2 eexists|]; intros ? ? [-> ->].

(** The thread executes the command. *)
Lemma turn_upto done c s :
  executed done s → busy s → prepared c s → sh_ctl s = code c →
  upto working (λ r s', r = inl tt ∧ reported done c s' ∧ sh_res s' = true ∧ results s' = results s ++ [sh_result s'])
    turn s.
Proof.
  intros [Hl Hf] [He Hr] Hp Hc. unfold turn. set (Q := λ r s', _).
  assert (∀ armed err r, let s1 := with_timer s armed err (sh_log s ++ [(effect_of c, r)]) in
    working s1 ∧ sh_ctl s1 = sh_ctl s ∧
    upto working Q (do! WriteResult r in let! ok := SetEvtResult in if ok : bool then Ret (inl tt) else Halt AssertFail)
      s1) as HQ.
  { intros armed err r s1. split; [done|]. split; [done|]. cbn [upto].
    split; [done|]. split; [by exists tt; eexists|]. intros ? s' H. cbn in H. subst s'. plain.
    subst Q. unfold reported, executed, results. cbn. by rewrite !map_app, Hl. }
  assert (∀ armed (x : bool) s', (x = true ∧ s' = with_timer s armed (sh_err_t s) (sh_log s ++ [(effect_of c, 0)])) ∨
      (x = false ∧ ∃ e, e ≠ 0 ∧ s' = with_timer s (sh_armed s) e (sh_log s ++ [(effect_of c, e)])) →
    upto working Q (let* r := (if x then Ret 0 else call TGetLastError) in do! WriteResult r in
      let! ok := SetEvtResult in if ok : bool then Ret (inl tt) else Halt AssertFail) s') as HX.
  { intros armed x s' [[-> ->]|(-> & e & _ & ->)]; cbn [bind call].
    - apply HQ.
    - cbn [upto]. destruct (HQ (sh_armed s) e e) as (? & _ & ?). plain. done. }
  cbn [upto]. plain. rewrite Hc.
  destruct c as [kq d p|]; cbn in Hp |- *.
  - plain. plain. rewrite !Hp in *. cbn [effect_of] in HX. destruct (0 <=? p) eqn:Ep; cbn [bind call upto].
    + plain. split; [done|]. split; [by do 2 eexists; left|]. rewrite Hp. apply HX.
    + split; [done|]. split; [by do 2 eexists; left|]. apply HX.
  - split; [done|]. split; [by do 2 eexists; left|]. apply HX.
Qed.

(** Reports and facts that the notices of the thread leave alone. *)
Lemma notice_keeps s s' :
  notice s s' →
  busy s' = busy s ∧ (∀ done, executed done s' = executed done s) ∧
  (∀ done c, reported done c s' = reported done c s) ∧ results s' = results s ∧ sh_result s' = sh_result s ∧
  sh_res s' = sh_res s ∧ sh_evt s' = sh_evt s ∧ sh_ctl s' = sh_ctl s ∧ sh_log s' = sh_log s ∧
  (∀ c, prepared c s' = prepared c s).
Proof. by intros [posts ->]. Qed.

Lemma inv_initial cmds s : fresh s → inv cmds (initial cmds s).
Proof.
  intros (He & Hr & Ha & Hl & Hf). unfold initial.
  assert (results s = []) as Hres by (unfold results; by rewrite Hl).
  destruct cmds as [|c rest].
  - pose proof (inv_close [] timer_close _fftimer_thread s) as H. rewrite Hres in H.
    apply H; [split; [by rewrite Hl|done]|done|constructor|constructor].
  - pose proof (inv_ready (c :: rest) [] c rest (run_cmd c) _fftimer_thread s eq_refl) as H. rewrite Hres in H.
    apply H; [split; [by rewrite Hl|done]|done|constructor|].
    destruct c; [constructor|by apply (ready_ctl _ Stop)].
Qed.

(** *** The invariant is kept *)

(** The owner is done with the command: what is next. *)
Lemma inv_next done c rest t s :
  executed (done ++ [c]) s → busy s → idle t →
  inv (done ++ c :: rest) (Config (client rest (results s)) (Some t) s).
Proof.
  intros He Hb Ht. destruct rest as [|c' rest].
  - pose proof (inv_close (done ++ [c]) timer_close t s) as H. apply H; [done..|constructor].
  - apply (inv_ready _ (done ++ [c]) c' rest (run_cmd c')); [by rewrite <- app_assoc|done..|].
    destruct c'; [constructor|by apply (ready_ctl _ Stop)].
Qed.

(** A step of the owner, when it has a command to give. *)
Lemma ready_step c p s A (k : Z → prog tmE A) q s' :
  ready s c p → busy s → pstep false (bind p k) s q s' →
  ∃ p', q = bind p' k ∧ sh_log s' = sh_log s ∧ sh_freed s' = sh_freed s ∧
    ((busy s' ∧ ready s' c p') ∨
     (p' = wait_result ∧ sh_evt s' = true ∧ sh_res s' = false ∧ prepared c s' ∧ sh_ctl s' = code c)).
Proof.
  intros Hr [He Hs] Hx. destruct Hr as [| | |c Hp|c Hp Hc]; cbn in Hx; destruct Hx as (x & Ha & ->); cbn in Ha.
  - subst s'. exists (do! WriteData d in do! WritePeriod p in _fftimer_cmd _FFTIMER_START). split_and!; try done.
    left. split; [done|constructor].
  - subst s'. exists (do! WritePeriod p in _fftimer_cmd _FFTIMER_START). split_and!; try done.
    left. split; [done|constructor].
  - subst s'. exists (_fftimer_cmd _FFTIMER_START). split_and!; try done.
    left. split; [done|by apply (ready_ctl _ (Start kq d p))].
  - subst s'. exists signal. split_and!; [by destruct c|done..|]. left. split; [done|by constructor].
  - destruct Ha as [-> ->]. exists wait_result. split_and!; try done. right. by destruct c.
Qed.

Lemma ready_notice s s' c p : notice s s' → ready s c p → ready s' c p.
Proof. intros [posts ->] H. by destruct H; constructor. Qed.
Lemma closing_notice s s' p : notice s s' → closing s p → closing s' p.
Proof. intros [posts ->] H. by destruct H; constructor. Qed.

(** The thread goes round its loop. *)
Lemma inv_again cmds p s :
  inv cmds (Config p (Some (Ret (inl tt))) s) → inv cmds (Config p (Some _fftimer_thread) s).
Proof.
  intros H. inversion H; subst; try by econstructor; eauto; constructor.
  - cbn in *. destruct_and!. eapply inv_result; eauto. constructor.
  - constructor; [done..|]. left. naive_solver constructor.
Qed.

Lemma inv_thread cmds p t s t' s' :
  inv cmds (Config p (Some t) s) → pstep false t s t' s' → inv cmds (Config p (Some t') s').
Proof.
  intros H Hx.
  assert (∀ P : Prop, sh_evt s = false → idle t → (notice s s' → idle t' → P) → P) as HI.
  { intros P He Ht HP. destruct (idle_step _ _ _ _ Ht Hx) as [[? ?]|(_ & ? & _)]; [by apply HP|congruence]. }
  inversion H as [done c rest p0 t0 s0 Hc He Hb Ht Hr|done c rest t0 s0 Hc He Hv Hr Ht Hp Hcc
    |done c rest acc t0 s0 Hc Hu|done c rest acc t0 s0 Hc Hrep Hr Hres Ht|done c rest acc t0 s0 Hc Hrep Hr Hres Ht
    |done c rest acc t0 s0 Hc Hrep Hr Hres Ht|p0 t0 s0 He Hb Ht Hcl|t0 s0 He Hc Ht| | |]; subst.
  - apply HI; [apply Hb|done|]. intros Hn Ht'. pose proof (notice_keeps _ _ Hn) as (E1 & E2 & _ & E3 & _).
    rewrite <- E3. apply (inv_ready _ done c); [done|by rewrite E2|by rewrite E1|done|by apply ready_notice with s].
  - destruct (idle_step _ _ _ _ Ht Hx) as [[Ht' Hn]|(-> & _ & ->)].
    + pose proof (notice_keeps _ _ Hn) as (_ & E2 & _ & E3 & _ & E4 & E5 & E6 & _ & E7). rewrite <- E3.
      apply (inv_set _ done c); rewrite ?E2, ?E4, ?E5, ?E6, ?E7; done.
    + apply (inv_exec _ done c); [done|].
      apply (turn_upto done c (with_events s false (sh_res s))); [done|done|by destruct c|done].
  - apply (inv_exec _ done c); [done|]. by apply upto_step with t s.
  - apply HI; [apply Hrep|done|]. intros Hn Ht'. pose proof (notice_keeps _ _ Hn) as (_ & _ & E2 & E3 & E4 & E5 & _).
    apply (inv_result _ done c); [done|by rewrite E2|by rewrite E5|by rewrite E3, E4|done].
  - apply HI; [apply Hrep|done|]. intros Hn Ht'. pose proof (notice_keeps _ _ Hn) as (_ & _ & E2 & E3 & E4 & E5 & _).
    apply (inv_got _ done c); [done|by rewrite E2|by rewrite E5|by rewrite E3, E4|done].
  - apply HI; [apply Hrep|done|]. intros Hn Ht'. pose proof (notice_keeps _ _ Hn) as (_ & _ & E2 & E3 & E4 & E5 & _).
    rewrite <- E4. apply (inv_err _ done c); [done|by rewrite E2|by rewrite E5|by rewrite E3, E4|done].
  - apply HI; [apply Hb|done|]. intros Hn Ht'. pose proof (notice_keeps _ _ Hn) as (E1 & E2 & _ & E3 & _).
    rewrite <- E3. apply inv_close; [by rewrite E2|by rewrite E1|done|by apply closing_notice with s].
  - destruct Ht as [[Ht Hv]|[-> | ->]]; [|cbn in Hx|done].
    + destruct (idle_step _ _ _ _ Ht Hx) as [[Ht' Hn]|(-> & _ & ->)].
      * pose proof (notice_keeps _ _ Hn) as (_ & E2 & _ & E3 & _ & _ & E5 & E6 & _). rewrite <- E3.
        apply inv_exit; [by rewrite E2|by rewrite E6|]. left. by rewrite E5.
      * apply (inv_exit _ _ (with_events s false (sh_res s))); [done|done|by right; left].
    + destruct Hx as (x & [-> ->] & ->). rewrite Hc. apply inv_exit; [done|done|by right; right].
Qed.

Lemma inv_owner cmds p t s p' s' :
  inv cmds (Config p t s) → pstep (match t with None => true | Some _ => false end) p s p' s' →
  inv cmds (Config p' t s').
Proof.
  intros H Hx.
  inversion H as [done c rest p0 t0 s0 Hc He Hb Ht Hr|done c rest t0 s0 Hc He Hv Hr Ht Hp Hcc
    |done c rest acc t0 s0 Hc Hu|done c rest acc t0 s0 Hc Hrep Hr Hres Ht|done c rest acc t0 s0 Hc Hrep Hr Hres Ht
    |done c rest acc t0 s0 Hc Hrep Hr Hres Ht|p0 t0 s0 He Hb Ht Hcl|t0 s0 He Hc Ht|s0 He|p0 s0 He Hp|]; subst.
  - destruct (ready_step _ _ _ _ _ _ _ Hr Hb Hx) as (q & -> & El & Ef & Hq).
    assert (executed done s') as He' by (unfold executed; by rewrite El, Ef).
    replace (results s) with (results s') by (unfold results; by rewrite El).
    destruct Hq as [[Hb' Hr']|(-> & Hv & Hr' & Hp & Hc')]; [by apply (inv_ready _ done c)|by apply (inv_set _ done c)].
  - cbn in Hx. destruct Hx as (x & (Hx & _) & _). congruence.
  - cbn in Hx. destruct Hx as (x & (Hx & -> & ->) & ->).
    destruct t0 as [r|? ? ?|]; cbn in Hu; [|destruct Hu as (((_ & ?) & _) & _); congruence|done].
    destruct Hu as (-> & Hrep & _ & Hres). apply (inv_got _ done c _ _ _ (with_events s (sh_evt s) false)); [done..|constructor].
  - cbn in Hx. destruct Hx as (x & (_ & -> & ->) & ->).
    apply (inv_got _ done c _ _ _ (with_events s (sh_evt s) false)); done.
  - cbn in Hx. destruct Hx as (x & (-> & ->) & ->). by apply (inv_err _ done c).
  - cbn in Hx. destruct Hx as (x & -> & ->). unfold continue. rewrite <- Hres.
    destruct Hrep as [He Hv].
    apply (inv_next done c rest _ (with_rest s (sh_result s) (sh_posts s) (sh_freed s))); done.
  - destruct Hcl as [| |Hc]; cbn in Hx; destruct Hx as (x & Ha & ->); cbn in Ha.
    + subst s'. apply (inv_close _ (do* _fftimer_cmd _FFTIMER_EXIT in do! TJoin in timer_release) _
        (with_timer s None (sh_err_t s) (sh_log s))); [done..|constructor].
    + subst s'. apply (inv_close _ (let! ok := SetEvt in
                 bind (if negb ok then Ret (-1) else Ret 0) (λ _ : Z, do! TJoin in timer_release)) _
        (with_fields s (sh_kq s) (sh_data s) (sh_period s) _FFTIMER_EXIT (sh_result s))); [done..|by constructor].
    + destruct Ha as [-> ->]. apply (inv_exit _ _ (with_events s true (sh_res s))); [done..|by left].
  - cbn in Hx. by destruct Hx as (x & (? & _) & _).
  - cbn in Hx. destruct Hx as (x & (_ & _ & ->) & ->). destruct He. by apply (inv_joined _ timer_release); [|constructor].
  - set (s1 := with_rest s (sh_err_o s) (sh_posts s) true).
    destruct Hp; cbn in Hx; destruct Hx as (x & -> & ->).
    + apply (inv_joined _ (do! TCloseEvtResult in do! TFree in Ret tt) s1); [done|constructor].
    + apply (inv_joined _ (do! TFree in Ret tt) s1); [done|constructor].
    + by apply (inv_freed _ s1).
  - done.
Qed.

Lemma inv_step cmds c c' : inv cmds c → step c c' → inv cmds c'.
Proof.
  intros H Hs. destruct Hs as [p p' t s s' Hx|p t t' s s' Hx|p s|p r s].
  - by apply inv_owner with p s.
  - by apply inv_thread with t s.
  - by apply inv_again.
  - inversion H as [? ? ? ? ? ? ? ? ? Ht|? ? ? ? ? ? ? ? ? Ht|? ? ? ? ? ? ? Hu|? ? ? ? ? ? ? ? ? ? Ht
      |? ? ? ? ? ? ? ? ? ? Ht|? ? ? ? ? ? ? ? ? ? Ht|? ? ? ? ? Ht|? ? He ? Ht| | |]; subst; try by inversion Ht.
    + cbn in Hu. naive_solver.
    + destruct Ht as [[Ht _]|[Ht|Ht]]; [by inversion Ht|discriminate|]. by constructor.
Qed.

Lemma inv_reach cmds s c : fresh s → rtc step (initial cmds s) c → inv cmds c.
Proof.
  intros Hf Hr. assert (inv cmds (initial cmds s)) as Hi by by apply inv_initial.
  induction Hr; eauto using inv_step.
Qed.

(** *** The commands come to an end *)

Definition finishes (c : config) : Prop := ∃ res s, rtc step c (Config (Ret res) None s).

Lemma fin_rtc c c' : rtc step c c' → finishes c' → finishes c.
Proof. intros H (res & s & Hr). exists res, s. by transitivity c'. Qed.

Lemma fin_owner X (e : tmE X) k t s x s' :
  act (match t with None => true | Some _ => false end) s X e x s' →
  finishes (Config (k x) t s') → finishes (Config (Vis e k) t s).
Proof. intros Ha. apply fin_rtc, rtc_once, step_owner. cbn. by exists x. Qed.

Lemma fin_thread X (e : tmE X) k p s x s' :
  act false s X e x s' → finishes (Config p (Some (k x)) s') → finishes (Config p (Some (Vis e k)) s).
Proof. intros Ha. apply fin_rtc, rtc_once, step_thread. cbn. by exists x. Qed.

(** The idle thread comes back to its wait. *)
Lemma fin_idle t p s :
  idle t → (∀ s', notice s s' → finishes (Config p (Some _fftimer_thread) s')) → finishes (Config p (Some t) s).
Proof.
  intros Ht Hs. assert (notice s s) as Hn by (exists (sh_posts s); by destruct s).
  assert (∀ s', notice s s' → finishes (Config p (Some (Ret (inl tt))) s')) as H0.
  { intros s' H'. eapply fin_rtc; [apply rtc_once, step_loop|]. by apply Hs. }
  assert (∀ s' kq data, notice s s' → finishes (Config p (Some (let! ok := TPost kq data in
            bind (if ok : bool then Ret tt else Halt AssertFail) (λ _, Ret (inl tt)))) s')) as H1.
  { intros s' kq data [posts ->]. eapply (fin_thread _ (TPost kq data) _ _ _ true); [by cbn|].
    apply H0. by eexists. }
  destruct Ht; cbn; [by apply Hs|..]; try by auto.
  - eapply (fin_thread _ ReadKq); [by cbn|]. eapply (fin_thread _ ReadData); [by cbn|].
    eapply (fin_thread _ ReadData); [by cbn|]. by apply H1.
  - eapply (fin_thread _ ReadData); [by cbn|]. eapply (fin_thread _ ReadData); [by cbn|]. by apply H1.
  - eapply (fin_thread _ ReadData); [by cbn|]. by apply H1.
Qed.

Lemma fin_upto I (Q : unit + Z → shared → Prop) t p s :
  upto I Q t s → (∀ r s', Q r s' → finishes (Config p (Some (Ret r)) s')) → finishes (Config p (Some t) s).
Proof.
  intros Hu HQ. revert s Hu. induction t as [r|X e k IH|]; intros s Hu; cbn in Hu; [by apply HQ| |done].
  destruct Hu as (_ & (x & s' & Ha) & Hk). eapply fin_thread; [exact Ha|]. by apply IH, Hk.
Qed.

(** The idle thread takes the signal. *)
Lemma fin_wake t p s :
  idle t → sh_evt s = true →
  (∀ s', notice s s' → finishes (Config p (Some turn) (with_events s' false (sh_res s')))) →
  finishes (Config p (Some t) s).
Proof.
  intros Ht He Hs. apply fin_idle; [done|]. intros s' Hn.
  apply (fin_thread _ WaitEvt _ _ _ WAIT_OBJECT_0 (with_events s' false (sh_res s'))); [|by apply Hs].
  left. destruct Hn as [posts ->]. done.
Qed.

(** The thread has been told to exit. *)
Lemma fin_releasing p s acc : releasing p → finishes (Config (do* p in Ret acc) None s).
Proof.
  assert (∀ s, finishes (Config (do! TFree in Ret acc) None s)) as H1.
  { intros s'. eapply (fin_owner _ TFree _ None _ tt); [by cbn|]. by do 2 eexists. }
  assert (∀ s, finishes (Config (do! TCloseEvtResult in do! TFree in Ret acc) None s)) as H2.
  { intros s'. eapply (fin_owner _ TCloseEvtResult _ None _ tt); [by cbn|]. apply H1. }
  intros Hp. destruct Hp; cbn; [|apply H2|apply H1]. eapply (fin_owner _ TCloseEvt _ None _ tt); [by cbn|]. apply H2.
Qed.
Lemma fin_ended s acc : finishes (Config (do! TJoin in do* timer_release in Ret acc) None s).
Proof.
  eapply (fin_owner _ TJoin _ None _ 0); [by cbn|]. apply fin_releasing. constructor.
Qed.

Lemma fin_turn s acc :
  sh_ctl s = _FFTIMER_EXIT → finishes (Config (do! TJoin in do* timer_release in Ret acc) (Some turn) s).
Proof.
  intros Hc. eapply (fin_thread _ ReadCtl _ _ _ _FFTIMER_EXIT); [cbn; by rewrite Hc|].
  eapply fin_rtc; [apply rtc_once, (step_end _ 0)|]. apply fin_ended.
Qed.

(** The last command has been executed. *)
Lemma fin_closing p t s acc :
  busy s → idle t → closing s p → finishes (Config (bind p (λ _, Ret acc)) (Some t) s).
Proof.
  intros Hb Ht Hc.
  assert (∀ s', sh_ctl s' = _FFTIMER_EXIT → finishes (Config (bind (let! ok := SetEvt in
      bind (if negb ok then Ret (-1) else Ret 0) (λ _ : Z, do! TJoin in timer_release)) (λ _, Ret acc))
      (Some t) s')) as H1.
  { intros s' Hs'. eapply (fin_owner _ SetEvt _ (Some t) _ true); [by cbn|]. cbn [negb bind].
    apply fin_wake; [done..|]. intros s2 [posts ->].
    by apply fin_turn. }
  assert (∀ s', finishes (Config (bind (do* _fftimer_cmd _FFTIMER_EXIT in do! TJoin in timer_release)
      (λ _, Ret acc)) (Some t) s')) as H2.
  { intros s'. eapply (fin_owner _ (WriteCtl _) _ (Some t) _ tt); [by cbn|]. by apply H1. }
  destruct Hc.
  - eapply (fin_owner _ TCloseTimer _ (Some t) _ tt); [by cbn|]. apply H2.
  - apply H2.
  - by apply H1.
Qed.

(** What the owner does before it waits for the result. *)
Lemma fin_ready c p t s (k : Z → prog tmE (list Z)) :
  ready s c p →
  (∀ s', sh_log s' = sh_log s → sh_freed s' = sh_freed s → sh_res s' = sh_res s → sh_evt s' = true → prepared c s' →
    sh_ctl s' = code c → finishes (Config (bind wait_result k) (Some t) s')) →
  finishes (Config (bind p k) (Some t) s).
Proof.
  intros Hr Hk.
  assert (∀ s', sh_log s' = sh_log s → sh_freed s' = sh_freed s → sh_res s' = sh_res s → prepared c s' →
      sh_ctl s' = code c → finishes (Config (bind signal k) (Some t) s')) as H1.
  { intros s' ?????. eapply (fin_owner _ SetEvt _ (Some t) _ true); [by cbn|].
    by apply Hk. }
  assert (∀ s', sh_log s' = sh_log s → sh_freed s' = sh_freed s → sh_res s' = sh_res s → prepared c s' →
      finishes (Config (bind (_fftimer_cmd (code c)) k) (Some t) s')) as H2.
  { intros s' ????. eapply (fin_owner _ (WriteCtl (code c)) _ (Some t) _ tt); [by cbn|].
    destruct c; by apply H1. }
  destruct Hr as [kq d p|kq d p|kq d p|c Hp|c Hp Hc].
  - eapply (fin_owner _ (WriteKq kq) _ (Some t) _ tt); [by cbn|].
    eapply (fin_owner _ (WriteData d) _ (Some t) _ tt); [by cbn|].
    eapply (fin_owner _ (WritePeriod p) _ (Some t) _ tt); [by cbn|]. by apply H2.
  - eapply (fin_owner _ (WriteData d) _ (Some t) _ tt); [by cbn|].
    eapply (fin_owner _ (WritePeriod p) _ (Some t) _ tt); [by cbn|]. by apply H2.
  - eapply (fin_owner _ (WritePeriod p) _ (Some t) _ tt); [by cbn|]. by apply H2.
  - by apply H2.
  - by apply H1.
Qed.

(** The owner takes the result. *)
Lemma fin_result k t s :
  sh_res s = true →
  (∀ s', sh_log s' = sh_log s → sh_freed s' = sh_freed s → sh_result s' = sh_result s → sh_evt s' = sh_evt s →
    sh_res s' = false → finishes (Config (k (sh_result s)) t s')) →
  finishes (Config (bind wait_result k) t s).
Proof.
  intros Hr Hk. eapply (fin_owner _ WaitEvtResult _ t _ WAIT_OBJECT_0); [by cbn|].
  eapply (fin_owner _ ReadResult _ t); [by cbn|]. eapply (fin_owner _ (TSetLastError _) _ t _ tt); [by cbn|].
  by apply Hk.
Qed.

(** A command that has been signalled, then the rest of them. *)
Lemma fin_exec done c k t s acc :
  upto working (λ r s', r = inl tt ∧ reported done c s' ∧ sh_res s' = true ∧ results s' = acc ++ [sh_result s']) t s →
  (∀ s', executed (done ++ [c]) s' → busy s' → results s' = acc ++ [sh_result s'] →
    finishes (Config (k (sh_result s')) (Some _fftimer_thread) s')) →
  finishes (Config (bind wait_result k) (Some t) s).
Proof.
  intros Hu Hk. eapply fin_upto; [exact Hu|]. intros r s' (-> & [He Hv] & Hr & Hres).
  eapply fin_rtc; [apply rtc_once, step_loop|]. apply fin_result; [done|]. intros s2 El Ef Er Ev Hr2.
  rewrite <- Er. apply Hk; unfold executed, busy, results in *; rewrite ?El, ?Ef, ?Er, ?Ev; done.
Qed.

Lemma fin_set done c k t s :
  executed done s → idle t → sh_evt s = true → sh_res s = false → prepared c s → sh_ctl s = code c →
  (∀ s', executed (done ++ [c]) s' → busy s' → results s' = results s ++ [sh_result s'] →
    finishes (Config (k (sh_result s')) (Some _fftimer_thread) s')) →
  finishes (Config (bind wait_result k) (Some t) s).
Proof.
  intros He Ht Hv Hr Hp Hc Hk. apply fin_wake; [done..|]. intros s' [posts ->].
  eapply (fin_exec done c); [|exact Hk].
  apply (turn_upto done c (with_events (with_rest s (sh_err_o s) posts (sh_freed s)) false (sh_res s)));
    [done|done|by destruct c|done].
Qed.

(** The owner gives the remaining commands. *)
Lemma fin_client rest : ∀ done t s,
  executed done s → busy s → idle t → finishes (Config (client rest (results s)) (Some t) s).
Proof.
  induction rest as [|c rest IH]; intros done t s He Hb Ht.
  - by apply (fin_closing timer_close); [..|constructor].
  - apply (fin_ready c (run_cmd c)); [destruct c; [constructor|by apply (ready_ctl _ Stop)]|].
    intros s' El Ef Er Ev Hp Hc. replace (results s) with (results s') by (unfold results; by rewrite El).
    apply (fin_set done c); try done; [unfold executed; by rewrite El, Ef|by rewrite Er; apply Hb|].
    intros s2 He2 Hb2 Hres. rewrite <- Hres. by apply (IH (done ++ [c])); [..|constructor].
Qed.

Lemma inv_finishes cmds c : inv cmds c → finishes c.
Proof.
  assert (∀ done c s s', reported done c s → sh_log s' = sh_log s → sh_freed s' = sh_freed s →
    executed (done ++ [c]) s') as HE.
  { intros ???? [[? ?] _] El Ef. unfold executed. by rewrite El, Ef. }
  intros H.
  destruct H as [done c rest p0 t s Hc He Hb Ht Hr|done c rest t s Hc He Hv Hr Ht Hp Hcc
    |done c rest acc t s Hc Hu|done c rest acc t s Hc Hrep Hr Hres Ht|done c rest acc t s Hc Hrep Hr Hres Ht
    |done c rest acc t s Hc Hrep Hr Hres Ht|p0 t s He Hb Ht Hcl|t s He Hc Ht|s He|s He|].
  - apply (fin_ready c p0); [done|]. intros s' El Ef Er Ev Hp Hcc.
    replace (results s) with (results s') by (unfold results; by rewrite El).
    apply (fin_set done c); try done; [unfold executed; by rewrite El, Ef|by rewrite Er; apply Hb|].
    intros s2 He2 Hb2 Hres. unfold continue. rewrite <- Hres. by apply (fin_client rest (done ++ [c])); [..|constructor].
  - apply (fin_set done c); try done.
    intros s2 He2 Hb2 Hres. unfold continue. rewrite <- Hres. by apply (fin_client rest (done ++ [c])); [..|constructor].
  - eapply fin_exec; [exact Hu|].
    intros s2 He2 Hb2 Hres. unfold continue. rewrite <- Hres. by apply (fin_client rest (done ++ [c])); [..|constructor].
  - apply fin_result; [done|]. intros s2 El Ef Er Ev Hr2. unfold continue. rewrite <- Hres.
    replace (results s) with (results s2) by (unfold results; by rewrite El).
    apply (fin_client rest (done ++ [c])); [by eapply HE|split; [rewrite Ev; apply Hrep|done]|done].
  - eapply (fin_owner _ ReadResult _ (Some t)); [by cbn|].
    eapply (fin_owner _ (TSetLastError _) _ (Some t) _ tt); [by cbn|]. unfold continue. rewrite <- Hres.
    apply (fin_client rest (done ++ [c]) t (with_rest s (sh_result s) (sh_posts s) (sh_freed s)));
      [by eapply HE|split; [apply Hrep|done]|done].
  - eapply (fin_owner _ (TSetLastError _) _ (Some t) _ tt); [by cbn|]. unfold continue. rewrite <- Hres.
    apply (fin_client rest (done ++ [c]) t (with_rest s (sh_result s) (sh_posts s) (sh_freed s)));
      [by eapply HE|split; [apply Hrep|done]|done].
  - by apply fin_closing.
  - destruct Ht as [[Ht Hv]|[-> | ->]].
    + apply fin_wake; [done..|]. intros s' [posts ->]. by apply fin_turn.
    + by apply fin_turn.
    + eapply fin_rtc; [apply rtc_once, (step_end _ 0)|]. apply fin_ended.
  - apply fin_ended.
  - by apply fin_releasing.
  - by do 2 eexists.
Qed.

(** The configurations in which the timer has been closed. *)
Lemma inv_closed cmds c :
  inv cmds c →
  (∀ res, owner c = Ret res →
    thr c = None ∧ map fst (sh_log (sh c)) = map effect_of cmds ∧ map snd (sh_log (sh c)) = res) ∧
  (sh_freed (sh c) = true → thr c = None) ∧
  (∀ h, owner c ≠ Halt h ∧ thr c ≠ Some (Halt h)).
Proof.
  assert (∀ t h, idle t → Some t ≠ Some (Halt h)) as HI by (intros t h Ht [= ->]; inversion Ht).
  intros H. destruct H as [done c rest p t s Hc [_ He] Hb Ht Hr|done c rest t s Hc [_ He] Hv Hr Ht Hp Hcc
    |done c rest acc t s Hc Hu|done c rest acc t s Hc [[_ He] _] Hr Hres Ht|done c rest acc t s Hc [[_ He] _] Hr Hres Ht
    |done c rest acc t s Hc [[_ He] _] Hr Hres Ht|p t s [_ He] Hb Ht Hcl|t s [_ He] Hc Ht|s [_ He]|p s He Hp|s He];
    cbn; (split; [|split]); try done; try (by rewrite He); try (by intros ? Hd; discriminate Hd);
    try (by intros h; split; [|apply HI]).
  - by destruct Hr.
  - intros h. split; [by destruct Hr|by apply HI].
  - intros Hf. exfalso. destruct t; cbn in Hu; unfold reported, executed, working in Hu; naive_solver congruence.
  - intros h. split; [done|]. intros [= ->]. done.
  - by destruct Hcl.
  - intros h. split; [by destruct Hcl|by apply HI].
  - intros h. split; [done|]. destruct Ht as [[Ht _]|[-> | ->]]; [by apply HI|done..].
  - done.
  - by destruct Hp.
  - done.
  - intros h. split; [by destruct Hp|done].
  - by intros res [= <-].
  - done.
  - done.
Qed.

(** C7: the owner of a Windows timer gives any commands (fftimer_start(), fftimer_stop()) and closes it, while
    the timer thread takes commands and tells the queue that the timer has fired, in every interleaving of
    their accesses to the shared object: no assertion of the code fails; when the owner is done, the thread
    has ended, and the thread has executed exactly the commands that were given, in their order, each with
    its own period; the result the owner got for each is the result of that command, never a stale one; and
    neither is an event closed nor the object freed before the thread has ended.  (SetEvent() and
    PostQueuedCompletionStatus() on what is open succeed; the timer functions may fail.) *)
Theorem timer_thread_safe cmds s c :
  fresh s → rtc step (initial cmds s) c →
  (∀ res, owner c = Ret res →
    thr c = None ∧ map fst (sh_log (sh c)) = map effect_of cmds ∧ map snd (sh_log (sh c)) = res) ∧
  (sh_freed (sh c) = true → thr c = None) ∧
  (∀ h, owner c ≠ Halt h ∧ thr c ≠ Some (Halt h)).
Proof. intros Hf Hr. apply (inv_closed cmds). by eapply inv_reach. Qed.

Definition new_timer : shared := Shared 0 0 0 0 0 false false None 0 0 [] [] false.

Lemma timer_thread_safe_witness :
  ∃ res s', rtc step (initial [Start 1 2 5; Stop] new_timer) (Config (Ret res) None s') ∧
    map fst (sh_log s') = [Armed (-50000) 5; Cancelled] ∧ map snd (sh_log s') = res.
Proof.
  assert (fresh new_timer) as Hf by done.
  destruct (inv_finishes [Start 1 2 5; Stop] (initial [Start 1 2 5; Stop] new_timer)) as (res & s' & Hr);
    [by apply inv_initial|].
  exists res, s'. split; [exact Hr|].
  destruct (timer_thread_safe [Start 1 2 5; Stop] new_timer _ Hf Hr) as [H _]. by apply H.
Defined.

(** C23: the timer protocol has no deadlock: from every configuration that the owner and the thread can reach,
    there is a way to the end, where the owner has closed the timer and the thread has ended. *)
Theorem timer_thread_finishes cmds s c :
  fresh s → rtc step (initial cmds s) c → ∃ res s', rtc step c (Config (Ret res) None s').
Proof. intros Hf Hr. apply (inv_finishes cmds). by eapply inv_reach. Qed.

Lemma timer_thread_finishes_witness :
  ∃ res s', rtc step (initial [Start 1 2 5; Stop] new_timer) (Config (Ret res) None s').
Proof. by apply (timer_thread_finishes [Start 1 2 5; Stop] new_timer); [|apply rtc_refl]. Defined.

(** A period below 0 asks for a timer that fires once, after its absolute value.  SetWaitableTimer() takes a due time
    below 0 as relative and one above 0 as an absolute date; the code passes a due time above 0. *)
Lemma oneshot_due_absolute kq data p :
  - 2 ^ 31 < p < 0 → ∃ due, effect_of (Start kq data p) = Armed due 0 ∧ 0 < due.
Proof.
  intros H. exists (p * -10000). cbn. rewrite (proj2 (Z.leb_gt 0 p)) by lia.
  replace (p * 1000 * -10) with (p * -10000) by lia. rewrite s64_small by (unfold is_s64; lia). split; [done|lia].
Qed.
