(* ===== verification/Std.v ===== *)
(** * FFOS/std.h: standard streams, terminals and their keys *)
From Stdlib Require Import Sorted.
From S2P Require Import Prelude Prog Bytes Unix Win StringW.

(** ** Keys and attributes, both systems *)

Definition FFKEY_VIRT := 2147483648.
Definition FFKEY_UP := 2147483649.
Definition FFKEY_DOWN := 2147483650.
Definition FFKEY_RIGHT := 2147483651.
Definition FFKEY_LEFT := 2147483652.
Definition FFKEY_CTRL := 16777216.
Definition FFKEY_SHIFT := 33554432.
Definition FFKEY_ALT := 67108864.
Definition FFKEY_MODMASK := 117440512.

Definition FFSTD_ECHO := 1.
Definition FFSTD_LINEINPUT := 2.
Definition FFSTD_VTERM := 4.

(** ** UNIX *)

Definition ESC := 27.
Definition ECHO := 8.
Definition ICANON := 2.
(** A [char] of the byte [c]. *)
Definition s8 : Z → Z := swrap 8.

Definition fferr_again (code : Z) : bool := code =? EAGAIN.

Definition ffstdin_read (cap : Z) : prog unixE (Z * list Z) := call (u_read 0 cap).
Definition ffstdout_write (d : list Z) : prog unixE Z := call (u_write 1 d).
Definition ffstderr_write (d : list Z) : prog unixE Z := call (u_write 2 d).

(** [ffstd_ev]: 8 bytes. *)
Definition sizeof_ffstd_ev := 8.

(** [data], if it is assigned: its length and the bytes of the buffer of the event. *)
Definition ffstd_keyread (fd : Z) : prog unixE (Z * option (Z * list Z)) :=
  let! '(r, d) := u_read fd sizeof_ffstd_ev in
  let* again := if r <? 0 then let! e := get_errno in Ret (fferr_again e) else Ret false in
  if again : bool then Ret (0, None)
  else if r =? 0 then fail EINVAL (-1, None)
  else Ret (s32 r, Some (u64 r, d)).

Definition key_esc1 : list Z := [
  FFKEY_SHIFT;
  FFKEY_ALT;
  Z.lor FFKEY_SHIFT FFKEY_ALT;
  FFKEY_CTRL;
  Z.lor FFKEY_CTRL FFKEY_SHIFT;
  Z.lor FFKEY_CTRL FFKEY_ALT;
  Z.lor (Z.lor FFKEY_CTRL FFKEY_SHIFT) FFKEY_ALT ].

(** The key and the rest of the data; [None]: an access outside of the data (or of the table). *)
Definition keyparse_arrow (r : Z) (i : nat) (d : list Z) : option (Z * list Z) :=
  c ← d !! i;
  if (65 <=? s8 c) && (s8 c <=? 68)
  then Some (s32 (Z.lor r (u32 (FFKEY_UP + s8 c - 65))), drop (i + 1) d)
  else Some (-1, d).

Definition ffstd_keyparse (d : list Z) : option (Z * list Z) :=
  if (length d =? 0)%nat then Some (-1, d) else
  d0 ← d !! 0%nat;
  d1 ← (if (s8 d0 =? ESC) && (3 <=? length d)%nat then d !! 1%nat else Some 0);
  if s8 d1 =? 91 then
    d2 ← d !! 2%nat;
    d3 ← (if (s8 d2 =? 49) && (5 <? length d)%nat then d !! 3%nat else Some 0);
    if s8 d3 =? 59 then
      m ← d !! 4%nat;
      if Z.of_nat (length key_esc1) <=? u32 (m - 50) then Some (-1, d) else
      r ← key_esc1 !! Z.to_nat (u32 (m - 50));
      keyparse_arrow r 5 d
    else keyparse_arrow 0 2 d
  else Some (s8 d0, drop 1 d).

(** The terminal modes that ffstd_attr() asks for. *)
Definition attr_termios (attr val : Z) (t : termios) : termios :=
  let t := if has attr FFSTD_ECHO then
             Termios (if has val FFSTD_ECHO then Z.lor (c_lflag t) ECHO else Z.ldiff (c_lflag t) ECHO)
               (c_cc_vtime t) (c_cc_vmin t)
           else t in
  if has attr FFSTD_LINEINPUT then
    if has val FFSTD_LINEINPUT then Termios (Z.lor (c_lflag t) ICANON) (c_cc_vtime t) (c_cc_vmin t)
    else Termios (Z.ldiff (c_lflag t) ICANON) 0 1
  else t.

Definition ffstd_attr (fd attr val : Z) : prog unixE Z :=
  if attr =? FFSTD_VTERM then
    let! '(r, st) := u_fstat fd in
    Ret (b2z (negb ((r =? 0) && (Z.land (st_mode st) S_IFMT =? S_IFCHR))))
  else
  let! '(r, t) := u_tcgetattr fd in
  if negb (r =? 0) then Ret (-1) else
  do! u_tcsetattr fd (attr_termios attr val t) in
  Ret 0.

(** ffstr_growfmtv(): the length of the text, or 0, and the string that holds it. *)
Definition std_fmt (write : list Z → prog unixE Z) (fmt : prog unixE (Z * (Z * list Z))) : prog unixE Z :=
  let* '(r, (blk, d)) := fmt in
  let* r := if negb (r =? 0) then write (take (Z.to_nat r) d) else Ret r in
  if blk =? 0 then Ret r else do! ffmem_free blk in Ret r.
Definition ffstdout_fmt : prog unixE (Z * (Z * list Z)) → prog unixE Z := std_fmt ffstdout_write.
Definition ffstderr_fmt : prog unixE (Z * (Z * list Z)) → prog unixE Z := std_fmt ffstderr_write.

(** ** Windows *)

Definition STD_INPUT_HANDLE := 4294967286.
Definition STD_OUTPUT_HANDLE := 4294967285.
Definition STD_ERROR_HANDLE := 4294967284.
Definition KEY_EVENT := 1.
Definition sizeof_KEY_EVENT_RECORD : nat := 16.
Definition RIGHT_ALT_PRESSED := 1.
Definition LEFT_ALT_PRESSED := 2.
Definition RIGHT_CTRL_PRESSED := 4.
Definition LEFT_CTRL_PRESSED := 8.
Definition SHIFT_PRESSED := 16.
Definition ENABLE_PROCESSED_OUTPUT := 1.
Definition ENABLE_LINE_INPUT := 2.
Definition ENABLE_ECHO_INPUT := 4.
Definition ENABLE_VIRTUAL_TERMINAL_PROCESSING := 4.

(** ffarrint8_binfind(): the index of a number in a sorted array of bytes. *)
Class BinFind := { ffarrint8_binfind : list Z → Z → Z }.

Section win.
Context `{FfUni}.

Definition ffstdin_read_win (cap : Z) : prog winE (Z * list Z) :=
  let! h := GetStdHandle STD_INPUT_HANDLE in
  let! '(console, _) := GetConsoleMode h in
  if console : bool then
    if cap <? 4 then Halt AssertFail else
    let wcap := cap / 4 in
    let* w := if 1024 <? cap / 4 then call (w_alloc (cap / 2)) else Ret (-1) in
    if w =? 0 then Ret (-1, []) else
    let! '(b, ws) := ReadConsoleW h (Z.min wcap 4294967295) in
    let '(r, d) := if b : bool then ffs_wtou cap ws else (-1, []) in
    let res := if 0 <=? r then (r, d) else (-1, []) in
    if w =? -1 then Ret res else do! w_free w in Ret res
  else
    let! '(ok, (n, d)) := ReadFile h (Z.min cap 4294967295) None in
    if negb ok then Ret (-1, []) else Ret (n, d).

(** A failed conversion is not detected: WriteConsoleW() is given NULL (then there is nothing to free). *)
Definition _ffstd_write (h : Z) (data : list Z) : prog winE Z :=
  let! '(console, _) := GetConsoleMode h in
  if console : bool then
    let* w := ffs_alloc_buf_utow (Some 1024) data in
    let! b := WriteConsoleW h (match w with Some (w, r) => take (Z.to_nat r) (w_str w) | None => [] end) in
    let res := if b : bool then Z.of_nat (length data) else -1 in
    match w with Some (w, _) => wbuf_free w (Ret res) | None => Ret res end
  else
    let! '(ok, n) := WriteFile h (take (Z.to_nat (u32 (Z.of_nat (length data)))) data) None in
    if negb ok then Ret (-1) else Ret n.

Definition ffstdout_write_win (data : list Z) : prog winE Z :=
  let! h := GetStdHandle STD_OUTPUT_HANDLE in _ffstd_write h data.
Definition ffstderr_write_win (data : list Z) : prog winE Z :=
  let! h := GetStdHandle STD_ERROR_HANDLE in _ffstd_write h data.
End win.

Record ffstd_ev := StdEv { ev_state : Z; ev_rec : list input_record; ev_irec : Z; ev_nrec : Z }.

Definition bKeyDown (e : list Z) : bool := truthy (un_le (take 4 e)).

(** One turn of the loop; the array has 8 records. *)
Definition keyread_step (fd : Z) (ev : ffstd_ev) : prog winE (ffstd_ev + (Z * ffstd_ev * list Z)) :=
  let* r :=
    if ev_state ev =? 0 then
      let! '(ok, n) := GetNumberOfConsoleInputEvents fd in
      if negb ok then Ret (inr (-1)) else
      if n =? 0 then Ret (inr 0) else
      let! '(ok, recs) := ReadConsoleInput fd (Z.min n 8) in
      if negb ok then Ret (inr (-1)) else
      if (length recs =? 0)%nat then Ret (inr 0) else
      Ret (inl (StdEv 1 recs 0 (Z.of_nat (length recs))))
    else Ret (inl ev) in
  match r with
  | inr r => Ret (inr (r, ev, []))
  | inl ev =>
      if negb (ev_state ev =? 1) then Ret (inl ev) else
      if ev_irec ev =? ev_nrec ev then Ret (inl (StdEv 0 (ev_rec ev) (ev_irec ev) (ev_nrec ev))) else
      match ev_rec ev !! Z.to_nat (ev_irec ev) with
      | None => Halt OutOfBounds
      | Some rec =>
          let ev' := StdEv (ev_state ev) (ev_rec ev) (ev_irec ev + 1) (ev_nrec ev) in
          if negb ((EventType rec =? KEY_EVENT) && bKeyDown (ir_event rec)) then Ret (inl ev') else
          let data := take sizeof_KEY_EVENT_RECORD (ir_event rec) in
          Ret (inr (Z.of_nat (length data), ev', data))
      end
  end.

Definition ffstd_keyread_win (fuel : nat) (fd : Z) (ev : ffstd_ev) : prog winE (Z * ffstd_ev * list Z) :=
  loop fuel (keyread_step fd) ev.

Definition vkeys : list Z := [37; 38; 39; 40].   (* VK_LEFT, VK_UP, VK_RIGHT, VK_DOWN *)
Definition ffkeys : list Z := map u8 [FFKEY_LEFT; FFKEY_UP; FFKEY_RIGHT; FFKEY_DOWN].

(** KEY_EVENT_RECORD: bKeyDown, wRepeatCount, wVirtualKeyCode, wVirtualScanCode, uChar, dwControlKeyState. *)
Definition ffstd_keyparse_win `{BinFind} (d : list Z) : option (Z * list Z) :=
  if (length d <? sizeof_KEY_EVENT_RECORD)%nat then Some (-1, d) else
  c ← rd 1 d 10;
  vk ← rd 2 d 6;
  ctl ← rd 4 d 12;
  let r := u32 (s8 c) in
  r ← (if r =? 0 then
         let r := u32 (ffarrint8_binfind vkeys vk) in
         if r =? u32 (-1) then Some None else
         k ← ffkeys !! Z.to_nat r; Some (Some (Z.lor FFKEY_VIRT k))
       else Some (Some r));
  match r with
  | None => Some (-1, d)
  | Some r =>
      let r := if has ctl (Z.lor RIGHT_ALT_PRESSED LEFT_ALT_PRESSED) then Z.lor r FFKEY_ALT else r in
      let r := if has ctl (Z.lor RIGHT_CTRL_PRESSED LEFT_CTRL_PRESSED) then Z.lor r FFKEY_CTRL else r in
      let r := if has ctl SHIFT_PRESSED then Z.lor r FFKEY_SHIFT else r in
      Some (s32 r, [])
  end.

Definition attr_mode (attr val mode : Z) : Z :=
  let mode := if has attr FFSTD_VTERM && has val FFSTD_VTERM
              then Z.lor mode (Z.lor ENABLE_PROCESSED_OUTPUT ENABLE_VIRTUAL_TERMINAL_PROCESSING) else mode in
  let mode := if has attr FFSTD_ECHO then
                if has val FFSTD_ECHO then Z.lor mode ENABLE_ECHO_INPUT else Z.ldiff mode ENABLE_ECHO_INPUT
              else mode in
  if has attr FFSTD_LINEINPUT then
    if has val FFSTD_LINEINPUT then Z.lor mode ENABLE_LINE_INPUT else Z.ldiff mode ENABLE_LINE_INPUT
  else mode.

Definition ffstd_attr_win (fd attr val : Z) : prog winE Z :=
  let! '(ok, mode) := GetConsoleMode fd in
  if negb ok then Ret (-1) else
  let! ok := SetConsoleMode fd (attr_mode attr val mode) in Ret (b2z (negb ok)).

(** ** Keys *)

(** The codes that terminals send (xterm), and the value of enum FFKEY that stands for the key. *)
Inductive key := KChar (c : Z) | KArrow (shift alt ctrl : bool) (dir : Z).
Definition key_ok (k : key) : Prop :=
  match k with KChar c => 0 ≤ c < 128 ∧ c ≠ ESC | KArrow _ _ _ dir => 0 ≤ dir < 4 end.
Definition key_mods (shift alt ctrl : bool) : Z :=
  Z.lor (Z.lor (if shift then FFKEY_SHIFT else 0) (if alt then FFKEY_ALT else 0)) (if ctrl then FFKEY_CTRL else 0).
Definition key_code (k : key) : Z :=
  match k with
  | KChar c => c
  | KArrow shift alt ctrl dir => s32 (Z.lor (FFKEY_UP + dir) (key_mods shift alt ctrl))
  end.
Definition key_bytes (k : key) : list Z :=
  match k with
  | KChar c => [c]
  | KArrow shift alt ctrl dir =>
      let m := b2z shift + 2 * b2z alt + 4 * b2z ctrl in
      if m =? 0 then [ESC; 91; 65 + dir] else [ESC; 91; 49; 59; 49 + m; 65 + dir]
  end.

Lemma s8_small c : 0 ≤ c < 128 → s8 c = c.
Proof. intros H. unfold s8, swrap. change (2 ^ (8 - 1)) with 128. change (2 ^ 8) with 256. rewrite Z.mod_small; lia. Qed.

Lemma keyparse_key k rest : key_ok k → ffstd_keyparse (key_bytes k ++ rest) = Some (key_code k, rest).
Proof.
  destruct k as [c|sh al ct dir]; cbn [key_ok].
  - intros [Hc He]. cbn. unfold ffstd_keyparse. cbn [length Nat.eqb lookup list_lookup]. cbn.
    rewrite s8_small by done. rewrite (proj2 (Z.eqb_neq c ESC)) by done. cbn. by rewrite drop_0.
  - intros Hd. assert (dir = 0 ∨ dir = 1 ∨ dir = 2 ∨ dir = 3) as Hdir by lia.
    destruct Hdir as [-> | [-> | [-> | ->]]]; destruct sh, al, ct; vm_compute; done.
Qed.

(** Reading keys until the data is used up. *)
Fixpoint parse_keys (fuel : nat) (d : list Z) : option (list Z) :=
  match fuel with
  | O => Some []
  | S fuel => '(r, d) ← ffstd_keyparse d; if r =? -1 then None else rs ← parse_keys fuel d; Some (r :: rs)
  end.

Lemma key_code_ne k : key_ok k → key_code k ≠ -1.
Proof.
  destruct k as [c|sh al ct dir]; cbn [key_ok]; [cbn; lia|]. intros Hd.
  assert (dir = 0 ∨ dir = 1 ∨ dir = 2 ∨ dir = 3) as Hdir by lia.
  destruct Hdir as [-> | [-> | [-> | ->]]]; destruct sh, al, ct; vm_compute; done.
Qed.

(** C18: whatever keys are typed (ASCII characters other than ESC, arrows with any of Shift, Alt and Ctrl), reading
    the bytes the terminal sends for them with ffstd_keyparse() gives those keys back, in order, and consumes
    exactly their bytes. *)
Theorem keyparse_roundtrip keys :
  Forall key_ok keys → parse_keys (length keys) (concat (map key_bytes keys)) = Some (map key_code keys).
Proof.
  induction 1 as [|k keys Hk _ IH]; [done|]. cbn [length parse_keys map concat].
  rewrite keyparse_key by done. cbn [mbind option_bind].
  rewrite (proj2 (Z.eqb_neq _ _)) by by apply key_code_ne. by rewrite IH.
Qed.

Lemma keyparse_roundtrip_witness :
  parse_keys 3 ([97] ++ [27; 91; 65] ++ [27; 91; 49; 59; 54; 68]) =
  Some [97; -2147483647; s32 (FFKEY_LEFT + FFKEY_CTRL + FFKEY_SHIFT)].
Proof.
  apply (keyparse_roundtrip [KChar 97; KArrow false false false 0; KArrow true false true 3]).
  repeat constructor; done.
Defined.

Lemma arrow_safe r i d : (i < length d)%nat →
  ∃ r' n, keyparse_arrow r i d = Some (r', drop n d) ∧ ((n = 0%nat ∧ r' = -1) ∨ n = (i + 1)%nat).
Proof.
  intros Hi. unfold keyparse_arrow. destruct (lookup_lt_is_Some_2 d i Hi) as [c Hc]. rewrite Hc. cbn.
  case_match; [by do 2 eexists; split; [done|right]|]. exists (-1), 0%nat. split; [by rewrite drop_0|by left].
Qed.

(** on any bytes at all ffstd_keyparse() stays inside of the data and of its table; it consumes 1, 3 or 6 bytes,
    or refuses the data and consumes nothing. *)
Theorem keyparse_safe d :
  ∃ r n, ffstd_keyparse d = Some (r, drop n d) ∧ (n ≤ length d)%nat ∧
    ((n = 0%nat ∧ r = -1) ∨ n = 1%nat ∨ n = 3%nat ∨ n = 6%nat).
Proof.
  assert (∀ r i, (i < length d)%nat → (i + 1 = 3 ∨ i + 1 = 6)%nat →
    ∃ r' n, keyparse_arrow r i d = Some (r', drop n d) ∧ (n ≤ length d)%nat ∧
      ((n = 0%nat ∧ r' = -1) ∨ n = 1%nat ∨ n = 3%nat ∨ n = 6%nat)) as HA.
  { intros r i Hi Hn. destruct (arrow_safe r i d Hi) as (r' & n & E & H). exists r', n. split; [done|].
    destruct H as [[-> ->]| ->]; [split; [lia|auto]|split; lia]. }
  assert (∀ d0, ∃ r n, Some (s8 d0, drop 1 d) = Some (r, drop n d) ∧ (length d ≠ 0 → n ≤ length d)%nat ∧
      ((n = 0%nat ∧ r = -1) ∨ n = 1%nat ∨ n = 3%nat ∨ n = 6%nat)) as H1.
  { intros d0. exists (s8 d0), 1%nat. split; [done|]. split; [lia|auto]. }
  unfold ffstd_keyparse. destruct (Nat.eqb_spec (length d) 0) as [He|He].
  { exists (-1), 0%nat. rewrite drop_0. split; [done|]. split; [lia|auto]. }
  destruct (lookup_lt_is_Some_2 d 0) as [d0 ->]; [lia|]. cbn [mbind option_bind].
  assert (∃ d1, (if (s8 d0 =? ESC) && (3 <=? length d)%nat then d !! 1%nat else Some 0) = Some d1 ∧
    (s8 d1 = 91 → (3 ≤ length d)%nat)) as (d1 & -> & Hd1).
  { destruct (s8 d0 =? ESC), (Nat.leb_spec 3 (length d)); cbn; try by exists 0.
    destruct (lookup_lt_is_Some_2 d 1) as [c ->]; [lia|]. by exists c. }
  cbn [mbind option_bind]. destruct (Z.eqb_spec (s8 d1) 91) as [E1|E1].
  2:{ destruct (H1 d0) as (r & n & E & Hn & H). exists r, n. split_and!; auto. }
  destruct (lookup_lt_is_Some_2 d 2) as [d2 ->]; [specialize (Hd1 E1); lia|]. cbn [mbind option_bind].
  assert (∃ d3, (if (s8 d2 =? 49) && (5 <? length d)%nat then d !! 3%nat else Some 0) = Some d3 ∧
    (s8 d3 = 59 → (5 < length d)%nat)) as (d3 & -> & Hd3).
  { destruct (s8 d2 =? 49), (Nat.ltb_spec 5 (length d)); cbn; try by exists 0.
    destruct (lookup_lt_is_Some_2 d 3) as [c ->]; [lia|]. by exists c. }
  cbn [mbind option_bind]. destruct (Z.eqb_spec (s8 d3) 59) as [E3|E3].
  2:{ apply HA; [specialize (Hd1 E1); lia|lia]. }
  specialize (Hd3 E3). destruct (lookup_lt_is_Some_2 d 4) as [m ->]; [lia|]. cbn [mbind option_bind].
  destruct (Z.leb_spec (Z.of_nat (length key_esc1)) (u32 (m - 50))) as [Hm|Hm].
  { exists (-1), 0%nat. rewrite drop_0. split; [done|]. split; [lia|auto]. }
  destruct (lookup_lt_is_Some_2 key_esc1 (Z.to_nat (u32 (m - 50)))) as [r ->].
  { pose proof (u32_range (m - 50)) as Hr. unfold is_u32 in Hr. lia. }
  cbn [mbind option_bind]. apply HA; lia.
Qed.

(** The byte 255 is a character whose value is that of an error. *)
Lemma keyparse_255 : ffstd_keyparse [255] = Some (-1, []).
Proof. done. Qed.

(** *** Windows *)

(** The documented behaviour of the binary search. *)
Class BinFindLaws (B : BinFind) : Prop := {
  binfind_found arr i x : Sorted Z.lt arr → arr !! i = Some x → ffarrint8_binfind arr x = Z.of_nat i;
  binfind_none arr x : Sorted Z.lt arr → x ∉ arr → ffarrint8_binfind arr x = -1;
}.

(** The bytes of a KEY_EVENT_RECORD. *)
Definition key_record (down repeat vk scan uchar ctl : Z) : list Z :=
  le 4 down ++ le 2 repeat ++ le 2 vk ++ le 2 scan ++ le 2 uchar ++ le 4 ctl.

Definition arrow_vk (dir : Z) : Z := default 0 ([38; 40; 39; 37] !! Z.to_nat dir).

(** C33: an arrow key with any of Shift, Alt and Ctrl has the same code on both systems: what ffstd_keyparse() makes of
    the bytes a UNIX terminal sends for it, it makes on Windows of the event the console reports for it. *)
Theorem keyparse_same `{B : BinFind, !BinFindLaws B} shift alt ctrl dir down repeat scan uchar ctl rest :
  0 ≤ dir < 4 → 0 ≤ uchar < 65536 → uchar mod 256 = 0 → 0 ≤ ctl < 2 ^ 32 →
  has ctl (Z.lor RIGHT_ALT_PRESSED LEFT_ALT_PRESSED) = alt →
  has ctl (Z.lor RIGHT_CTRL_PRESSED LEFT_CTRL_PRESSED) = ctrl → has ctl SHIFT_PRESSED = shift →
  ∃ code, ffstd_keyparse (key_bytes (KArrow shift alt ctrl dir) ++ rest) = Some (code, rest) ∧
    ffstd_keyparse_win (key_record down repeat (arrow_vk dir) scan uchar ctl) = Some (code, []).
Proof.
  intros Hd Hu Hu0 Hc Ha Hct Hs. exists (key_code (KArrow shift alt ctrl dir)).
  split; [by apply keyparse_key|]. unfold ffstd_keyparse_win, key_record.
  assert (dir = 0 ∨ dir = 1 ∨ dir = 2 ∨ dir = 3) as Hdir by lia.
  rewrite !length_app, !length_le. cbn [Nat.ltb Nat.leb Nat.add sizeof_KEY_EVENT_RECORD].
  rewrite (rd_field 1 (le 4 down ++ le 2 repeat ++ le 2 (arrow_vk dir) ++ le 2 scan) 0);
    [|eexists; rewrite <- !app_assoc; cbn [le]; rewrite Hu0; cbn; reflexivity
     |by rewrite !length_app, !length_le|done].
  rewrite (rd_field 2 (le 4 down ++ le 2 repeat) (arrow_vk dir));
    [|eexists; by rewrite <- !app_assoc|by rewrite !length_app, !length_le
     |destruct Hdir as [-> | [-> | [-> | ->]]]; vm_compute; done].
  rewrite (rd_field 4 (le 4 down ++ le 2 repeat ++ le 2 (arrow_vk dir) ++ le 2 scan ++ le 2 uchar) ctl);
    [|exists []; by rewrite <- !app_assoc, app_nil_r|by rewrite !length_app, !length_le|done].
  cbn [mbind option_bind]. rewrite Ha, Hct, Hs. clear Ha Hct Hs.
  change (u32 (s8 0) =? 0) with true. cbv iota.
  assert (Sorted Z.lt vkeys) as Hsort by (unfold vkeys; repeat constructor; lia).
  destruct Hdir as [-> | [-> | [-> | ->]]]; cbn [arrow_vk lookup list_lookup default].
  - change (arrow_vk 0) with 38. rewrite (binfind_found vkeys 1 38) by done. destruct shift, alt, ctrl; done.
  - change (arrow_vk 1) with 40. rewrite (binfind_found vkeys 3 40) by done. destruct shift, alt, ctrl; done.
  - change (arrow_vk 2) with 39. rewrite (binfind_found vkeys 2 39) by done. destruct shift, alt, ctrl; done.
  - change (arrow_vk 3) with 37. rewrite (binfind_found vkeys 0 37) by done. destruct shift, alt, ctrl; done.
Qed.

Fixpoint linear_find (arr : list Z) (x : Z) (i : Z) : Z :=
  match arr with [] => -1 | y :: arr => if x =? y then i else linear_find arr x (i + 1) end.
#[export] Instance RefBinFind : BinFind := {| ffarrint8_binfind arr x := linear_find arr x 0 |}.
#[export] Instance RefBinFindLaws : BinFindLaws RefBinFind.
Proof.
  split; cbn.
  - intros arr i x Hs Hi. enough (∀ k, linear_find arr x k = k + Z.of_nat i) as -> by lia.
    apply Sorted_StronglySorted in Hs; [|intros ???; lia]. revert i Hi.
    induction Hs as [|y arr _ IH Hf]; intros [|i] Hi k; cbn in *; try done.
    + injection Hi as ->. rewrite Z.eqb_refl. lia.
    + rewrite (proj2 (Z.eqb_neq x y)); [rewrite (IH i) by done; lia|].
      rewrite Forall_forall in Hf. specialize (Hf x). rewrite list_elem_of_In in Hf.
      assert (y < x) by (apply Hf, list_elem_of_In; by eapply list_elem_of_lookup_2). lia.
  - intros arr x _ Hn. generalize 0. induction arr as [|y arr IH]; intros k; cbn; [done|].
    rewrite (proj2 (Z.eqb_neq x y)) by set_solver. apply IH. set_solver.
Qed.

Lemma keyparse_same_witness :
  ∃ code, ffstd_keyparse ([27; 91; 49; 59; 53; 67] ++ [120]) = Some (code, [120]) ∧
    ffstd_keyparse_win (key_record 1 1 39 77 0 (LEFT_CTRL_PRESSED + 32)) = Some (code, []).
Proof. by apply (keyparse_same false false true 2 1 1 77 0 (LEFT_CTRL_PRESSED + 32) [120]); vm_compute. Defined.

(** *** Reading the console *)

(** The records the console holds.  A call may fail; a read takes at least one record. *)
Definition console_env : env winE (list input_record) := λ q X e,
  match e in winE X return X → list input_record → Prop with
  | GetNumberOfConsoleInputEvents _ => λ r q', q' = q ∧ (r.1 = true → r.2 = Z.of_nat (length q))
  | ReadConsoleInput _ n => λ r q',
      (r.1 = false ∧ q' = q) ∨ (r.1 = true ∧ q = r.2 ++ q' ∧ 0 < Z.of_nat (length r.2) ≤ n)
  | _ => λ _ q', q' = q
  end.

(** The records that were read and not looked at yet. *)
Definition pending (ev : ffstd_ev) : list input_record :=
  if ev_state ev =? 0 then [] else drop (Z.to_nat (ev_irec ev)) (ev_rec ev).
Definition ev_ok (ev : ffstd_ev) : Prop :=
  ev_state ev = 0 ∨ (ev_state ev = 1 ∧ 0 ≤ ev_irec ev ≤ ev_nrec ev ∧ ev_nrec ev = Z.of_nat (length (ev_rec ev))).
Definition is_key (r : input_record) : bool := (EventType r =? KEY_EVENT) && bKeyDown (ir_event r).
Definition keys_of (l : list input_record) : list (list Z) := map ir_event (filter (λ r, is_key r = true) l).
Definition records_ok (l : list input_record) : Prop := Forall (λ r, length (ir_event r) = sizeof_KEY_EVENT_RECORD) l.
Definition turns (ev : ffstd_ev) (q : list input_record) : nat :=
  2 * (length (pending ev) + length q) + (if ev_state ev =? 0 then 0 else 1).

(** What a call of ffstd_keyread() does with the keys [K] that are waiting. *)
Definition key_read (K : list (list Z)) : Z * ffstd_ev * list Z → list input_record → Prop := λ '(r, ev', data) q',
  ev_ok ev' ∧ records_ok (pending ev' ++ q') ∧
  ((r = -1 ∧ keys_of (pending ev' ++ q') = K) ∨ (r = 0 ∧ K = []) ∨
   (r = 16 ∧ K = data :: keys_of (pending ev' ++ q'))).

(** A turn that looks at the next record. *)
Lemma keyread_look K n ev q :
  ev_state ev = 1 → 0 ≤ ev_irec ev < ev_nrec ev → ev_nrec ev = Z.of_nat (length (ev_rec ev)) →
  records_ok (pending ev ++ q) → keys_of (pending ev ++ q) = K → (turns ev q < S (S n))%nat →
  match ev_rec ev !! Z.to_nat (ev_irec ev) with
  | None => False
  | Some rec =>
      let ev' := StdEv (ev_state ev) (ev_rec ev) (ev_irec ev + 1) (ev_nrec ev) in
      if negb (is_key rec) then
        ev_ok ev' ∧ records_ok (pending ev' ++ q) ∧ keys_of (pending ev' ++ q) = K ∧ (turns ev' q < n)%nat
      else key_read K (Z.of_nat (length (take sizeof_KEY_EVENT_RECORD (ir_event rec))), ev',
                       take sizeof_KEY_EVENT_RECORD (ir_event rec)) q
  end.
Proof.
  intros Hst Hi Hn Hrec HK Ht. destruct (lookup_lt_is_Some_2 (ev_rec ev) (Z.to_nat (ev_irec ev))) as [rec Hr]; [lia|].
  rewrite Hr. set (ev' := StdEv _ _ _ _).
  assert (pending ev = rec :: pending ev') as Hp.
  { unfold pending, ev'. cbn. rewrite Hst. cbn. rewrite (drop_S _ rec) by done. f_equal. f_equal. lia. }
  assert (ev_ok ev') as Hok by (right; unfold ev'; cbn; lia).
  rewrite Hp in Hrec, HK. apply Forall_cons in Hrec as [Hlen Hrec].
  unfold keys_of in HK. cbn [app] in HK. rewrite filter_cons in HK. cbn zeta.
  destruct (is_key rec) eqn:Ek; cbn [negb].
  - rewrite decide_True in HK by done. cbn [map] in HK. unfold key_read.
    rewrite take_ge by (unfold sizeof_KEY_EVENT_RECORD in *; lia). split; [done|]. split; [done|].
    right; right. rewrite Hlen. split; [done|]. by rewrite <- HK.
  - rewrite decide_False in HK by done. split_and!; [done|done|done|].
    unfold turns in *. rewrite Hp in Ht. cbn [length] in Ht. unfold ev' at 2. cbn. rewrite Hst in *. cbn in *. lia.
Qed.

Lemma keyread_step_wp K fd n ev q :
  ev_ok ev → records_ok (pending ev ++ q) → keys_of (pending ev ++ q) = K → (turns ev q < S n)%nat →
  wp console_env (keyread_step fd ev)
    (λ r q', match r with
             | inl ev' => ev_ok ev' ∧ records_ok (pending ev' ++ q') ∧ keys_of (pending ev' ++ q') = K ∧
                 (turns ev' q' < n)%nat
             | inr r => key_read K r q'
             end) never q.
Proof.
  intros Hok Hrec HK Ht. unfold keyread_step. destruct Hok as [Hst|(Hst & Hi & Hn)].
  - assert (pending ev = []) as Hp by (unfold pending; by rewrite Hst). rewrite Hp in *. cbn [app] in *.
    assert (∀ r, r = -1 ∨ (r = 0 ∧ K = []) → key_read K (r, ev, []) q) as Hret.
    { intros r Hr. unfold key_read. rewrite Hp. cbn [app]. split; [by left|]. split; [done|].
      destruct Hr as [->|[-> HE]]; [by left|]. right; left. split; [done|exact HE]. }
    rewrite Hst. cbn. intros [ok m] q1 [-> Hm]. cbn in Hm. destruct ok; cbn; [|by apply Hret; left].
    rewrite Hm by done. destruct (Z.eqb_spec (Z.of_nat (length q)) 0) as [Hz|Hz]; cbn.
    { apply Hret. right. split; [done|]. rewrite <- HK. destruct q; [done|cbn in Hz; lia]. }
    intros [ok recs] q2 [[E ->]|(E & -> & Hl)]; cbn in E; subst ok; cbn; [by apply Hret; left|]. cbn in Hl.
    rewrite (proj2 (Nat.eqb_neq _ _)) by lia. cbn [bind ev_state ev_irec ev_nrec ev_rec].
    change (negb (1 =? 1)) with false. cbv iota. rewrite (proj2 (Z.eqb_neq 0 _)) by lia.
    pose proof (keyread_look K n (StdEv 1 recs 0 (Z.of_nat (length recs))) q2) as H.
    assert (pending (StdEv 1 recs 0 (Z.of_nat (length recs))) = recs) as Hp2 by apply drop_0.
    rewrite Hp2 in H. cbn [ev_state ev_irec ev_nrec ev_rec] in H.
    premise H; [done|]. premise H; [lia|]. premise H; [done|]. premise H; [done|]. premise H; [done|].
    premise H. { unfold turns in *. rewrite Hp2. rewrite Hp, Hst, length_app in Ht. cbn -[Nat.mul] in *. lia. }
    destruct (recs !! _); [|done]. unfold is_key in H. destruct (negb _); exact H.
  - rewrite Hst. cbn. rewrite Hst. cbn. destruct (Z.eqb_spec (ev_irec ev) (ev_nrec ev)) as [E|E].
    + cbn. assert (pending ev = []) as Hp.
      { unfold pending. rewrite Hst. cbn. apply drop_ge. lia. }
      rewrite Hp in *. unfold pending. cbn. split_and!; [by left|done|done|].
      unfold turns in *. rewrite Hp, Hst in Ht. cbn in *. lia.
    + pose proof (keyread_look K n ev q Hst) as H. premise H; [lia|]. premise H; [done|]. premise H; [done|].
      premise H; [done|]. premise H; [lia|]. rewrite Hst in H. destruct (ev_rec ev !! _); [|done].
      unfold is_key in H. destruct (negb _); exact H.
Qed.

(** on Windows ffstd_keyread() looks at the records of the console queue in order, reading up to 8 at a time: it
    answers with the bytes of the first key press that is waiting, in its own buffer or in the queue, and leaves
    exactly the presses after it to the next calls; it answers 0 only when no press is waiting; after an error nothing
    is lost; it never looks outside of its buffer and it ends after at most twice as many turns as there are
    records. *)
Theorem keyread_win_ok fd fuel ev q :
  ev_ok ev → records_ok (pending ev ++ q) → (2 * (length (pending ev) + length q) + 1 < fuel)%nat →
  wp console_env (ffstd_keyread_win fuel fd ev) (key_read (keys_of (pending ev ++ q))) never q.
Proof.
  intros Hok Hrec Hf. unfold ffstd_keyread_win. set (K := keys_of (pending ev ++ q)).
  apply (wp_loop _ _ (λ n ev q, ev_ok ev ∧ records_ok (pending ev ++ q) ∧ keys_of (pending ev ++ q) = K ∧
    (turns ev q < n)%nat)).
  - intros w s (_ & _ & _ & H). lia.
  - intros n s w (H1 & H2 & H3 & H4). by apply keyread_step_wp.
  - split_and!; [done..|]. unfold turns. case_match; lia.
Qed.

Definition press (vk : Z) : input_record := InputRecord KEY_EVENT (key_record 1 1 vk 0 0 0).
Definition release (vk : Z) : input_record := InputRecord KEY_EVENT (key_record 0 1 vk 0 0 0).

Lemma keyread_win_ok_witness :
  wp console_env (ffstd_keyread_win 9 3 (StdEv 0 [] 0 0))
    (key_read [key_record 1 1 38 0 0 0; key_record 1 1 40 0 0 0]) never [release 13; press 38; press 40].
Proof.
  apply (keyread_win_ok 3 9 (StdEv 0 [] 0 0) [release 13; press 38; press 40]);
    [by left|by repeat constructor|cbn; lia].
Defined.

(** ** Terminal attributes *)

Lemma has_bit flags n : 0 ≤ n → has flags (2 ^ n) = Z.testbit flags n.
Proof.
  intros Hn. unfold has. destruct (Z.testbit flags n) eqn:E.
  - apply negb_true_iff, Z.eqb_neq. intros H0.
    assert (Z.testbit (Z.land flags (2 ^ n)) n = true) as H by by rewrite Z.land_spec, E, Z.pow2_bits_true.
    by rewrite H0, Z.bits_0 in H.
  - apply negb_false_iff, Z.eqb_eq, Z.bits_inj'. intros k Hk. rewrite Z.land_spec, Z.bits_0, Z.pow2_bits_eqb by done.
    destruct (Z.eqb_spec n k) as [->|]; [by rewrite E|by rewrite andb_false_r].
Qed.

(** The bits of the mode word when echo and line input have been set as asked. *)
Definition asked (attr val echo_bit line_bit old k : Z) : bool :=
  if Z.testbit attr 0 && (k =? echo_bit) then Z.testbit val 0
  else if Z.testbit attr 1 && (k =? line_bit) then Z.testbit val 1
  else Z.testbit old k.

Lemma testbit_set (want value : bool) n flags k : 0 ≤ n → 0 ≤ k →
  Z.testbit (if want then if value then Z.lor flags (2 ^ n) else Z.ldiff flags (2 ^ n) else flags) k =
  if want && (k =? n) then value else Z.testbit flags k.
Proof.
  intros Hn Hk. destruct want; [|done]. cbn [andb]. rewrite (Z.eqb_sym k n). destruct value.
  - rewrite Z.lor_spec, Z.pow2_bits_eqb by done. destruct (n =? k); [by rewrite orb_true_r|by rewrite orb_false_r].
  - rewrite Z.ldiff_spec, Z.pow2_bits_eqb by done. destruct (n =? k); [by rewrite andb_false_r|by rewrite andb_true_r].
Qed.

Lemma asked_spec attr val echo_bit line_bit old k : 0 ≤ echo_bit → 0 ≤ line_bit → echo_bit ≠ line_bit → 0 ≤ k →
  Z.testbit
    (let old := if has attr FFSTD_ECHO
                then if has val FFSTD_ECHO then Z.lor old (2 ^ echo_bit) else Z.ldiff old (2 ^ echo_bit) else old in
     if has attr FFSTD_LINEINPUT
     then if has val FFSTD_LINEINPUT then Z.lor old (2 ^ line_bit) else Z.ldiff old (2 ^ line_bit) else old) k =
  asked attr val echo_bit line_bit old k.
Proof.
  intros He Hl Hne Hk. change FFSTD_ECHO with (2 ^ 0). change FFSTD_LINEINPUT with (2 ^ 1). rewrite !has_bit by done.
  cbv zeta. rewrite !testbit_set by done. unfold asked.
  destruct (Z.eqb_spec k echo_bit), (Z.eqb_spec k line_bit); try congruence;
    rewrite ?andb_true_r, ?andb_false_r; done.
Qed.

(** The terminal: its modes, and whether the last change was taken. *)
Record term := Term { t_modes : termios; t_failed : bool }.
Definition term_env : env unixE term := λ s X e,
  match e in unixE X return X → term → Prop with
  | u_tcgetattr _ => λ r s', s' = s ∧ (r.1 = 0 → r.2 = t_modes s)
  | u_tcsetattr _ t => λ r s', (r = 0 ∧ s' = Term t (t_failed s)) ∨ (r = -1 ∧ s' = Term (t_modes s) true)
  | _ => λ _ s', s' = s
  end.

(** on UNIX, for any attributes but FFSTD_VTERM alone: when the terminal takes the change, exactly the echo and the
    line mode are set or cleared as asked, every other local mode is kept, and character input delivers each byte at
    once; when a call fails the modes are untouched - but the failure of tcsetattr() is not reported. *)
Theorem attr_unix_ok fd attr val s :
  attr ≠ FFSTD_VTERM → t_failed s = false →
  wp term_env (ffstd_attr fd attr val) (λ r s',
    (r = -1 ∧ s' = s) ∨ (r = 0 ∧ t_failed s' = true ∧ t_modes s' = t_modes s) ∨
    (r = 0 ∧ t_failed s' = false ∧
     (∀ k, 0 ≤ k → Z.testbit (c_lflag (t_modes s')) k = asked attr val 3 1 (c_lflag (t_modes s)) k) ∧
     (has attr FFSTD_LINEINPUT = true → has val FFSTD_LINEINPUT = false →
      c_cc_vtime (t_modes s') = 0 ∧ c_cc_vmin (t_modes s') = 1)))
    never s.
Proof.
  intros Hv Hs. unfold ffstd_attr. rewrite (proj2 (Z.eqb_neq _ _)) by done. cbn -[attr_termios].
  intros [r t] s1 [-> Ht]. cbn in Ht. destruct (Z.eqb_spec r 0) as [->|]; cbn -[attr_termios]; [|by left].
  rewrite Ht by done. intros r s2 [[-> ->]|[-> ->]]; right; cbn -[attr_termios]; [right|by left].
  split_and!; [done|done| |].
  - intros k Hk. rewrite <- (asked_spec attr val 3 1) by done. f_equal. unfold attr_termios.
    change ECHO with (2 ^ 3). change ICANON with (2 ^ 1). cbv zeta.
    destruct (has attr FFSTD_ECHO), (has attr FFSTD_LINEINPUT), (has val FFSTD_LINEINPUT); done.
  - intros Ha Hvl. unfold attr_termios. by rewrite Ha, Hvl.
Qed.

Lemma attr_unix_ok_witness :
  wp term_env (ffstd_attr 0 (FFSTD_ECHO + FFSTD_LINEINPUT) FFSTD_ECHO) (λ r s', r = 0 → t_failed s' = false →
    c_cc_vmin (t_modes s') = 1) never (Term (Termios 2 0 0) false).
Proof.
  eapply wp_mono; [apply (attr_unix_ok 0 (FFSTD_ECHO + FFSTD_LINEINPUT) FFSTD_ECHO (Term (Termios 2 0 0) false)); done| |done].
  cbn. intros r s' [[-> _]|[(_ & H & _)|(_ & _ & _ & H)]] H1 H2; [done|congruence|by apply H].
Defined.

(** Windows. *)
Definition console_mode_env : env winE Z := λ s X e,
  match e in winE X return X → Z → Prop with
  | GetConsoleMode _ => λ r s', s' = s ∧ (r.1 = true → r.2 = s)
  | SetConsoleMode _ m => λ r s', (r = true ∧ s' = m) ∨ (r = false ∧ s' = s)
  | _ => λ _ s', s' = s
  end.

(** on Windows ffstd_attr() succeeds exactly when the console has taken the change, and then exactly the echo and the
    line mode are set or cleared as asked, after the two modes of FFSTD_VTERM were added if it is asked for; otherwise
    the mode is untouched. *)
Theorem attr_win_ok fd attr val s :
  wp console_mode_env (ffstd_attr_win fd attr val) (λ r s',
    (r ≠ 0 ∧ s' = s) ∨
    (r = 0 ∧ ∀ k, 0 ≤ k → Z.testbit s' k =
       asked attr val 2 1 (if has attr FFSTD_VTERM && has val FFSTD_VTERM then Z.lor s 5 else s) k)) never s.
Proof.
  unfold ffstd_attr_win. cbn. intros [ok m] s1 [-> Hm]. cbn in Hm. destruct ok; cbn; [|by left].
  rewrite Hm by done. intros ok s2 [[-> ->]|[-> ->]]; cbn; [right|by left]. split; [done|].
  intros k Hk. by rewrite <- (asked_spec attr val 2 1).
Qed.

(** ** Memory *)

Lemma std_write_wp `{FfUni} h data s : wp wstep (_ffstd_write h data) (λ _ s', wsame s s') never s.
Proof.
  unfold _ffstd_write. cbn -[ffs_alloc_buf_utow]. intros [[] m] s1 H1; cbn -[ffs_alloc_buf_utow].
  - apply wp_bind. eapply wp_mono; [apply ffs_alloc_buf_utow_owns| |done].
    intros w s2 Ho. cbn -[wbuf_free]. intros b s3 H3. destruct w as [[w r]|]; cbn -[wbuf_free] in *.
    + eapply release_wp; [exact Ho|exact H3|]. intros s4 H4. by apply wsame_trans with s1.
    + destruct Ho as (? & ? & ?). apply wsame_trans with s1; [done|]. by apply wsame_trans with s2.
  - intros [ok n] s2 H2. destruct ok; cbn; by apply wsame_trans with s1.
Qed.

(** reading and writing the Windows console: the intermediate wide strings are released on every path, and the only
    assertion that can fail is the documented one, a console read with room for less than 4 bytes. *)
Theorem std_win_clean `{FfUni} cap data s :
  wp wstep (ffstdin_read_win cap) (λ _ s', wsame s s') (λ h _, h = AssertFail ∧ cap < 4) s ∧
  wp wstep (ffstdout_write_win data) (λ _ s', wsame s s') never s ∧
  wp wstep (ffstderr_write_win data) (λ _ s', wsame s s') never s.
Proof.
  split; [|split; cbn -[_ffstd_write]; intros h s1 H1;
    (eapply wp_mono; [apply std_write_wp|by intros ? s2 H2; apply wsame_trans with s1|done])].
  unfold ffstdin_read_win. cbn. intros h s1 H1 [[] m] s2 H2; cbn.
  - destruct (Z.ltb_spec cap 4); cbn; [done|].
    assert (∀ (res : Z * list Z) s3, wsame s s3 → wp wstep (Ret res) (λ _ s', wsame s s') (λ h _, h = AssertFail ∧ cap < 4) s3)
      as HR by done.
    destruct (1024 <? cap / 4); cbn.
    + intros p s3 (E1 & E2 & Hm). destruct Hm as [[-> Hm]|(Hp & Hni & Hm)].
      * cbn. unfold wsame in *. split_and!; intuition congruence.
      * rewrite (proj2 (Z.eqb_neq p 0)) by lia. cbn. intros [b ws] s4 H4.
        rewrite (proj2 (Z.eqb_neq p (-1))) by lia. destruct (if b then _ else _) as [r d]. cbn.
        intros _ s5 (F1 & F2 & F3 & F4). unfold wsame in *. destruct_and!. split_and!; [congruence..|].
        rewrite F4. replace (ws_mem s4) with ({[p]} ∪ ws_mem s2) by congruence.
        replace (ws_mem s) with (ws_mem s2) by congruence. clear -Hni. set_solver.
    + intros [b ws] s3 H3. destruct (if b then _ else _) as [r d]. cbn.
      apply wsame_trans with s2; [|done]. by apply wsame_trans with s1.
  - intros [ok [n d]] s3 H3. destruct ok; cbn; (apply wsame_trans with s2; [|done]); by apply wsame_trans with s1.
Qed.

(** Formatted output: the string is released. *)
Lemma std_fmt_clean fmt write s :
  (∀ d s, wp ustep (write d) (λ _ s', us_mem s' = us_mem s ∧ us_fds s' = us_fds s) never s) →
  wp ustep fmt (λ '(r, (blk, d)) s', us_fds s' = us_fds s ∧
    ((blk = 0 ∧ us_mem s' = us_mem s) ∨ (0 < blk ∧ (blk ∉ us_mem s) ∧ us_mem s' = {[blk]} ∪ us_mem s))) never s →
  wp ustep (std_fmt write fmt) (λ _ s', us_mem s' = us_mem s ∧ us_fds s' = us_fds s) never s.
Proof.
  intros Hw Hf. unfold std_fmt. apply wp_bind. eapply wp_mono; [exact Hf| |done].
  intros [r [blk d]] s1 (Ef & Hm). apply wp_bind.
  assert (∀ (r' : Z) s2, us_mem s2 = us_mem s1 → us_fds s2 = us_fds s1 →
    wp ustep (if blk =? 0 then Ret r' else do! ffmem_free blk in Ret r')
      (λ _ s', us_mem s' = us_mem s ∧ us_fds s' = us_fds s) never s2) as HF.
  { intros r' s2 E1 E2. destruct Hm as [[-> Hm]|(Hp & Hni & Hm)]; [cbn; split; congruence|].
    rewrite (proj2 (Z.eqb_neq blk 0)) by lia. cbn. intros _ s3 (_ & G1 & _ & _ & _ & G2).
    split; [|congruence]. rewrite G2, E1, Hm. clear -Hni. set_solver. }
  destruct (r =? 0); cbn [negb]; [by apply HF|].
  eapply wp_mono; [apply Hw| |done]. intros r' s2 [E1 E2]. by apply HF.
Qed.
