(* ===== verification/Signal.v ===== *)
(** * FFOS/signal.h: signals through a kernel queue, signal and exception handlers *)
From S2P Require Import Prelude Prog Ffbase Unix Win Socket Queue.

(** enum FFSIG of a system. *)
Record ffsig := FfSig { FFSIG_INT : Z; FFSIG_SEGV : Z; FFSIG_ABORT : Z; FFSIG_FPE : Z; FFSIG_ILL : Z; FFSIG_STACK : Z }.
Definition FFSIG_unix : ffsig := FfSig 2 11 6 8 4 (Z.lor 1073741824 11).
Definition FFSIG_win : ffsig := FfSig 3221225786 3221225477 2147483651 3221225614 3221225501 3221225725.

Record ffsig_info := SigInfo_ { i_sig : Z; i_addr : Z; i_flags : Z; i_si : Z; i_pid : Z }.

(** ** UNIX: signals of a thread *)

(** sigaddset() leaves the set alone when the number is not a signal. *)
Definition sigaddset (mask : list Z) (sig : Z) : list Z :=
  if (1 <=? sig) && (sig <=? 64) && negb (bool_decide (sig ∈ mask)) then mask ++ [sig] else mask.
Definition sigmask (sigs : list Z) : list Z := foldl sigaddset [] sigs.

Definition ffsig_mask (how : Z) (sigs : list Z) : prog unixE unit :=
  do! u_sigprocmask how (sigmask sigs) in Ret tt.

(** ** Linux: signalfd *)

Definition FFKQSIG_NULL : Z := -1.
Definition SFD_NONBLOCK := O_NONBLOCK.
Definition sizeof_signalfd_siginfo := 128.

Definition ffkqsig_attach (kq : Z) (sigs : list Z) (data : Z) : prog unixE Z :=
  let! sig := u_signalfd (sigmask sigs) SFD_NONBLOCK in
  if sig =? -1 then Ret (-1) else
  let* r := ffkq_attach kq sig data FFKQ_READ in
  if negb (r =? 0) then do! u_close sig in Ret (-1) else Ret sig.

Definition ffkqsig_detach (sig kq : Z) : prog unixE Z :=
  if sig =? FFKQSIG_NULL then Ret 0 else call (u_close sig).

(** The signal, and the sender for the information object. *)
Definition ffkqsig_readinfo (sig : Z) : prog unixE (Z * option Z) :=
  let! '(r, (signo, pid)) := u_read_siginfo sig in
  if negb (r =? sizeof_signalfd_siginfo) then Ret (-1, None) else Ret (s32 signo, Some (s32 pid)).
Definition ffkqsig_read (sig : Z) : prog unixE Z := let* '(r, _) := ffkqsig_readinfo sig in Ret r.

(** ** BSD, macOS: a set of signals is a 32-bit mask *)

Definition EVFILT_SIGNAL : Z := -6.
Definition sizeof_kevent := 32.

(** ffbit_rfind32() of ffbase: 1 + the index of the most significant bit, 0 if there is none. *)
Class BitFind := { ffbit_rfind32 : Z → Z }.

Fixpoint attach_loop (sigs : list Z) (data : Z) (evs : list kevent_t) (mask : Z) : prog unixE (list kevent_t * Z) :=
  match sigs with
  | [] => Ret (evs, mask)
  | sig :: sigs =>
      if negb (sig <? 32) then Halt AssertFail else
      attach_loop sigs data (evs ++ [KEvent sig EVFILT_SIGNAL (Z.lor EV_ADD EV_ENABLE) 0 0 data])
        (Z.lor mask (u32 (Z.shiftl 1 sig)))
  end.

Definition ffkqsig_attach_bsd (kq : Z) (sigs : list Z) (data : Z) : prog unixE Z :=
  let! evs := ffmem_alloc (u64 (Z.of_nat (length sigs) * sizeof_kevent)) in
  if evs =? 0 then Ret (-1) else
  let* '(changes, mask) := attach_loop sigs data [] 0 in
  let! r := u_kevent_change kq changes in
  let mask := if negb (r =? 0) then u32 (-1) else mask in
  do! ffmem_free evs in
  Ret (s32 mask).

Section bsd.
Context `{BitFind}.

(** The array of events has 32 elements. *)
Definition detach_step (s : Z * list kevent_t) : prog unixE (Z * list kevent_t + list kevent_t) :=
  let '(mask, evs) := s in
  let r := ffbit_rfind32 mask - 1 in
  if r <? 0 then Ret (inr evs) else
  let mask := Z.ldiff mask (u32 (Z.shiftl 1 r)) in
  if (32 <=? length evs)%nat then Halt OutOfBounds else
  Ret (inl (mask, evs ++ [KEvent r EVFILT_SIGNAL EV_DELETE 0 0 0])).

Definition ffkqsig_detach_bsd (sig kq : Z) : prog unixE Z :=
  if sig =? FFKQSIG_NULL then Ret 0 else
  let! p := ffmem_alloc (32 * sizeof_kevent) in
  if p =? 0 then Ret (-1) else
  let* evs := loop 33 detach_step (u32 sig, []) in
  let! r := u_kevent_change kq evs in
  do! ffmem_free p in
  Ret (if negb (r =? 0) then -1 else 0).
End bsd.

(** The signal, and the event without it. *)
Definition ffkqsig_read_bsd (ev : kevent_t) : Z * kevent_t :=
  (s32 (ke_ident ev), KEvent (u64 (-1)) (ke_filter ev) (ke_flags ev) (ke_fflags ev) (ke_data ev) (ke_udata ev)).

(** ** UNIX: handlers *)

Definition SA_SIGINFO := 4.
Definition SA_ONSTACK := 134217728.
Definition SA_RESETHAND := 2147483648.
Definition SIGSEGV := 11.
Definition SIGSTKSZ := 8192.
(** The address of _ffsig_exc_handler(). *)
Definition exc_handler : Z := 1.

(** What the user's handler is given. *)
Definition _ffsig_exc_handler (signo si_addr si_code info : Z) : ffsig_info :=
  SigInfo_ (u32 signo) si_addr (u32 si_code) info 0.

(** The first FFSIG_STACK of the list: its handler gets a stack of its own. *)
Definition subscribe_stack (sigs : list Z) : prog unixE (option bool) :=
  if bool_decide (FFSIG_STACK FFSIG_unix ∈ sigs) then
    let! sp := ffmem_alloc SIGSTKSZ in
    if sp =? 0 then Ret None else
    let! r := u_sigaltstack sp SIGSTKSZ in
    if negb (r =? 0) then Ret None else
    let! r := u_sigaction SIGSEGV exc_handler (Z.lor (Z.lor SA_SIGINFO SA_RESETHAND) SA_ONSTACK) in
    if negb (r =? 0) then Ret None else Ret (Some true)
  else Ret (Some false).

Fixpoint subscribe_loop (have_stack_sig : bool) (sigs : list Z) : prog unixE Z :=
  match sigs with
  | [] => Ret 0
  | sig :: sigs =>
      if (sig =? FFSIG_STACK FFSIG_unix) || ((sig =? FFSIG_SEGV FFSIG_unix) && have_stack_sig)
      then subscribe_loop have_stack_sig sigs else
      let! r := u_sigaction (s32 sig) exc_handler (Z.lor SA_SIGINFO SA_RESETHAND) in
      if negb (r =? 0) then Ret (-1) else subscribe_loop have_stack_sig sigs
  end.

(** The result and _ffsig_userhandler; a handler of 0 is NULL. *)
Definition ffsig_subscribe (userhandler handler : Z) (sigs : list Z) : prog unixE (Z * Z) :=
  let userhandler := if negb (handler =? 0) then handler else userhandler in
  let* st := subscribe_stack sigs in
  match st with
  | None => Ret (-1, userhandler)
  | Some have_stack_sig => let* r := subscribe_loop have_stack_sig sigs in Ret (r, userhandler)
  end.

(** ** Windows: handlers *)

Definition CTRL_C_EVENT := 0.
Definition ctrl_handler : Z := 2.
Definition exc_filter : Z := 3.

(** What the user's handler is given, if it is called, and the answer. *)
Definition _ffsig_ctrl_handler (ctrl : Z) : option ffsig_info * bool :=
  if ctrl =? CTRL_C_EVENT then (Some (SigInfo_ (FFSIG_INT FFSIG_win) 0 0 0 0), true) else (None, false).

(** [info]: the parameters of the exception. *)
Definition _ffsig_exc_handler_win (code : Z) (info : list Z) (inf : Z) : prog winE ffsig_info :=
  do! SetUnhandledExceptionFilter 0 in
  if code =? FFSIG_SEGV FFSIG_win then
    match info !! 0%nat, info !! 1%nat with
    | Some flags, Some addr => Ret (SigInfo_ code addr (u32 flags) inf 0)
    | _, _ => Halt OutOfBounds
    end
  else Ret (SigInfo_ code 0 0 inf 0).

Fixpoint subscribe_loop_win (sigs : list Z) (exc : bool) : prog winE bool :=
  match sigs with
  | [] => Ret exc
  | sig :: sigs =>
      if sig =? FFSIG_INT FFSIG_win then do! SetConsoleCtrlHandler ctrl_handler true in subscribe_loop_win sigs exc
      else subscribe_loop_win sigs true
  end.

Definition ffsig_subscribe_win (userhandler handler : Z) (sigs : list Z) : prog winE (Z * Z) :=
  let userhandler := if negb (handler =? 0) then handler else userhandler in
  let* exc := subscribe_loop_win sigs false in
  if exc : bool then do! SetUnhandledExceptionFilter exc_filter in Ret (0, userhandler) else Ret (0, userhandler).

(** ** Raising a signal, both systems *)

Inductive raised := Aborted | WriteTo (addr : Z) | DividedByZero | NotRaised.

(** [None]: the recursion needs more than [fuel] frames of the stack. *)
Fixpoint ffsig_raise (E : ffsig) (fuel : nat) (sig : Z) : option raised :=
  match fuel with
  | O => None
  | S fuel =>
      if sig =? s32 (FFSIG_ABORT E) then Some Aborted
      else if sig =? s32 (FFSIG_STACK E) then ffsig_raise E fuel sig
      else if sig =? s32 (FFSIG_SEGV E) then Some (WriteTo 22)
      else if sig =? s32 (FFSIG_FPE E) then Some DividedByZero
      else Some NotRaised
  end.

(** ** The set of signals of a kernel queue *)

Class BitFindLaws (B : BitFind) : Prop := {
  rfind32_0 : ffbit_rfind32 0 = 0;
  rfind32_pos x : 0 < x < 2 ^ 32 → ffbit_rfind32 x = Z.log2 x + 1;
}.
#[export] Instance RefBitFind : BitFind := {| ffbit_rfind32 x := if x =? 0 then 0 else Z.log2 x + 1 |}.
#[export] Instance RefBitFindLaws : BitFindLaws RefBitFind.
Proof. split; [done|]. intros x Hx. cbn. by rewrite (proj2 (Z.eqb_neq x 0)) by lia. Qed.

(** The bits of a mask below [n], from the top. *)
Fixpoint bits_desc (n : nat) (mask : Z) : list Z :=
  match n with
  | O => []
  | S n => if Z.testbit mask (Z.of_nat n) then Z.of_nat n :: bits_desc n mask else bits_desc n mask
  end.

Lemma elem_of_bits n mask k : k ∈ bits_desc n mask ↔ 0 ≤ k < Z.of_nat n ∧ Z.testbit mask k = true.
Proof.
  induction n as [|n IH]; cbn [bits_desc].
  { rewrite elem_of_nil. split; [done|intros [? _]; lia]. }
  assert (k ∈ bits_desc (S n) mask ↔ (k = Z.of_nat n ∧ Z.testbit mask k = true) ∨ k ∈ bits_desc n mask) as HS.
  { cbn [bits_desc]. destruct (Z.testbit mask (Z.of_nat n)) eqn:E; [rewrite elem_of_cons|].
    - split; [intros [->|?]; auto|intros [[-> _]|?]; auto].
    - split; [by right|]. intros [[-> ?]|?]; [congruence|done]. }
  cbn [bits_desc] in HS. rewrite HS, IH. split.
  - intros [[-> ?]|[? ?]]; (split; [lia|done]).
  - intros [Hk Hb]. destruct (Z.eq_dec k (Z.of_nat n)); [by left|right; split; [lia|done]].
Qed.

Lemma bits_desc_ext n m m' : (∀ k, 0 ≤ k < Z.of_nat n → Z.testbit m k = Z.testbit m' k) → bits_desc n m = bits_desc n m'.
Proof.
  induction n as [|n IH]; intros H; cbn [bits_desc]; [done|]. rewrite (H (Z.of_nat n)) by lia.
  rewrite IH by (intros k Hk; apply H; lia). done.
Qed.

Lemma bits_desc_small n m k : (k ≤ n)%nat → 0 ≤ m < 2 ^ Z.of_nat k → bits_desc n m = bits_desc k m.
Proof.
  intros Hk Hm. induction n as [|n IH]; [by replace k with 0%nat by lia|].
  destruct (decide (k = S n)) as [->|]; [done|]. cbn [bits_desc].
  destruct (Z.eq_dec m 0) as [->|Hm0]; [rewrite Z.bits_0; apply IH; lia|].
  rewrite Z.bits_above_log2; [apply IH; lia|lia|]. apply Z.lt_le_trans with (Z.of_nat k); [|lia].
  apply Z.log2_lt_pow2; lia.
Qed.

(** The most significant bit, and the mask without it. *)
Lemma bits_desc_log2 n m : 0 < m < 2 ^ Z.of_nat n →
  let m' := Z.ldiff m (2 ^ Z.log2 m) in
  bits_desc n m = Z.log2 m :: bits_desc n m' ∧ 0 ≤ m' < 2 ^ Z.log2 m.
Proof.
  intros Hm m'. pose proof (Z.log2_nonneg m) as Hl. pose proof (Z.log2_spec m ltac:(lia)) as [Hlo Hhi].
  assert (Z.log2 m < Z.of_nat n) as Hln by (apply Z.log2_lt_pow2; lia).
  assert (∀ k, 0 ≤ k → Z.testbit m' k = Z.testbit m k && negb (k =? Z.log2 m)) as Hb.
  { intros k Hk. unfold m'. rewrite Z.ldiff_spec, Z.pow2_bits_eqb by done. by rewrite Z.eqb_sym. }
  assert (0 ≤ m' < 2 ^ Z.log2 m) as Hm'.
  { assert (0 ≤ m') by (apply Z.ldiff_nonneg; lia). split; [done|].
    destruct (Z.eq_dec m' 0) as [->|Hne]; [lia|]. apply Z.log2_lt_cancel. rewrite Z.log2_pow2 by done.
    apply Z.le_lt_trans with (Z.log2 m'); [lia|]. destruct (Z.lt_ge_cases (Z.log2 m') (Z.log2 m)) as [|Hge]; [done|].
    pose proof (Hb (Z.log2 m') (Z.log2_nonneg _)) as H1. rewrite Z.bit_log2 in H1 by lia.
    symmetry in H1. apply andb_true_iff in H1 as [H1 H2]. apply negb_true_iff, Z.eqb_neq in H2.
    rewrite Z.bits_above_log2 in H1 by lia. done. }
  split; [|done].
  set (j := Z.to_nat (Z.log2 m)).
  assert (bits_desc n m = bits_desc (S j) m) as -> by (apply bits_desc_small; unfold j; [lia|]; rewrite Nat2Z.inj_succ, Z2Nat.id; lia).
  assert (bits_desc n m' = bits_desc j m') as -> by (apply bits_desc_small; unfold j; [lia|]; rewrite Z2Nat.id; lia).
  cbn [bits_desc]. assert (Z.of_nat j = Z.log2 m) as -> by (unfold j; lia).
  rewrite Z.bit_log2 by lia. f_equal. apply bits_desc_ext. intros k Hk. rewrite Hb by lia.
  rewrite (proj2 (Z.eqb_neq k _)) by (unfold j in Hk; lia). by rewrite andb_true_r.
Qed.

Lemma bits_desc_0 n : bits_desc n 0 = [].
Proof. induction n as [|n IH]; cbn [bits_desc]; [done|]. by rewrite Z.bits_0. Qed.

Lemma length_bits_desc n m : (length (bits_desc n m) ≤ n)%nat.
Proof. induction n; cbn [bits_desc]; [done|case_match; cbn [length]; lia]. Qed.

#[global] Opaque bits_desc.

Definition deleted (r : Z) : kevent_t := KEvent r EVFILT_SIGNAL EV_DELETE 0 0 0.

Lemma detach_loop `{B : BitFind, !BitFindLaws B} {S} (step : env unixE S) mask (Q : list kevent_t → S → Prop) s :
  0 ≤ mask < 2 ^ 32 → Q (map deleted (bits_desc 32 mask)) s →
  wp step (loop 33 detach_step (mask, [])) Q never s.
Proof.
  intros Hm HQ.
  apply (wp_loop _ _ (λ n '(m, evs) w, w = s ∧ (1 + length (bits_desc 32 m) ≤ n)%nat ∧ 0 ≤ m < 2 ^ 32 ∧
    (length evs + length (bits_desc 32 m) ≤ 32)%nat ∧ evs ++ map deleted (bits_desc 32 m) = map deleted (bits_desc 32 mask))).
  - intros w [m evs] (_ & H & _). lia.
  - intros n [m evs] w (-> & Hn & Hr & Hl & He). cbn [detach_step].
    destruct (Z.eq_dec m 0) as [->|Hm0].
    + rewrite rfind32_0. change (0 - 1 <? 0) with true. cbn [wp]. rewrite bits_desc_0 in He. cbn [map] in He.
      rewrite app_nil_r in He. by subst evs.
    + rewrite rfind32_pos by lia. replace (Z.log2 m + 1 - 1) with (Z.log2 m) by lia.
      pose proof (Z.log2_nonneg m). rewrite (proj2 (Z.ltb_ge _ _)) by lia.
      destruct (bits_desc_log2 32 m) as [Hd Hm']; [lia|]. cbv zeta.
      assert (Z.log2 m < 32) by (apply Z.log2_lt_pow2; lia).
      assert (u32 (Z.shiftl 1 (Z.log2 m)) = 2 ^ Z.log2 m) as ->.
      { rewrite Z.shiftl_1_l. apply u32_small. unfold is_u32. split; [lia|]. apply Z.pow_lt_mono_r; lia. }
      rewrite Hd in *. cbn [length map] in *. rewrite (proj2 (Nat.leb_gt _ _)) by lia. cbn [wp].
      split_and!; [done|lia|lia| |rewrite length_app; cbn; lia|by rewrite <- app_assoc].
      assert (2 ^ Z.log2 m < 2 ^ 32) by (apply Z.pow_lt_mono_r; lia). lia.
  - pose proof (length_bits_desc 32 mask). cbn [length]. split_and!; try done; lia.
Qed.

(** The mask of a list of signals. *)
Lemma attach_loop_wp {S} (step : env unixE S) sigs data : ∀ evs mask (Q : list kevent_t * Z → S → Prop) s,
  Forall (λ x, 0 ≤ x < 32) sigs → 0 ≤ mask < 2 ^ 32 →
  (∀ mask', 0 ≤ mask' < 2 ^ 32 → (∀ k, 0 ≤ k → Z.testbit mask' k = Z.testbit mask k || bool_decide (k ∈ sigs)) →
    Q (evs ++ map (λ x, KEvent x EVFILT_SIGNAL (Z.lor EV_ADD EV_ENABLE) 0 0 data) sigs, mask') s) →
  wp step (attach_loop sigs data evs mask) Q never s.
Proof.
  induction sigs as [|sig sigs IH]; intros evs mask Q s Hs Hm HQ; cbn [attach_loop].
  - cbn [wp]. rewrite <- (app_nil_r evs). apply HQ; [done|]. intros k Hk.
    rewrite bool_decide_false by set_solver. by rewrite orb_false_r.
  - apply Forall_cons in Hs as [Hsig Hs]. rewrite (proj2 (Z.ltb_lt _ _)) by lia. cbn [negb].
    assert (u32 (Z.shiftl 1 sig) = 2 ^ sig) as ->.
    { rewrite Z.shiftl_1_l. apply u32_small. unfold is_u32. split; [lia|]. apply Z.pow_lt_mono_r; lia. }
    assert (2 ^ sig < 2 ^ 32) by (apply Z.pow_lt_mono_r; lia).
    apply IH; [done| |].
    + split; [apply Z.lor_nonneg; lia|]. destruct (Z.eq_dec (Z.lor mask (2 ^ sig)) 0) as [->|Hne]; [lia|].
      apply Z.log2_lt_pow2; [enough (0 ≤ Z.lor mask (2 ^ sig)) by lia; apply Z.lor_nonneg; lia|].
      rewrite Z.log2_lor by lia. rewrite Z.log2_pow2 by lia. apply Z.max_lub_lt; [|lia].
      destruct (Z.eq_dec mask 0) as [->|]; [done|]. apply Z.log2_lt_pow2; lia.
    + intros mask' Hm' Hb. rewrite <- app_assoc. apply HQ; [done|]. intros k Hk. rewrite Hb by done.
      rewrite Z.lor_spec, Z.pow2_bits_eqb, <- orb_assoc by lia. f_equal.
      destruct (Z.eqb_spec sig k) as [->|]; cbn [orb].
      * by rewrite bool_decide_true by set_solver.
      * by rewrite (bool_decide_ext (k ∈ sigs) (k ∈ sig :: sigs)) by set_solver.
Qed.

(** A queue: the signals it watches with the object of each, the heap, and whether a call has failed.  A list
    of changes that deletes what is not there, or is not about signals, is refused. *)
Record kq_state := KqState { kq_sigs : gmap Z Z; kq_mem : gset Z; kq_failed : bool }.
Definition change_sig (l : option (gmap Z Z)) (ev : kevent_t) : option (gmap Z Z) :=
  l ← l;
  if negb (ke_filter ev =? EVFILT_SIGNAL) then None
  else if ke_flags ev =? EV_DELETE then (if l !! ke_ident ev then Some (delete (ke_ident ev) l) else None)
  else if ke_flags ev =? Z.lor EV_ADD EV_ENABLE then Some (<[ke_ident ev := ke_udata ev]> l)
  else None.
Definition change_sigs (evs : list kevent_t) (l : gmap Z Z) : option (gmap Z Z) := foldl change_sig (Some l) evs.
Definition kq_env : env unixE kq_state := λ s X e,
  match e in unixE X return X → kq_state → Prop with
  | ffmem_alloc _ => λ r s', kq_sigs s' = kq_sigs s ∧
      ((r = 0 ∧ kq_mem s' = kq_mem s ∧ kq_failed s' = true) ∨
       (0 < r ∧ (r ∉ kq_mem s) ∧ kq_mem s' = {[r]} ∪ kq_mem s ∧ kq_failed s' = kq_failed s))
  | ffmem_free p => λ _ s', kq_sigs s' = kq_sigs s ∧ kq_mem s' = (kq_mem s ∖ {[p]}) ∧ kq_failed s' = kq_failed s
  | u_kevent_change _ evs => λ r s', kq_mem s' = kq_mem s ∧
      match change_sigs evs (kq_sigs s) with
      | None => r = -1 ∧ kq_failed s' = kq_failed s
      | Some l => (r = 0 ∧ kq_sigs s' = l ∧ kq_failed s' = kq_failed s) ∨ (r = -1 ∧ kq_failed s' = true)
      end
  | _ => λ _ s', s' = s
  end.

(** The signals [sigs], each with the object [data]. *)
Definition watching (sigs : list Z) (data : Z) : gmap Z Z := gset_to_gmap data (list_to_set sigs).

Lemma change_add sigs data l :
  change_sigs (map (λ x, KEvent x EVFILT_SIGNAL (Z.lor EV_ADD EV_ENABLE) 0 0 data) sigs) l =
  Some (watching sigs data ∪ l).
Proof.
  unfold change_sigs, watching. revert l. induction sigs as [|x sigs IH]; intros l; cbn [map foldl].
  { f_equal. cbn. by rewrite gset_to_gmap_empty, left_id_L by apply _. }
  change (change_sig (Some l) _) with (Some (<[x := data]> l)). rewrite IH. f_equal. cbn [list_to_set].
  apply map_eq. intros k. rewrite !lookup_union, !lookup_gset_to_gmap.
  destruct (decide (k = x)) as [->|Hne].
  - rewrite lookup_insert_eq, (option_guard_True (x ∈ ({[x]} ∪ list_to_set sigs : gset Z))) by set_solver.
    by case_guard; destruct (l !! x).
  - rewrite lookup_insert_ne by done. f_equal. apply option_guard_iff. set_solver.
Qed.

Lemma change_delete ks : ∀ l, NoDup ks → (∀ k, k ∈ ks → is_Some (l !! k)) →
  change_sigs (map deleted ks) l = Some (filter (λ p, p.1 ∉ ks) l).
Proof.
  unfold change_sigs. induction ks as [|x ks IH]; intros l Hn Hk; cbn [map foldl].
  { f_equal. symmetry. apply map_filter_id. intros ? ? _. cbn. set_solver. }
  apply NoDup_cons in Hn as [Hx Hn].
  change (change_sig (Some l) (deleted x)) with (if l !! x then Some (delete x l) else None).
  destruct (Hk x) as [v Hv]; [set_solver|]. rewrite Hv, IH; [f_equal|done|].
  - apply map_eq. intros k. apply option_eq. intros w. rewrite !map_lookup_filter_Some, lookup_delete_Some. cbn. set_solver.
  - intros k Hks. rewrite lookup_delete_ne by set_solver. apply Hk. set_solver.
Qed.

Lemma NoDup_bits n m : NoDup (bits_desc n m).
Proof.
  induction n as [|n IH]; [by constructor|]. Transparent bits_desc. cbn [bits_desc].
  destruct (Z.testbit _ _); [|done]. constructor; [|done]. rewrite elem_of_bits. lia.
Qed.
#[global] Opaque bits_desc.

(** The mask [mask] stands for exactly the signals [sigs]. *)
Definition mask_of (mask : Z) (sigs : list Z) : Prop :=
  0 ≤ mask < 2 ^ 32 ∧ ∀ k, 0 ≤ k → Z.testbit mask k = bool_decide (k ∈ sigs).

Lemma mask_not_null mask sigs : mask_of mask sigs → ¬ (∀ k, 0 ≤ k < 32 → k ∈ sigs) → s32 mask ≠ -1.
Proof.
  intros [Hm Hb] Hall Heq. apply Hall. intros k Hk. rewrite <- (bool_decide_eq_true (k ∈ sigs)), <- Hb by lia.
  assert (mask = Z.ones 32) as ->; [|by apply Z.ones_spec_low].
  unfold s32, swrap in Heq. change (Z.ones 32) with (2 ^ 32 - 1). change (2 ^ (32 - 1)) with (2 ^ 31) in Heq. dlia.
Qed.

Lemma mask_bits mask sigs k : Forall (λ x, 0 ≤ x < 32) sigs → mask_of mask sigs → k ∈ bits_desc 32 mask ↔ k ∈ sigs.
Proof.
  intros Hs [Hm Hb]. rewrite elem_of_bits. split.
  - intros [Hk Ht]. rewrite Hb in Ht by lia. by apply bool_decide_eq_true in Ht.
  - intros Hk. pose proof (proj1 (Forall_forall _ _) Hs k Hk) as Hr. cbn in Hr. split; [lia|].
    rewrite Hb by lia. by apply bool_decide_eq_true.
Qed.

Lemma attach_bsd_wp kq sigs data s :
  Forall (λ x, 0 ≤ x < 32) sigs → kq_failed s = false →
  wp kq_env (ffkqsig_attach_bsd kq sigs data) (λ r s', kq_mem s' = kq_mem s ∧
    if kq_failed s' then r = FFKQSIG_NULL
    else kq_sigs s' = watching sigs data ∪ kq_sigs s ∧ ∃ mask, r = s32 mask ∧ mask_of mask sigs) never s.
Proof.
  intros Hs Hf. unfold ffkqsig_attach_bsd. cbn -[attach_loop change_sigs].
  intros p s1 (E1 & Hm1). destruct Hm1 as [(-> & Hm1 & Hf1)|(Hp & Hni & Hm1 & Hf1)]; [cbn; by rewrite Hf1|].
  rewrite (proj2 (Z.eqb_neq p 0)) by lia.
  apply wp_bind, attach_loop_wp; [done|lia|]. intros mask Hmask Hbits. cbn [app].
  cbn -[change_sigs]. intros r s2 [E2 Hr] [] s3 (E3 & E4 & E5).
  assert (kq_mem s3 = kq_mem s) as -> by (rewrite E4, E2, Hm1; clear -Hni; set_solver). split; [done|].
  rewrite change_add in Hr. rewrite E5. destruct Hr as [(-> & Hr & ->)|[-> ->]]; [|done].
  rewrite Hf1, Hf. split; [congruence|]. exists mask. split; [done|]. split; [done|].
  intros k Hk. by rewrite Hbits, Z.bits_0 by done.
Qed.

Lemma detach_bsd_wp `{B : BitFind, !BitFindLaws B} kq mask s :
  0 ≤ mask < 2 ^ 32 → s32 mask ≠ -1 → kq_failed s = false → (∀ k, k ∈ bits_desc 32 mask → is_Some (kq_sigs s !! k)) →
  wp kq_env (ffkqsig_detach_bsd (s32 mask) kq) (λ r s', kq_mem s' = kq_mem s ∧
    if kq_failed s' then r = -1
    else r = 0 ∧ kq_sigs s' = filter (λ p, p.1 ∉ bits_desc 32 mask) (kq_sigs s)) never s.
Proof.
  intros Hm Hne Hf Hin. unfold ffkqsig_detach_bsd, FFKQSIG_NULL. rewrite (proj2 (Z.eqb_neq _ _)) by done.
  assert (u32 (s32 mask) = mask) as ->.
  { unfold u32, s32, uwrap, swrap. change (2 ^ (32 - 1)) with (2 ^ 31). dlia. }
  cbn -[loop]. intros p s1 (E1 & Hm1). destruct Hm1 as [(-> & Hm1 & Hf1)|(Hp & Hni & Hm1 & Hf1)]; [cbn; by rewrite Hf1|].
  rewrite (proj2 (Z.eqb_neq p 0)) by lia.
  apply wp_bind, detach_loop; [done|]. cbn -[change_sigs]. intros r s2 [E2 Hr] [] s3 (E3 & E4 & E5).
  assert (kq_mem s3 = kq_mem s) as -> by (rewrite E4, E2, Hm1; clear -Hni; set_solver). split; [done|].
  rewrite E1, change_delete in Hr; [|apply NoDup_bits|done]. rewrite E5.
  destruct Hr as [(-> & Hr & ->)|[-> ->]]; [|done]. rewrite Hf1, Hf. split; [done|congruence].
Qed.

(** C32: on BSD and macOS, ffkqsig_attach() of any signals below 32 (not all of them) that the queue does not
    watch, followed by ffkqsig_detach() of the value it returns.  When no call and no allocation fails, the queue watches
    exactly the given signals with the given object in addition after the first, the value is not FFKQSIG_NULL, and the
    second answers 0 and leaves exactly what the queue watched before; when one fails the answer is -1.  Both release
    their arrays on every path, stay inside of them, and the search for bits ends within 33 turns. *)
Theorem kqsig_bsd_roundtrip `{B : BitFind, !BitFindLaws B} kq sigs data s :
  Forall (λ x, 0 ≤ x < 32) sigs → ¬ (∀ k, 0 ≤ k < 32 → k ∈ sigs) → (∀ k, k ∈ sigs → kq_sigs s !! k = None) →
  kq_failed s = false →
  wp kq_env (ffkqsig_attach_bsd kq sigs data)
    (λ sig s1, kq_mem s1 = kq_mem s ∧
       if kq_failed s1 then sig = FFKQSIG_NULL
       else sig ≠ FFKQSIG_NULL ∧ kq_sigs s1 = watching sigs data ∪ kq_sigs s ∧
         wp kq_env (ffkqsig_detach_bsd sig kq)
           (λ r s2, kq_mem s2 = kq_mem s ∧
              if kq_failed s2 then r = -1 else r = 0 ∧ kq_sigs s2 = kq_sigs s) never s1) never s.
Proof.
  intros Hs Hall Hnew Hf. eapply wp_mono; [by apply attach_bsd_wp| |done].
  intros r s1 [E1 H]. split; [done|]. destruct (kq_failed s1) eqn:Hf1; [done|].
  destruct H as (E2 & mask & -> & Hm). pose proof (mask_not_null _ _ Hm Hall) as Hne. split_and!; [done|done|].
  pose proof (mask_bits mask sigs) as Hb.
  eapply wp_mono; [apply detach_bsd_wp; [apply Hm|done|done|]| |done].
  - intros k Hk%Hb; [|done|done]. rewrite E2. apply lookup_union_is_Some. left. unfold watching.
    rewrite lookup_gset_to_gmap, option_guard_True by set_solver. done.
  - intros r s2 [F1 F2]. split; [congruence|]. destruct (kq_failed s2); [done|]. destruct F2 as [-> ->]. split; [done|].
    rewrite E2. apply map_eq. intros k. apply option_eq. intros v. rewrite map_lookup_filter_Some. cbn. rewrite Hb by done.
    unfold watching. rewrite lookup_union, lookup_gset_to_gmap. specialize (Hnew k).
    destruct (decide (k ∈ sigs)) as [Hk|Hk].
    + rewrite Hnew by done. split; [by intros [_ []]|done].
    + rewrite option_guard_False by set_solver. cbn. destruct (kq_sigs s !! k); cbn; (split; [by intros [? _]|done]).
Qed.

Lemma kqsig_bsd_roundtrip_witness :
  let s := KqState {[17 := 9]} ∅ false in
  wp kq_env (ffkqsig_attach_bsd 3 [2; 15; 31] 7)
    (λ sig s1, kq_mem s1 = ∅ ∧
       if kq_failed s1 then sig = FFKQSIG_NULL
       else sig ≠ FFKQSIG_NULL ∧ kq_sigs s1 = {[2 := 7; 15 := 7; 31 := 7; 17 := 9]} ∧
         wp kq_env (ffkqsig_detach_bsd sig 3)
           (λ r s2, kq_mem s2 = ∅ ∧
              if kq_failed s2 then r = -1 else r = 0 ∧ kq_sigs s2 = {[17 := 9]}) never s1) never s.
Proof.
  intros s. change ({[2 := 7; 15 := 7; 31 := 7; 17 := 9]} : gmap Z Z) with (watching [2; 15; 31] 7 ∪ kq_sigs s).
  apply (kqsig_bsd_roundtrip 3 [2; 15; 31] 7 s).
  - repeat constructor; lia.
  - intros H. specialize (H 0 ltac:(lia)). set_solver.
  - intros k Hk. cbn. apply lookup_singleton_ne. set_solver.
  - done.
Defined.

(** On Linux: the descriptor of the signals is returned attached to the queue, or nothing stays open. *)
Lemma kqsig_linux_clean kq sigs data s :
  wp ustep (ffkqsig_attach kq sigs data) (λ r s', new_fd s r s') never s.
Proof. by apply (attach_or_close (u_signalfd (sigmask sigs) SFD_NONBLOCK)). Qed.

(** ** Handlers *)

(** The handlers of the process with their flags, its alternative stack, and the heap. *)
Record sig_state := SigState { ss_table : gmap Z (Z * Z); ss_stack : option Z; ss_mem : gset Z }.
Definition sig_env : env unixE sig_state := λ s X e,
  match e in unixE X return X → sig_state → Prop with
  | ffmem_alloc _ => λ r s', ss_table s' = ss_table s ∧ ss_stack s' = ss_stack s ∧
      ((r = 0 ∧ ss_mem s' = ss_mem s) ∨ (0 < r ∧ (r ∉ ss_mem s) ∧ ss_mem s' = {[r]} ∪ ss_mem s))
  | u_sigaltstack sp _ => λ r s', (r = 0 ∧ s' = SigState (ss_table s) (Some sp) (ss_mem s)) ∨ (r = -1 ∧ s' = s)
  | u_sigaction sig h f => λ r s',
      (r = 0 ∧ s' = SigState (<[sig := (h, f)]> (ss_table s)) (ss_stack s) (ss_mem s)) ∨ (r = -1 ∧ s' = s)
  | _ => λ _ s', s' = s
  end.

Abbreviation STACK := (FFSIG_STACK FFSIG_unix).
(** The system's signal for a member of enum FFSIG, and the flags its handler gets. *)
Definition signal_of (sig : Z) : Z := if sig =? STACK then SIGSEGV else sig.
Definition flags_of (sigs : list Z) (k : Z) : Z :=
  if (k =? SIGSEGV) && bool_decide (STACK ∈ sigs) then Z.lor (Z.lor SA_SIGINFO SA_RESETHAND) SA_ONSTACK
  else Z.lor SA_SIGINFO SA_RESETHAND.

(** The signals that the second loop takes. *)
Definition plain (st : bool) (sigs : list Z) : list Z :=
  filter (λ sig, (sig =? STACK) || ((sig =? SIGSEGV) && st) = false) sigs.

Lemma subscribe_loop_wp st sigs : ∀ s, Forall (λ x, 0 ≤ x < 2 ^ 31) sigs →
  wp sig_env (subscribe_loop st sigs) (λ r s',
    ss_stack s' = ss_stack s ∧ ss_mem s' = ss_mem s ∧
    (∀ k, k ∉ plain st sigs → ss_table s' !! k = ss_table s !! k) ∧
    (r = -1 ∨ (r = 0 ∧ ∀ k, k ∈ plain st sigs → ss_table s' !! k = Some (exc_handler, Z.lor SA_SIGINFO SA_RESETHAND))))
    never s.
Proof.
  unfold plain. induction sigs as [|x sigs IH]; intros s Hs; cbn [subscribe_loop].
  { cbn. split_and!; [done..|]. right. split; [done|]. set_solver. }
  apply Forall_cons in Hs as [Hx Hs]. rewrite filter_cons.
  change (FFSIG_SEGV FFSIG_unix) with SIGSEGV. destruct ((x =? STACK) || ((x =? SIGSEGV) && st)) eqn:E.
  { rewrite decide_False by congruence. by apply IH. }
  rewrite decide_True by done. cbn [wp]. intros r s1 [[-> ->]|[-> ->]].
  - change (negb (0 =? 0)) with false. cbv iota. rewrite s32_small by (unfold is_s32; lia).
    eapply wp_mono; [by apply IH| |done]. cbn. intros r s2 (E1 & E2 & E3 & E4). split_and!; [done|done| |].
    + intros k Hk. rewrite E3 by set_solver. rewrite lookup_insert_ne by set_solver. done.
    + destruct E4 as [->|[-> E4]]; [by left|right]. split; [done|]. intros k Hk.
      destruct (decide (k ∈ filter (λ sig, (sig =? STACK) || ((sig =? SIGSEGV) && st) = false) sigs)) as [|Hn]; [by apply E4|].
      rewrite E3 by done. assert (k = x) as -> by set_solver. by rewrite lookup_insert_eq.
  - cbn. split_and!; [done..|by left].
Qed.

Lemma elem_of_plain st sigs k :
  k ∈ plain st sigs ↔ k ∈ sigs ∧ k ≠ STACK ∧ (st = true → k ≠ SIGSEGV).
Proof.
  unfold plain. rewrite list_elem_of_filter, orb_false_iff, andb_false_iff, !Z.eqb_neq.
  destruct st; naive_solver.
Qed.

Lemma elem_of_signals sigs k :
  k ∈ map signal_of sigs ↔ (k = SIGSEGV ∧ STACK ∈ sigs) ∨ k ∈ plain (bool_decide (STACK ∈ sigs)) sigs.
Proof.
  assert (k ∈ map signal_of sigs ↔ ∃ x, k = signal_of x ∧ x ∈ sigs) as -> by apply list_elem_of_fmap.
  rewrite elem_of_plain, bool_decide_eq_true. unfold signal_of. split.
  - intros (x & -> & Hx). destruct (Z.eqb_spec x STACK) as [->|Hne]; [by left|].
    destruct (decide (x = SIGSEGV ∧ STACK ∈ sigs)) as [H|H]; [by left|right]. split_and!; [done..|naive_solver].
  - intros [[-> Hs]|(Hk & Hne & _)]; [exists STACK|exists k].
    + by rewrite Z.eqb_refl.
    + by rewrite (proj2 (Z.eqb_neq k STACK)).
Qed.

(** What a failure may have changed. *)
Lemma subscribe_stack_wp sigs s :
  wp sig_env (subscribe_stack sigs) (λ st s',
    (∀ k, k ∉ map signal_of sigs → ss_table s' !! k = ss_table s !! k) ∧
    match st with
    | None => True
    | Some st => st = bool_decide (STACK ∈ sigs) ∧
        if st : bool then ss_table s' !! SIGSEGV = Some (exc_handler, flags_of sigs SIGSEGV) ∧
          ∃ sp, ss_stack s' = Some sp ∧ (sp ∉ ss_mem s) ∧ ss_mem s' = {[sp]} ∪ ss_mem s
        else s' = s
    end) never s.
Proof.
  unfold subscribe_stack. destruct (bool_decide (STACK ∈ sigs)) eqn:Eb; [|done].
  pose proof Eb as E. apply bool_decide_eq_true in E. cbn. intros sp s1 (E1 & E2 & Hm). destruct Hm as [[-> Hm]|(Hp & Hni & Hm)].
  { cbn. split; [|done]. intros k _. by rewrite E1. }
  rewrite (proj2 (Z.eqb_neq sp 0)) by lia. cbn. intros r s2 [[-> ->]|[-> ->]]; cbn.
  2:{ split; [|done]. intros k _. by rewrite E1. }
  intros r s3 [[-> ->]|[-> ->]]; cbn.
  2:{ split; [|done]. intros k _. by rewrite E1. }
  split.
  - intros k Hk. rewrite lookup_insert_ne; [by rewrite E1|]. intros <-. apply Hk, elem_of_signals. by left.
  - split; [done|]. split; [|by exists sp]. rewrite lookup_insert_eq. unfold flags_of. by rewrite Eb.
Qed.

(** C31: ffsig_subscribe() on UNIX: it keeps the user's handler; when it succeeds, the handler is installed for exactly the
    signals that are asked for, and to be reset after one use, FFSIG_STACK standing for SIGSEGV handled on a new
    alternative stack, even when SIGSEGV itself is in the list too, before or after; when it fails, the signals that
    were not asked for are as before. *)
Theorem subscribe_ok userhandler handler sigs s :
  Forall (λ x, 0 ≤ x < 2 ^ 31) sigs →
  wp sig_env (ffsig_subscribe userhandler handler sigs) (λ '(r, uh) s',
    uh = (if handler =? 0 then userhandler else handler) ∧
    (∀ k, k ∉ map signal_of sigs → ss_table s' !! k = ss_table s !! k) ∧
    (r = -1 ∨
     (r = 0 ∧ (∀ k, k ∈ map signal_of sigs → ss_table s' !! k = Some (exc_handler, flags_of sigs k)) ∧
      (if decide (STACK ∈ sigs)
       then ∃ sp, ss_stack s' = Some sp ∧ (sp ∉ ss_mem s) ∧ ss_mem s' = {[sp]} ∪ ss_mem s
       else ss_stack s' = ss_stack s ∧ ss_mem s' = ss_mem s)))) never s.
Proof.
  intros Hs. unfold ffsig_subscribe. set (uh := if negb _ then handler else _).
  assert (uh = (if handler =? 0 then userhandler else handler)) as Huh by (unfold uh; by destruct (handler =? 0)).
  apply wp_bind. eapply wp_mono; [apply subscribe_stack_wp| |done]. intros [st|] s1 [Hout Hst].
  2:{ cbn. split_and!; [done|done|by left]. }
  destruct Hst as [Est Hst]. apply wp_bind. eapply wp_mono; [by apply subscribe_loop_wp| |done].
  intros r s2 (E1 & E2 & Hsame & Hr). cbn [wp]. split_and!; [done| |].
  - intros k Hk. rewrite Hsame, Hout; [done|done|]. intros Hp. apply Hk, elem_of_signals. right. by rewrite <- Est.
  - destruct Hr as [->|[-> Hr]]; [by left|right]. split; [done|]. split.
    + intros k Hk%elem_of_signals. rewrite <- Est in Hk.
      destruct (decide (k ∈ plain st sigs)) as [Hp|Hp].
      * rewrite Hr by done. unfold flags_of. rewrite <- Est.
        apply elem_of_plain in Hp as (_ & _ & Hp). destruct st; [|by rewrite andb_false_r].
        by rewrite (proj2 (Z.eqb_neq k SIGSEGV)) by auto.
      * destruct Hk as [[-> Hk]|]; [|done]. rewrite Hsame by done.
        rewrite bool_decide_true in Est by done. subst st. apply Hst.
    + rewrite E1, E2. destruct (decide (STACK ∈ sigs)) as [Hd|Hd].
      * rewrite bool_decide_true in Est by done. subst st. apply Hst.
      * rewrite bool_decide_false in Est by done. subst st. by rewrite Hst.
Qed.

Lemma subscribe_ok_witness :
  wp sig_env (ffsig_subscribe 0 77 [11; STACK; 2]) (λ '(r, uh) s', uh = 77 ∧ (r = 0 →
    ss_table s' !! 11 = Some (exc_handler, Z.lor (Z.lor SA_SIGINFO SA_RESETHAND) SA_ONSTACK) ∧
    ss_table s' !! 2 = Some (exc_handler, Z.lor SA_SIGINFO SA_RESETHAND) ∧ ss_table s' !! 6 = None))
    never (SigState ∅ None ∅).
Proof.
  eapply wp_mono; [apply (subscribe_ok 0 77 [11; STACK; 2] (SigState ∅ None ∅)); repeat constructor; vm_compute; done| |done].
  intros [r uh] s' (-> & Hout & H). split; [done|]. intros ->. destruct H as [H|(_ & H & _)]; [done|].
  rewrite (H 11), (H 2) by (apply elem_of_signals; vm_compute; set_solver). split_and!; [done..|].
  rewrite Hout; [done|]. vm_compute. set_solver.
Defined.

(** A failed sigaltstack() keeps the block that was to be the stack. *)
Lemma subscribe_leaks :
  ∃ s', ¬ wp sig_env (ffsig_subscribe 0 77 [STACK]) (λ '(r, _) s, ¬ (r = -1 ∧ s = s')) never (SigState ∅ None ∅) ∧
    ss_mem s' = {[5]} ∧ ss_stack s' = None.
Proof.
  exists (SigState ∅ None {[5]}). split; [|done]. cbn. intros H.
  specialize (H 5 (SigState ∅ None {[5]})). cbn in H. premise H; [split_and!; [done..|right; split_and!; [done|set_solver|set_solver]]|].
  specialize (H (-1) _ (or_intror (conj eq_refl eq_refl))). by apply H.
Qed.

(** ** Raising a signal *)

(** ffsig_raise() on both systems: FFSIG_ABORT aborts, FFSIG_SEGV writes to an invalid address, FFSIG_FPE divides by
    zero; FFSIG_STACK recurses until whatever stack there is has been used up; any other signal is not raised. *)
Theorem raise_ok E fuel sig :
  E = FFSIG_unix ∨ E = FFSIG_win →
  ffsig_raise E fuel (s32 (FFSIG_STACK E)) = None ∧
  ffsig_raise E (S fuel) (s32 (FFSIG_ABORT E)) = Some Aborted ∧
  ffsig_raise E (S fuel) (s32 (FFSIG_SEGV E)) = Some (WriteTo 22) ∧
  ffsig_raise E (S fuel) (s32 (FFSIG_FPE E)) = Some DividedByZero ∧
  (sig ∉ map s32 [FFSIG_STACK E; FFSIG_ABORT E; FFSIG_SEGV E; FFSIG_FPE E] → ffsig_raise E (S fuel) sig = Some NotRaised).
Proof.
  intros HE. split_and!; [|by destruct HE as [-> | ->]..|].
  - induction fuel as [|fuel IH]; [done|]. destruct HE as [-> | ->]; exact IH.
  - cbn [map ffsig_raise]. intros Hn. rewrite !not_elem_of_cons in Hn. destruct Hn as (H1 & H2 & H3 & H4 & _).
    by rewrite !(proj2 (Z.eqb_neq sig _)) by done.
Qed.

Lemma raise_ok_witness : ffsig_raise FFSIG_unix 1 (FFSIG_ILL FFSIG_unix) = Some NotRaised ∧
  ffsig_raise FFSIG_win 1000 (s32 (FFSIG_STACK FFSIG_win)) = None.
Proof.
  split; [|apply (raise_ok FFSIG_win 1000 0); by right].
  apply (raise_ok FFSIG_unix 0 4); [by left|]. vm_compute. set_solver.
Defined.
