(* ===== verification/WinReg.v ===== *)
(** * FFOS/winreg.h: the Windows registry

    A registry string is its 16-bit units in little-endian order; the code converts it from and to UTF-8.
    The buffers of a value are heap blocks with the bytes they hold; the vectors of an enumeration and the
    formatted output belong to ffbase (class [RegLib]). *)
From S2P Require Import Prelude Prog Bytes Unix Win StringW.

Definition FFWINREG_NULL : Z := -1.
Definition FFWINREG_CREATE := 1.
Definition FFWINREG_CREATENEW := 2.
Definition FFWINREG_READONLY := Z.shiftr GENERIC_READ 24.
Definition FFWINREG_WRITEONLY := Z.shiftr GENERIC_WRITE 24.
Definition FFWINREG_READWRITE := Z.shiftr (Z.lor GENERIC_READ GENERIC_WRITE) 24.
Definition KEY_ALL_ACCESS := 983103.
Definition KEY_WRITE := 131078.
Definition KEY_READ := 131097.
Definition REG_CREATED_NEW_KEY := 1.
Definition REG_SZ := 1.
Definition REG_EXPAND_SZ := 2.
Definition REG_BINARY := 3.
Definition REG_DWORD := 4.
Definition REG_QWORD := 11.

Definition ffwinreg_isstr (type : Z) : bool := (type =? REG_SZ) || (type =? REG_EXPAND_SZ).

Section keys.
Context `{FfUni}.

Definition open_access (flags : Z) : Z :=
  if Z.land flags FFWINREG_READWRITE =? FFWINREG_READWRITE then KEY_ALL_ACCESS
  else if has flags FFWINREG_WRITEONLY then KEY_WRITE
  else KEY_READ.

Definition ffwinreg_open (hk : Z) (path : cstr) (flags : Z) : prog winE Z :=
  let mode := Z.land flags 15 in
  let* w := ffsz_alloc_buf_utow (Some 255) path in
  match w with
  | None => Ret FFWINREG_NULL
  | Some w =>
      let opts := open_access flags in
      let* k :=
        if (mode =? FFWINREG_CREATE) || (mode =? FFWINREG_CREATENEW) then
          let! '(r, (kk, res)) := RegCreateKeyExW hk (w_str w) opts in
          if negb (r =? 0) then wfail r FFWINREG_NULL
          else if (mode =? FFWINREG_CREATENEW) && negb (res =? REG_CREATED_NEW_KEY)
          then wfail ERROR_ALREADY_EXISTS FFWINREG_NULL
          else Ret kk
        else
          let! '(r, kk) := RegOpenKeyExW hk (w_str w) opts in
          if negb (r =? 0) then wfail r FFWINREG_NULL else Ret kk in
      wbuf_free w (Ret k)
  end.

Definition ffwinreg_close (k : Z) : prog winE unit := do! RegCloseKey k in Ret tt.

(** [struct ffwinreg_info] is [reginfo]. *)
Definition ffwinreg_info (k : Z) : prog winE (Z * reginfo) :=
  let! '(r, nf) := RegQueryInfoKeyW k in
  if negb (r =? 0) then wfail r (-1, nf) else Ret (0, nf).

(** ** Values *)

(** [v_data]: the block (0: NULL), [v_bytes]: what it holds. *)
Record ffwinreg_val := RegVal { v_type : Z; v_data : Z; v_bytes : list Z; v_datalen : Z }.

(** The characters of a text of [size] bytes, without a NUL at the end. *)
Definition text_units (size : Z) (data : list Z) : list Z :=
  let n := size / 2 in
  let u := take (Z.to_nat n) (units_of data) in
  if negb (n =? 0) && (default 1 (u !! Z.to_nat (n - 1)) =? 0) then take (Z.to_nat (n - 1)) u else u.

(** Which buffer holds the data of the registry: the stack, the user's, or the temporary one. *)
Inductive holder := OnStack | InUser | InTemp.
(** The state of the loop: the temporary block (0: NULL), the size. *)
Record read_state := ReadState { rs_at : holder; rs_outbuf : Z; rs_size : Z }.

Definition RET (r type : Z) (outbuf : Z) (val : ffwinreg_val) : Z * Z * Z * ffwinreg_val := (r, type, outbuf, val).

(** The text is in [valptr]: convert it into the user's buffer, which is allocated when there is none. *)
Definition read_text (st : read_state) (type : Z) (data : list Z) (val : ffwinreg_val) : prog winE (Z * Z * Z * ffwinreg_val) :=
  let size := rs_size st in
  let u := text_units size data in
  let* pre :=
    if v_data val =? 0 then
      let r := (ffs_wtou 0 u).1 in
      let! p := w_alloc (u64 r) in
      Ret (if p =? 0 then inr (rs_outbuf st) else inl (RegVal (v_type val) p [] (u64 r), rs_outbuf st))
    else match rs_at st with
         | InUser => let! p := w_alloc size in Ret (if p =? 0 then inr 0 else inl (val, p))
         | _ => Ret (inl (val, rs_outbuf st))
         end in
  match pre with
  | inr outbuf => Ret (RET (-1) type outbuf val)
  | inl (val, outbuf) =>
      let '(r, d) := ffs_wtou (v_datalen val) u in
      if r <? 0 then Ret (RET 0 type outbuf (RegVal (v_type val) (v_data val) (v_bytes val) (size / 2 * 4)))
      else Ret (RET 1 type outbuf (RegVal (v_type val) (v_data val) d r))
  end.

(** The data is in [valptr]: hand it over, copied from the stack when there is no other buffer. *)
Definition read_data (st : read_state) (type : Z) (data : list Z) (val : ffwinreg_val) : prog winE (Z * Z * Z * ffwinreg_val) :=
  let size := rs_size st in
  if v_data val =? 0 then
    let* p := if rs_outbuf st =? 0 then call (w_alloc size) else Ret (rs_outbuf st) in
    if p =? 0 then Ret (RET (-1) type 0 val)
    else Ret (RET 1 type 0 (RegVal (v_type val) p data size))
  else
    let bytes := match rs_at st with InUser => data | _ => v_bytes val end in
    Ret (RET 1 type (rs_outbuf st) (RegVal (v_type val) (v_data val) bytes size)).

(** One turn of the loop. *)
Definition read_step (k : Z) (wname : wstr) (val : ffwinreg_val) (st : read_state)
    : prog winE (read_state + (Z * Z * Z * ffwinreg_val)) :=
  let! '(r, (type, size, data)) := RegQueryValueExW k wname (rs_size st) in
  let st := ReadState (rs_at st) (rs_outbuf st) size in
  if negb ((r =? 0) || (r =? ERROR_MORE_DATA)) then Ret (inr (RET (-1) type (rs_outbuf st) val)) else
  if r =? 0 then
    let* res := if ffwinreg_isstr type then read_text st type data val else read_data st type data val in
    Ret (inr res)
  else if ffwinreg_isstr type && negb (rs_outbuf st =? 0) then
    Ret (inr (RET 0 type (rs_outbuf st) (RegVal (v_type val) (v_data val) (v_bytes val) (size / 2 * 4))))
  else if negb (ffwinreg_isstr type) && (negb (v_data val =? 0) || negb (rs_outbuf st =? 0)) then
    Ret (inr (RET 0 type (rs_outbuf st) (RegVal (v_type val) (v_data val) (v_bytes val) size)))
  else
    let! p := w_alloc size in
    if p =? 0 then Ret (inr (RET (-1) type 0 val)) else Ret (inl (ReadState InTemp p size)).

(** [type0]: what the variable holds before it is assigned. *)
Definition ffwinreg_read (fuel : nat) (type0 : Z) (k : Z) (name : cstr) (val : ffwinreg_val) : prog winE (Z * ffwinreg_val) :=
  let* w := ffs_utow (Some 256) name NTS in
  let* '(r, type, outbuf, val) :=
    match w with
    | None => Ret (RET 0 type0 0 val)
    | Some (wname, _) =>
        let st := if negb (v_data val =? 0) then ReadState InUser 0 (u32 (v_datalen val)) else ReadState OnStack 0 256 in
        loop fuel (read_step k (w_str wname) val) st
    end in
  let val := if 0 <=? r then RegVal type (v_data val) (v_bytes val) (v_datalen val) else val in
  let* _ := match w with Some (wname, _) => wbuf_free wname (Ret tt) | None => Ret tt end in
  if outbuf =? 0 then Ret (r, val) else do! w_free outbuf in Ret (r, val).

(** The converted text has room for [cap] units: 256 on the stack, what the conversion needs on the heap. *)
Definition ffwinreg_write (k : Z) (name : cstr) (type : Z) (data : list Z) : prog winE Z :=
  let* wn := ffsz_alloc_buf_utow (Some 256) name in
  match wn with
  | None => Ret (-1)
  | Some wname =>
      let* d :=
        if ffwinreg_isstr type then
          let* w := ffs_alloc_buf_utow (Some 256) data in
          match w with
          | None => Ret None
          | Some (wval, n) =>
              let cap := if w_ptr wval =? 0 then 256 else Z.quot (ffutf8_to_utf16 0 data).1 2 in
              if cap <=? n then Halt OutOfBounds
              else Ret (Some (units_bytes (take (Z.to_nat n) (w_str wval) ++ [0]), w_ptr wval))
          end
        else Ret (Some (data, 0)) in
      match d with
      | None => wbuf_free wname (Ret (-1))
      | Some (d, wval) =>
          let! r := RegSetValueExW k (w_str wname) type (take (Z.to_nat (u32 (Z.of_nat (length d)))) d) in
          let r := if negb (r =? 0) then -1 else 0 in
          wbuf_free wname (if wval =? 0 then Ret r else do! w_free wval in Ret r)
      end
  end.

Definition ffwinreg_writestr (k : Z) (name : cstr) (val : list Z) : prog winE Z := ffwinreg_write k name REG_SZ val.
Definition ffwinreg_writeint (k : Z) (name : cstr) (n : Z) : prog winE Z := ffwinreg_write k name REG_DWORD (le 4 n).

Definition ffwinreg_del (k : Z) (subkey : cstr) (name : option cstr) : prog winE Z :=
  let* ws := ffsz_alloc_buf_utow (Some 256) subkey in
  match ws with
  | None => Ret (-1)
  | Some wsubkey =>
      match name with
      | Some name =>
          let* wn := ffsz_alloc_buf_utow (Some 256) name in
          match wn with
          | None => wbuf_free wsubkey (Ret (-1))
          | Some wname =>
              let! r := RegDeleteKeyValueW k (w_str wsubkey) (w_str wname) in
              wbuf_free wsubkey (wbuf_free wname (Ret r))
          end
      | None => let! r := RegDeleteKeyW k (w_str wsubkey) in wbuf_free wsubkey (Ret r)
      end
  end.
End keys.

(** ** Keys *)

(** opening or creating a key releases the converted path on every path, and returns the only key it has opened,
    unless an existing key is to be refused (FFWINREG_CREATENEW, see [open_createnew_leaks]). *)
Theorem open_key_clean `{FfUni} hk path flags s :
  Z.land flags 15 ≠ FFWINREG_CREATENEW →
  wp wstep (ffwinreg_open hk path flags) (λ k s', new_handle FFWINREG_NULL s k s') never s.
Proof.
  intros Hm. unfold ffwinreg_open. apply with_name_wp; [by apply new_handle_none|].
  intros w s1 Ho. rewrite (proj2 (Z.eqb_neq _ FFWINREG_CREATENEW)) by done. rewrite orb_false_r. cbn [andb].
  assert (∀ r k s2, new_key s1 r k s2 →
    wp wstep (let* k := if negb (r =? 0) then wfail r FFWINREG_NULL else Ret k in wbuf_free w (Ret k))
      (λ k s', new_handle FFWINREG_NULL s k s') never s2) as HK.
  { intros r k s2 (E1 & E2 & E3). destruct E3 as [[Hr E3]|(-> & Hk & Hn & E3)].
    - rewrite (proj2 (Z.eqb_neq r 0)) by done. cbn -[wbuf_free]. intros _ s3 [_ Hs].
      eapply release_handle_wp; [exact Ho|]. apply new_handle_none. apply wsame_trans with s2; [done|exact Hs].
    - cbn -[wbuf_free]. eapply release_handle_wp; [exact Ho|]. unfold new_handle. split_and!; auto. }
  destruct (_ =? FFWINREG_CREATE); cbn -[wbuf_free].
  - intros [r [k res]] s2 Hk. specialize (HK r k s2 Hk). destruct (negb (r =? 0)); exact HK.
  - intros [r k] s2 Hk. specialize (HK r k s2 Hk). destruct (negb (r =? 0)); exact HK.
Qed.

Lemma open_key_clean_witness :
  wp wstep (@ffwinreg_open RefUni 5 (bytes_of "Software") (Z.lor FFWINREG_CREATE FFWINREG_READWRITE))
    (λ k s', new_handle FFWINREG_NULL (WState 0 ∅ ∅ ∅) k s') never (WState 0 ∅ ∅ ∅).
Proof. by apply (@open_key_clean RefUni). Defined.

(** With FFWINREG_CREATENEW a key that exists already is opened and never closed. *)
Lemma open_createnew_leaks :
  ¬ wp wstep (@ffwinreg_open RefUni 5 [97] FFWINREG_CREATENEW) (λ _ s', ws_handles s' = ∅) never (WState 0 ∅ ∅ ∅).
Proof.
  intros H. assert ((@ffsz_utow RefUni 255 [97]) = (2, [97])) as E by done.
  unfold ffwinreg_open, ffsz_alloc_buf_utow in H. rewrite E in H. cbn in H.
  specialize (H (0, (5, 2)) (WState 0 {[5]} ∅ ∅)). cbn in H.
  premise H; [split_and!; [done..|right; split_and!; [done|done|set_solver|set_solver]]|].
  specialize (H tt (WState ERROR_ALREADY_EXISTS {[5]} ∅ ∅)). premise H; [done|]. cbn in H. set_solver.
Qed.

(** ** Reading values *)

(** One value of the registry, and the heap. *)
Record reg_state := RegState { rg_val : option (Z * list Z); rg_mem : gset Z }.
Definition reg_env : env winE reg_state := λ s X e,
  match e in winE X return X → reg_state → Prop with
  | RegQueryValueExW _ _ cap => λ '(r, (t, size, d)) s', s' = s ∧
      match rg_val s with
      | None => r ≠ 0 ∧ r ≠ ERROR_MORE_DATA
      | Some (type, data) =>
          (t = type ∧ size = Z.of_nat (length data) ∧
           if size <=? cap then r = 0 ∧ d = data else r = ERROR_MORE_DATA) ∨
          (r ≠ 0 ∧ r ≠ ERROR_MORE_DATA)
      end
  | RegSetValueExW _ _ type data => λ r s', rg_mem s' = rg_mem s ∧
      ((r = 0 ∧ rg_val s' = Some (type, data)) ∨ (r ≠ 0 ∧ rg_val s' = rg_val s))
  | w_alloc _ => λ r s', rg_val s' = rg_val s ∧
      ((r = 0 ∧ rg_mem s' = rg_mem s) ∨ (0 < r ∧ (r ∉ rg_mem s) ∧ rg_mem s' = {[r]} ∪ rg_mem s))
  | w_free p => λ _ s', rg_val s' = rg_val s ∧ rg_mem s' = (rg_mem s ∖ {[p]})
  | _ => λ _ s', s' = s
  end.

(** What a value is read as: a text as UTF-8, any other data as it is. *)
Definition content `{FfUni} (type : Z) (data : list Z) : list Z :=
  if ffwinreg_isstr type then utf8 (text_units (Z.of_nat (length data)) data) else data.
Definition valid `{FfUni} (type : Z) (data : list Z) : Prop :=
  ffwinreg_isstr type = true → 0 ≤ wtou_size (text_units (Z.of_nat (length data)) data).

Lemma length_units_of l : Z.of_nat (length (units_of l)) = Z.of_nat (length l) / 2.
Proof.
  enough (∀ n l, (length l ≤ n)%nat → Z.of_nat (length (units_of l)) = Z.of_nat (length l) / 2) as H by by apply (H (length l)).
  clear. induction n as [|n IH]; intros [|a [|b l]] Hl; try done; cbn [length] in Hl; [lia|].
  change (units_of (a :: b :: l)) with (un_le [a; b] :: units_of l). cbn [length]. rewrite !Nat2Z.inj_succ, IH by lia. dlia.
Qed.

Lemma length_text_units data :
  Z.of_nat (length (text_units (Z.of_nat (length data)) data)) ≤ Z.of_nat (length data) / 2.
Proof.
  unfold text_units. pose proof (length_units_of data). destruct (_ && _); rewrite !length_take; lia.
Qed.

Section read.
Context `{U : FfUni, !FfWtouLaws U}.
Variables (val : ffwinreg_val) (s0 : reg_state) (t : Z) (b : list Z).
Hypothesis Hval : rg_val s0 = Some (t, b).
Hypothesis Hvalid : valid t b.
Hypothesis Hcap : v_data val ≠ 0 → 0 < v_datalen val < 2 ^ 32.
Hypothesis Hlen : Z.of_nat (length b) < 2 ^ 32.   (* a DWORD *)

Definition tmp (p : Z) : gset Z := if p =? 0 then ∅ else {[p]}.

(** What the loop ends with: the temporary block, and what the value holds. *)
Definition read_done : Z * Z * Z * ffwinreg_val → reg_state → Prop := λ '(r, type, outbuf, val') s',
  rg_val s' = rg_val s0 ∧ (outbuf = 0 ∨ (0 < outbuf ∧ (outbuf ∉ rg_mem s0))) ∧
  ((r = -1 ∧ rg_mem s' = tmp outbuf ∪ rg_mem s0 ∧ v_data val' = v_data val) ∨
   (type = t ∧ r = 1 ∧ v_bytes val' = content t b ∧ v_datalen val' = Z.of_nat (length (content t b)) ∧
    if v_data val =? 0
    then 0 < v_data val' ∧ v_data val' ≠ outbuf ∧ (v_data val' ∉ rg_mem s0) ∧
         rg_mem s' = {[v_data val']} ∪ (tmp outbuf ∪ rg_mem s0)
    else v_data val' = v_data val ∧ v_datalen val' ≤ v_datalen val ∧ rg_mem s' = tmp outbuf ∪ rg_mem s0) ∨
   (type = t ∧ r = 0 ∧ v_data val ≠ 0 ∧ v_data val' = v_data val ∧ rg_mem s' = tmp outbuf ∪ rg_mem s0 ∧
    v_datalen val < Z.of_nat (length (content t b)) ≤ v_datalen val')).

(** Before a turn of the loop: nothing read yet, or the size is known and there is a temporary block. *)
Definition read_inv (st : read_state) (s : reg_state) : Prop :=
  rg_val s = rg_val s0 ∧ rg_mem s = tmp (rs_outbuf st) ∪ rg_mem s0 ∧
  match rs_at st with
  | OnStack => rs_outbuf st = 0 ∧ v_data val = 0
  | InUser => rs_outbuf st = 0 ∧ v_data val ≠ 0
  | InTemp => 0 < rs_outbuf st ∧ (rs_outbuf st ∉ rg_mem s0) ∧ (v_data val ≠ 0 → ffwinreg_isstr t = false → False)
  end.
Definition read_size (st : read_state) : Prop :=
  match rs_at st with
  | OnStack => True
  | InUser => rs_size st = v_datalen val
  | InTemp => rs_size st = Z.of_nat (length b)
  end.

Lemma tmp_pos p : 0 < p → tmp p = {[p]}.
Proof. intros Hp. unfold tmp. by rewrite (proj2 (Z.eqb_neq p 0)) by lia. Qed.

(** A buffer for the result: the new block, or a second one next to the temporary block. *)
Lemma read_convert p outbuf val1 s :
  ffwinreg_isstr t = true → v_data val ≠ 0 → val1 = val →
  rg_val s = rg_val s0 → (outbuf = 0 ∨ (0 < outbuf ∧ (outbuf ∉ rg_mem s0))) → rg_mem s = tmp outbuf ∪ rg_mem s0 →
  p = text_units (Z.of_nat (length b)) b →
  wp reg_env
    (let '(r, d) := ffs_wtou (v_datalen val1) p in
     if r <? 0 then Ret (RET 0 t outbuf (RegVal (v_type val1) (v_data val1) (v_bytes val1) (Z.of_nat (length b) / 2 * 4)))
     else Ret (RET 1 t outbuf (RegVal (v_type val1) (v_data val1) d r))) read_done never s.
Proof.
  intros Ht Hd -> Hrv Hob Hm ->. specialize (Hcap Hd). specialize (Hvalid Ht).
  set (u := text_units _ b) in *. assert (content t b = utf8 u) as Hc by (unfold content; by rewrite Ht).
  pose proof (wtou_length u Hvalid) as Hul. pose proof (wtou_bound u) as Hb.
  pose proof (length_text_units b) as Htu. fold u in Htu.
  destruct (Z.le_gt_cases (wtou_size u) (v_datalen val)) as [Hfit|Hsmall].
  - rewrite wtou_fits by lia. rewrite (proj2 (Z.ltb_ge _ _)) by lia. cbn [wp RET read_done].
    split; [done|]. split; [done|]. right; left. rewrite Hc. cbn [v_data v_bytes v_datalen].
    rewrite (proj2 (Z.eqb_neq _ _)) by done. split_and!; (done || lia).
  - assert ((ffs_wtou (v_datalen val) u).1 < 0) as Hr by (apply wtou_small; lia). destruct (ffs_wtou (v_datalen val) u) as [r d].
    cbn [fst] in Hr. rewrite (proj2 (Z.ltb_lt _ _)) by done. cbn [wp RET read_done].
    split; [done|]. split; [done|]. right; right. rewrite Hc. cbn [v_data v_datalen]. split_and!; (done || lia).
Qed.

Lemma read_text_wp st s :
  read_inv st s → ffwinreg_isstr t = true → rs_size st = Z.of_nat (length b) →
  wp reg_env (read_text st t b val) read_done never s.
Proof.
  intros (Hrv & Hm & Hat) Ht Hs. unfold read_text. rewrite Hs.
  assert (rs_outbuf st = 0 ∨ (0 < rs_outbuf st ∧ (rs_outbuf st ∉ rg_mem s0))) as Hob
    by (destruct (rs_at st); naive_solver).
  destruct (Z.eqb_spec (v_data val) 0) as [Hd|Hd].
  - pose proof (Hvalid Ht) as Hv. set (u := text_units _ b) in *.
    assert (content t b = utf8 u) as Hc by (unfold content; by rewrite Ht).
    pose proof (wtou_length u Hv) as Hul. pose proof (wtou_bound u) as Hb.
    pose proof (length_text_units b) as Htu. fold u in Htu.
    change (ffs_wtou 0 u).1 with (wtou_size u). rewrite u64_small by (unfold is_u64; dlia).
    cbn [bind wp]. intros p s1 (E1 & Hp). destruct Hp as [[-> E2]|(Hp & Hn & E2)].
    + cbn. split; [congruence|]. split; [done|]. left. split; [done|]. split; [congruence|done].
    + rewrite (proj2 (Z.eqb_neq p 0)) by lia. cbn [bind v_datalen]. rewrite wtou_fits by lia.
      rewrite (proj2 (Z.ltb_ge _ _)) by lia. cbn [wp RET read_done]. split; [congruence|]. split; [done|].
      right; left. rewrite Hc, Hd. cbn [Z.eqb v_data v_bytes v_datalen]. rewrite Hm in Hn.
      split_and!; try done; [|clear -Hn; set_solver|by rewrite E2, Hm].
      intros ->. destruct Hob as [|[? _]]; [lia|]. rewrite tmp_pos in Hn by done. clear -Hn. set_solver.
  - destruct (rs_at st) eqn:Eat; [naive_solver| |].
    + destruct Hat as (H0 & _). rewrite H0 in Hm. cbn [bind wp]. intros p s1 (E1 & Hp).
      destruct Hp as [[-> E2]|(Hp & Hn & E2)].
      * cbn. split; [congruence|]. split; [by left|]. left. split; [done|]. split; [by rewrite E2, ?Hm|done].
      * rewrite (proj2 (Z.eqb_neq p 0)) by lia. cbn [bind].
        assert (p ∉ rg_mem s0) as Hn0 by (rewrite Hm in Hn; clear -Hn; set_solver).
        apply read_convert; [done|done|done|congruence|by right| |done].
        rewrite E2, Hm, (tmp_pos p) by done. unfold tmp. cbn. clear. set_solver.
    + cbn [bind]. by apply read_convert.
Qed.

Lemma read_data_wp st s :
  read_inv st s → ffwinreg_isstr t = false → rs_size st = Z.of_nat (length b) →
  (v_data val ≠ 0 → Z.of_nat (length b) ≤ v_datalen val) →
  wp reg_env (read_data st t b val) read_done never s.
Proof.
  intros (Hrv & Hm & Hat) Ht Hs Hfit. unfold read_data. rewrite Hs.
  assert (content t b = b) as Hc by (unfold content; by rewrite Ht).
  destruct (Z.eqb_spec (v_data val) 0) as [Hd|Hd].
  - assert (∀ p s, rg_val s = rg_val s0 → 0 < p → p ∉ rg_mem s0 → rg_mem s = {[p]} ∪ rg_mem s0 →
      read_done (RET 1 t 0 (RegVal (v_type val) p b (Z.of_nat (length b)))) s) as HR.
    { intros p s' E1 Hp Hn E2. split; [done|]. split; [by left|]. right; left. rewrite Hc, Hd. cbn.
      split_and!; try done; [lia|]. rewrite E2. unfold tmp. cbn. clear. set_solver. }
    destruct (rs_at st) eqn:Eat; [|naive_solver|].
    + destruct Hat as (H0 & _). rewrite H0 in *. cbn [Z.eqb bind call wp]. intros p s1 (E1 & Hp).
      destruct Hp as [[-> E2]|(Hp & Hn & E2)].
      * cbn. split; [congruence|]. split; [by left|]. left. split; [done|]. split; [by rewrite E2, ?Hm|done].
      * rewrite (proj2 (Z.eqb_neq p 0)) by lia. cbn [wp]. rewrite Hm in *. unfold tmp in *. cbn [Z.eqb] in *.
        apply HR; [congruence|done|clear -Hn; set_solver|rewrite E2; clear; set_solver].
    + destruct Hat as (Hp & Hn & _). rewrite !(proj2 (Z.eqb_neq (rs_outbuf st) 0)) by lia. cbn [bind].
      rewrite !(proj2 (Z.eqb_neq (rs_outbuf st) 0)) by lia. cbn [wp]. apply HR; [done..|]. by rewrite <- tmp_pos.
  - destruct (rs_at st) eqn:Eat; [naive_solver| |naive_solver].
    destruct Hat as (H0 & _). cbn [wp RET read_done]. rewrite H0 in *. split; [done|]. split; [by left|].
    right; left. rewrite Hc. cbn [v_bytes v_datalen v_data]. rewrite (proj2 (Z.eqb_neq _ _)) by done.
    split_and!; try done. by apply Hfit.
Qed.

(** A turn that is not the last one has learnt the size and has got a block of it. *)
Lemma read_step_wp k wname st s :
  read_inv st s → read_size st →
  wp reg_env (read_step k wname val st) (λ r s', match r with
      | inl st' => read_inv st' s' ∧ read_size st' ∧ rs_at st' = InTemp ∧ rs_at st ≠ InTemp
      | inr r => read_done r s'
      end) never s.
Proof.
  intros Hinv Hsize. pose proof Hinv as (Hrv & Hm & Hat). unfold read_step. cbn [wp].
  intros [r [[type size] d]] s1 [-> Hr]. rewrite Hrv, Hval in Hr.
  assert (rs_outbuf st = 0 ∨ (0 < rs_outbuf st ∧ (rs_outbuf st ∉ rg_mem s0))) as Hob
    by (destruct (rs_at st); naive_solver).
  destruct Hr as [(-> & -> & Hr)|[H1 H2]].
  2:{ rewrite (proj2 (Z.eqb_neq r 0)), (proj2 (Z.eqb_neq r _)) by done. cbn [orb negb wp RET read_done rs_outbuf].
      split; [done|]. split; [done|]. by left. }
  set (st' := ReadState _ _ _). assert (read_inv st' s) as Hinv' by done.
  destruct (Z.leb_spec (Z.of_nat (length b)) (rs_size st)) as [Hfit|Hmore].
  - destruct Hr as [-> ->]. cbn [Z.eqb orb negb]. apply wp_bind.
    destruct (ffwinreg_isstr t) eqn:Et.
    + eapply wp_mono; [by apply read_text_wp|done|done].
    + eapply wp_mono; [apply read_data_wp; [done|done|done|]|done|done].
      intros Hd. unfold read_size in Hsize. destruct (rs_at st); [naive_solver|lia|naive_solver].
  - rewrite Hr. change (negb ((ERROR_MORE_DATA =? 0) || (ERROR_MORE_DATA =? ERROR_MORE_DATA))) with false.
    change (ERROR_MORE_DATA =? 0) with false. cbv iota. cbn [rs_outbuf st'].
    assert (rs_at st ≠ InTemp) as Hat1 by (unfold read_size in Hsize; intros Hat1; rewrite Hat1 in Hsize; lia).
    assert (rs_outbuf st = 0) as H0 by (destruct (rs_at st); naive_solver). rewrite H0 in *. cbn [Z.eqb negb].
    rewrite andb_false_r, orb_false_r.
    destruct (negb (ffwinreg_isstr t) && negb (v_data val =? 0)) eqn:Eu.
    + apply andb_true_iff in Eu as [Et Ed]. apply negb_true_iff in Et, Ed. apply Z.eqb_neq in Ed.
      cbn [wp RET read_done]. split; [done|]. split; [by left|]. right; right.
      assert (content t b = b) as Hc by (unfold content; by rewrite Et). rewrite Hc. cbn [v_data v_datalen].
      unfold read_size in Hsize. destruct (rs_at st); [naive_solver| |done].
      split_and!; try done; lia.
    + cbn [wp]. intros p s1 (E1 & Hp). destruct Hp as [[-> E2]|(Hp & Hn & E2)].
      * cbn [wp RET read_done Z.eqb]. split; [congruence|]. split; [by left|]. left. split; [done|].
        split; [by rewrite E2, Hm|done].
      * rewrite (proj2 (Z.eqb_neq p 0)) by lia. cbn [wp]. unfold read_inv, read_size. cbn [rs_at rs_outbuf rs_size].
        split_and!; try done; [congruence|rewrite E2, Hm, (tmp_pos p) by done; unfold tmp; cbn; clear; set_solver
          |rewrite Hm in Hn; clear -Hn; set_solver|].
        intros Hd Et. rewrite Et, (proj2 (Z.eqb_neq _ _)) in Eu by done. done.
Qed.

Lemma read_loop_wp fuel k wname st s :
  read_inv st s → read_size st → (2 ≤ fuel)%nat →
  wp reg_env (loop fuel (read_step k wname val) st) read_done never s.
Proof.
  intros Hinv Hsize Hf. destruct fuel as [|[|fuel]]; [lia..|]. change (loop (S (S fuel)) (read_step k wname val) st)
    with (bind (read_step k wname val st) (λ r, match r with
            | inl s' => bind (read_step k wname val s') (λ r, match r with
                | inl s' => loop fuel (read_step k wname val) s' | inr a => Ret a end)
            | inr a => Ret a end)).
  apply wp_bind. eapply wp_mono; [by apply read_step_wp| |done].
  intros [st1|r] s1; [|done]. intros (Hi & Hs & Ha & _). apply wp_bind. eapply wp_mono; [by apply read_step_wp| |done].
  intros [st2|r] s2; [|done]. by intros (_ & _ & _ & Hn).
Qed.
End read.

(** ffwinreg_read() of any value, with a buffer of the caller or without: it ends within two turns of its loop; a text
    is converted to UTF-8 without its final NUL, any other value is delivered as it is; without a buffer the result is in
    a new block, the only one that stays allocated; with one nothing stays allocated, no more than its size is stored
    in it, and when it is too small the answer is 0 with a size that is enough.  A failed call leaves nothing allocated
    (all for a name that the stack buffer can hold). *)
Lemma reg_read_wp `{U : FfUni, !FfUniLaws U, !FfWtouLaws U} fuel type0 k name val s t b :
  rg_val s = Some (t, b) → valid t b → Z.of_nat (length b) < 2 ^ 32 → (v_data val ≠ 0 → 0 < v_datalen val < 2 ^ 32) →
  0 < utow_size name ≤ 256 → (2 ≤ fuel)%nat →
  wp reg_env (ffwinreg_read fuel type0 k name val) (λ '(r, val') s',
    rg_val s' = rg_val s ∧
    ((r = -1 ∧ rg_mem s' = rg_mem s ∧ v_data val' = v_data val) ∨
     (v_type val' = t ∧ r = 1 ∧ v_bytes val' = content t b ∧ v_datalen val' = Z.of_nat (length (content t b)) ∧
      if v_data val =? 0
      then 0 < v_data val' ∧ (v_data val' ∉ rg_mem s) ∧ rg_mem s' = {[v_data val']} ∪ rg_mem s
      else v_data val' = v_data val ∧ v_datalen val' ≤ v_datalen val ∧ rg_mem s' = rg_mem s) ∨
     (v_type val' = t ∧ r = 0 ∧ v_data val ≠ 0 ∧ v_data val' = v_data val ∧ rg_mem s' = rg_mem s ∧
      v_datalen val < Z.of_nat (length (content t b)) ≤ v_datalen val'))) never s.
Proof.
  intros Hv Hvalid Hlen Hcap Hname Hf. unfold ffwinreg_read.
  assert (ffs_utow (Some 256) name NTS = Ret (Some (WBuf (utow_units name) 0, utow_size name))) as ->.
  { unfold ffs_utow, ff_utow. cbn [Z.eqb negb]. change (NTS =? NTS) with true. cbv iota.
    rewrite utow_fits by lia. cbn [bind]. rewrite (proj2 (Z.leb_le 0 (utow_size name))) by lia.
    rewrite (proj2 (Z.eqb_neq (utow_size name) 0)) by lia. done. }
  cbn [bind w_str]. apply wp_bind.
  assert (tmp 0 ∪ rg_mem s = rg_mem s) as Htmp by (unfold tmp; cbn; clear; set_solver).
  eapply wp_mono; [apply (read_loop_wp val s t b Hv Hvalid Hcap Hlen); [| |done]| |done].
  { destruct (Z.eqb_spec (v_data val) 0); cbn [negb]; unfold read_inv; cbn [rs_outbuf rs_at]; by rewrite Htmp. }
  { destruct (Z.eqb_spec (v_data val) 0) as [|Hd]; cbn [negb]; [done|]. cbn. apply u32_small. specialize (Hcap Hd). unfold is_u32. lia. }
  intros [[[r type] outbuf] val'] s1 (E1 & Hob & Hres). cbn [bind wbuf_free w_ptr Z.eqb].
  set (val2 := if 0 <=? r then _ else val').
  assert (v_data val2 = v_data val' ∧ v_bytes val2 = v_bytes val' ∧ v_datalen val2 = v_datalen val' ∧
    (0 ≤ r → v_type val2 = type)) as (F1 & F2 & F3 & F4).
  { unfold val2. destruct (Z.leb_spec 0 r); cbn; split_and!; try done. lia. }
  assert (∀ s2, rg_val s2 = rg_val s1 →
    (∀ m, rg_mem s1 = m ∪ (tmp outbuf ∪ rg_mem s) → outbuf ∉ m → rg_mem s2 = m ∪ rg_mem s) →
    rg_val s2 = rg_val s ∧
    ((r = -1 ∧ rg_mem s2 = rg_mem s ∧ v_data val2 = v_data val) ∨
     (v_type val2 = t ∧ r = 1 ∧ v_bytes val2 = content t b ∧ v_datalen val2 = Z.of_nat (length (content t b)) ∧
      if v_data val =? 0
      then 0 < v_data val2 ∧ (v_data val2 ∉ rg_mem s) ∧ rg_mem s2 = {[v_data val2]} ∪ rg_mem s
      else v_data val2 = v_data val ∧ v_datalen val2 ≤ v_datalen val ∧ rg_mem s2 = rg_mem s) ∨
     (v_type val2 = t ∧ r = 0 ∧ v_data val ≠ 0 ∧ v_data val2 = v_data val ∧ rg_mem s2 = rg_mem s ∧
      v_datalen val < Z.of_nat (length (content t b)) ≤ v_datalen val2))) as HQ.
  { intros s2 G1 G2. split; [congruence|]. rewrite F1, F2, F3.
    assert (rg_mem s1 = tmp outbuf ∪ rg_mem s → rg_mem s2 = rg_mem s) as G3.
    { intros G. rewrite (G2 ∅); [clear; set_solver|rewrite G; clear; set_solver|clear; set_solver]. }
    destruct Hres as [(-> & M & D)|[(-> & -> & B & L & M)|(-> & -> & N & D & M & L)]]; [left|right; left|right; right].
    - split_and!; auto.
    - split_and!; auto. destruct (v_data val =? 0).
      + destruct M as (M1 & M2 & M3 & M4). split_and!; [done|done|]. apply G2; [done|]. clear -M2. set_solver.
      + destruct M as (M1 & M2 & M3). auto.
    - split_and!; auto; first [by apply F4|lia]. }
  destruct (Z.eqb_spec outbuf 0) as [->|Hne]; cbn [wp].
  - apply HQ; [done|]. intros m Hm _. by rewrite Hm, Htmp.
  - intros [] s2 [G1 G2]. apply HQ; [done|]. intros m Hm Hn. rewrite G2, Hm.
    destruct Hob as [|[Hp Hni]]; [done|]. rewrite tmp_pos by done. clear -Hn Hni. set_solver.
Qed.

(** A name that cannot be converted is reported as a buffer that is too small, with a type that was never assigned. *)
Lemma read_bad_name s :
  wp reg_env (@ffwinreg_read RefUni 2 77 5 [255] (RegVal 0 0 [] 0)) (λ '(r, v) _, r = 0 ∧ v_type v = 77) never s.
Proof. cbn. intros p s1 _. destruct (p =? 0); cbn; [done|]. by intros _ s2 _. Qed.


Lemma reg_read_sample :
  wp reg_env (@ffwinreg_read RefUni 2 0 5 (bytes_of "Path") (RegVal 0 9 [] 3)) (λ '(r, v) s',
    rg_mem s' = ∅ ∧ (r = 0 → 4 ≤ v_datalen v) ∧ r ≠ 1) never (RegState (Some (REG_SZ, [116; 0; 101; 0; 120; 0; 116; 0; 0; 0])) ∅).
Proof.
  eapply wp_mono; [apply (@reg_read_wp RefUni _ _ 2 0 5 (bytes_of "Path") (RegVal 0 9 [] 3)
    (RegState (Some (REG_SZ, [116; 0; 101; 0; 120; 0; 116; 0; 0; 0])) ∅) REG_SZ [116; 0; 101; 0; 120; 0; 116; 0; 0; 0]);
    try done; vm_compute; done| |done].
  intros [r v] s' [E H]. vm_compute (content _ _) in H. cbn in H.
  destruct H as [(-> & M & _)|[(_ & -> & _ & L1 & _ & L2 & _)|(_ & -> & _ & _ & M & L)]].
  - done.
  - lia.
  - split_and!; [done|lia|done].
Defined.

(** ** Writing values *)


(** The stored form of a text. *)
Definition stored `{FfUni} (s : list Z) : list Z := units_bytes (utf16 s ++ [0]).

Lemma text_units_stored `{U : FfUni, !FfUtf16Laws U} s :
  0 ≤ utf16_size s → text_units (Z.of_nat (length (stored s))) (stored s) = utf16 s.
Proof.
  intros Hs. unfold text_units, stored. rewrite length_units_bytes, units_of_bytes.
  2:{ apply Forall_app. split; [by apply utf16_range|repeat constructor; lia]. }
  rewrite length_app. cbn [length].
  replace (Z.of_nat (2 * (length (utf16 s) + 1)) / 2) with (Z.of_nat (length (utf16 s)) + 1) by dlia.
  replace (Z.of_nat (length (utf16 s)) + 1 - 1) with (Z.of_nat (length (utf16 s))) by lia.
  rewrite (take_ge (utf16 s ++ [0])) by (rewrite length_app; cbn; lia). rewrite Nat2Z.id.
  rewrite (lookup_app_r (utf16 s)) by done. rewrite Nat.sub_diag. cbn.
  rewrite (proj2 (Z.eqb_neq _ 0)) by lia. cbn. by rewrite take_app_length.
Qed.

Lemma write_text_wp `{U : FfUni, !FfUniLaws U, !FfUtf16Laws U} k name str s :
  0 < utow_size name ≤ 256 → 0 ≤ utf16_size str < 512 →
  wp reg_env (ffwinreg_writestr k name str) (λ r s', rg_mem s' = rg_mem s ∧
    ((r = 0 ∧ rg_val s' = Some (REG_SZ, stored str)) ∨ (r = -1 ∧ rg_val s' = rg_val s))) never s.
Proof.
  intros Hname Hstr. unfold ffwinreg_writestr, ffwinreg_write, ffsz_alloc_buf_utow.
  rewrite utow_fits by lia. cbn [fst snd]. rewrite (proj2 (Z.ltb_lt 0 _)) by lia. cbn [bind].
  change (ffwinreg_isstr REG_SZ) with true. cbv iota. unfold ffs_alloc_buf_utow.
  change (u64 (256 * 2)) with 512. rewrite utf16_fits by lia. cbn [fst snd]. rewrite (proj2 (Z.leb_le 0 _)) by lia.
  cbn [bind w_ptr w_str]. change (0 =? 0) with true. cbv iota.
  assert (2 * Z.of_nat (length (utf16 str)) = utf16_size str) as Hl by (apply utf16_length; lia). rewrite (Z.quot_div_nonneg (utf16_size str)) by lia.
  replace (utf16_size str / 2) with (Z.of_nat (length (utf16 str))) by dlia.
  rewrite (proj2 (Z.leb_gt _ _)) by lia. rewrite Nat2Z.id, firstn_all. cbn [bind wbuf_free w_ptr].
  assert (Z.of_nat (length (units_bytes (utf16 str ++ [0]))) < 600) as Hb by (rewrite length_units_bytes, length_app; cbn [length]; lia).
  rewrite (u32_small (Z.of_nat (length (units_bytes _)))) by (unfold is_u32; lia). rewrite Nat2Z.id, firstn_all. cbn [wp].
  change (0 =? 0) with true. cbv iota. intros r s1 [E1 [[-> E2]|[Hr E2]]]; cbn [wp].
  - split; [done|]. by left.
  - rewrite (proj2 (Z.eqb_neq r 0)) by done. split; [done|]. by right.
Qed.

(** C28: a text of at most 255 units that ffwinreg_writestr() has stored is what ffwinreg_read() delivers, with its type,
    in a new block of exactly its length; neither leaves anything else allocated. *)
Theorem reg_text_roundtrip `{U : FfUni, !FfUniLaws U, !FfWtouLaws U, !FfUtf16Laws U} fuel k name str s :
  0 < utow_size name ≤ 256 → 0 ≤ utf16_size str < 512 → (2 ≤ fuel)%nat →
  wp reg_env
    (let* r := ffwinreg_writestr k name str in
     if negb (r =? 0) then Ret None else
     let* '(r, v) := ffwinreg_read fuel 0 k name (RegVal 0 0 [] 0) in Ret (Some (r, v)))
    (λ res s', match res with
       | None => rg_mem s' = rg_mem s ∧ rg_val s' = rg_val s
       | Some (r, v) => rg_val s' = Some (REG_SZ, stored str) ∧
           ((r = -1 ∧ rg_mem s' = rg_mem s) ∨
            (r = 1 ∧ v_type v = REG_SZ ∧ v_bytes v = str ∧ v_datalen v = Z.of_nat (length str) ∧
             (v_data v ∉ rg_mem s) ∧ rg_mem s' = {[v_data v]} ∪ rg_mem s))
       end) never s.
Proof.
  intros Hname Hstr Hf. apply wp_bind. eapply wp_mono; [by apply write_text_wp| |done].
  intros r s1 [E1 [[-> E2]|[-> E2]]]; [|done]. change (negb (0 =? 0)) with false. cbv iota. apply wp_bind.
  assert (text_units (Z.of_nat (length (stored str))) (stored str) = utf16 str) as Ht by (apply text_units_stored; lia). destruct (utf16_inv str) as [Hi1 Hi2]; [lia|].
  assert (content REG_SZ (stored str) = str) as Hc by (unfold content; cbn [ffwinreg_isstr]; by rewrite Ht).
  eapply wp_mono; [apply (reg_read_wp fuel 0 k name (RegVal 0 0 [] 0) s1 REG_SZ (stored str)); try done|..|done].
  - intros _. by rewrite Ht.
  - unfold stored. rewrite length_units_bytes, length_app. cbn [length]. assert (2 * Z.of_nat (length (utf16 str)) = utf16_size str) by (apply utf16_length; lia). lia.
  - intros [r v] s2 [G1 G2]. cbn [wp]. split; [congruence|]. rewrite Hc in G2. cbn in G2. rewrite E1 in G2.
    naive_solver.
Qed.


Lemma reg_text_roundtrip_witness :
  wp reg_env
    (let* r := @ffwinreg_writestr RefUni 5 (bytes_of "Path") (bytes_of "C:\Windows") in
     if negb (r =? 0) then Ret None else
     let* '(r, v) := @ffwinreg_read RefUni 2 0 5 (bytes_of "Path") (RegVal 0 0 [] 0) in Ret (Some (r, v)))
    (λ res _, match res with Some (1, v) => v_bytes v = bytes_of "C:\Windows" | _ => True end) never (RegState None ∅).
Proof.
  eapply wp_mono; [apply (@reg_text_roundtrip RefUni _ _ _ 2 5 (bytes_of "Path") (bytes_of "C:\Windows") (RegState None ∅));
    [vm_compute; split; congruence|vm_compute; split; congruence|lia]| |done].
  cbn beta. intros [[r v]|] s' H; [|done]. destruct H as (_ & [[-> _]|(-> & _ & H & _)]); [done|exact H].
Defined.

(** A text of 256 units or more: the NUL that is appended does not fit in the buffer it is stored to, on the stack or
    on the heap. *)
Lemma write_long_overflows `{U : FfUni, !FfUniLaws U, !FfUtf16Laws U} k name str s :
  0 < utow_size name ≤ 256 → 512 ≤ utf16_size str < 2 ^ 64 →
  wp reg_env (ffwinreg_writestr k name str) (λ r _, r = -1) (λ h _, h = OutOfBounds) s.
Proof.
  intros Hname Hstr. unfold ffwinreg_writestr, ffwinreg_write, ffsz_alloc_buf_utow.
  rewrite utow_fits by lia. cbn [fst snd]. rewrite (proj2 (Z.ltb_lt 0 _)) by lia. cbn [bind].
  change (ffwinreg_isstr REG_SZ) with true. cbv iota. unfold ffs_alloc_buf_utow.
  change (u64 (256 * 2)) with 512. change (ffutf8_to_utf16 0 str).1 with (utf16_size str).
  rewrite (Z.quot_div_nonneg (utf16_size str)) by lia.
  destruct (Z.eq_dec (utf16_size str) 512) as [E|E].
  - rewrite utf16_fits by lia. cbn [fst snd]. rewrite E. done.
  - assert ((ffutf8_to_utf16 512 str).1 < 0) as Hs by (apply utf16_small; lia).
    destruct (ffutf8_to_utf16 512 str) as [r d]. cbn [fst] in Hs |- *. rewrite (proj2 (Z.leb_gt 0 r)) by done.
    cbn [bind wp]. intros p s1 _. rewrite u64_small by (unfold is_u64; lia).
    destruct (Z.eqb_spec p 0) as [->|Hp]; cbn [bind]; [done|].
    rewrite utf16_fits by lia. rewrite (proj2 (Z.ltb_ge _ _)) by lia. cbn [bind w_ptr].
    rewrite (proj2 (Z.eqb_neq p 0)) by done. rewrite (Z.quot_div_nonneg (utf16_size str)) by lia.
    by rewrite (proj2 (Z.leb_le _ _)) by lia.
Qed.

(** ** Enumeration *)

(** An [ffvec]: its capacity in elements, what its memory holds, its length. *)
Record rvec := RVec { rv_ptr : Z; rv_cap : Z; rv_mem : list Z; rv_len : Z }.
Definition rvec_null : rvec := RVec 0 0 [] 0.

(** ffvec_realloc() (also ffvec_alloc()) with the size of an element, and ffs_format_r0() with the three formats:
    "0x%08xu (%u)", "0x%016xU (%U)", "%*xb". *)
Class RegLib := {
  rvec_realloc : rvec → Z → Z → prog winE (option rvec);
  fmt_dword : Z → Z → list Z;
  fmt_qword : Z → Z → list Z;
  fmt_binary : Z → list Z → list Z;
}.

Record ffwinreg_enum := RegEnum {
  e_key : Z; e_idx : Z; e_name : rvec; e_value : rvec; e_wname : rvec; e_wval : rvec; e_options : Z }.

Definition FFWINREG_ENUM_VALSTR := 1.

Definition rvec_free (v : rvec) : prog winE unit := if rv_ptr v =? 0 then Ret tt else do! w_free (rv_ptr v) in Ret tt.

Definition ffwinreg_enum_destroy (e : ffwinreg_enum) : prog winE unit :=
  do* rvec_free (e_name e) in do* rvec_free (e_value e) in do* rvec_free (e_wname e) in rvec_free (e_wval e).

Section enum.
Context `{FfUni, RegLib}.

Definition ffwinreg_enum_init (e : ffwinreg_enum) (options : Z) : prog winE (Z * ffwinreg_enum) :=
  let fail e := do* ffwinreg_enum_destroy e in Ret (-1, e) in
  let* v := rvec_realloc rvec_null 256 1 in
  match v with None => fail (RegEnum (e_key e) (e_idx e) rvec_null (e_value e) (e_wname e) (e_wval e) (e_options e)) | Some name =>
  let* v := rvec_realloc rvec_null 256 1 in
  match v with None => fail (RegEnum (e_key e) (e_idx e) name rvec_null (e_wname e) (e_wval e) (e_options e)) | Some value =>
  let* v := rvec_realloc rvec_null 256 2 in
  match v with None => fail (RegEnum (e_key e) (e_idx e) name value rvec_null (e_wval e) (e_options e)) | Some wname =>
  let* v := rvec_realloc rvec_null 256 1 in
  match v with None => fail (RegEnum (e_key e) (e_idx e) name value wname rvec_null (e_options e)) | Some wval =>
  Ret (0, RegEnum FFWINREG_NULL (e_idx e) name value wname wval options)
  end end end end.

Definition ffwinreg_enum_begin (e : ffwinreg_enum) (key : Z) : ffwinreg_enum :=
  RegEnum key 0 (e_name e) (e_value e) (e_wname e) (e_wval e) (e_options e).

Definition with_wbufs (e : ffwinreg_enum) (wname wval : rvec) : ffwinreg_enum :=
  RegEnum (e_key e) (e_idx e) (e_name e) (e_value e) wname wval (e_options e).
Definition with_name (e : ffwinreg_enum) (name : rvec) : ffwinreg_enum :=
  RegEnum (e_key e) (e_idx e) name (e_value e) (e_wname e) (e_wval e) (e_options e).
Definition with_value (e : ffwinreg_enum) (value : rvec) : ffwinreg_enum :=
  RegEnum (e_key e) (e_idx e) (e_name e) value (e_wname e) (e_wval e) (e_options e).
Definition next_idx (e : ffwinreg_enum) : ffwinreg_enum :=
  RegEnum (e_key e) (u32 (e_idx e + 1)) (e_name e) (e_value e) (e_wname e) (e_wval e) (e_options e).

(** The loop around RegEnumKeyExW(): the name of the subkey, or the result to return. *)
Definition nextkey_step (e : ffwinreg_enum) : prog winE (ffwinreg_enum + (Z * ffwinreg_enum + wstr * ffwinreg_enum)) :=
  let! '(r, wname) := RegEnumKeyExW (e_key e) (e_idx e) (u32 (rv_cap (e_wname e))) in
  if r =? 0 then Ret (inr (inr (wname, e)))
  else if r =? ERROR_MORE_DATA then
    let! '(r, info) := RegQueryInfoKeyW (e_key e) in
    if negb (r =? 0) then Ret (inr (inl (-1, e))) else
    let* v := rvec_realloc (e_wname e) (u32 (max_subkey_len info + 1)) 2 in
    match v with
    | None => Ret (inr (inl (-1, e)))
    | Some v => Ret (inl (with_wbufs e v (e_wval e)))
    end
  else if r =? ERROR_NO_MORE_ITEMS then Ret (inr (inl (1, e)))
  else do! SetLastError r in Ret (inr (inl (-1, e))).

(** The name in UTF-8, in the vector of the object. *)
Definition set_name (wname : wstr) (e : ffwinreg_enum) : prog winE (option (list Z * ffwinreg_enum)) :=
  let* v := rvec_realloc (e_name e) (u32 (Z.of_nat (length wname) * 4)) 1 in
  match v with
  | None => Ret None
  | Some v =>
      let '(r, d) := ffs_wtou (rv_cap v) wname in
      if r <? 0 then Halt AssertFail
      else Ret (Some (take (Z.to_nat r) d, with_name e (RVec (rv_ptr v) (rv_cap v) d r)))
  end.

Definition ffwinreg_enum_nextkey (fuel : nat) (e : ffwinreg_enum) : prog winE (Z * list Z * ffwinreg_enum) :=
  let* res := loop fuel nextkey_step e in
  match res with
  | inl (r, e) => Ret (r, [], e)
  | inr (wname, e) =>
      let* n := set_name wname e in
      match n with
      | None => Ret (-1, [], e)
      | Some (name, e) => Ret (0, name, next_idx e)
      end
  end.

(** A value as text. *)
Definition _ffwinreg_val_str (e : ffwinreg_enum) (type : Z) : prog winE (Z * ffwinreg_enum) :=
  let value := RVec (rv_ptr (e_value e)) (rv_cap (e_value e)) (rv_mem (e_value e)) 0 in
  let e := with_value e value in
  let put d := with_value e (RVec (rv_ptr value) (rv_cap value) d (Z.of_nat (length d))) in
  if type =? REG_DWORD then Ret (0, put (fmt_dword (rv_cap value) (un_le (take 4 (rv_mem (e_wval e))))))
  else if type =? REG_QWORD then Ret (0, put (fmt_qword (rv_cap value) (un_le (take 8 (rv_mem (e_wval e))))))
  else if type =? REG_BINARY then
    let* v := rvec_realloc value (rv_len (e_wval e) * 2) 1 in
    match v with
    | None => Ret (-1, e)
    | Some v =>
        let d := fmt_binary (rv_cap v) (take (Z.to_nat (rv_len (e_wval e))) (rv_mem (e_wval e))) in
        Ret (0, with_value e (RVec (rv_ptr v) (rv_cap v) d (Z.of_nat (length d))))
    end
  else if ffwinreg_isstr type then
    if rv_len (e_wval e) =? 0 then Ret (0, put []) else
    let* v := rvec_realloc value (rv_len (e_wval e) / 2 * 4) 1 in
    match v with
    | None => Ret (-1, e)
    | Some v =>
        let n := (rv_len (e_wval e) - 1) / 2 in
        let '(r, d) := ffs_wtou (rv_cap v) (take (Z.to_nat n) (units_of (rv_mem (e_wval e)))) in
        if r <? 0 then Halt AssertFail else Ret (0, with_value e (RVec (rv_ptr v) (rv_cap v) d r))
    end
  else wfail ERROR_INVALID_DATA (-1, e).

Definition nextval_step (e : ffwinreg_enum)
    : prog winE (ffwinreg_enum + (Z * ffwinreg_enum + wstr * Z * list Z * ffwinreg_enum)) :=
  let! '(r, (wname, type, data)) := RegEnumValueW (e_key e) (e_idx e) (u32 (rv_cap (e_wname e))) (u32 (rv_cap (e_wval e))) in
  if r =? 0 then Ret (inr (inr (wname, type, data, e)))
  else if r =? ERROR_MORE_DATA then
    let! '(r, info) := RegQueryInfoKeyW (e_key e) in
    if negb (r =? 0) then Ret (inr (inl (-1, e))) else
    let* v := rvec_realloc (e_wname e) (u32 (max_valname_len info + 1)) 2 in
    match v with
    | None => Ret (inr (inl (-1, e)))
    | Some wname =>
        let* v := rvec_realloc (e_wval e) (max_val_len info) 1 in
        match v with
        | None => Ret (inr (inl (-1, with_wbufs e wname (e_wval e))))
        | Some wval => Ret (inl (with_wbufs e wname wval))
        end
    end
  else if r =? ERROR_NO_MORE_ITEMS then Ret (inr (inl (1, e)))
  else do! SetLastError r in Ret (inr (inl (-1, e))).

Definition ffwinreg_enum_nextval (fuel : nat) (e : ffwinreg_enum) : prog winE (Z * (list Z * list Z * Z) * ffwinreg_enum) :=
  let* res := loop fuel nextval_step e in
  match res with
  | inl (r, e) => Ret (r, ([], [], 0), e)
  | inr (wname, type, data, e) =>
      let wval := e_wval e in
      let e := with_wbufs e (e_wname e) (RVec (rv_ptr wval) (rv_cap wval)
                 (data ++ drop (length data) (rv_mem wval)) (Z.of_nat (length data))) in
      let* n := set_name wname e in
      match n with
      | None => Ret (-1, ([], [], 0), e)
      | Some (name, e) =>
          if has (e_options e) FFWINREG_ENUM_VALSTR then
            let* '(r, e) := _ffwinreg_val_str e type in
            if negb (r =? 0) then Ret (-1, (name, [], type), e) else
            Ret (0, (name, take (Z.to_nat (rv_len (e_value e))) (rv_mem (e_value e)), type), next_idx e)
          else Ret (0, (name, take (Z.to_nat (rv_len (e_wval e))) (rv_mem (e_wval e)), type), next_idx e)
      end
  end.
End enum.

(** *** An enumeration delivers every entry *)

(** Reallocating fails only when an allocation does; [I]: what holds while none has failed, [Fd]: what holds when one has. *)
Class RegLibLaws (R : RegLib) : Prop := {
  rvec_realloc_law {S} (step : env winE S) (I Fd : S → Prop) v n el Q s :
    (∀ s k p s', I s → step s _ (w_alloc k) p s' → if p =? 0 then Fd s' else I s') →
    (∀ s p x s', I s → step s _ (w_free p) x s' → I s') → I s →
    (∀ v' s', (match v' with Some v' => n ≤ rv_cap v' ≤ Z.max n (rv_cap v) ∧ I s' | None => Fd s' end) → Q v' s') →
    wp step (rvec_realloc v n el) Q never s;
}.

Definition entry := (wstr * Z * list Z)%type.   (* name, type, data *)
Definition longest {A} (f : A → list Z) (l : list A) (n : Z) : Prop :=
  0 ≤ n < 2 ^ 28 ∧ ∀ x, x ∈ l → Z.of_nat (length (f x)) ≤ n.

(** A key with its subkeys and values.  The calls and the allocations may fail, the state says whether one has;
    a buffer that is too small is reported, which is not a failure. *)
Definition enum_env (keys : list wstr) (vals : list entry) : env winE bool := λ b X e,
  match e in winE X return X → bool → Prop with
  | RegEnumKeyExW _ idx cap => λ '(r, name) b',
      (b' = b ∧ match keys !! Z.to_nat idx with
       | None => r = ERROR_NO_MORE_ITEMS
       | Some n => if Z.of_nat (length n) <? cap then r = 0 ∧ name = n else r = ERROR_MORE_DATA
       end) ∨ (b' = true ∧ r ≠ 0 ∧ r ≠ ERROR_MORE_DATA ∧ r ≠ ERROR_NO_MORE_ITEMS)
  | RegEnumValueW _ idx ncap vcap => λ '(r, ent) b',
      (b' = b ∧ match vals !! Z.to_nat idx with
       | None => r = ERROR_NO_MORE_ITEMS
       | Some (n, t, d) =>
           if (Z.of_nat (length n) <? ncap) && (Z.of_nat (length d) <=? vcap) then r = 0 ∧ ent = (n, t, d)
           else r = ERROR_MORE_DATA
       end) ∨ (b' = true ∧ r ≠ 0 ∧ r ≠ ERROR_MORE_DATA ∧ r ≠ ERROR_NO_MORE_ITEMS)
  | RegQueryInfoKeyW _ => λ '(r, info) b', (b' = true ∧ r ≠ 0) ∨
      (b' = b ∧ r = 0 ∧ subkeys info = Z.of_nat (length keys) ∧ values info = Z.of_nat (length vals) ∧
       longest id keys (max_subkey_len info) ∧ longest (λ v, v.1.1) vals (max_valname_len info) ∧
       longest snd vals (max_val_len info))
  | w_alloc _ => λ p b', b' = b || (p =? 0)
  | _ => λ _ b', b' = b
  end.

Section enumeration.
Context `{U : FfUni, R : RegLib, !FfWtouLaws U, !RegLibLaws R}.
Variables (keys : list wstr) (vals : list entry).
Definition text_ok (n : wstr) : Prop := 0 ≤ wtou_size n ∧ Z.of_nat (length n) < 2 ^ 28.

(** The capacities are those of DWORDs. *)
Definition caps_ok (e : ffwinreg_enum) : Prop := 0 ≤ rv_cap (e_wname e) < 2 ^ 32 ∧ 0 ≤ rv_cap (e_wval e) < 2 ^ 32.

Lemma realloc_wp v n el (Q : option rvec → bool → Prop) :
  (∀ v', n ≤ rv_cap v' ≤ Z.max n (rv_cap v) → Q (Some v') false) → Q None true →
  wp (enum_env keys vals) (rvec_realloc v n el) Q never false.
Proof.
  intros HS HN. apply (rvec_realloc_law _ (λ b, b = false) (λ b, b = true)); [|by intros ? ? ? ? -> ->|done|].
  - intros b k p b' -> Hb. cbn in Hb. subst b'. by destruct (p =? 0).
  - intros [v'|] b'; [intros [Hc ->]; by apply HS|by intros ->].
Qed.

Lemma set_name_wp n e Q :
  text_ok n → (∀ e', e_key e' = e_key e → e_idx e' = e_idx e → e_options e' = e_options e → e_wname e' = e_wname e →
    e_wval e' = e_wval e → e_value e' = e_value e → Q (Some (utf8 n, e')) false) → Q None true →
  wp (enum_env keys vals) (set_name n e) Q never false.
Proof.
  intros [Hv Hl] HQ HN. unfold set_name. apply wp_bind, realloc_wp; [intros v Hv'|done].
  pose proof (wtou_bound n) as Hb. rewrite u32_small in Hv' by (unfold is_u32; lia).
  rewrite wtou_fits by lia. rewrite (proj2 (Z.ltb_ge _ _)) by lia. cbn [wp].
  rewrite take_ge by (rewrite <- (wtou_length n) by done; lia). by apply HQ.
Qed.

Lemma nextkey_wp e :
  Forall text_ok keys → caps_ok e →
  wp (enum_env keys vals) (ffwinreg_enum_nextkey 2 e) (λ '(r, name, e') b,
    (b = false ∧ r = 0 ∧ ∃ k, keys !! Z.to_nat (e_idx e) = Some k ∧ name = utf8 k ∧ e_idx e' = u32 (e_idx e + 1) ∧ caps_ok e') ∨
    (b = false ∧ r = 1 ∧ keys !! Z.to_nat (e_idx e) = None) ∨ (b = true ∧ r = -1)) never false.
Proof.
  intros Hok Hcaps. unfold ffwinreg_enum_nextkey. apply wp_bind.
  eapply (wp_mono _ _ (λ res b, match res with
    | inl (r, _) => (b = false ∧ r = 1 ∧ keys !! Z.to_nat (e_idx e) = None) ∨ (b = true ∧ r = -1)
    | inr (n, e') => b = false ∧ keys !! Z.to_nat (e_idx e) = Some n ∧ e_idx e' = e_idx e ∧ caps_ok e' end)).
  - apply (wp_loop _ _ (λ m e1 b, (b = false ∧ e_idx e1 = e_idx e ∧ caps_ok e1) ∧ (m = 2%nat ∨ (m = 1%nat ∧
      ∀ n, n ∈ keys → Z.of_nat (length n) < rv_cap (e_wname e1))))); [lia| |by auto].
    intros m e1 b [(-> & Hi & Hc1 & Hc2) Hm]. unfold nextkey_step. rewrite u32_small by exact Hc1. cbn [wp]. intros [r n] b Hr. cbn beta iota in Hr. rewrite Hi in Hr.
    destruct Hr as [[-> Hr]|(-> & H1 & H2 & H3)].
    2:{ rewrite !(proj2 (Z.eqb_neq r _)) by done. cbn [wp]. intros [] b ->. by right. }
    destruct (keys !! Z.to_nat (e_idx e)) as [k|] eqn:Ek.
    2:{ subst r. change (ERROR_NO_MORE_ITEMS =? 0) with false. cbn. by left. }
    destruct (Z.ltb_spec (Z.of_nat (length k)) (rv_cap (e_wname e1))) as [Hlt|Hge].
    { destruct Hr as [-> ->]. cbn. done. }
    subst r. change (ERROR_MORE_DATA =? 0) with false. change (ERROR_MORE_DATA =? ERROR_MORE_DATA) with true. cbv iota.
    destruct Hm as [[= ->]|[[= ->] Hm]].
    2:{ specialize (Hm k (list_elem_of_lookup_2 _ _ _ Ek)). lia. }
    cbn [wp]. intros [r info] b Hinfo. cbn beta iota in Hinfo.
    destruct Hinfo as [[-> Hr]|(-> & -> & _ & _ & [Hmk Hall] & _ & _)]; [rewrite (proj2 (Z.eqb_neq r 0)) by done; by right|]. cbn [Z.eqb negb]. set (mk := max_subkey_len info) in *.
    apply wp_bind, realloc_wp; cbn [wp]; [intros v Hv|by right]. cbn in Hv.
    rewrite u32_small in Hv by (unfold is_u32; lia).
    split; [split_and!; [done|done|split; cbn [e_wname e_wval with_wbufs]; lia]|]. right. split; [done|].
    intros n' Hn'. cbn [e_wname with_wbufs]. specialize (Hall n' Hn'). cbn in Hall. lia.
  - intros [[r e1]|[n e1]] b H; cbn [wp]; [by right|]. destruct H as (-> & Hk & Hi & Hc). apply wp_bind.
    apply set_name_wp.
    + rewrite Forall_forall in Hok. apply Hok. by eapply list_elem_of_lookup_2.
    + intros e2 _ Hi2 _ Hw2 Hv2 _. cbn [wp]. left. do 2 (split; [done|]). exists n. unfold caps_ok, next_idx.
      cbn [e_idx e_wname e_wval]. by rewrite Hi2, Hi, Hw2, Hv2.
    + cbn. by right; right.
  - done.
Qed.

(** Calls of ffwinreg_enum_nextkey() until it does not answer 0. *)
Fixpoint all_keys (m : nat) (e : ffwinreg_enum) (acc : list (list Z)) : prog winE (Z * list (list Z)) :=
  match m with
  | O => Halt OutOfFuel
  | S m => let* '(r, name, e) := ffwinreg_enum_nextkey 2 e in
           if r =? 0 then all_keys m e (acc ++ [name]) else Ret (r, acc)
  end.

Lemma all_keys_wp m : ∀ e acc,
  Forall text_ok keys → Z.of_nat (length keys) < 2 ^ 32 - 1 → caps_ok e → 0 ≤ e_idx e → (m + Z.to_nat (e_idx e) = S (length keys))%nat → (Z.to_nat (e_idx e) ≤ length keys)%nat →
  acc = map utf8 (take (Z.to_nat (e_idx e)) keys) →
  wp (enum_env keys vals) (all_keys m e acc) (λ '(r, names) b,
    if b : bool then r = -1 ∧ names `prefix_of` map utf8 keys else r = 1 ∧ names = map utf8 keys) never false.
Proof.
  induction m as [|m IH]; intros e acc Hok Hn Hc Hi Hm Hle ->; [lia|]. cbn [all_keys].
  apply wp_bind. eapply wp_mono; [by apply nextkey_wp| |done].
  intros [[r name] e'] b [(-> & -> & k & Hk & -> & Hi' & Hc')|[(-> & -> & Hk)|[-> ->]]]; cbn [wp Z.eqb].
  - pose proof (lookup_lt_Some _ _ _ Hk) as Hlt. rewrite u32_small in Hi' by (unfold is_u32; lia).
    apply IH; [done|done|done|lia|lia|lia|]. rewrite Hi'. replace (Z.to_nat (e_idx e + 1)) with (S (Z.to_nat (e_idx e))) by lia.
    by rewrite (take_S_r _ _ k), map_app by done.
  - split; [done|]. apply lookup_ge_None in Hk. by rewrite take_ge.
  - split; [done|]. rewrite <- (take_drop (Z.to_nat (e_idx e)) keys) at 2. rewrite map_app. by eexists.
Qed.

(** A value as it is delivered: its name, its data or the data as text, its type. *)
Definition text_of (t : Z) (d x : list Z) : Prop :=
  if t =? REG_DWORD then ∃ cap, x = fmt_dword cap (un_le d)
  else if t =? REG_QWORD then ∃ cap, x = fmt_qword cap (un_le d)
  else if t =? REG_BINARY then ∃ cap, 2 * Z.of_nat (length d) ≤ cap ∧ x = fmt_binary cap d
  else x = content t d.
Definition shown (opts : Z) (v : entry) (r : list Z * list Z * Z) : Prop :=
  let '(n, t, d) := v in r.1.1 = utf8 n ∧ r.2 = t ∧ if has opts FFWINREG_ENUM_VALSTR then text_of t d r.1.2 else r.1.2 = d.

(** A value that can be shown as text: of a type that has a text form, a number of its size, a text with its NUL. *)
Definition printable (t : Z) (d : list Z) : Prop :=
  Z.of_nat (length d) < 2 ^ 28 ∧
  ((t = REG_DWORD ∧ length d = 4%nat) ∨ (t = REG_QWORD ∧ length d = 8%nat) ∨ t = REG_BINARY ∨
   (ffwinreg_isstr t = true ∧ ((d = [] ∧ 0 ≤ wtou_size []) ∨
     ∃ u, d = units_bytes (u ++ [0]) ∧ Forall (λ x, 0 ≤ x < 65536) u ∧ 0 ≤ wtou_size u))).
Definition value_ok (opts : Z) (v : entry) : Prop :=
  text_ok v.1.1 ∧ (has opts FFWINREG_ENUM_VALSTR = true → printable v.1.2 v.2).

Lemma content_text t u :
  ffwinreg_isstr t = true → Forall (λ x, 0 ≤ x < 65536) u → content t (units_bytes (u ++ [0])) = utf8 u.
Proof.
  intros Ht Hu. unfold content, text_units. rewrite Ht, length_units_bytes, units_of_bytes.
  2:{ apply Forall_app. split; [done|repeat constructor; lia]. }
  rewrite length_app. cbn [length].
  replace (Z.of_nat (2 * (length u + 1)) / 2) with (Z.of_nat (length u) + 1) by dlia.
  replace (Z.of_nat (length u) + 1 - 1) with (Z.of_nat (length u)) by lia.
  rewrite (take_ge (u ++ [0])) by (rewrite length_app; cbn; lia). rewrite Nat2Z.id.
  rewrite (lookup_app_r u) by done. rewrite Nat.sub_diag. cbn.
  rewrite (proj2 (Z.eqb_neq _ 0)) by lia. cbn. by rewrite take_app_length.
Qed.

Lemma content_nil t : ffwinreg_isstr t = true → 0 ≤ wtou_size [] → content t [] = [].
Proof.
  intros Ht H0. unfold content. rewrite Ht. change (utf8 [] = []).
  pose proof (wtou_bound []) as Hb. change (Z.of_nat (length (A:=Z) [])) with 0 in Hb.
  pose proof (wtou_length [] H0) as Hl. apply nil_length_inv. lia.
Qed.

Lemma units_of_app u r :
  Forall (λ x, 0 ≤ x < 65536) u → units_of (units_bytes u ++ r) = u ++ units_of r.
Proof.
  induction 1 as [|x u Hx Hu IH]; [done|]. unfold units_bytes in *. cbn [map concat]. rewrite <- app_assoc.
  change (un_le (le 2 x) :: units_of (concat (map (le 2) u) ++ r) = x :: (u ++ units_of r)).
  by rewrite IH, un_le_le.
Qed.

Lemma isstr_types t : ffwinreg_isstr t = true → (t =? REG_DWORD) = false ∧ (t =? REG_QWORD) = false ∧ (t =? REG_BINARY) = false.
Proof. intros [->%Z.eqb_eq| ->%Z.eqb_eq]%orb_true_iff; done. Qed.

Lemma val_str_wp t d rest e :
  printable t d → rv_mem (e_wval e) = d ++ rest → rv_len (e_wval e) = Z.of_nat (length d) →
  wp (enum_env keys vals) (_ffwinreg_val_str e t) (λ '(r, e') b,
    e_idx e' = e_idx e ∧ e_options e' = e_options e ∧ e_wname e' = e_wname e ∧ e_wval e' = e_wval e ∧
    if b : bool then r = -1 else r = 0 ∧ text_of t d (take (Z.to_nat (rv_len (e_value e'))) (rv_mem (e_value e'))))
    never false.
Proof.
  intros [Hl Hp] Hm Hn. unfold _ffwinreg_val_str, text_of.
  destruct Hp as [[-> Hd]|[[-> Hd]|[->|[Ht Hd]]]]; cbn [Z.eqb REG_DWORD REG_QWORD REG_BINARY Pos.eqb].
  - cbn [wp with_value e_wval e_value e_idx e_options e_wname rv_mem rv_len rv_cap]. rewrite Hm, Nat2Z.id, firstn_all.
    split_and!; [done..|]. rewrite take_app_length' by done. by eexists.
  - cbn [wp with_value e_wval e_value e_idx e_options e_wname rv_mem rv_len rv_cap]. rewrite Hm, Nat2Z.id, firstn_all.
    split_and!; [done..|]. rewrite take_app_length' by done. by eexists.
  - apply wp_bind, realloc_wp; cbn [wp with_value e_wval e_value e_idx e_options e_wname rv_mem rv_len rv_cap]; [|done].
    intros v Hv. rewrite Hm, Hn, !Nat2Z.id, firstn_all, take_app_length in *.
    split_and!; [done..|]. exists (rv_cap v). split; [lia|done].
  - destruct (isstr_types t Ht) as (-> & -> & ->). rewrite Ht. cbn [with_value e_wval e_value rv_cap]. rewrite Hn, Hm.
    destruct Hd as [[-> H0]|(u & -> & Hu & Hs)].
    { cbn. split_and!; [done..|]. by rewrite content_nil. }
    rewrite content_text by done. rewrite length_units_bytes, length_app in *. cbn [length] in *.
    rewrite (proj2 (Z.eqb_neq _ 0)) by lia. apply wp_bind, realloc_wp; [intros v Hv|done]. cbn [rv_cap] in Hv.
    replace (Z.to_nat ((Z.of_nat (2 * (length u + 1)) - 1) / 2)) with (length u) by dlia.
    rewrite units_of_app, <- app_assoc, take_app_length by (apply Forall_app; split; [done|repeat constructor; lia]).
    pose proof (wtou_bound u) as Hb. pose proof (wtou_length u Hs) as Hul.
    assert (Z.of_nat (2 * (length u + 1)) / 2 = Z.of_nat (length u) + 1) as Eh by dlia. rewrite Eh in Hv.
    rewrite wtou_fits by lia. rewrite (proj2 (Z.ltb_ge _ _)) by lia.
    cbn [wp with_value e_wval e_value e_idx e_options e_wname rv_mem rv_len]. split_and!; [done..|].
    by rewrite <- Hul, Nat2Z.id, firstn_all.
Qed.

Lemma nextval_wp e :
  Forall (value_ok (e_options e)) vals → caps_ok e →
  wp (enum_env keys vals) (ffwinreg_enum_nextval 2 e) (λ '(r, v, e') b,
    (b = false ∧ r = 0 ∧ ∃ x, vals !! Z.to_nat (e_idx e) = Some x ∧ shown (e_options e) x v ∧ e_idx e' = u32 (e_idx e + 1) ∧
       e_options e' = e_options e ∧ caps_ok e') ∨
    (b = false ∧ r = 1 ∧ vals !! Z.to_nat (e_idx e) = None) ∨ (b = true ∧ r = -1)) never false.
Proof.
  intros Hok Hcaps. unfold ffwinreg_enum_nextval. apply wp_bind.
  eapply (wp_mono _ _ (λ res b, match res with
    | inl (r, _) => (b = false ∧ r = 1 ∧ vals !! Z.to_nat (e_idx e) = None) ∨ (b = true ∧ r = -1)
    | inr (v, e') => b = false ∧ vals !! Z.to_nat (e_idx e) = Some v ∧ e_idx e' = e_idx e ∧ e_options e' = e_options e ∧ caps_ok e' end)).
  - apply (wp_loop _ _ (λ m e1 b, (b = false ∧ e_idx e1 = e_idx e ∧ e_options e1 = e_options e ∧ caps_ok e1) ∧ (m = 2%nat ∨ (m = 1%nat ∧
      ∀ v, v ∈ vals → Z.of_nat (length v.1.1) < rv_cap (e_wname e1) ∧ Z.of_nat (length v.2) ≤ rv_cap (e_wval e1)))));
      [lia| |by auto].
    intros m e1 b [(-> & Hi & Ho & Hc1 & Hc2) Hm]. unfold nextval_step. rewrite (u32_small _ Hc1), (u32_small _ Hc2). cbn [wp]. intros [r [[n t] d]] b Hr. cbn beta iota in Hr. rewrite Hi in Hr.
    destruct Hr as [[-> Hr]|(-> & H1 & H2 & H3)].
    2:{ rewrite !(proj2 (Z.eqb_neq r _)) by done. cbn [wp]. intros [] b ->. by right. }
    destruct (vals !! Z.to_nat (e_idx e)) as [[[n' t'] d']|] eqn:Ek.
    2:{ subst r. change (ERROR_NO_MORE_ITEMS =? 0) with false. cbn. by left. }
    destruct ((Z.of_nat (length n') <? rv_cap (e_wname e1)) && (Z.of_nat (length d') <=? rv_cap (e_wval e1))) eqn:Efit.
    { destruct Hr as [-> [= -> -> ->]]. cbn. done. }
    subst r. change (ERROR_MORE_DATA =? 0) with false. change (ERROR_MORE_DATA =? ERROR_MORE_DATA) with true. cbv iota.
    destruct Hm as [[= ->]|[[= ->] Hm]].
    2:{ specialize (Hm _ (list_elem_of_lookup_2 _ _ _ Ek)). cbn in Hm.
        rewrite (proj2 (Z.ltb_lt _ _)), (proj2 (Z.leb_le _ _)) in Efit by lia. done. }
    cbn [wp]. intros [r info] b Hinfo. cbn beta iota in Hinfo.
    destruct Hinfo as [[-> Hr]|(-> & -> & _ & _ & _ & [Hmn Hn] & [Hmv Hd])]; [rewrite (proj2 (Z.eqb_neq r 0)) by done; by right|].
    cbn [Z.eqb negb].
    set (mn := max_valname_len info) in *. set (mv := max_val_len info) in *.
    apply wp_bind, realloc_wp; cbn [wp]; [intros v Hv|by right].
    apply wp_bind, realloc_wp; cbn [wp]; [intros w Hw|by right]. cbn in Hv, Hw.
    rewrite u32_small in Hv by (unfold is_u32; lia).
    split; [split_and!; [done|done|done|split; cbn [e_wname e_wval with_wbufs]; lia]|]. right. split; [done|].
    intros x Hx. cbn [e_wname e_wval with_wbufs]. specialize (Hn x Hx). specialize (Hd x Hx). cbn in Hn, Hd. lia.
  - intros [[r e1]|[[[n t] d] e1]] b H; cbn [wp]; [by right|]. destruct H as (-> & Hk & Hi & Ho & Hc). apply wp_bind.
    assert (value_ok (e_options e) (n, t, d)) as [Hn Hp].
    { rewrite Forall_forall in Hok. apply Hok. by eapply list_elem_of_lookup_2. }
    apply set_name_wp; [done| |cbn; by right; right].
    intros e2 _ Hi2 Ho2 Hw2 Hv2 _. cbn [with_wbufs e_idx e_options e_wname e_wval] in *. rewrite Ho2, Ho.
    unfold shown. cbn in Hp. destruct (has (e_options e) FFWINREG_ENUM_VALSTR) eqn:Hopt.
    + apply wp_bind. eapply wp_mono; [eapply (val_str_wp t d); [by apply Hp|by rewrite Hv2|by rewrite Hv2]| |done].
      intros [r e3] b (Hi3 & Ho3 & Hw3 & Hv3 & H). destruct b; [subst r; cbn; by right; right|].
      destruct H as [-> H]. cbn [Z.eqb negb wp]. left. do 2 (split; [done|]). exists (n, t, d).
      unfold caps_ok, next_idx. cbn [e_idx e_options e_wname e_wval fst snd]. rewrite Hi3, Ho3, Hw3, Hv3, Hi2, Hi, Ho2, Ho, Hw2, Hv2.
      cbn [rv_cap]. done.
    + cbn [wp]. left. do 2 (split; [done|]). exists (n, t, d).
      rewrite Hv2. cbn [rv_len rv_mem fst snd]. rewrite Nat2Z.id, take_app_length.
      unfold caps_ok, next_idx. cbn [e_idx e_options e_wname e_wval]. by rewrite Hi2, Hi, Ho2, Ho, Hw2, Hv2.
  - done.
Qed.

(** Calls of ffwinreg_enum_nextval() until it does not answer 0. *)
Fixpoint all_vals (m : nat) (e : ffwinreg_enum) (acc : list (list Z * list Z * Z)) : prog winE (Z * list (list Z * list Z * Z)) :=
  match m with
  | O => Halt OutOfFuel
  | S m => let* '(r, v, e) := ffwinreg_enum_nextval 2 e in
           if r =? 0 then all_vals m e (acc ++ [v]) else Ret (r, acc)
  end.

Lemma all_vals_wp m : ∀ e acc,
  Forall (value_ok (e_options e)) vals →
  Z.of_nat (length vals) < 2 ^ 32 - 1 → caps_ok e → 0 ≤ e_idx e → (m + Z.to_nat (e_idx e) = S (length vals))%nat → (Z.to_nat (e_idx e) ≤ length vals)%nat →
  Forall2 (shown (e_options e)) (take (Z.to_nat (e_idx e)) vals) acc →
  wp (enum_env keys vals) (all_vals m e acc) (λ '(r, vs) b,
    if b : bool then r = -1 ∧ ∃ k, Forall2 (shown (e_options e)) (take k vals) vs
    else r = 1 ∧ Forall2 (shown (e_options e)) vals vs) never false.
Proof.
  induction m as [|m IH]; intros e acc Hok Hn Hc Hi Hm Hle Hacc; [lia|]. cbn [all_vals].
  apply wp_bind. eapply wp_mono; [by apply nextval_wp| |done].
  intros [[r v] e'] b [(-> & -> & x & Hk & Hx & Hi' & Ho' & Hc')|[(-> & -> & Hk)|[-> ->]]]; cbn [wp Z.eqb].
  - pose proof (lookup_lt_Some _ _ _ Hk) as Hlt. unfold entry in *.
    rewrite u32_small in Hi' by (unfold is_u32; lia). rewrite <- Ho' in *. apply IH; [done|done|done|lia|lia|lia|]. rewrite Hi'.
    replace (Z.to_nat (e_idx e + 1)) with (S (Z.to_nat (e_idx e))) by lia.
    rewrite (take_S_r _ _ x) by done. by apply Forall2_app; [|constructor].
  - split; [done|]. apply lookup_ge_None in Hk. by rewrite take_ge in Hacc.
  - split; [done|]. eauto.
Qed.
End enumeration.

(** C27: enumerating a key, with or without FFWINREG_ENUM_VALSTR: when no system call and no allocation fails,
    ffwinreg_enum_nextkey() delivers, in order, the name of every subkey in UTF-8, and ffwinreg_enum_nextval() the
    name, the data (or its text form) and the type of every value, each growing its buffers at most once per call, and
    then answers 1.  It answers -1 only when a call or an allocation has failed, and what was delivered is a beginning
    of that.  No assertion fails.  (To be shown as text a value must have one of the five types and, for its type, a
    well-formed content.) *)
Theorem enum_complete `{U : FfUni, R : RegLib, !FfWtouLaws U, !RegLibLaws R} keys vals e key :
  Forall text_ok keys → Forall (value_ok (e_options e)) vals →
  caps_ok e → Z.of_nat (length keys) < 2 ^ 32 - 1 → Z.of_nat (length vals) < 2 ^ 32 - 1 →
  wp (enum_env keys vals) (all_keys (S (length keys)) (ffwinreg_enum_begin e key) []) (λ '(r, names) failed,
    if failed : bool then r = -1 ∧ names `prefix_of` map utf8 keys else r = 1 ∧ names = map utf8 keys) never false ∧
  wp (enum_env keys vals) (all_vals (S (length vals)) (ffwinreg_enum_begin e key) []) (λ '(r, vs) failed,
    if failed : bool then r = -1 ∧ ∃ k, Forall2 (shown (e_options e)) (take k vals) vs
    else r = 1 ∧ Forall2 (shown (e_options e)) vals vs) never false.
Proof.
  intros Hk Hv Hc Hnk Hnv. split.
  - apply all_keys_wp; cbn; (done || lia).
  - apply (all_vals_wp keys vals (S (length vals)) (ffwinreg_enum_begin e key)); cbn; (done || lia || constructor).
Qed.

#[export] Instance RefRegLib : RegLib := {|
  rvec_realloc v n el := let! p := w_alloc (n * el) in Ret (if p =? 0 then None else Some (RVec p n (rv_mem v) (rv_len v)));
  fmt_dword _ x := [x]; fmt_qword _ x := [x]; fmt_binary _ d := d |}.
#[export] Instance RefRegLibLaws : RegLibLaws RefRegLib.
Proof.
  split. intros S step I Fd v n el Q s Ha _ Hs HQ. cbn. intros p s' Hp. apply HQ.
  apply Ha in Hp; [|done]. destruct (p =? 0); cbn; [done|]. split; [lia|done].
Qed.

Lemma enum_complete_witness :
  let e := RegEnum 0 9 rvec_null rvec_null rvec_null rvec_null FFWINREG_ENUM_VALSTR in
  wp (enum_env [bytes_of "ab"; bytes_of "c"] [(bytes_of "v", REG_DWORD, [1; 1; 0; 0])])
    (@all_keys RefUni RefRegLib 3 (ffwinreg_enum_begin e 5) []) (λ '(r, names) failed,
      failed = false → r = 1 ∧ names = [bytes_of "ab"; bytes_of "c"]) never false ∧
  wp (enum_env [bytes_of "ab"; bytes_of "c"] [(bytes_of "v", REG_DWORD, [1; 1; 0; 0])])
    (@all_vals RefUni RefRegLib 2 (ffwinreg_enum_begin e 5) []) (λ '(r, vs) failed,
      failed = false → r = 1 ∧ vs = [(bytes_of "v", [257], REG_DWORD)]) never false.
Proof.
  intros e. destruct (@enum_complete RefUni RefRegLib _ _ [bytes_of "ab"; bytes_of "c"] [(bytes_of "v", REG_DWORD, [1; 1; 0; 0])] e 5) as [H1 H2].
  - repeat constructor; vm_compute; congruence.
  - constructor; [|done]. split; [split; vm_compute; congruence|]. intros _. split; [vm_compute; congruence|]. by left.
  - done.
  - cbn. lia.
  - cbn. lia.
  - split; (eapply wp_mono; [first [exact H1|exact H2]| |done]).
    + intros [r names] [] H Hf; [done|exact H].
    + intros [r vs] [] H Hf; [done|]. destruct H as [-> H]. split; [done|].
      apply Forall2_cons_inv_l in H as ([[n x] t] & vs' & Hx & Hvs & ->). apply Forall2_nil_inv_l in Hvs as ->.
      destruct Hx as (En & Et & cap & Ex). cbn in En, Et, Ex. by subst.
Defined.
