(* ===== verification/Volume.v ===== *)
(** * FFOS/volume.h: volumes and mount points (Windows) *)
From S2P Require Import Prelude Prog Ffbase Unix Win StringW.

Definition FFERR_NOMOREVOLS := ERROR_NO_MORE_FILES.
Definition MAX_PATH := 260.

(** ffbase: a new vector of wide characters: the block (0: out of memory). *)
Class WVecAlloc := { wvec_alloc : Z → prog winE Z }.

(** ** Enumeration *)

Definition ffvol_open (cap : Z) : prog winE (Z * wstr) := call (FindFirstVolumeW cap).
Definition ffvol_close (h : Z) : prog winE unit := do! FindVolumeClose h in Ret tt.
Definition ffvol_next (h cap : Z) : prog winE (Z * wstr) :=
  let! '(ok, name) := FindNextVolumeW h cap in Ret (if ok : bool then 0 else 1, name).

(** ** Information *)

(** The vector of the paths: its block (0: NULL), its capacity and its contents. *)
Record wvec := WVec { wv_ptr : Z; wv_cap : Z; wv_units : wstr }.
Definition wvec_null := WVec 0 0 [].
Record vol_info := VolInfo {
  vi_type : Z; vi_space : Z * Z * (Z * Z); vi_fs : wstr; vi_paths : wvec }.

Definition wvec_free (v : wvec) : prog winE wvec :=
  if wv_ptr v =? 0 then Ret wvec_null else do! w_free (wv_ptr v) in Ret wvec_null.

Definition ffvol_info_destroy (vi : vol_info) : prog winE vol_info :=
  let* v := wvec_free (vi_paths vi) in Ret (VolInfo (vi_type vi) (vi_space vi) (vi_fs vi) v).

Section info.
Context `{WVecAlloc}.

(** One turn of the loop: a size to try next, or the error bit and the vector. *)
Definition paths_step (name : wstr) (size : Z) : prog winE (Z + (Z * wvec)) :=
  let* p := wvec_alloc size in
  let cap := if p =? 0 then 0 else size in
  let! '(ok, (size, names)) := GetVolumePathNamesForVolumeNameW name cap in
  let v := WVec p cap names in
  if ok : bool then Ret (inr (0, v)) else
  let! e := GetLastError in
  if e =? ERROR_MORE_DATA then do* wvec_free v in Ret (inl size) else Ret (inr (4, v)).

Definition ffvol_info (fuel : nat) (name : wstr) (vi : vol_info) (flags : Z) : prog winE (Z * vol_info) :=
  let flags := if flags =? 0 then 255 else flags in
  let! type := GetDriveTypeW name in
  let* '(r, space) := if has flags 1 then
                        let! '(ok, space) := GetDiskFreeSpaceW name in Ret (if ok : bool then 0 else 1, space)
                      else Ret (0, vi_space vi) in
  let* '(r, fs) := if has flags 2 then
                     let! '(ok, fs) := GetVolumeInformationW name 64 in Ret (if ok : bool then r else Z.lor r 2, fs)
                   else Ret (r, vi_fs vi) in
  let* '(r, paths) := if has flags 4 then
                        let* '(b, v) := loop fuel (paths_step name) (MAX_PATH + 1) in Ret (Z.lor r b, v)
                      else Ret (r, vi_paths vi) in
  Ret (r, VolInfo type space fs paths).
End info.

(** ** Mount points *)

Section mount.
Context `{FfUni}.
Definition BACKSLASH := 92.

(** The byte [s[n - 1]] is looked at, [n] being the number of wide characters. *)
Definition _ffs_utow_bslash (s : list Z) : prog winE (option wbuf) :=
  let* w := ffs_alloc_utow_addcap s 2 in
  match w with
  | None => Ret None
  | Some (w, n) =>
      if (n <? 0) || (Z.of_nat (length s) + 1 <? n) then Halt OutOfBounds else
      let u := take (Z.to_nat n) (w_str w) in
      Ret (Some (WBuf (if (n =? 0) || negb (default 0 (s !! Z.to_nat (n - 1)) =? BACKSLASH) then u ++ [BACKSLASH] else u)
                      (w_ptr w)))
  end.

(** [end:] *)
Definition mount_end (wdisk wmount r : Z) : prog winE Z :=
  do! w_free wdisk in do! w_free wmount in Ret r.

Definition ffvol_mount (disk : option (list Z)) (mount : list Z) : prog winE Z :=
  let* wmount := _ffs_utow_bslash mount in
  match wmount with
  | None => mount_end 0 0 (-1)
  | Some wmount =>
      match disk with
      | None =>
          let! ok := DeleteVolumeMountPointW (w_str wmount) in
          mount_end 0 (w_ptr wmount) (if ok : bool then 0 else -1)
      | Some disk =>
          let! '(p, wdisk) := w_alloc_utow disk in
          if p =? 0 then mount_end 0 (w_ptr wmount) (-1) else
          let! ok := SetVolumeMountPointW (w_str wmount) wdisk in
          mount_end p (w_ptr wmount) (if ok : bool then 0 else -1)
      end
  end.
End mount.

(** ** Properties *)

(** The heap, the last error, whether memory is short, and the mount points that were set or deleted. *)
Record vol_state := VolState { vs_mem : gset Z; vs_err : Z; vs_oom : bool; vs_calls : list (option wstr * wstr) }.

(** A new block, or none when memory is short. *)
Definition vol_new (v : vol_state) (p : Z) (v' : vol_state) : Prop :=
  vs_oom v' = vs_oom v ∧ vs_calls v' = vs_calls v ∧
  ((p = 0 ∧ vs_oom v = true ∧ vs_mem v' = vs_mem v) ∨ (0 < p ∧ (p ∉ vs_mem v) ∧ vs_mem v' = {[p]} ∪ vs_mem v)).

(** A system whose volume has these paths; wide strings are converted by [wide]. *)
Definition vol_env (names : wstr) (wide : list Z → wstr) : env winE vol_state := λ v X e,
  match e in winE X return X → vol_state → Prop with
  | w_alloc _ => vol_new v
  | w_alloc_utow s => λ '(p, d) v', vol_new v p v' ∧ d = wide s
  | w_free p => λ _ v', v' = VolState (vs_mem v ∖ {[p]}) (vs_err v) (vs_oom v) (vs_calls v)
  | GetLastError => λ r v', v' = v ∧ r = vs_err v
  | GetVolumePathNamesForVolumeNameW _ cap => λ '(ok, (size, d)) v',
      v' = VolState (vs_mem v) (vs_err v') (vs_oom v) (vs_calls v) ∧
      if ok : bool then Z.of_nat (length names) ≤ cap ∧ d = names
      else (vs_err v' = ERROR_MORE_DATA ∧ cap < Z.of_nat (length names) ∧ size = Z.of_nat (length names)) ∨
           vs_err v' ≠ ERROR_MORE_DATA
  | SetVolumeMountPointW m d => λ ok v', v' = VolState (vs_mem v) (vs_err v') (vs_oom v)
      (if ok : bool then vs_calls v ++ [(Some d, m)] else vs_calls v)
  | DeleteVolumeMountPointW m => λ ok v', v' = VolState (vs_mem v) (vs_err v') (vs_oom v)
      (if ok : bool then vs_calls v ++ [(None, m)] else vs_calls v)
  | _ => λ _ v', v' = VolState (vs_mem v) (vs_err v') (vs_oom v) (vs_calls v)
  end.

Class WVecAllocLaws (V : WVecAlloc) : Prop := {
  wvec_alloc_law names wide n v : wp (vol_env names wide) (wvec_alloc n) (vol_new v) never v;
}.

(** *** The list of paths *)

Section info_laws.
Context `{V : WVecAlloc, !WVecAllocLaws V} (names : wstr) (wide : list Z → wstr).

(** The outcome: an error, or the paths, in a vector that is the only new block. *)
Definition has_paths (v : vol_state) (r : Z * wvec) (v' : vol_state) : Prop :=
  0 < wv_ptr r.2 ∧ (wv_ptr r.2 ∉ vs_mem v) ∧ vs_mem v' = {[wv_ptr r.2]} ∪ vs_mem v ∧
  ((r.1 = 0 ∧ wv_units r.2 = names ∧ Z.of_nat (length names) ≤ wv_cap r.2) ∨ r.1 = 4).

Lemma paths_step_wp name size v : vs_oom v = false →
  wp (vol_env names wide) (paths_step name size) (λ r v',
    vs_oom v' = false ∧
    match r with
    | inl n => n = Z.of_nat (length names) ∧ size < n ∧ vs_mem v' = vs_mem v
    | inr r => has_paths v r v'
    end) never v.
Proof using All.
  intros Ho. unfold paths_step. apply wp_bind. eapply wp_mono; [apply wvec_alloc_law| |done].
  intros p v1 (O1 & _ & [(_ & ? & _)|(Hp & Hni & M1)]); [congruence|].
  rewrite (proj2 (Z.eqb_neq p 0)) by lia. cbn. intros [ok [n d]] v2 [E2 Hok].
  assert (vs_oom v2 = false) as O2 by (rewrite E2; cbn; congruence).
  assert (vs_mem v2 = {[p]} ∪ vs_mem v) as M2 by (rewrite E2; exact M1).
  destruct ok; cbn.
  { destruct Hok as [Hl ->]. split; [done|]. unfold has_paths. cbn. auto 10. }
  intros e v3 [-> ->]. destruct (Z.eqb_spec (vs_err v2) ERROR_MORE_DATA) as [He|He]; cbn.
  - destruct Hok as [(_ & Hl & ->)|?]; [|done]. unfold wvec_free. cbn [wv_ptr].
    rewrite (proj2 (Z.eqb_neq p 0)) by lia. cbn. intros [] v4 ->. cbn. split_and!; [done|done|done|].
    rewrite M2. clear -Hni. set_solver.
  - split; [done|]. unfold has_paths. cbn. auto 10.
Qed.

Lemma paths_loop_wp fuel name size v : vs_oom v = false →
  (1 < fuel)%nat ∨ ((0 < fuel)%nat ∧ size = Z.of_nat (length names)) →
  wp (vol_env names wide) (loop fuel (paths_step name) size) (λ r v', vs_oom v' = false ∧ has_paths v r v') never v.
Proof using All.
  revert fuel size v.
  assert (∀ fuel size v, vs_oom v = false → (0 < fuel)%nat → size = Z.of_nat (length names) →
    wp (vol_env names wide) (loop fuel (paths_step name) size) (λ r v', vs_oom v' = false ∧ has_paths v r v') never v) as H1.
  { intros [|fuel] size v Ho Hf ->; [lia|]. cbn [loop]. apply wp_bind. eapply wp_mono; [by apply paths_step_wp| |done].
    intros [n|r] v1 [O1 H]; [lia|by cbn]. }
  intros fuel size v Ho [Hf|[Hf ->]]; [|by apply H1]. destruct fuel as [|fuel]; [lia|]. cbn [loop].
  apply wp_bind. eapply wp_mono; [by apply paths_step_wp| |done]. intros [n|r] v1 [O1 H]; [|by cbn].
  destruct H as (-> & _ & M1). eapply wp_mono; [apply H1; [done|lia|done]| |done].
  intros r v2 [O2 H]. split; [done|]. unfold has_paths in *. by rewrite M1 in H.
Qed.

(** the information about a volume, as long as memory can be allocated.  The list of its paths is
    asked for at most twice, whatever its length; it is complete unless the error is reported, nothing but
    its vector stays allocated, and destroying the object releases it. *)
Theorem volume_info_ok fuel name vi flags v :
  vs_oom v = false → wv_ptr (vi_paths vi) = 0 → (1 < fuel)%nat →
  wp (vol_env names wide)
    (let* '(r, vi) := ffvol_info fuel name vi flags in
     let* vi' := ffvol_info_destroy vi in Ret (r, vi, vi'))
    (λ '(r, vi', vi'') v', vs_mem v' = vs_mem v ∧ vi_paths vi'' = wvec_null ∧
      (has (if flags =? 0 then 255 else flags) 4 = true → has r 4 = false → wv_units (vi_paths vi') = names)) never v.
Proof using All.
  intros Ho Hp Hf. unfold ffvol_info. set (fl := if flags =? 0 then 255 else flags).
  cbn -[loop has Z.lor]. intros type v1 E1. apply wp_bind, wp_bind.
  assert (vs_mem v1 = vs_mem v ∧ vs_oom v1 = false) as H1 by (rewrite E1; cbn; auto). clear E1.
  set (inv := λ (r : Z) (v' : vol_state), Z.land r 4 = 0 ∧ vs_mem v' = vs_mem v ∧ vs_oom v' = false).
  apply (wp_mono _ _ (λ '(r, _) v', inv r v') _ never); [|clear v1 H1; intros [r sp] v1 H1|done].
  { unfold inv. destruct (has fl 1); cbn; [|done]. intros [ok sp] v2 ->. by destruct ok. }
  apply wp_bind, (wp_mono _ _ (λ '(r, _) v', inv r v') _ never); [|clear v1 H1; intros [r' fs] v1 (R1 & M1 & O1)|done].
  { unfold inv in *. destruct H1 as [R1 H1]. destruct (has fl 2); cbn -[Z.lor]; [|done]. intros [ok f] v2 ->. cbn -[Z.lor].
    split; [|exact H1]. destruct ok; [done|]. by rewrite Z.land_lor_distr_l, R1. }
  destruct (has fl 4).
  - apply wp_bind, wp_bind. eapply wp_mono; [apply paths_loop_wp; [done|by left]| |done].
    intros [b pv] v2 (_ & Hpp & Hni & M2 & Hb). cbn -[has Z.lor] in *. unfold ffvol_info_destroy, wvec_free. cbn -[has Z.lor].
    rewrite (proj2 (Z.eqb_neq _ 0)) by lia. cbn -[has Z.lor]. intros [] v3 ->. cbn -[has Z.lor]. rewrite M2, M1 in *.
    split_and!; [clear -Hni; set_solver|done|]. intros _ Hr. destruct Hb as [(-> & E & _)| ->]; [done|].
    exfalso. unfold has in Hr. rewrite Z.land_lor_distr_l, R1 in Hr. done.
  - cbn -[has Z.lor]. unfold ffvol_info_destroy, wvec_free. cbn -[has Z.lor]. rewrite Hp. cbn. done.
Qed.
End info_laws.

(** *** Mount points *)

(** More of the converter to UTF-16: ASCII text is kept. *)
Class FfUtf16Ascii (U : FfUni) : Prop := {
  utf16_ascii s : Forall (λ c, 0 < c < 128) s → utf16_size s = 2 * Z.of_nat (length s) ∧ utf16 s = s;
}.

(** A name that ends with a backslash. *)
Definition bslash (s : list Z) : list Z := if bool_decide (last s = Some BACKSLASH) then s else s ++ [BACKSLASH].

Section mount_laws.
Context `{U : FfUni, !FfUtf16Laws U, !FfUtf16Ascii U} (names : wstr) (wide : list Z → wstr).

Lemma utow_bslash_wp s v : Forall (λ c, 0 < c < 128) s → Z.of_nat (length s) < 2 ^ 60 →
  wp (vol_env names wide) (_ffs_utow_bslash s) (λ w v', vs_oom v' = vs_oom v ∧ vs_calls v' = vs_calls v ∧
    match w with
    | None => vs_mem v' = vs_mem v
    | Some w => w_str w = bslash s ∧ 0 < w_ptr w ∧ (w_ptr w ∉ vs_mem v) ∧ vs_mem v' = {[w_ptr w]} ∪ vs_mem v
    end) never v.
Proof using All.
  intros Hs Hl. destruct (utf16_ascii s Hs) as [Hz Hu]. unfold _ffs_utow_bslash, ffs_alloc_utow_addcap.
  rewrite utow_count, Hz, (proj2 (Z.ltb_ge (2 * Z.of_nat (length s)) 0)), Hu by lia. rewrite (proj2 (Z.ltb_ge (Z.of_nat (length s)) 0)) by lia.
  rewrite utow_conv by (rewrite Hz, u64_small by (unfold is_u64; lia); lia). rewrite Hu.
  cbn -[Z.add Z.mul take lookup Z.sub]. intros p v1 (O1 & C1 & [(-> & _ & M1)|(Hp & Hni & M1)]); [by cbn|].
  rewrite (proj2 (Z.eqb_neq p 0)) by lia. cbn -[Z.add Z.mul take lookup Z.sub].
  rewrite (proj2 (Z.ltb_ge _ 0)), (proj2 (Z.ltb_ge _ _)) by lia. cbn -[Z.add Z.mul take lookup Z.sub].
  rewrite Nat2Z.id, take_ge by done. split_and!; [done|done| |done|done|done].
  unfold bslash. rewrite last_lookup. destruct s as [|c s']; [done|]. set (s := c :: s') in *.
  rewrite (proj2 (Z.eqb_neq _ 0)) by (unfold s; cbn [length]; lia). cbn [orb].
  replace (Z.to_nat (Z.of_nat (length s) - 1)) with (pred (length s)) by lia.
  destruct (lookup_lt_is_Some_2 s (pred (length s))) as [d ->]; [unfold s; cbn; lia|]. cbn [default from_option id].
  destruct (Z.eqb_spec d BACKSLASH) as [->|Hd]; cbn [negb].
  - by rewrite bool_decide_eq_true_2.
  - by rewrite bool_decide_eq_false_2 by congruence.
Qed.

(** setting and deleting a mount point.  Whatever fails, both names are released; the call
    succeeds exactly when the system was asked to set the volume on (or to delete) the mount point, under
    its name (ASCII) with one backslash at its end, and agreed. *)
Theorem mount_ok disk mount v :
  Forall (λ c, 0 < c < 128) mount → Z.of_nat (length mount) < 2 ^ 60 → (0 ∉ vs_mem v) →
  wp (vol_env names wide) (ffvol_mount disk mount) (λ r v', vs_mem v' = vs_mem v ∧
    ((r = 0 ∧ vs_calls v' = vs_calls v ++ [(wide <$> disk, bslash mount)]) ∨ (r = -1 ∧ vs_calls v' = vs_calls v))) never v.
Proof using All.
  intros Hm Hl H0. unfold ffvol_mount. apply wp_bind. eapply wp_mono; [by apply utow_bslash_wp| |done].
  intros [w|] v1 (O1 & C1 & H1); [|cbn; intros [] v2 -> [] v3 ->; cbn; rewrite H1, C1; split; [clear -H0; set_solver|auto]].
  destruct H1 as (Hw & Hp & Hni & M1). destruct disk as [disk|]; cbn.
  - intros [p d] v2 [(O2 & C2 & [(-> & _ & M2)|(Hp2 & Hni2 & M2)]) ->].
    + rewrite Z.eqb_refl. cbn. intros [] v3 -> [] v4 ->. cbn. rewrite M2, M1, C2, C1.
      split; [clear -H0 Hni; set_solver|auto].
    + rewrite (proj2 (Z.eqb_neq p 0)) by lia. cbn. intros ok v3 -> [] v4 -> [] v5 ->. cbn. rewrite M2, C2, C1, Hw.
      rewrite M1 in Hni2 |- *. split; [clear -Hni Hni2; set_solver|]. destruct ok; [left|right]; auto.
  - intros ok v2 -> [] v3 -> [] v4 ->. cbn. rewrite M1, C1, Hw. split; [clear -H0 Hni; set_solver|]. destruct ok; [left|right]; auto.
Qed.
End mount_laws.

(** *** Concrete systems *)

#[export] Instance RefWVecAlloc : WVecAlloc := {| wvec_alloc n := call (w_alloc (u64 (n * 2))) |}.
#[export] Instance RefWVecAllocLaws : WVecAllocLaws RefWVecAlloc.
Proof. split. intros names wide n v. cbn. done. Qed.
#[export] Instance RefUtf16Ascii : FfUtf16Ascii RefUni.
Proof.
  split. intros s Hs. assert (bool_decide (Forall (λ c, 0 ≤ c < 128) s) = true) as Hb.
  { apply bool_decide_eq_true. eapply Forall_impl; [exact Hs|]. cbn. lia. }
  unfold utf16, utf16_size. cbn [ffutf8_to_utf16 RefUni]. unfold ascii_conv at 1 3. rewrite Hb. cbn [negb fst].
  change (0 =? 0) with true. cbn [fst]. split; [done|]. unfold ascii_conv. rewrite Hb. cbn [negb].
  destruct (Z.eqb_spec (2 * Z.of_nat (length s)) 0) as [E|E]; [by destruct s|]. by rewrite (proj2 (Z.leb_le _ _)) by lia.
Qed.

Lemma volume_info_ok_witness :
  let vi := VolInfo 0 (0, 0, (0, 0)) [] wvec_null in
  wp (vol_env [67; 58; 92; 0; 0] id)
    (let* '(r, vi) := ffvol_info 2 [86] vi 0 in let* vi' := ffvol_info_destroy vi in Ret (r, vi, vi'))
    (λ '(r, vi', _) v', vs_mem v' = ∅ ∧ (has r 4 = false → wv_units (vi_paths vi') = [67; 58; 92; 0; 0]))
    never (VolState ∅ 0 false []).
Proof.
  intros vi. eapply wp_mono; [apply (volume_info_ok [67; 58; 92; 0; 0] id 2 [86] vi 0 (VolState ∅ 0 false [])); [done..|lia]| |done].
  intros [[r vi'] vi''] v' (HM & _ & HP). split; [exact HM|]. by apply HP.
Defined.

Lemma mount_ok_witness :
  wp (vol_env [] id) (@ffvol_mount RefUni (Some [86]) [67; 58]) (λ r v', vs_mem v' = ∅ ∧
    (r = 0 → vs_calls v' = [(Some [86], [67; 58; 92])])) never (VolState ∅ 0 true []).
Proof.
  eapply wp_mono; [apply (mount_ok [] id (Some [86]) [67; 58] (VolState ∅ 0 true []))| |done].
  - repeat constructor; lia.
  - cbn. lia.
  - done.
  - intros r v' [HM [[_ HC]|[-> _]]]; split; done.
Defined.

(** Without memory the vector stays empty, and the system goes on asking for a larger one. *)
Definition no_memory (s : unit) (X : Type) (e : winE X) : X * unit :=
  (match e in winE X return X with
   | GetVolumePathNamesForVolumeNameW _ _ => (false, (5, []))
   | GetLastError => ERROR_MORE_DATA
   | w_alloc _ => 0
   | _ => inhabitant
   end, s).
Lemma info_without_memory fuel name vi : run no_memory (ffvol_info fuel name vi 4) tt = (Stopped OutOfFuel, tt).
Proof.
  unfold ffvol_info. cbn -[loop has Z.lor MAX_PATH]. change (has 4 1) with false. change (has 4 2) with false. change (has 4 4) with true.
  cbn -[loop has Z.lor MAX_PATH]. rewrite !run_bind.
  assert (∀ size, run no_memory (loop fuel (paths_step name) size) tt = (Stopped OutOfFuel, tt)) as ->; [|done].
  induction fuel as [|fuel IH]; intros size; [done|]. cbn [loop]. rewrite run_bind. cbn. apply IH.
Qed.

(** A converter of one- and two-byte characters. *)
Fixpoint utf8_units (s : list Z) : list Z :=
  match s with
  | b0 :: ((b1 :: s2) as s1) => if 192 <=? b0 then Z.lor (Z.shiftl (Z.land b0 31) 6) (Z.land b1 63) :: utf8_units s2 else b0 :: utf8_units s1
  | _ => s
  end.
Definition two_byte_uni : FfUni := {|
  ffsz_utow cap s := (Z.of_nat (length (utf8_units s)) + 1, utf8_units s);
  ffutf8_to_utf16 cap s := (2 * Z.of_nat (length (utf8_units s)), utf8_units s);
  ffsz_wtou cap s := (-1, []); ffs_wtou cap s := (-1, []) |}.
(** No backslash is added to this name (e with an accent, "\", "b"): the byte that is looked at is not the last one. *)
Example mount_wrong_byte :
  let h := λ (s : unit) X (e : winE X), (match e in winE X return X with w_alloc _ => 5 | _ => inhabitant end, s) in
  (run h (@_ffs_utow_bslash two_byte_uni [195; 169; 92; 98]) tt).1 = Done (Some (WBuf [233; 92; 98] 5)).
Proof. vm_compute. done. Qed.
