(* ===== verification/Dylib.v ===== *)
(** * FFOS/dylib.h: dynamic libraries *)
From stdpp Require Import gmultiset.
From S2P Require Import Prelude Prog Ffbase Unix Win StringW Error.

(** ** Windows *)

Definition FFDL_NULL := 0.
Definition LOAD_WITH_ALTERED_SEARCH_PATH := 8.
Definition LOAD_LIBRARY_SEARCH_DLL_LOAD_DIR := 256.
Definition LOAD_LIBRARY_SEARCH_SYSTEM32 := 2048.
Definition FFDL_SELFDIR_win := Z.lor LOAD_LIBRARY_SEARCH_DLL_LOAD_DIR LOAD_LIBRARY_SEARCH_SYSTEM32.

(** 1: the search flags are supported; -1: they are not. *)
Definition _ffdl_init_flags : prog winE Z :=
  let! dl := LoadLibraryExW (bytes_of "kernel32.dll") 0 in
  if dl =? 0 then Ret (-1) else
  let! f := GetProcAddress dl (bytes_of "AddDllDirectory") in
  let r := if f =? 0 then -1 else 1 in
  do! FreeLibrary dl in Ret r.

Section win.
Context `{FfUni}.
(** [sup]: the global variable [_ffdl_open_supports_flags]. *)
Definition ffdl_open_win (sup : Z) (filename : list Z) (flags : Z) : prog winE (Z * Z) :=
  let* w := ffsz_alloc_buf_utow (Some 256) filename in
  match w with None => Ret (FFDL_NULL, sup) | Some w =>
  let* '(flags, sup) :=
    if negb (flags =? 0) then
      let* '(f, sup) := if sup =? 0 then let* f := _ffdl_init_flags in Ret (f, f) else Ret (sup, sup) in
      Ret (if f <? 0 then LOAD_WITH_ALTERED_SEARCH_PATH else flags, sup)
    else Ret (flags, sup) in
  let! dl := LoadLibraryExW (w_str w) flags in
  wbuf_free w (Ret (dl, sup)) end.
Definition ffdl_close_win (dl : Z) : prog winE unit := do! FreeLibrary dl in Ret tt.
Definition ffdl_addr_win (dl : Z) (proc_name : list Z) : prog winE Z := call (GetProcAddress dl proc_name).
Definition ffdl_errstr_win `{FfCopyz} (_fferr_buffer : list Z) : prog winE (list Z) :=
  let! e := GetLastError in fferr_strptr_win (s32 e) _fferr_buffer.
End win.

(** ** UNIX *)

Definition RTLD_LAZY := 1.
Definition FFDL_SELFDIR := 0.
Definition ffdl_open (filename : cstr) (flags : Z) : prog unixE Z := call (u_dlopen filename (Z.lor flags RTLD_LAZY)).
Definition ffdl_close (dl : Z) : prog unixE unit := call (u_dlclose dl).
Definition ffdl_addr (dl : Z) (proc_name : cstr) : prog unixE Z := call (u_dlsym dl proc_name).
Definition ffdl_errstr : prog unixE cstr := call u_dlerror.

(** ** Properties *)

(** The heap, the references to loaded libraries, and the requests to load one. *)
Record dl_state := DlState { dls_mem : gset Z; dls_libs : gmultiset Z; dls_log : list (wstr * Z) }.

(** A system that has the search flags or has not. *)
Definition dl_env (modern : bool) : env winE dl_state := λ s X e,
  match e in winE X return X → dl_state → Prop with
  | w_alloc_utow _ => λ r s', dls_libs s' = dls_libs s ∧ dls_log s' = dls_log s ∧
      ((r.1 = 0 ∧ dls_mem s' = dls_mem s) ∨ (0 < r.1 ∧ (r.1 ∉ dls_mem s) ∧ dls_mem s' = {[r.1]} ∪ dls_mem s))
  | w_free p => λ _ s', s' = DlState (dls_mem s ∖ {[p]}) (dls_libs s) (dls_log s)
  | LoadLibraryExW name flags => λ r s',
      s' = DlState (dls_mem s) (if r =? 0 then dls_libs s else {[+ r +]} ⊎ dls_libs s) (dls_log s ++ [(name, flags)])
  | FreeLibrary dl => λ _ s', s' = DlState (dls_mem s) (dls_libs s ∖ {[+ dl +]}) (dls_log s)
  | GetProcAddress _ _ => λ r s', s' = s ∧ r = b2z modern
  | _ => λ _ s', s' = s
  end.

(** What may be known of the system: nothing yet, that it has the flags, or that it has not, or could not
    be asked. *)
Definition sup_ok (modern : bool) (sup : Z) : Prop := sup = 0 ∨ sup = -1 ∨ (sup = 1 ∧ modern = true).

Lemma init_flags_wp modern s : wp (dl_env modern) _ffdl_init_flags (λ r s', sup_ok modern r ∧ r ≠ 0 ∧
  dls_mem s' = dls_mem s ∧ dls_libs s' = dls_libs s ∧ dls_log s' = dls_log s ++ [(bytes_of "kernel32.dll", 0)]) never s.
Proof.
  unfold _ffdl_init_flags, sup_ok. cbn [wp dl_env]. intros dl s1 ->. destruct (Z.eqb_spec dl 0) as [->|Hd]; cbn [wp dls_mem dls_libs dls_log]; [auto 10|].
  intros f s2 [-> ->] ok s3 ->. cbn [wp dls_mem dls_libs dls_log].
  split_and!; [destruct modern; cbn; by auto|by destruct modern|done| |done].
  apply gmultiset_eq. intros x. rewrite multiplicity_difference, multiplicity_disj_union. lia.
Qed.

Lemma dl_name_wp `{FfUni} modern cap name s : wp (dl_env modern) (ffsz_alloc_buf_utow cap name) (λ w s',
  dls_libs s' = dls_libs s ∧ dls_log s' = dls_log s ∧
  match w with
  | None => dls_mem s' = dls_mem s
  | Some w => (w_ptr w = 0 ∧ dls_mem s' = dls_mem s) ∨
              (0 < w_ptr w ∧ (w_ptr w ∉ dls_mem s) ∧ dls_mem s' = {[w_ptr w]} ∪ dls_mem s)
  end) never s.
Proof.
  unfold ffsz_alloc_buf_utow. destruct (0 <? _); [cbn; auto 10|]. cbn. intros [p d] s1 (E1 & E2 & Hm). cbn in *.
  destruct Hm as [[-> Hm]|(Hp & Hni & Hm)]; [by cbn|]. rewrite (proj2 (Z.eqb_neq p 0)) by lia. auto 10.
Qed.

(** opening a library on Windows.  The name is released and the library that is loaded to ask for
    the search flags is released again: at most a reference to the requested library remains, and it does when
    a handle is returned.  The search flags reach the system only if it has them; otherwise the
    altered search path is asked for; the answer is remembered. *)
Theorem dlopen_win_ok `{FfUni} modern sup filename flags s :
  sup_ok modern sup →
  wp (dl_env modern) (ffdl_open_win sup filename flags) (λ '(dl, sup') s',
    dls_mem s' = dls_mem s ∧ sup_ok modern sup' ∧ (sup ≠ 0 → sup' = sup) ∧
    dls_libs s' = (if dl =? 0 then dls_libs s else {[+ dl +]} ⊎ dls_libs s) ∧
    (dl ≠ 0 → sup' = 0 → flags = 0) ∧
    (dl ≠ 0 → ∃ w, last (dls_log s') =
      Some (w, if flags =? 0 then 0 else if sup' <? 0 then LOAD_WITH_ALTERED_SEARCH_PATH else flags))) never s.
Proof.
  intros Hs. unfold ffdl_open_win. apply wp_bind. eapply wp_mono; [apply dl_name_wp| |done].
  intros [w|] s1 (L1 & G1 & M1); [|cbn; by split_and!]. apply wp_bind.
  apply (wp_mono _ _ (λ '(fl, sup') s', dls_mem s' = dls_mem s1 ∧ dls_libs s' = dls_libs s ∧ sup_ok modern sup' ∧
    (sup ≠ 0 → sup' = sup) ∧ (sup' = 0 → flags = 0) ∧
    fl = if flags =? 0 then 0 else if sup' <? 0 then LOAD_WITH_ALTERED_SEARCH_PATH else flags) _ never); [| |done].
  { destruct (Z.eqb_spec flags 0) as [->|Hf]; cbn [negb]; [by cbn; split_and!|]. apply wp_bind.
    destruct (Z.eqb_spec sup 0) as [->|Hn]; [|by cbn; split_and!]. apply wp_bind.
    eapply wp_mono; [apply init_flags_wp| |done]. intros f s2 (F1 & F2 & F3 & F4 & _). cbn. split_and!; [done|congruence|done..]. }
  intros [fl sup'] s2 (M2 & L2 & Hs' & Hk & Hz & ->). cbn. intros dl s3 ->.
  unfold wbuf_free. destruct M1 as [[-> M1]|(Hp & Hni & M1)]; [cbn|rewrite (proj2 (Z.eqb_neq _ 0)) by lia; cbn; intros [] s4 ->; cbn];
    rewrite M2, M1, L2; (split_and!; [try done; clear -Hni; set_solver|done..| |intros _; eexists; by rewrite last_snoc]); auto.
Qed.

Lemma dlopen_win_ok_witness :
  wp (dl_env false) (@ffdl_open_win RefUni 0 [97] FFDL_SELFDIR_win) (λ '(dl, _) s', dls_mem s' = ∅ ∧
    dls_libs s' = (if dl =? 0 then ∅ else {[+ dl +]} ⊎ ∅)) never (DlState ∅ ∅ []).
Proof.
  eapply wp_mono; [apply (@dlopen_win_ok RefUni false 0 [97] FFDL_SELFDIR_win (DlState ∅ ∅ []))| |done].
  - by left.
  - intros [dl sup'] s' (HM & _ & _ & HL & _). by split.
Defined.
