(* ===== verification/SysInfo.v ===== *)
(** * FFOS/sysconf.h, random.h, filemap.h: system parameters, random numbers, file mapping *)
From S2P Require Import Prelude Prog Unix Win.

(** ** sysconf.h *)

Definition FFSYSCONF_PAGESIZE_win := 1.
Definition FFSYSCONF_NPROCESSORS_ONLN_win := 2.
(** [ffsysconf]: the allocation granularity and the number of processors. *)
Definition ffsysconf_init_win : prog winE (Z * Z) := call GetNativeSystemInfo.
Definition ffsysconf_get_win (sc : Z * Z) (id : Z) : Z :=
  if id =? FFSYSCONF_PAGESIZE_win then s32 sc.1
  else if id =? FFSYSCONF_NPROCESSORS_ONLN_win then s32 sc.2
  else 0.

Definition ffsysconf_init (sc : Z) : prog unixE unit := Ret tt.
Definition FFSYSCONF_PAGESIZE := 30.
Definition FFSYSCONF_NPROCESSORS_ONLN := 84.
Definition ffsysconf_get (id : Z) : prog unixE Z := let! r := u_sysconf id in Ret (s32 r).

(** ** random.h *)

Definition ffrand_seed_win (seed : Z) : prog winE unit := Ret tt.
Definition ffrand_get_win : prog winE Z := let! i := rand_s in Ret (s32 i).
Definition ffrand_seed (seed : Z) : prog unixE unit := call (u_srandom seed).
Definition ffrand_get : prog unixE Z := let! r := u_random in Ret (s32 r).

(** ** filemap.h *)

(** enum FFMMAP_PAGEACCESS, FFMMAP_PROT and FFMMAP_FLAGS. *)
Definition FFMMAP_READ_win := 2.
Definition FFMMAP_READWRITE_win := 4.
Definition PROT_READ_win := 4.
Definition PROT_WRITE_win := 2.
Definition PROT_EXEC_win := 32.
Definition MAP_SHARED_win := 0.
Definition MAP_ANONYMOUS_win := 0.
Definition FFMMAP_READ := 0.
Definition FFMMAP_READWRITE := 0.

Definition ERROR_FILE_INVALID := 1006.
(** The mapping of an empty file. *)
Definition FFMMAP_EMPTY : Z := -2.
Definition ffmmap_create_win (fd max_size access : Z) : prog winE Z :=
  let! fmap := CreateFileMapping fd access (u32 (Z.shiftr max_size 32)) (u32 max_size) in
  if fmap =? 0 then let! e := GetLastError in Ret (if e =? ERROR_FILE_INVALID then FFMMAP_EMPTY else fmap)
  else Ret fmap.
Definition ffmmap_open_win (fmap offset size prot flags : Z) : prog winE Z :=
  call (MapViewOfFile fmap prot (u32 (Z.shiftr offset 32)) (u32 offset) size).
Definition ffmmap_unmap_win (p sz : Z) : prog winE Z := let! ok := UnmapViewOfFile p in Ret (b2z (negb ok)).
Definition ffmmap_close_win (fmap : Z) : prog winE unit :=
  if negb (fmap =? FFMMAP_EMPTY) then do! CloseHandle fmap in Ret tt else Ret tt.

Definition MAP_FAILED : Z := -1.
Definition ffmmap_create (fd max_size access : Z) : Z := fd.
Definition ffmmap_open (fd offset size prot flags : Z) : prog unixE Z :=
  let! h := u_mmap size prot flags fd offset in Ret (if negb (h =? MAP_FAILED) then h else 0).
Definition ffmmap_unmap (p sz : Z) : prog unixE Z := call (u_munmap p sz).
Definition ffmmap_close (fmap : Z) : prog unixE unit := Ret tt.

(** ** Properties *)

(** A file of [size] bytes, the open handles, and the views: their address, offset and length (0: to the
    end of the mapping). *)
Record map_state := MapState { mp_err : Z; mp_maps : gmap Z Z; mp_views : gmap Z (Z * Z) }.
Definition map_env (file size : Z) : env winE map_state := λ s X e,
  match e in winE X return X → map_state → Prop with
  | CreateFileMapping fd _ hi lo => λ r s', mp_views s' = mp_views s ∧
      ((r = 0 ∧ mp_maps s' = mp_maps s ∧ (mp_err s' = ERROR_FILE_INVALID → size = 0)) ∨
       (0 < r ∧ size ≠ 0 ∧ mp_maps s !! r = None ∧
        mp_maps s' = <[r := if hi * 2 ^ 32 + lo =? 0 then size else hi * 2 ^ 32 + lo]> (mp_maps s)))
  | GetLastError => λ r s', s' = s ∧ r = mp_err s
  | MapViewOfFile h _ hi lo len => λ r s', mp_maps s' = mp_maps s ∧
      ((r = 0 ∧ mp_views s' = mp_views s) ∨
       (0 < r ∧ mp_views s !! r = None ∧ mp_views s' = <[r := (hi * 2 ^ 32 + lo, len)]> (mp_views s) ∧
        ∃ max, mp_maps s !! h = Some max ∧ hi * 2 ^ 32 + lo + len ≤ max))
  | UnmapViewOfFile p => λ ok s', mp_maps s' = mp_maps s ∧ mp_views s' = delete p (mp_views s) ∧
      (is_Some (mp_views s !! p) → ok = true)
  | CloseHandle h => λ _ s', mp_views s' = mp_views s ∧ mp_maps s' = delete h (mp_maps s)
  | _ => λ _ s', s' = s
  end.

Lemma halves x : is_u64 x → u32 (Z.shiftr x 32) * 2 ^ 32 + u32 x = x.
Proof.
  intros Hx. unfold is_u64 in Hx. rewrite Z.shiftr_div_pow2 by done. rewrite (u32_small (x / 2 ^ 32)) by (unfold is_u32; dlia).
  unfold u32, uwrap. dlia.
Qed.

(** mapping a part of a file and releasing everything again, on Windows.  The view is exactly the
    part that was asked for, for any 64-bit offset and size, although they are passed in halves; an empty file
    has no view but is no error, and the marker for it is never closed as a handle; afterwards all views and
    mappings are as before. *)
Theorem filemap_win_ok file size fd max access offset len prot s :
  is_u64 max → is_u64 offset → mp_maps s !! FFMMAP_EMPTY = None →
  wp (map_env file size)
    (let* m := ffmmap_create_win fd max access in
     if m =? 0 then Ret (m, 0, None) else
     let* p := ffmmap_open_win m offset len prot 0 in
     let! e := GetLastError in
     let* r := if p =? 0 then Ret None else let* r := ffmmap_unmap_win p len in Ret (Some r) in
     do* ffmmap_close_win m in Ret (m, p, r))
    (λ '(m, p, r) s', mp_maps s' = mp_maps s ∧ mp_views s' = mp_views s ∧
      (m = FFMMAP_EMPTY → size = 0 ∧ p = 0) ∧
      (p ≠ 0 → r = Some 0 ∧ offset + len ≤ if max =? 0 then size else max)) never s.
Proof.
  intros Hm Ho He. unfold ffmmap_create_win. cbn -[Z.shiftr u32]. intros m s1 [V1 Hmap].
  rewrite halves in Hmap by done. destruct Hmap as [(-> & M1 & Hz)|(Hm0 & Hsz & Hni & M1)].
  - cbn -[Z.shiftr u32]. intros e s2 [-> ->]. destruct (Z.eqb_spec (mp_err s1) ERROR_FILE_INVALID) as [E|E]; [|cbn; by split_and!].
    cbn -[Z.shiftr u32]. intros p s2 [M2 [[-> V2]|(Hp & _ & _ & max' & Hl & _)]]; [|by rewrite M1, He in Hl].
    cbn -[Z.shiftr u32]. intros e s3 [-> ->]. cbn. split_and!; [congruence|congruence|auto|done].
  - rewrite (proj2 (Z.eqb_neq m 0)) by lia. cbn -[Z.shiftr u32]. rewrite (proj2 (Z.eqb_neq m 0)) by lia.
    cbn -[Z.shiftr u32]. intros p s2 [M2 Hv]. cbn -[Z.shiftr u32]. intros e s3 [-> ->]. rewrite halves in Hv by done.
    assert (m =? FFMMAP_EMPTY = false) as Hne by (apply Z.eqb_neq; unfold FFMMAP_EMPTY; lia).
    assert (delete m (mp_maps s1) = mp_maps s) as HD by (rewrite M1; by apply delete_insert_id).
    unfold ffmmap_close_win. rewrite Hne. destruct Hv as [[-> V2]|(Hp & Hvi & V2 & max' & Hl & Hle)].
    + cbn. intros b s4 [V4 M4]. split_and!; [congruence|congruence|unfold FFMMAP_EMPTY; lia|done].
    + rewrite (proj2 (Z.eqb_neq p 0)) by lia. cbn. intros ok s4 (M4 & V4 & Hok).
      assert (ok = true) as -> by (apply Hok; rewrite V2; by rewrite lookup_insert_eq).
      cbn. intros b s5 [V5 M5]. split_and!; [congruence| |unfold FFMMAP_EMPTY; lia|].
      * rewrite V5, V4, V2, delete_insert_id by done. done.
      * intros _. split; [done|]. rewrite M1, lookup_insert_eq in Hl. injection Hl as <-. done.
Qed.

Lemma filemap_win_ok_witness :
  wp (map_env 3 8192)
    (let* m := ffmmap_create_win 3 0 2 in
     if m =? 0 then Ret (m, 0, None) else
     let* p := ffmmap_open_win m 4096 100 4 0 in
     let! e := GetLastError in
     let* r := if p =? 0 then Ret None else let* r := ffmmap_unmap_win p 100 in Ret (Some r) in
     do* ffmmap_close_win m in Ret (m, p, r))
    (λ '(m, p, r) s', mp_maps s' = ∅ ∧ mp_views s' = ∅) never (MapState 0 ∅ ∅).
Proof.
  eapply wp_mono; [apply (filemap_win_ok 3 8192 3 0 2 4096 100 4 (MapState 0 ∅ ∅)); (done || (unfold is_u64; lia))| |done].
  intros [[m p] r] s' (HM & HV & _). by split.
Defined.
