(* ===== verification/Backtrace.v ===== *)
(** * FFOS/backtrace.h: the frames of the stack and their modules *)
From S2P Require Import Prelude Prog Unix Win FileUnix.

Definition MAX_FRAMES := 64.

(** ** Windows *)

(** [ffthread_bt]: the frames, the index of the frame whose module is known (-1: none), its base, and the
    buffer for names. *)
Record bt_win := BtWin { bw_frames : list Z; bw_i_mod : Z; bw_base : Z; bw_wname : wstr }.
Definition bw_n (bt : bt_win) : Z := Z.of_nat (length (bw_frames bt)).

(** [old]: before Windows Vista. *)
Definition ffthread_backtrace_win (old : bool) : prog winE (Z * bt_win) :=
  let n := if old then Z.min 62 MAX_FRAMES else MAX_FRAMES in
  let! frames := CaptureStackBackTrace n in
  Ret (s32 (Z.of_nat (length frames)), BtWin frames (-1) 0 []).

Definition ffthread_backtrace_frame (frames : list Z) (i : Z) : Z := default 0 (frames !! Z.to_nat i).

(** The base of the module of frame [i], with the object: [None]: not found. *)
Definition bt_module (bt : bt_win) (i : Z) : prog winE (option bt_win) :=
  if negb (i =? u32 (bw_i_mod bt)) then
    let! '(ok, mod_) := GetModuleHandleExW (ffthread_backtrace_frame (bw_frames bt) i) in
    Ret (if ok : bool then Some (BtWin (bw_frames bt) (s32 i) mod_ (bw_wname bt)) else None)
  else Ret (Some bt).

Definition ffthread_backtrace_modbase_win (bt : bt_win) (i : Z) : prog winE (Z * bt_win) :=
  if bw_n bt <=? i then Ret (0, bt) else
  let* r := bt_module bt i in
  Ret (match r with Some bt => (bw_base bt, bt) | None => (0, bt) end).

Definition ffthread_backtrace_modname_win (bt : bt_win) (i : Z) : prog winE (option wstr * bt_win) :=
  if (bw_n bt <=? i) || (ffthread_backtrace_frame (bw_frames bt) i =? 0) then Ret (None, bt) else
  let* r := bt_module bt i in
  match r with
  | None => Ret (None, bt)
  | Some bt =>
      let! '(n, name) := GetModuleFileNameW_of (bw_base bt) 1024 in
      let name := if n =? 0 then [] else name in
      Ret (Some name, BtWin (bw_frames bt) (bw_i_mod bt) (bw_base bt) name)
  end.

(** ** UNIX *)

(** [info]: [dli_fbase] and [dli_fname]. *)
Record ffthread_bt := Bt { bt_frames : list Z; bt_i_info : Z; bt_info : Z * cstr }.
Definition bt_n (bt : ffthread_bt) : Z := Z.of_nat (length (bt_frames bt)).

Definition ffthread_backtrace : prog unixE (Z * ffthread_bt) :=
  let! frames := u_backtrace MAX_FRAMES in
  Ret (s32 (Z.of_nat (length frames)), Bt frames (-1) (0, [])).

(** Whether there is a module; dladdr() stores into [info] itself. *)
Definition bt_dladdr (bt : ffthread_bt) (i : Z) : prog unixE (bool * ffthread_bt) :=
  if negb (i =? u32 (bt_i_info bt)) then
    let! '(r, info) := u_dladdr (ffthread_backtrace_frame (bt_frames bt) i) (bt_info bt) in
    Ret (if r =? 0 then (false, Bt (bt_frames bt) (bt_i_info bt) info) else (true, Bt (bt_frames bt) (s32 i) info))
  else Ret (true, bt).

Definition ffthread_backtrace_modbase (bt : ffthread_bt) (i : Z) : prog unixE (Z * ffthread_bt) :=
  if bt_n bt <=? i then Ret (0, bt) else
  let* '(ok, bt) := bt_dladdr bt i in
  Ret (if ok : bool then (bt_info bt).1 else 0, bt).

Definition ffthread_backtrace_modname (bt : ffthread_bt) (i : Z) : prog unixE (option cstr * ffthread_bt) :=
  if (bt_n bt <=? i) || (ffthread_backtrace_frame (bt_frames bt) i =? 0) then Ret (None, bt) else
  let* '(ok, bt) := bt_dladdr bt i in
  Ret (if ok : bool then Some (bt_info bt).2 else None, bt).

(** *** Printing *)

(** ffbase: a growing string, its block (0: NULL) and its bytes; the arguments of a line. *)
Record growstr := GrowStr { g_ptr : Z; g_bytes : list Z }.
Class BtFmt := {
  ffstr_alloc : Z → prog unixE growstr;
  ffstr_growfmt : growstr → Z → Z → Z → option cstr → Z → prog unixE growstr;  (* i, frame, offset, name, base *)
  ffstr_free : growstr → prog unixE unit;
}.

Section print.
Context `{BtFmt}.
(** One frame: the base is asked for the offset, then the name, then the base again. *)
Definition print_step (bt : ffthread_bt) (s : growstr) (i : Z) : prog unixE (ffthread_bt * growstr) :=
  let frame := ffthread_backtrace_frame (bt_frames bt) i in
  let* '(base, bt) := ffthread_backtrace_modbase bt i in
  let offset := u64 (frame - base) in
  let* '(name, bt) := ffthread_backtrace_modname bt i in
  let* '(base, bt) := ffthread_backtrace_modbase bt i in
  let* s := ffstr_growfmt s i frame offset name base in
  Ret (bt, s).

Fixpoint print_frames (k : nat) (i : Z) (bt : ffthread_bt) (s : growstr) : prog unixE growstr :=
  match k with
  | O => Ret s
  | S k => let* '(bt, s) := print_step bt s i in print_frames k (i + 1) bt s
  end.

Definition ffthread_backtrace_print (fd limit : Z) : prog unixE unit :=
  let* '(r, bt) := ffthread_backtrace in
  let n := u32 r in
  let n := if negb (limit =? 0) && (limit <? n) then limit else n in
  let* s := ffstr_alloc (u32 (n * 80)) in
  let* s := print_frames (Z.to_nat n) 0 bt s in
  do* fffile_write fd (g_bytes s) in
  ffstr_free s.
End print.

(** ** Properties *)

(** The modules of the process: the base and the name for an address within a module. *)
Section lookups.
Context (modules : Z → option (Z * list Z)).

Definition mod_env : env unixE unit := λ _ X e,
  match e in unixE X return X → unit → Prop with
  | u_backtrace n => λ fr _, Z.of_nat (length fr) ≤ n
  | u_dladdr a old => λ '(r, info) _,   (* a look-up that fails leaves the structure as it is *)
      match modules a with Some m => r ≠ 0 ∧ info = m | None => r = 0 ∧ info = old end
  | _ => λ _ _, True
  end.
Definition mod_env_win : env winE unit := λ _ X e,
  match e in winE X return X → unit → Prop with
  | CaptureStackBackTrace n => λ fr _, Z.of_nat (length fr) ≤ n
  | GetModuleHandleExW a => λ '(ok, m) _, match modules a with Some m' => ok = true ∧ m = m'.1 | None => ok = false end
  | _ => λ _ _, True
  end.

(** What is remembered is right: the module of the frame whose index is kept. *)
Definition bt_ok (frames : list Z) (bt : ffthread_bt) : Prop :=
  bt_frames bt = frames ∧ (bt_i_info bt = -1 ∨
    ∃ a, 0 ≤ bt_i_info bt ∧ frames !! Z.to_nat (bt_i_info bt) = Some a ∧ modules a = Some (bt_info bt)).
Definition bw_ok (frames : list Z) (bt : bt_win) : Prop :=
  bw_frames bt = frames ∧ (bw_i_mod bt = -1 ∨
    ∃ a m, 0 ≤ bw_i_mod bt ∧ frames !! Z.to_nat (bw_i_mod bt) = Some a ∧ modules a = Some m ∧ bw_base bt = m.1).

(** The module of a frame. *)
Definition frame_mod (frames : list Z) (i : Z) : option (Z * list Z) := frames !! Z.to_nat i ≫= modules.

Lemma frame_at frames i : 0 ≤ i < Z.of_nat (length frames) →
  ∃ a, frames !! Z.to_nat i = Some a ∧ ffthread_backtrace_frame frames i = a.
Proof.
  intros Hi. destruct (lookup_lt_is_Some_2 frames (Z.to_nat i)) as [a Ha]; [lia|]. exists a.
  unfold ffthread_backtrace_frame. by rewrite Ha.
Qed.

Lemma dladdr_wp frames bt i : bt_ok frames bt → 0 ≤ i < Z.of_nat (length frames) → Z.of_nat (length frames) ≤ MAX_FRAMES →
  wp mod_env (bt_dladdr bt i) (λ '(ok, bt) _, bt_ok frames bt ∧
    frame_mod frames i = if ok : bool then Some (bt_info bt) else None) never tt.
Proof.
  intros [Hf Hc] Hi Hn. unfold MAX_FRAMES in Hn. destruct (frame_at frames i Hi) as (a & Ha & Hfa).
  unfold bt_dladdr, frame_mod. rewrite Ha, Hf, Hfa. cbn [mbind option_bind].
  destruct (Z.eqb_spec i (u32 (bt_i_info bt))) as [E|E]; cbn.
  - destruct Hc as [Hc|(a' & Hc & Ha' & Hm)]; [rewrite Hc in E; change (u32 (-1)) with 4294967295 in E; lia|].
    assert (Z.to_nat (bt_i_info bt) < length frames)%nat as Hlt by (by eapply lookup_lt_Some).
    rewrite u32_small in E by (unfold is_u32; lia). rewrite <- E in *. assert (a' = a) as -> by congruence.
    split; [|done]. split; [done|]. right. exists a. rewrite <- E. auto.
  - intros [r info] [] Hr. destruct (modules a) as [m|] eqn:Em; cbn.
    + destruct Hr as [Hr ->]. rewrite (proj2 (Z.eqb_neq r 0)) by done. split; [|done]. split; [done|]. right. exists a.
      cbn. rewrite s32_small by (unfold is_s32; lia). split_and!; [lia|done|done].
    + destruct Hr as [-> ->]. cbn. split; [|done]. split; [done|exact Hc].
Qed.

Lemma module_wp frames bt i : bw_ok frames bt → 0 ≤ i < Z.of_nat (length frames) → Z.of_nat (length frames) ≤ MAX_FRAMES →
  wp mod_env_win (bt_module bt i) (λ r _,
    match r with
    | Some bt => bw_ok frames bt ∧ fst <$> frame_mod frames i = Some (bw_base bt)
    | None => frame_mod frames i = None
    end) never tt.
Proof.
  intros [Hf Hc] Hi Hn. unfold MAX_FRAMES in Hn. destruct (frame_at frames i Hi) as (a & Ha & Hfa).
  unfold bt_module, frame_mod. rewrite Ha, Hf, Hfa. cbn [mbind option_bind].
  destruct (Z.eqb_spec i (u32 (bw_i_mod bt))) as [E|E]; cbn.
  - destruct Hc as [Hc|(a' & m & Hc & Ha' & Hm & Hb)]; [rewrite Hc in E; change (u32 (-1)) with 4294967295 in E; lia|].
    assert (Z.to_nat (bw_i_mod bt) < length frames)%nat as Hlt by (by eapply lookup_lt_Some).
    rewrite u32_small in E by (unfold is_u32; lia). rewrite <- E in *. assert (a' = a) as -> by congruence.
    rewrite Hm, Hb. split; [|done]. split; [done|]. right. exists a, m. rewrite <- E. auto.
  - intros [ok b] [] Hr. destruct (modules a) as [m|] eqn:Em; cbn.
    + destruct Hr as [-> ->]. split; [|done]. split; [done|]. right. exists a, m.
      cbn. rewrite s32_small by (unfold is_s32; lia). split_and!; (done || lia).
    + by rewrite Hr.
Qed.

(** The functions of Windows answer with the same module. *)
Lemma modbase_win_ok frames bt i : bw_ok frames bt → 0 ≤ i → Z.of_nat (length frames) ≤ MAX_FRAMES →
  wp mod_env_win (ffthread_backtrace_modbase_win bt i) (λ '(b, bt') _,
    bw_ok frames bt' ∧ b = default 0 (fst <$> frame_mod frames i)) never tt.
Proof.
  intros Hb Hi Hn. unfold ffthread_backtrace_modbase_win, bw_n. rewrite (proj1 Hb).
  destruct (Z.leb_spec (Z.of_nat (length frames)) i) as [Hge|Hlt].
  { cbn. split; [done|]. unfold frame_mod. by rewrite lookup_ge_None_2 by lia. }
  apply wp_bind. eapply wp_mono; [by apply module_wp| |done]. intros [bt'|] [] H; cbn.
  - destruct H as [H ->]. by split.
  - rewrite H. by split.
Qed.

Lemma modname_win_ok frames bt i : bw_ok frames bt → 0 ≤ i → Z.of_nat (length frames) ≤ MAX_FRAMES →
  wp mod_env_win (ffthread_backtrace_modname_win bt i) (λ '(n, bt') _, bw_ok frames bt' ∧
    (is_Some n ↔ ffthread_backtrace_frame frames i ≠ 0 ∧ is_Some (frame_mod frames i))) never tt.
Proof.
  intros Hb Hi Hn. unfold ffthread_backtrace_modname_win, bw_n. rewrite (proj1 Hb).
  destruct (Z.leb_spec (Z.of_nat (length frames)) i) as [Hge|Hlt]; cbn [orb].
  { cbn. split; [done|]. unfold frame_mod. rewrite lookup_ge_None_2 by lia. split; [by intros []|by intros [_ []]]. }
  destruct (Z.eqb_spec (ffthread_backtrace_frame frames i) 0) as [E|E].
  { cbn. split; [done|]. split; [by intros []|tauto]. }
  apply wp_bind. eapply wp_mono; [by apply module_wp| |done]. intros [bt'|] [] H; cbn.
  - destruct H as [H H2]. intros [n nm] [] _. cbn. split; [destruct H as [Hf Hc]; by split|].
    split; [|by eexists]. intros _. split; [done|]. destruct (frame_mod frames i); [by eexists|done].
  - rewrite H. split; [done|]. split; [by intros []|by intros [_ []]].
Qed.

(** Queries: the base or the name of the module of a frame. *)
Inductive bt_query := BaseOf (i : Z) | NameOf (i : Z).
Definition ask (bt : ffthread_bt) (q : bt_query) : prog unixE ((Z + option cstr) * ffthread_bt) :=
  match q with
  | BaseOf i => let* '(b, bt) := ffthread_backtrace_modbase bt i in Ret (inl b, bt)
  | NameOf i => let* '(n, bt) := ffthread_backtrace_modname bt i in Ret (inr n, bt)
  end.
Fixpoint ask_all (bt : ffthread_bt) (qs : list bt_query) : prog unixE (list (Z + option cstr)) :=
  match qs with
  | [] => Ret []
  | q :: qs => let* '(a, bt) := ask bt q in let* l := ask_all bt qs in Ret (a :: l)
  end.

(** The right answers: of the frame's own module, NULL outside of the backtrace and of all modules. *)
Definition answer (frames : list Z) (q : bt_query) : Z + option cstr :=
  match q with
  | BaseOf i => inl (default 0 (fst <$> frame_mod frames i))
  | NameOf i => inr (if ffthread_backtrace_frame frames i =? 0 then None else snd <$> frame_mod frames i)
  end.
Definition query_index (q : bt_query) : Z := match q with BaseOf i | NameOf i => i end.

Lemma frame_mod_out frames i : Z.of_nat (length frames) ≤ i → frame_mod frames i = None.
Proof. intros Hi. unfold frame_mod. by rewrite lookup_ge_None_2 by lia. Qed.

Lemma ask_wp frames bt q : bt_ok frames bt → 0 ≤ query_index q → Z.of_nat (length frames) ≤ MAX_FRAMES →
  wp mod_env (ask bt q) (λ '(a, bt') _, bt_ok frames bt' ∧ a = answer frames q) never tt.
Proof.
  intros Hb Hi Hn. assert (bt_n bt = Z.of_nat (length frames)) as Hbn by (unfold bt_n; by rewrite (proj1 Hb)).
  destruct q as [i|i]; cbn [ask query_index answer] in *; apply wp_bind;
    [unfold ffthread_backtrace_modbase|unfold ffthread_backtrace_modname]; rewrite Hbn;
    (destruct (Z.leb_spec (Z.of_nat (length frames)) i) as [Hge|Hlt]; cbn [orb];
      [rewrite frame_mod_out by done; cbn; split; [done|]; try done; by destruct (_ =? 0)|]).
  - apply wp_bind. eapply wp_mono; [by apply dladdr_wp| |done]. intros [ok bt'] [] [H ->]; cbn. by destruct ok.
  - rewrite (proj1 Hb). destruct (_ =? 0); [cbn; by split|].
    apply wp_bind. eapply wp_mono; [by apply dladdr_wp| |done]. intros [ok bt'] [] [H ->]; cbn. by destruct ok.
Qed.

(** C22: a backtrace on UNIX answers every sequence of queries, in any order and with any indices, with
    the base and the name of the module of that very frame, although only the last module that was looked up
    is remembered; a failed look-up replaces neither it nor, as the C libraries do, the structure that dladdr() fills. *)
Theorem backtrace_queries_ok qs : Forall (λ q, 0 ≤ query_index q) qs →
  wp mod_env (let* '(n, bt) := ffthread_backtrace in let* l := ask_all bt qs in Ret (n, bt_frames bt, l))
    (λ '(n, frames, l) _, n = Z.of_nat (length frames) ∧ l = answer frames <$> qs) never tt.
Proof.
  intros Hq. cbn. intros frames [] Hn. apply wp_bind.
  assert (∀ bt, bt_ok frames bt → wp mod_env (ask_all bt qs) (λ l _, l = answer frames <$> qs) never tt) as HA.
  { induction Hq as [|q qs Hi Hq IH]; intros bt Hb; [done|]. cbn [ask_all]. apply wp_bind.
    eapply wp_mono; [by apply ask_wp| |done]. intros [a bt'] [] [Hb' ->]. apply wp_bind.
    eapply wp_mono; [by apply IH| |done]. intros l [] ->. done. }
  eapply wp_mono; [apply HA; split; [done|by left]| |done]. intros l [] ->. cbn. split; [|done].
  unfold MAX_FRAMES in Hn. apply s32_small. unfold is_s32. lia.
Qed.
End lookups.

(** *** Printing *)

(** The string owns its block, and nothing else is allocated. *)
Definition str_owned (m : gset Z) (g : growstr) (s s' : ustate) : Prop :=
  us_fds s' = us_fds s ∧ us_dirs s' = us_dirs s ∧ us_unlinked s' = us_unlinked s ∧ us_io s' = us_io s ∧
  ((g_ptr g = 0 ∧ us_mem s' = m) ∨ (0 < g_ptr g ∧ (g_ptr g ∉ m) ∧ us_mem s' = {[g_ptr g]} ∪ m)).
Class BtFmtLaws (B : BtFmt) : Prop := {
  str_alloc_law n s : wp ustep (ffstr_alloc n) (λ g s', str_owned (us_mem s) g s s') never s;
  str_growfmt_law m g i f o n b s : str_owned m g s s →
    wp ustep (ffstr_growfmt g i f o n b) (λ g' s', str_owned m g' s s') never s;
  str_free_law m g s : str_owned m g s s → wp ustep (ffstr_free g) (λ _ s',
    us_fds s' = us_fds s ∧ us_dirs s' = us_dirs s ∧ us_unlinked s' = us_unlinked s ∧ us_io s' = us_io s ∧ us_mem s' = m) never s;
}.

Lemma str_owned_same m g s s1 s2 : str_owned m g s s1 → same s1 s2 → str_owned m g s s2.
Proof. intros (A1 & A2 & A3 & A4 & A5) (B1 & B2 & B3 & B4 & B5). unfold str_owned. rewrite B1, B2, B3, B4, B5. auto. Qed.
Lemma str_owned_trans m g g' s s1 s2 : str_owned m g s s1 → str_owned m g' s1 s2 → str_owned m g' s s2.
Proof. intros (A1 & A2 & A3 & A4 & _) (B1 & B2 & B3 & B4 & B5). unfold str_owned. split_and!; [congruence..|done]. Qed.
Lemma str_owned_self m g s s1 : str_owned m g s s1 → str_owned m g s1 s1.
Proof. intros (_ & _ & _ & _ & A5). by split_and!. Qed.

Lemma query_same bt i s : wp ustep (ffthread_backtrace_modbase bt i) (λ _ s', same s s') never s ∧
  wp ustep (ffthread_backtrace_modname bt i) (λ _ s', same s s') never s.
Proof.
  assert (wp ustep (bt_dladdr bt i) (λ _ s', same s s') never s) as H.
  { unfold bt_dladdr. destruct (negb _); [|by cbn]. cbn. intros [r info] s1 H1. by destruct (r =? 0). }
  unfold ffthread_backtrace_modbase, ffthread_backtrace_modname. split.
  - destruct (_ <=? _); [by cbn|]. apply wp_bind. eapply wp_mono; [exact H| |done]. by intros [[] ?] s1 H1.
  - destruct (_ || _); [by cbn|]. apply wp_bind. eapply wp_mono; [exact H| |done]. by intros [[] ?] s1 H1.
Qed.

Section print_laws.
Context `{B : BtFmt, !BtFmtLaws B}.

Lemma print_frames_wp m k : ∀ i bt g s0 s, str_owned m g s0 s →
  wp ustep (print_frames k i bt g) (λ g' s', str_owned m g' s0 s') never s.
Proof using All.
  induction k as [|k IH]; intros i bt g s0 s Hg; [done|]. cbn [print_frames]. unfold print_step.
  apply wp_bind, wp_bind. eapply wp_mono; [apply query_same| |done]. intros [b1 bt1] s1 H1.
  apply wp_bind. eapply wp_mono; [apply query_same| |done]. intros [n bt2] s2 H2.
  apply wp_bind. eapply wp_mono; [apply query_same| |done]. intros [b2 bt3] s3 H3.
  assert (str_owned m g s0 s3) as Hg3 by (eapply str_owned_same; [exact Hg|eauto using same_trans]).
  apply wp_bind. eapply wp_mono; [eapply str_growfmt_law, str_owned_self, Hg3| |done].
  intros g' s4 H4. cbn [wp]. apply IH. by eapply str_owned_trans.
Qed.

(** Printing terminates, writes at most once, and releases its memory, whatever fails. *)
Lemma print_ok fd limit s : wp ustep (ffthread_backtrace_print fd limit) (λ _ s',
  us_mem s' = us_mem s ∧ us_fds s' = us_fds s ∧
  (us_io s' = us_io s ∨ ∃ d, us_io s' = us_io s ++ [IoWrite fd d])) never s.
Proof using All.
  unfold ffthread_backtrace_print. apply wp_bind. cbn -[print_frames Z.mul u32 s32]. intros frames s1 H1.
  apply wp_bind. eapply wp_mono; [apply str_alloc_law| |done]. intros g s2 H2.
  apply wp_bind. eapply wp_mono; [eapply print_frames_wp, H2| |done]. intros g' s3 H3.
  cbn. intros r s4 (E1 & E2 & E3 & E4 & Hr & E5).
  eapply wp_mono; [apply (str_free_law (us_mem s1) g')| |done].
  - destruct H3 as (_ & _ & _ & _ & H3). split_and!; [done..|]. by rewrite E2.
  - intros [] s5 (F1 & F2 & F3 & F4 & F5). destruct H1 as (A1 & A2 & A3 & A4 & A5), H3 as (B1 & B2 & B3 & B4 & _).
    split_and!; [congruence..|]. rewrite F4, E5, B4, A5. destruct (r =? -1); [by left|right; by eexists].
Qed.
End print_laws.

Lemma backtrace_queries_ok_witness :
  wp (mod_env (λ a, if a <? 100 then None else Some (100, [108])))
    (let* '(n, bt) := ffthread_backtrace in let* l := ask_all bt [BaseOf 0; NameOf 1; BaseOf 70] in Ret (n, bt_frames bt, l))
    (λ '(n, frames, l) _, length l = 3%nat) never tt.
Proof.
  eapply wp_mono; [apply (backtrace_queries_ok (λ a, if a <? 100 then None else Some (100, [108])) [BaseOf 0; NameOf 1; BaseOf 70])| |done].
  - repeat constructor; cbn; lia.
  - intros [[n fr] l] [] [_ ->]. reflexivity.
Defined.
