(* ===== verification/Server.v ===== *)
(** * Servers on a kernel queue: what the two examples share

    The network as a server sees it (listening, accepted connections, what is received and sent,
    the edge-triggered queue), the log of what happens, and the abstract server of examples/: a
    message is offered to certain connections before anything else happens. *)
From S2P Require Import Prelude Prog Ffbase Vec Unix Socket Queue Std Process.

(** ** Output *)

(** The arguments of the %-formatter of ffbase. *)
Inductive fmt_arg := FInt (x : Z) | FStr (s : list Z).

(** ffstr_growfmtv(): the length of the text, the string (block, bytes); ffs_format(): the bytes
    stored in a buffer of the given capacity; strerror(). *)
Class FmtLib := {
  ffstr_growfmtv : list Z → list fmt_arg → prog unixE (Z * (Z * list Z));
  ffs_format : Z → list Z → list fmt_arg → list Z;
  strerror : Z → list Z;
  ffstr_to_uint32 : list Z → option Z;
}.

Definition fflog `{FmtLib} (fmt : list Z) (args : list fmt_arg) : prog unixE unit :=
  do* ffstdout_fmt (ffstr_growfmtv (fmt ++ [10]) args) in Ret tt.
Definition fferr_strptr `{FmtLib} (code : Z) : list Z := strerror code.

(** The fatal error of both servers: a message, and the end of the process. *)
Definition die `{FmtLib} (file : list Z) (ex : bool) (func : list Z) (line : Z) : prog unixE unit :=
  if negb ex then Ret tt else
  let! e := get_errno in
  do* fflog (bytes_of "ERR : fatal error in %s(), %s:%d: (%d) %s")
        [FStr func; FStr file; FInt line; FInt e; FStr (fferr_strptr e)] in
  do! u_exit 1 in Halt Exited.

(** ** The network *)

Inductive nev :=
  | Accepted (sk : Z)
  | Received (sk : Z) (d : list Z)   (* recv() delivered these bytes *)
  | Ended (sk : Z)                   (* recv() answered 0: the peer has closed *)
  | Offered (sk : Z) (d : list Z)    (* send() was called with these bytes *)
  | Closed (sk : Z).

Record net := Net {
  n_errno : Z;
  n_fds : gset Z;           (* open descriptors *)
  n_reg : gmap Z Z;         (* the descriptors in the queue, with their data *)
  n_mem : gset Z;           (* heap blocks *)
  n_oom : bool;             (* an allocation has failed *)
  n_trace : list nev }.

Definition nsame (s s' : net) : Prop :=
  n_fds s' = n_fds s ∧ n_reg s' = n_reg s ∧ n_mem s' = n_mem s ∧ n_trace s' = n_trace s ∧
  (n_oom s = true → n_oom s' = true).

Definition n_new_fd (s : net) (r : Z) (s' : net) : Prop :=
  n_reg s' = n_reg s ∧ n_mem s' = n_mem s ∧ n_oom s' = n_oom s ∧
  ((r = -1 ∧ n_fds s' = n_fds s) ∨ (0 ≤ r ∧ (r ∉ n_fds s) ∧ n_fds s' = {[r]} ∪ n_fds s)).

Definition inet_bytes (bytes : list Z) : Prop :=
  ∃ port ip, bytes = le16 AF_INET ++ be16 port ++ ip ++ replicate 8 0 ∧ length ip = 4%nat.

(** Every call may fail; memory may run out.  The queue reports registered descriptors only, and a
    closed one is registered no more; a wait without a time limit does not answer 0. *)
Definition net_env : env unixE net := λ s X e,
  match e in unixE X return X → net → Prop with
  | get_errno => λ r s', r = n_errno s ∧ s' = s
  | ffmem_alloc _ => λ r s', n_fds s' = n_fds s ∧ n_reg s' = n_reg s ∧ n_trace s' = n_trace s ∧
      ((r = 0 ∧ n_mem s' = n_mem s ∧ n_oom s' = true) ∨
       (0 < r ∧ (r ∉ n_mem s) ∧ n_mem s' = {[r]} ∪ n_mem s ∧ n_oom s' = n_oom s))
  | ffmem_free p => λ _ s', n_fds s' = n_fds s ∧ n_reg s' = n_reg s ∧ n_trace s' = n_trace s ∧
      n_oom s' = n_oom s ∧ n_mem s' = (n_mem s ∖ {[p]})
  | u_epoll_create _ | u_socket _ _ _ => λ r s', n_new_fd s r s' ∧ n_trace s' = n_trace s
  | u_epoll_ctl _ _ fd _ data => λ r s', n_fds s' = n_fds s ∧ n_mem s' = n_mem s ∧ n_trace s' = n_trace s ∧
      n_oom s' = n_oom s ∧ n_reg s' = if r =? 0 then <[fd := data]> (n_reg s) else n_reg s
  | u_epoll_wait _ cap timeout => λ r s', nsame s s' ∧
      (r.1 < 0 ∨ ((if timeout <? 0 then 1 else 0) ≤ r.1 ≤ cap ∧ Z.of_nat (length r.2) = r.1 ∧
                  ∀ ev, ev ∈ r.2 → ∃ fd, n_reg s !! fd = Some (ee_data ev)))
  | u_accept4 _ _ _ => λ r s', n_new_fd s r.1 s' ∧
      n_trace s' = n_trace s ++ (if r.1 =? -1 then [] else [Accepted r.1]) ∧ (r.1 ≠ -1 → inet_bytes r.2.2)
  | u_close fd => λ _ s', n_fds s' = (n_fds s ∖ {[fd]}) ∧ n_reg s' = delete fd (n_reg s) ∧ n_mem s' = n_mem s ∧
      n_oom s' = n_oom s ∧ n_trace s' = n_trace s ++ [Closed fd]
  | u_recv sk cap _ => λ r s', n_fds s' = n_fds s ∧ n_reg s' = n_reg s ∧ n_mem s' = n_mem s ∧ n_oom s' = n_oom s ∧
      ((r = (-1, []) ∧ n_trace s' = n_trace s) ∨ (r = (0, []) ∧ n_trace s' = n_trace s ++ [Ended sk]) ∨
       (0 < r.1 ≤ cap ∧ Z.of_nat (length r.2) = r.1 ∧ n_trace s' = n_trace s ++ [Received sk r.2]))
  | u_send sk d _ => λ r s', n_fds s' = n_fds s ∧ n_reg s' = n_reg s ∧ n_mem s' = n_mem s ∧ n_oom s' = n_oom s ∧
      (r = -1 ∨ 0 ≤ r ≤ Z.of_nat (length d)) ∧ n_trace s' = n_trace s ++ [Offered sk d]
  | _ => λ _ s', nsame s s'
  end.

(** All but the heap is unchanged. *)
Definition but_nmem (s s' : net) : Prop :=
  n_fds s' = n_fds s ∧ n_reg s' = n_reg s ∧ n_trace s' = n_trace s ∧ (n_oom s = true → n_oom s' = true).

Definition net0 : net := Net 0 ∅ ∅ ∅ false [].

Class FmtLaws (F : FmtLib) : Prop := {
  growfmt_law f args s : wp net_env (ffstr_growfmtv f args) (λ '(r, (blk, d)) s',
    n_fds s' = n_fds s ∧ n_reg s' = n_reg s ∧ n_trace s' = n_trace s ∧ (n_oom s = true → n_oom s' = true) ∧
    ((blk = 0 ∧ n_mem s' = n_mem s) ∨ (0 < blk ∧ (blk ∉ n_mem s) ∧ n_mem s' = {[blk]} ∪ n_mem s))) never s;
}.

(** ** The abstract server: what may happen, [tgt ms sk] being the connections that get what [sk] has
    sent, when the connections are [ms]. *)
Inductive served (tgt : list Z → Z → list Z) : list Z → list nev → Prop :=
  | served_init : served tgt [] []
  | served_accept ms t sk : served tgt ms t → (sk ∉ ms) → served tgt (ms ++ [sk]) (t ++ [Accepted sk])
  | served_message ms t sk d : served tgt ms t → sk ∈ ms →
      served tgt ms (t ++ Received sk d :: map (λ m, Offered m d) (tgt ms sk))
  | served_end ms t sk ms' : served tgt ms t → ms ≡ₚ sk :: ms' → served tgt ms' (t ++ [Ended sk; Closed sk]).

(** A beginning of what may happen. *)
Definition serving (tgt : list Z → Z → list Z) (t : list nev) : Prop := ∃ ms r, served tgt ms (t ++ r).

Lemma served_serving tgt ms t : served tgt ms t → serving tgt t.
Proof. intros H. exists ms, []. by rewrite app_nil_r. Qed.
#[export] Hint Resolve served_serving : ffos.

(** ** The state of a server that serves

    [conns] maps the address of each connection's object to its socket, [ms] lists the sockets, [vp] is
    the block of the server's list of its connections (0: it keeps none). *)
Section world.
Context (tgt : list Z → Z → list Z) (conf srv : Z).

Record world (kq lsk vp : Z) (conns : gmap Z Z) (ms : list Z) (s : net) : Prop := World {
  w_served : served tgt ms (n_trace s);
  w_nodup : NoDup (kq :: lsk :: ms);
  w_pos : Forall (λ sk, 0 ≤ sk) ms;
  w_socks sk : sk ∈ ms ↔ ∃ c, conns !! c = Some sk;
  w_inj c c' sk : conns !! c = Some sk → conns !! c' = Some sk → c = c';
  w_fds : n_fds s = {[kq; lsk]} ∪ list_to_set ms;
  w_mem : holds ({[conf; srv]} ∪ dom conns) vp (n_mem s);
  w_own : (conf ∉ dom conns) ∧ (srv ∉ dom conns);
  w_reg fd d : n_reg s !! fd = Some d → (fd = lsk ∧ d = srv) ∨ conns !! d = Some fd }.

Lemma world_same kq lsk vp conns ms s s' : nsame s s' → world kq lsk vp conns ms s → world kq lsk vp conns ms s'.
Proof.
  intros (E1 & E2 & E3 & E4 & _) []. by split; rewrite ?E1, ?E2, ?E3, ?E4.
Qed.

Lemma world_serving kq lsk vp conns ms s : world kq lsk vp conns ms s → serving tgt (n_trace s).
Proof. intros []. by eapply served_serving. Qed.

(** The listening socket is open and in the queue. *)
Lemma world_start kq lsk s : kq ≠ lsk → n_fds s = {[kq; lsk]} → n_mem s = {[conf; srv]} → n_trace s = [] →
  n_reg s = {[lsk := srv]} → world kq lsk 0 ∅ [] s.
Proof.
  intros Hne F M T R. split.
  - rewrite T. apply served_init.
  - rewrite !NoDup_cons. split_and!; [set_solver..|apply NoDup_nil_2].
  - by apply Forall_nil.
  - intros sk. split; [by intros ?%elem_of_nil|]. intros [c Hc]. by rewrite lookup_empty in Hc.
  - intros c c' sk Hc. by rewrite lookup_empty in Hc.
  - rewrite F. cbn. clear. set_solver.
  - rewrite M, dom_empty_L, (right_id_L ∅ _). apply holds_none.
  - rewrite dom_empty_L. clear. set_solver.
  - intros fd d. rewrite R. intros [<- <-]%lookup_singleton_Some. by left.
Qed.

Lemma serving_accept kq lsk vp conns ms s sk s1 :
  world kq lsk vp conns ms s → n_new_fd s sk s1 → sk ≠ -1 → n_trace s1 = n_trace s ++ [Accepted sk] →
  serving tgt (n_trace s1).
Proof.
  intros [] (_ & _ & _ & [[? _] |(_ & Hni & _)]) Hne T; [done|]. rewrite T.
  eapply served_serving, served_accept; [done|]. rewrite w_fds0 in Hni. clear -Hni. set_solver.
Qed.

(** A connection is accepted and its object allocated. *)
Lemma world_accept kq lsk vp conns ms s sk s1 c s2 :
  world kq lsk vp conns ms s → n_new_fd s sk s1 → sk ≠ -1 → n_trace s1 = n_trace s ++ [Accepted sk] →
  n_fds s2 = n_fds s1 → n_reg s2 = n_reg s1 → n_trace s2 = n_trace s1 → (c ∉ n_mem s1) → n_mem s2 = {[c]} ∪ n_mem s1 →
  world kq lsk vp (<[c := sk]> conns) (ms ++ [sk]) s2.
Proof.
  intros [] (R1 & M1 & _ & [ [? _]|(Hge & Hni & F1)]) Hsk T1 F2 R2 T2 Hc M2; [done|].
  assert ((sk ∉ kq :: lsk :: ms) ∧ (c ∉ dom conns) ∧ c ≠ conf ∧ c ≠ srv) as (Nsk & Nc & Ncf & Nsv).
  { destruct w_mem0 as [Hm _]. rewrite M1, Hm in Hc. rewrite w_fds0 in Hni. clear -Hni Hc. set_solver. }
  split.
  - rewrite T2, T1. apply served_accept; [done|]. clear -Nsk. set_solver.
  - change (NoDup ((kq :: lsk :: ms) ++ [sk])). apply NoDup_app. split_and!; [done| |apply NoDup_singleton].
    intros x Hx ->%list_elem_of_singleton. by apply Nsk.
  - apply Forall_app. by split; [|apply Forall_singleton].
  - intros x. rewrite elem_of_app, list_elem_of_singleton, w_socks0. split.
    + intros [[p Hp]| ->]; [exists p|exists c; by rewrite lookup_insert_eq].
      rewrite lookup_insert_ne; [done|]. intros <-. apply Nc. by apply elem_of_dom_2 in Hp.
    + intros [p Hp]. apply lookup_insert_Some in Hp as [[_ ->]|[_ Hp]]; [by right|left; by exists p].
  - intros p q x Hp Hq.
    assert (∀ p, conns !! p = Some sk → False) as Hno.
    { intros p' Hp'. apply Nsk. do 2 right. apply w_socks0. by exists p'. }
    apply lookup_insert_Some in Hp as [[<- <-]|[_ Hp]]; apply lookup_insert_Some in Hq as [[<- ?]|[_ Hq]];
      simplify_eq; try done; [by destruct (Hno q)|by destruct (Hno p)|by eapply w_inj0].
  - rewrite F2, F1, w_fds0. clear. set_solver.
  - destruct w_mem0 as (Hm & Hd & Hp). rewrite M1, Hm in Hc. unfold holds. rewrite M2, M1, Hm, dom_insert_L.
    clear -Hd Hp Hc. split_and!; [set_solver|set_solver|done].
  - rewrite dom_insert_L. destruct w_own0. clear -H H0 Ncf Nsv. set_solver.
  - rewrite R2, R1. intros fd d [H|H]%w_reg0; [by left|right]. rewrite lookup_insert_ne; [done|].
    intros <-. apply Nc. by apply elem_of_dom_2 in H.
Qed.

(** The list of connections has another block. *)
Lemma world_grow kq lsk vp vp' conns ms s s' :
  world kq lsk vp conns ms s → but_nmem s s' → holds ({[conf; srv]} ∪ dom conns) vp' (n_mem s') →
  world kq lsk vp' conns ms s'.
Proof. intros [] (F & R & T & _) Hm. by split; rewrite ?F, ?R, ?T. Qed.

(** The connection is added to the queue. *)
Lemma world_attach kq lsk vp conns ms s c sk s' :
  world kq lsk vp conns ms s → conns !! c = Some sk →
  n_fds s' = n_fds s → n_mem s' = n_mem s → n_trace s' = n_trace s → n_reg s' = <[sk := c]> (n_reg s) →
  world kq lsk vp conns ms s'.
Proof.
  intros [] Hc F M T R. split; rewrite ?F, ?M, ?T; try done.
  intros fd d H. rewrite R in H. apply lookup_insert_Some in H as [[<- <-]|[_ H]]; [by right|auto].
Qed.

(** A message has been received and offered. *)
Lemma world_message kq lsk vp conns ms s c sk d s' :
  world kq lsk vp conns ms s → conns !! c = Some sk →
  n_fds s' = n_fds s → n_mem s' = n_mem s → n_reg s' = n_reg s →
  n_trace s' = n_trace s ++ Received sk d :: map (λ m, Offered m d) (tgt ms sk) → world kq lsk vp conns ms s'.
Proof.
  intros [] Hc F M R T. split; rewrite ?F, ?M, ?R; try done. rewrite T.
  apply served_message; [done|]. apply w_socks0. by exists c.
Qed.

(** The message is being offered. *)
Lemma serving_message kq lsk vp conns ms s c sk d done rest t :
  world kq lsk vp conns ms s → conns !! c = Some sk → done ++ rest = tgt ms sk →
  t = n_trace s ++ Received sk d :: map (λ m, Offered m d) done → serving tgt t.
Proof.
  intros [] Hc E ->. exists ms, (map (λ m, Offered m d) rest).
  rewrite <- app_assoc. cbn. rewrite <- map_app, E. apply served_message; [done|]. apply w_socks0. by exists c.
Qed.

(** The peer has closed; the connection is closed and its object freed. *)
Lemma serving_ended kq lsk vp conns ms s c sk : world kq lsk vp conns ms s → conns !! c = Some sk →
  serving tgt (n_trace s ++ [Ended sk]).
Proof.
  intros [] Hc. assert (sk ∈ ms) as Hin by (apply w_socks0; by exists c).
  apply elem_of_Permutation in Hin as [ms' Hms]. exists ms', [Closed sk]. rewrite <- app_assoc. by eapply served_end.
Qed.

Lemma world_close kq lsk vp conns ms s c sk ms' s' :
  world kq lsk vp conns ms s → conns !! c = Some sk → ms ≡ₚ sk :: ms' →
  n_fds s' = (n_fds s ∖ {[sk]}) → n_reg s' = delete sk (n_reg s) → n_mem s' = (n_mem s ∖ {[c]}) →
  n_trace s' = n_trace s ++ [Ended sk; Closed sk] → world kq lsk vp (delete c conns) ms' s'.
Proof.
  intros [] Hc Hms F R M T.
  assert (NoDup (kq :: lsk :: sk :: ms')) as Hnd by (by rewrite <- Hms).
  assert (sk ∉ ms' ∧ sk ≠ kq ∧ sk ≠ lsk) as (N1 & N2 & N3).
  { clear -Hnd. rewrite !NoDup_cons in Hnd. set_solver. }
  split.
  - rewrite T. by eapply served_end.
  - clear -Hnd. rewrite !NoDup_cons in *. set_solver.
  - rewrite Hms in w_pos0. by apply Forall_cons in w_pos0 as [_ ?].
  - intros x. split.
    + intros Hx. assert (x ∈ ms) as [p Hp]%w_socks0 by (rewrite Hms; by right). exists p.
      rewrite lookup_delete_ne; [done|]. intros <-. congruence.
    + intros [p Hp]. apply lookup_delete_Some in Hp as [Hne Hp].
      assert (x ∈ ms) as Hx by (apply w_socks0; by exists p). rewrite Hms in Hx.
      apply elem_of_cons in Hx as [-> | Hx]; [|done]. destruct Hne. by eapply w_inj0.
  - intros p q x [_ Hp]%lookup_delete_Some [_ Hq]%lookup_delete_Some. by eapply w_inj0.
  - rewrite F, w_fds0, Hms. cbn. clear -N1 N2 N3. set_solver.
  - destruct w_mem0 as (Hm & Hd & Hp). unfold holds. rewrite M, Hm, dom_delete_L. destruct w_own0.
    assert (c ∈ dom conns) by by apply elem_of_dom_2 in Hc. clear -H H0 H1 Hd Hp. split_and!; [set_solver|set_solver|done].
  - rewrite dom_delete_L. destruct w_own0. clear -H H0. set_solver.
  - rewrite R. intros fd d [Hne H]%lookup_delete_Some. apply w_reg0 in H as [H|H]; [by left|right].
    rewrite lookup_delete_ne; [done|]. intros <-. congruence.
Qed.
End world.

(** What may have stopped a server: fuel (it serves), a fatal error, an allocation that failed. *)
Definition stopped (tgt : list Z → Z → list Z) (h : halt) (s : net) : Prop :=
  match h with
  | OutOfFuel => ∃ conf srv kq lsk vp conns ms, world tgt conf srv kq lsk vp conns ms s
  | Exited => serving tgt (n_trace s)
  | OutOfBounds => n_oom s = true ∧ serving tgt (n_trace s)
  | AssertFail => False
  end.

(** ** Rules of the calls both servers make *)

Lemma nsame_refl s : nsame s s.
Proof. by split_and!. Qed.
Lemma nsame_trans s1 s2 s3 : nsame s1 s2 → nsame s2 s3 → nsame s1 s3.
Proof. unfold nsame. intros (?&?&?&?&?) (?&?&?&?&?). split_and!; [congruence..|auto]. Qed.
#[export] Hint Resolve nsame_refl nsame_trans : ffos.

Section rules.
Context `{F : FmtLib, !FmtLaws F}.

Lemma fflog_wp f args s : wp net_env (fflog f args) (λ _ s', nsame s s') never s.
Proof.
  unfold fflog, ffstdout_fmt, std_fmt. do 2 apply wp_bind. eapply wp_mono; [apply growfmt_law| |done].
  intros [r [blk d]] s1 (F1 & R1 & T1 & O1 & M1). apply wp_bind.
  assert (∀ (r' : Z) s2, nsame s1 s2 → wp net_env (if blk =? 0 then Ret r' else do! ffmem_free blk in Ret r')
    (λ r, wp net_env (Ret tt) (λ _, nsame s) never) never s2) as HF.
  { intros r' s2 (F2 & R2 & M2 & T2 & O2). destruct M1 as [[-> M1]|(Hp & Hni & M1)].
    - cbn. unfold nsame. split_and!; [congruence..|auto].
    - rewrite (proj2 (Z.eqb_neq blk 0)) by lia. cbn. intros _ s3 (F3 & R3 & T3 & O3 & M3). unfold nsame.
      split_and!; [congruence..| |congruence|rewrite O3; auto]. rewrite M3, M2, M1. clear -Hni. set_solver. }
  destruct (negb (r =? 0)); [|apply HF, nsame_refl]. cbn -[Z.eqb]. intros r' s2 H2. by apply HF.
Qed.

Lemma fflog_bind {A} f args (k : prog unixE A) Q F' s :
  (∀ s', nsame s s' → wp net_env k Q F' s') → wp net_env (do* fflog f args in k) Q F' s.
Proof.
  intros Hk. apply wp_bind. eapply wp_mono; [apply fflog_wp| |done]. intros [] s'. apply Hk.
Qed.

Lemma serving_nil tgt s : n_trace s = [] → serving tgt (n_trace s).
Proof using Type. intros ->. by eapply served_serving, served_init. Qed.

(** A call that succeeds, or the process ends. *)
Lemma die_bind {A} tgt file ex func line (k : prog unixE A) Q s :
  serving tgt (n_trace s) → (ex = false → wp net_env k Q (stopped tgt) s) →
  wp net_env (do* die file ex func line in k) Q (stopped tgt) s.
Proof.
  intros Hs Hk. destruct ex; [|by apply Hk]. cbn -[fflog]. intros e s1 [_ ->]. apply wp_bind.
  apply fflog_bind. intros s2 (_ & _ & _ & T2 & _). cbn. intros _ s3 (_ & _ & _ & T3 & _). by rewrite T3, T2.
Qed.
End rules.

(** The address of an IPv4 client. *)
Lemma inet_ip a n bytes : inet_bytes bytes → ∃ b0 b1 b2 b3,
  (ffsockaddr_ip_port (SockAddr n (sa_store a bytes))).1 = [b0; b1; b2; b3].
Proof.
  intros (port & ip & -> & Hip). destruct ip as [|b0 [|b1 [|b2 [|b3 [|]]]]]; try discriminate.
  exists b0, b1, b2, b3. unfold ffsockaddr_ip_port, sa_store, splice, sa_family, be16. cbn -[u8 u16 get16 Z.shiftr].
  by change (get16 (u8 AF_INET) (u8 (Z.shiftr AF_INET 8)) =? AF_INET) with true.
Qed.

(** A formatter that writes nothing. *)
#[export] Instance RefFmt : FmtLib := {|
  ffstr_growfmtv _ _ := Ret (0, (0, [])); ffs_format _ _ _ := []; strerror _ := []; ffstr_to_uint32 _ := None |}.
#[export] Instance RefFmtLaws : FmtLaws RefFmt.
Proof. split. intros f args s. cbn. split_and!; auto. Qed.

(** ** A kernel with clients waiting, to evaluate the servers on *)

(** The queue is edge-triggered: it reports that clients are waiting once, and would then block for ever
    (the wait fails instead).  Everything succeeds; nothing is received. *)
Record demo := Demo { d_next : Z; d_srv : Z; d_waiting : nat; d_reported : bool }.
Definition demo_kernel (s : demo) (X : Type) (e : unixE X) : X * demo :=
  let fresh := Demo (d_next s + 1) (d_srv s) (d_waiting s) (d_reported s) in
  match e in unixE X return X * demo with
  | get_errno => (EAGAIN, s)
  | ffmem_alloc _ | u_epoll_create _ | u_socket _ _ _ => (d_next s, fresh)
  | u_epoll_ctl _ _ _ _ data =>
      (0, if d_srv s =? 0 then Demo (d_next s) data (d_waiting s) (d_reported s) else s)
  | u_epoll_wait _ _ _ =>
      if d_reported s then ((-1, []), s)
      else ((1, [EpollEvent EPOLLIN (d_srv s)]), Demo (d_next s) (d_srv s) (d_waiting s) true)
  | u_accept4 _ _ _ =>
      match d_waiting s with
      | O => ((-1, (28, [])), s)
      | S n => ((d_next s, (16, le16 AF_INET ++ be16 80 ++ [127; 0; 0; 1] ++ replicate 8 0)),
                Demo (d_next s + 1) (d_srv s) n (d_reported s))
      end
  | u_recv _ _ _ => ((-1, []), s)
  | u_bind _ _ | u_listen _ _ => (0, s)
  | u_getsockname _ _ => ((0, (16, [])), s)
  | _ => (inhabitant, s)
  end.
