(* ===== verification/TestLib.v ===== *)
(** * FFOS/test.h: the checks that the tests are made of

    A check counts a success or reports a failure on standard error, and ends the process unless the
    tests are to go on.  The growing string and its formatter belong to ffbase (class [FmtGrow]); abort()
    ends the process ([Exited]). *)
From S2P Require Import Prelude Prog Vec Unix Error Std Server.

(** The formatter: the text of a format and its arguments; a text or a character is added at the end of a
    string, which stays as it is when memory has run out. *)
Class FmtGrow := {
  fmt_text : list Z → list fmt_arg → list Z;
  ffstr_growfmt : dvec → list Z → list fmt_arg → prog unixE dvec;
  ffstr_growaddchar : dvec → Z → prog unixE dvec;
}.

(** [struct ffos_test]; the variable [fftest]. *)
Record ffos_test := FfosTest { checks_success : Z; keep_running : bool; log_all_checks : bool }.

Section test.
Context `{FmtGrow}.

(** What ffstderr_fmt() gets from the formatter: the length, and the string. *)
Definition fmt_new (fmt : list Z) (args : list fmt_arg) : prog unixE (Z * (Z * list Z)) :=
  let* s := ffstr_growfmt vec_null fmt args in Ret (Z.of_nat (length (v_data s)), (v_ptr s, v_data s)).

Definition test_check (fftest : ffos_test) (ok : bool) (file : list Z) (line : Z) (func fmt : list Z)
    (va : list fmt_arg) : prog unixE ffos_test :=
  do* if log_all_checks fftest then
        let* e := fferr_last in
        do* ffstderr_fmt (fmt_new (bytes_of "%s:%d" ++ [10]) [FStr file; FInt line]) in
        fferr_set e
      else Ret tt in
  if ok then Ret (FfosTest (u32 (checks_success fftest + 1)) (keep_running fftest) (log_all_checks fftest)) else
  let* s := ffstr_growfmt vec_null (bytes_of "FAIL: %s:%u: %s: ") [FStr file; FInt line; FStr func] in
  let* s := ffstr_growfmt s fmt va in
  let* s := ffstr_growaddchar s 10 in
  do* ffstderr_write (v_data s) in
  do* vec_free ffmem_free s in
  if keep_running fftest then Ret fftest else Halt Exited.

(** The macros; [at_]: the function test_check() at the place of the macro, with its file, line and function. *)
Section macros.
Context (at_ : bool → list Z → list fmt_arg → prog unixE ffos_test).
Definition x (expr : bool) (text : list Z) : prog unixE ffos_test := at_ expr (bytes_of "%s") [FStr text].
Definition xieq (i1 i2 : Z) : prog unixE ffos_test :=
  at_ (s64 i1 =? s64 i2) (bytes_of "%D != %D") [FInt (s64 i1); FInt (s64 i2)].
Definition xstr (str sz : list Z) : prog unixE ffos_test :=
  at_ (bool_decide (str = sz)) (bytes_of "'%S' != '%s'") [FStr str; FStr sz].
Definition xsz (sz1 sz2 : list Z) : prog unixE ffos_test :=
  at_ (bool_decide (sz1 = sz2)) (bytes_of "'%s' != '%s'") [FStr sz1; FStr sz2].
(** Both are arguments of one call: [expr_first] is the order the compiler chooses. *)
Definition x_sys (expr_first : bool) (expr : prog unixE bool) (text : list Z) : prog unixE ffos_test :=
  let* '(ok, e) := if expr_first then let* ok := expr in let* e := fferr_last in Ret (ok, e)
                   else let* e := fferr_last in let* ok := expr in Ret (ok, e) in
  at_ ok (bytes_of "%s: %E") [FStr text; FInt e].
Definition xint_sys (i1 i2 : Z) : prog unixE ffos_test :=
  let* e := fferr_last in
  at_ (s64 i1 =? s64 i2) (bytes_of "%D != %D: %E") [FInt (s64 i1); FInt (s64 i2); FInt e].
End macros.
End test.

(** ** Properties *)

(** errno, the heap, the texts that were given to write(), and whether memory has run out. *)
Record tstate := TState { ts_errno : Z; ts_mem : gset Z; ts_log : list (Z * list Z); ts_oom : bool }.
Definition test_env : env unixE tstate := λ s X e,
  match e in unixE X return X → tstate → Prop with
  | get_errno => λ r s', r = ts_errno s ∧ s' = s
  | set_errno e => λ _ s', s' = TState e (ts_mem s) (ts_log s) (ts_oom s)
  | ffmem_alloc _ => λ r s', ts_log s' = ts_log s ∧
      ((r = 0 ∧ ts_mem s' = ts_mem s ∧ ts_oom s' = true) ∨
       (0 < r ∧ (r ∉ ts_mem s) ∧ ts_mem s' = {[r]} ∪ ts_mem s ∧ ts_oom s' = ts_oom s))
  | ffmem_free p => λ _ s', s' = TState (ts_errno s) (ts_mem s ∖ {[p]}) (ts_log s) (ts_oom s)
  | u_write fd d => λ _ s', ts_mem s' = ts_mem s ∧ ts_oom s' = ts_oom s ∧ ts_log s' = ts_log s ++ [(fd, d)]
  | _ => λ _ s', s' = s
  end.
Definition but_tmem (s s' : tstate) : Prop := ts_log s' = ts_log s ∧ (ts_oom s = true → ts_oom s' = true).

(** A text is added, or memory has run out. *)
Definition added_text (M : gset Z) (v : dvec) (t : list Z) (s : tstate) (v' : dvec) (s' : tstate) : Prop :=
  but_tmem s s' ∧ holds M (v_ptr v') (ts_mem s') ∧
  (ts_oom s' = false → v_data v' = v_data v ++ t).
Class FmtGrowLaws (F : FmtGrow) : Prop := {
  growfmt_text M v fmt args s : holds M (v_ptr v) (ts_mem s) →
    wp test_env (ffstr_growfmt v fmt args) (added_text M v (fmt_text fmt args) s) never s;
  growaddchar_text M v c s : holds M (v_ptr v) (ts_mem s) →
    wp test_env (ffstr_growaddchar v c) (added_text M v [c] s) never s;
}.

Section laws.
Context `{F : FmtGrow, !FmtGrowLaws F}.

(** One check: the place of the macro, the condition and the message. *)
Record check := Check { c_ok : bool; c_file : list Z; c_line : Z; c_func : list Z; c_fmt : list Z; c_args : list fmt_arg }.
Definition run_check (t : ffos_test) (c : check) : prog unixE ffos_test :=
  test_check t (c_ok c) (c_file c) (c_line c) (c_func c) (c_fmt c) (c_args c).

(** What a check writes. *)
Definition stderr_line (t : list Z) : list (Z * list Z) := if (length t =? 0)%nat then [] else [(2, t)].
Definition report (log_all : bool) (c : check) : list (Z * list Z) :=
  (if log_all then stderr_line (fmt_text (bytes_of "%s:%d" ++ [10]) [FStr (c_file c); FInt (c_line c)]) else []) ++
  (if c_ok c then []
   else [(2, (fmt_text (bytes_of "FAIL: %s:%u: %s: ") [FStr (c_file c); FInt (c_line c); FStr (c_func c)] ++
              fmt_text (c_fmt c) (c_args c)) ++ [10])]).
Definition counted (t : ffos_test) (c : check) : ffos_test :=
  if c_ok c then FfosTest (u32 (checks_success t + 1)) (keep_running t) (log_all_checks t) else t.

(** Nothing stays allocated; while memory lasts, [l] has been written. *)
Definition wrote (s : tstate) (l : list (Z * list Z)) (s' : tstate) : Prop :=
  ts_mem s' = ts_mem s ∧ (ts_oom s = true → ts_oom s' = true) ∧ (ts_oom s' = false → ts_log s' = ts_log s ++ l).

Lemma wrote_refl s : wrote s [] s.
Proof. unfold wrote. by rewrite app_nil_r. Qed.
Lemma wrote_app s l1 s1 l2 s2 : wrote s l1 s1 → wrote s1 l2 s2 → wrote s (l1 ++ l2) s2.
Proof.
  intros (M1 & O1 & L1) (M2 & O2 & L2). split_and!; [congruence|auto|]. intros O. rewrite L2, L1, app_assoc by done || (destruct (ts_oom s1); [by rewrite O2 in O|done]). done.
Qed.
#[local] Hint Resolve wrote_refl : core.

(** The line with the place of the check. *)
Lemma place_wp fmt args s :
  wp test_env (ffstderr_fmt (fmt_new fmt args)) (λ _ s', wrote s (stderr_line (fmt_text fmt args)) s') never s.
Proof using All.
  unfold ffstderr_fmt, std_fmt, fmt_new. do 2 apply wp_bind.
  eapply wp_mono; [apply (growfmt_text (ts_mem s)), holds_none| |done].
  intros [p d] s1 ([L1 O1] & HM & Hd). cbn [v_ptr v_data vec_null app] in *. cbn [wp]. apply wp_bind.
  assert (∀ s2, ts_mem s2 = ts_mem s1 → ts_oom s2 = ts_oom s1 → ts_log s2 = ts_log s1 ++ stderr_line d → ∀ r : Z,
    wp test_env (if p =? 0 then Ret r else do! ffmem_free p in Ret r) (λ _ s', wrote s (stderr_line (fmt_text fmt args)) s') never s2) as HK.
  { intros s2 M2 O2 L2 r. destruct HM as (HM & Hdis & _). unfold owned in *. destruct (p =? 0); cbn.
    - split_and!; [rewrite M2, HM; clear; set_solver|rewrite O2; auto|]. intros O. rewrite O2 in O. by rewrite L2, L1, (Hd O).
    - intros _ s3 ->. unfold wrote. cbn [ts_mem ts_oom ts_log]. split_and!; [rewrite M2, HM; clear -Hdis; set_solver|rewrite O2; auto|].
      intros O. rewrite O2 in O. by rewrite L2, L1, (Hd O). }
  unfold stderr_line in HK at 1. rewrite Nat2Z.id, firstn_all.
  destruct (length d =? 0)%nat eqn:E; [apply Nat.eqb_eq in E|apply Nat.eqb_neq in E].
  - rewrite E. cbn [Z.of_nat Z.eqb negb wp]. apply HK; [done|done|by rewrite app_nil_r].
  - rewrite (proj2 (Z.eqb_neq _ 0)) by lia. cbn [negb]. unfold ffstderr_write. cbn [call wp]. intros r s2 (M2 & O2 & L2). by apply HK.
Qed.

Lemma check_wp t c s :
  wp test_env (run_check t c) (λ t' s', t' = counted t c ∧ (c_ok c = true ∨ keep_running t = true) ∧
      (c_ok c = true → ts_errno s' = ts_errno s) ∧ wrote s (report (log_all_checks t) c) s')
    (λ h s', h = Exited ∧ c_ok c = false ∧ keep_running t = false ∧ wrote s (report (log_all_checks t) c) s') s.
Proof using All.
  unfold run_check, test_check, report, counted. apply wp_bind.
  set (place := if log_all_checks t then _ else _ : list (Z * list Z)).
  eapply (wp_mono _ _ (λ _ s', ts_errno s' = ts_errno s ∧ wrote s place s') _ never); [| |done].
  { unfold place. destruct (log_all_checks t); [|cbn; auto]. cbn -[ffstderr_fmt]. intros e s1 [-> ->].
    apply wp_bind. eapply wp_mono; [apply place_wp| |done]. intros _ s1 (M1 & O1 & L1). cbn. intros _ s2 ->. done. }
  intros _ s1 [E1 W1]. destruct (c_ok c); [cbn; rewrite app_nil_r; auto|].
  apply wp_bind. eapply wp_mono; [apply (growfmt_text (ts_mem s1)), holds_none| |done].
  intros v2 s2 ([L2 O2] & HM2 & D2). apply wp_bind. eapply wp_mono; [by apply (growfmt_text (ts_mem s1))| |done].
  intros v3 s3 ([L3 O3] & HM3 & D3). apply wp_bind. eapply wp_mono; [by apply (growaddchar_text (ts_mem s1))| |done].
  intros v4 s4 ([L4 O4] & HM4 & D4). cbn -[vec_free]. intros r s5 (M5 & O5 & L5). apply wp_bind.
  set (fail := (_ ++ _) ++ [10]). assert (∀ s6, ts_mem s6 = ts_mem s1 → ts_oom s6 = ts_oom s5 → ts_log s6 = ts_log s5 →
    wrote s (place ++ [(2, fail)]) s6) as HW.
  { intros s6 M6 O6 L6. eapply wrote_app; [exact W1|]. split_and!; [done|rewrite O6, O5; auto|]. intros O.
    rewrite O6, O5 in O. assert (ts_oom s3 = false) as O3' by (destruct (ts_oom s3); [by rewrite O4 in O|done]).
    assert (ts_oom s2 = false) as O2' by (destruct (ts_oom s2); [by rewrite O3 in O3'|done]).
    by rewrite L6, L5, L4, L3, L2, (D4 O), (D3 O3'), (D2 O2'). }
  eapply (wp_mono _ _ (λ _ s', ts_mem s' = ts_mem s1 ∧ ts_oom s' = ts_oom s5 ∧ ts_log s' = ts_log s5) _ never); [| |done].
  { unfold vec_free. destruct HM4 as (HM4 & Hd & _). unfold owned in *. destruct (v_ptr v4 =? 0); cbn.
    - split_and!; [|done..]. rewrite M5, HM4. clear. set_solver.
    - intros _ s6 ->. cbn. split_and!; [|done..]. rewrite M5, HM4. clear -Hd. set_solver. }
  intros _ s6 (M6 & O6 & L6). destruct (keep_running t); cbn; split_and!; auto; done.
Qed.

(** Checks one after another. *)
Fixpoint run_checks (t : ffos_test) (l : list check) : prog unixE ffos_test :=
  match l with [] => Ret t | c :: l => let* t := run_check t c in run_checks t l end.

(** a run of checks: while memory lasts, exactly the failed ones are reported on standard error, in
    order, each with its place and its message on a line of its own; the passed ones are counted (modulo
    2^32) and leave errno as it was even if their places are logged.  The run ends at the first failed check unless the
    tests are to go on; nothing stays allocated. *)
Theorem checks_reported t l s :
  wp test_env (run_checks t l)
    (λ t' s', t' = foldl counted t l ∧ (keep_running t = true ∨ Forall (λ c, c_ok c = true) l) ∧
       (Forall (λ c, c_ok c = true) l → ts_errno s' = ts_errno s) ∧
       wrote s (concat (map (report (log_all_checks t)) l)) s')
    (λ h s', h = Exited ∧ keep_running t = false ∧ ∃ l1 c l2, l = l1 ++ c :: l2 ∧ Forall (λ c, c_ok c = true) l1 ∧
       c_ok c = false ∧ wrote s (concat (map (report (log_all_checks t)) (l1 ++ [c]))) s') s.
Proof using All.
  revert t s. induction l as [|c l IH]; intros t s; cbn [run_checks]; [cbn; auto|].
  apply wp_bind. eapply wp_mono; [apply check_wp| |].
  - intros t1 s1 (-> & Hc & He & W). assert (keep_running (counted t c) = keep_running t ∧ log_all_checks (counted t c) = log_all_checks t) as [Hk Hl].
    { unfold counted. by destruct (c_ok c). }
    eapply wp_mono; [apply IH| |]; rewrite Hk, Hl.
    + intros t2 s2 (-> & Hok & He2 & W2). split_and!; [done| | |cbn; by eapply wrote_app].
      * destruct Hc as [Hc|Hc], Hok as [Hok|Hok]; auto.
      * intros [Hc' Hl']%Forall_cons. rewrite He2, He; auto.
    + intros h s2 (-> & Hkr & l1 & c' & l2 & -> & Hl1 & Hc' & W2). split; [done|]. split; [done|].
      exists (c :: l1), c', l2. destruct Hc as [Hc|]; [|congruence]. split_and!; [done|by constructor|done|]. cbn. by eapply wrote_app.
  - intros h s1 (-> & Hc & Hk & W). split; [done|]. split; [done|]. exists [], c, l. cbn. rewrite app_nil_r. auto.
Qed.
End laws.

(** A formatter that gives the format itself. *)
#[export] Instance RefFmtGrow : FmtGrow := {|
  fmt_text fmt _ := fmt;
  ffstr_growfmt v fmt _ :=
    let* '(p, ok) := ref_grow ffmem_alloc ffmem_free (v_ptr v) (Z.of_nat (length (v_data v))) (Z.of_nat (length fmt)) in
    Ret (DVec p (if ok : bool then v_data v ++ fmt else v_data v));
  ffstr_growaddchar v c :=
    let* '(p, ok) := ref_grow ffmem_alloc ffmem_free (v_ptr v) (Z.of_nat (length (v_data v))) 1 in
    Ret (DVec p (if ok : bool then v_data v ++ [c] else v_data v)) |}.
#[export] Instance RefFmtGrowLaws : FmtGrowLaws RefFmtGrow.
Proof.
  assert (L : @VecLaws unixE {| ffvec_grow := ref_grow ffmem_alloc ffmem_free |} tstate test_env ts_mem but_tmem (λ s, ts_oom s = true)).
  { apply ref_grow_laws; unfold but_tmem.
    - intros s n r s' (T & [(? & M & O)|(? & ? & M & O)]); rewrite T, O; split_and!; auto.
    - by intros s p [] s' ->.
    - intros s1 s2 s3 (? & ?) (? & ?). split; [congruence|auto]. }
  assert (∀ M v n t s, holds M (v_ptr v) (ts_mem s) → wp test_env
    (let* '(p, ok) := ref_grow ffmem_alloc ffmem_free (v_ptr v) (Z.of_nat (length (v_data v))) n in
     Ret (DVec p (if ok : bool then v_data v ++ t else v_data v))) (added_text M v t s) never s) as HG.
  { intros M v n t s HM. apply wp_bind. eapply wp_mono; [by apply (@grow_law _ _ _ _ _ _ _ L M)| |done].
    intros [p ok] s' (HS & HM' & Hok). cbn. split_and!; [done|done|]. destruct ok; [done|]. intros O. congruence. }
  split; intros; by apply HG.
Qed.

Lemma checks_reported_witness :
  let t := FfosTest 0 false true in
  let a := Check true (bytes_of "a.c") 1 (bytes_of "f") (bytes_of "p") [] in
  let b := Check false (bytes_of "a.c") 2 (bytes_of "f") (bytes_of "q") [] in
  wp test_env (run_checks t [a; b]) (λ _ _, False)
    (λ h s', h = Exited ∧ (ts_oom s' = false → ts_log s' =
       [(2, bytes_of "%s:%d" ++ [10]); (2, bytes_of "%s:%d" ++ [10]); (2, bytes_of "FAIL: %s:%u: %s: q" ++ [10])])) (TState 0 ∅ [] false).
Proof.
  intros t a b. eapply wp_mono; [apply (checks_reported t [a; b] (TState 0 ∅ [] false))| |].
  - intros t' s' (_ & [H|H] & _); [done|]. apply Forall_cons in H as [_ H]. by apply Forall_cons in H as [H _].
  - intros h s' (-> & _ & l1 & c & l2 & E & Hl & Hc & _ & _ & W). split; [done|]. intros O. rewrite (W O).
    destruct l1 as [|x [|y l1]]; cbn in E; [injection E as <- <-; done|injection E as <- <- <-; done|].
    injection E as <- <- E. by destruct l1.
Defined.

#[export] Instance fmt_arg_eq : EqDecision fmt_arg.
Proof. solve_decision. Defined.

(** Where the compiler evaluates the last argument first, x_sys() reports the error code from before its
    expression, which fails with EBUSY here. *)
Example x_sys_stale_errno :
  let at_ (ok : bool) (fmt : list Z) (args : list fmt_arg) : prog unixE ffos_test :=
    if bool_decide (args = [FStr [97]; FInt EPERM]) then Ret (FfosTest 0 true false) else Halt AssertFail in
  wp test_env (x_sys at_ false (fail EBUSY false) [97]) (λ _ s, ts_errno s = EBUSY) never (TState EPERM ∅ [] false).
Proof. cbn. intros e s [-> ->]. cbn. intros _ s ->. done. Qed.
