(* ===== verification/MsgRouter.v ===== *)
(** * examples/tcp-msg-router.c: a server that passes every message on to its clients *)
From S2P Require Import Prelude Prog Ffbase Vec Unix Socket Queue Std Process Server.

(** The functions a task may have as its handler. *)
Inductive handler := H_mrt_srv_accept | H_mrt_conn_recv.

(** A connection's object ([id]: the text of its address), and the server: the fields of [conf] and
    [srv], and the objects that are allocated, by their addresses. *)
Record mrt_conn := MConn { mc_handler : option handler; mc_sk : Z; mc_id : list Z }.
Record mrt_srv := MSrv {
  ms_conf : Z; ms_lport : Z;          (* conf, conf->lport *)
  ms_ptr : Z;                         (* the address of the object, and of its task *)
  ms_handler : option handler; ms_kq : Z; ms_lsk : Z;
  ms_vec : Z; ms_conns : list Z;      (* srv->conns: its block, its elements *)
  ms_heap : gmap Z mrt_conn }.

(** ffslice_rmswap() of ffbase: elements are removed, others of the end take their place. *)
Class RmSwap := { ffslice_rmswap : list Z → nat → nat → list Z }.

Definition sizeof_mrt_conf := 4.
Definition sizeof_mrt_srv := 40.
Definition sizeof_mrt_conn := 32.
Definition SOMAXCONN := 4096.

Section router.
Context `{FmtLib, VecLib unixE, RmSwap}.
(** What an uninitialised address contains. *)
Context (uninit : ffsockaddr).

Definition mrt_die (ex : bool) (func : list Z) (line : Z) : prog unixE unit :=
  die (bytes_of "tcp-msg-router.c") ex func line.
Definition DBG (fmt : list Z) (args : list fmt_arg) : prog unixE unit := fflog (bytes_of "DBG : " ++ fmt) args.
Definition WARN (fmt : list Z) (args : list fmt_arg) : prog unixE unit := fflog (bytes_of "WARN: " ++ fmt) args.

(** An object that may have been freed. *)
Definition deref {A} (s : mrt_srv) (c : Z) (k : mrt_conn → prog unixE A) : prog unixE A :=
  match ms_heap s !! c with Some o => k o | None => Halt OutOfBounds end.

Definition with_conns (s : mrt_srv) (l : list Z) (h : gmap Z mrt_conn) : mrt_srv :=
  MSrv (ms_conf s) (ms_lport s) (ms_ptr s) (ms_handler s) (ms_kq s) (ms_lsk s) (ms_vec s) l h.

Definition with_vec (s : mrt_srv) (vp : Z) : mrt_srv :=
  MSrv (ms_conf s) (ms_lport s) (ms_ptr s) (ms_handler s) (ms_kq s) (ms_lsk s) vp (ms_conns s) (ms_heap s).

(** ffvec_pushT() *)
Definition conns_push (s : mrt_srv) : prog unixE (mrt_srv * bool) :=
  let* '(p, ok) := ffvec_grow (ms_vec s) (8 * Z.of_nat (length (ms_conns s))) 8 in
  Ret (with_vec s p, ok).

Definition mrt_srv_unlink_conn (s : mrt_srv) (c : Z) : mrt_srv :=
  match list_find (λ it, it = c) (ms_conns s) with
  | Some (i, _) => with_conns s (ffslice_rmswap (ms_conns s) i 1) (ms_heap s)
  | None => s
  end.

Definition mrt_conn_free (s : mrt_srv) (c : Z) : prog unixE mrt_srv :=
  let s := mrt_srv_unlink_conn s c in
  deref s c (λ o,
    do* ffsock_close (mc_sk o) in
    do! ffmem_free c in
    Ret (with_conns s (ms_conns s) (delete c (ms_heap s)))).

Definition mrt_conn_send (s : mrt_srv) (c : Z) (data : list Z) : prog unixE unit :=
  deref s c (λ o,
    let* r := ffsock_send (mc_sk o) data 0 in
    let* again := if r <? 0 then let! e := get_errno in Ret (fferr_again e) else Ret false in
    if again : bool then WARN (bytes_of "%s: client doesn't accept more data") [FStr (mc_id o)] else
    do* mrt_die (r <? 0) (bytes_of "mrt_conn_send") 97 in
    DBG (bytes_of "%s: sent %L bytes") [FStr (mc_id o); FInt r]).

Fixpoint mrt_send_all (s : mrt_srv) (l : list Z) (data : list Z) : prog unixE unit :=
  match l with [] => Ret tt | c :: l => do* mrt_conn_send s c data in mrt_send_all s l data end.
Definition mrt_srv_send (s : mrt_srv) (data : list Z) : prog unixE unit := mrt_send_all s (ms_conns s) data.

Definition recv_step (s : mrt_srv) (c : Z) (_ : unit) : prog unixE (unit + mrt_srv) :=
  deref s c (λ o,
    let* '(r, buf) := ffsock_recv (mc_sk o) 1024 0 in
    if r <? 0 then
      let! e := get_errno in
      if fferr_again e then Ret (inr s) else
      do* mrt_die true (bytes_of "mrt_conn_recv") 120 in Ret (inl tt)
    else if r =? 0 then
      do* DBG (bytes_of "%s: peer closed connection") [FStr (mc_id o)] in
      let* s := mrt_conn_free s c in Ret (inr s)
    else
      do* DBG (bytes_of "%s: received %L bytes") [FStr (mc_id o); FInt r] in
      do* mrt_srv_send s (take (Z.to_nat r) buf) in Ret (inl tt)).
Definition mrt_conn_recv (fuel : nat) (s : mrt_srv) (c : Z) : prog unixE mrt_srv := loop fuel (recv_step s c) tt.

Definition mrt_srv_accept1 (fuel : nat) (s : mrt_srv) : prog unixE (Z * mrt_srv) :=
  let* '(csk, addr) := ffsock_accept Linux (ms_lsk s) uninit (FFSOCK_NONBLOCK Linux) in
  let* again := if csk =? FFSOCK_NULL then
                  let! e := get_errno in
                  if fferr_again e then Ret true else do* mrt_die true (bytes_of "mrt_srv_accept1") 141 in Ret false
                else Ret false in
  if again : bool then Ret (-1, s) else
  let! c := ffmem_alloc sizeof_mrt_conn in
  if c =? 0 then Halt OutOfBounds else
  let* '(s, ok) := conns_push s in
  if negb ok then Halt OutOfBounds else
  let '(ip, port) := ffsockaddr_ip_port addr in
  match ip with
  | b0 :: b1 :: b2 :: b3 :: _ =>
      let id := ffs_format 16 (bytes_of "%u.%u.%u.%u%Z") [FInt b0; FInt b1; FInt b2; FInt b3] in
      let s := with_conns s (ms_conns s ++ [c]) (<[c := MConn (Some H_mrt_conn_recv) csk id]> (ms_heap s)) in
      do* DBG (bytes_of "%p: accepted connection from %s:%u") [FInt c; FStr id; FInt (default 0 port)] in
      let* r := ffkq_attach (ms_kq s) csk c FFKQ_READWRITE in
      do* mrt_die (negb (r =? 0)) (bytes_of "mrt_srv_accept1") 157 in
      let* s := mrt_conn_recv fuel s c in Ret (0, s)
  | _ => Halt OutOfBounds
  end.

(** [if (0 != mrt_srv_accept1()); break;]: the loop is left after its first turn. *)
Definition mrt_srv_accept (fuel : nat) (s : mrt_srv) : prog unixE mrt_srv :=
  let* '(_, s) := mrt_srv_accept1 fuel s in Ret s.

Definition mrt_srv_listen (s : mrt_srv) : prog unixE mrt_srv :=
  let fn := bytes_of "mrt_srv_listen" in
  let* lsk := ffsock_create_tcp Linux AF_INET (FFSOCK_NONBLOCK Linux) in
  let s := MSrv (ms_conf s) (ms_lport s) (ms_ptr s) (ms_handler s) (ms_kq s) lsk (ms_vec s) (ms_conns s) (ms_heap s) in
  do* mrt_die (lsk =? FFSOCK_NULL) fn 172 in
  let s := MSrv (ms_conf s) (ms_lport s) (ms_ptr s) (Some H_mrt_srv_accept) (ms_kq s) lsk (ms_vec s) (ms_conns s) (ms_heap s) in
  let* r := ffkq_attach (ms_kq s) lsk (ms_ptr s) FFKQ_READ in
  do* mrt_die (negb (r =? 0)) fn 175 in
  if ms_conf s =? 0 then Halt OutOfBounds else
  let addr := ffsockaddr_set_ipv4 uninit None (ms_lport s) in
  let* r := ffsock_bind lsk addr in
  do* mrt_die (negb (r =? 0)) fn 179 in
  let* r := ffsock_listen lsk SOMAXCONN in
  do* mrt_die (negb (r =? 0)) fn 180 in
  let* '(r, addr) := ffsock_localaddr lsk addr in
  do* mrt_die (negb (r =? 0)) fn 181 in
  let lport := default (ms_lport s) (ffsockaddr_ip_port addr).2 in
  do* DBG (bytes_of "listening on port %d") [FInt lport] in
  Ret (MSrv (ms_conf s) lport (ms_ptr s) (ms_handler s) (ms_kq s) lsk (ms_vec s) (ms_conns s) (ms_heap s)).

(** [t->handler(t)], [t] being the data of an event: the task of the server or of a connection. *)
Definition call_handler (fuel : nat) (s : mrt_srv) (t : Z) : prog unixE mrt_srv :=
  let* h := if t =? ms_ptr s then Ret (ms_handler s) else deref s t (λ o, Ret (mc_handler o)) in
  match h with
  | Some H_mrt_srv_accept => mrt_srv_accept fuel s
  | Some H_mrt_conn_recv => mrt_conn_recv fuel s t
  | None => Halt OutOfBounds
  end.

Definition run_step (fuel : nat) (t : Z) (s : mrt_srv) : prog unixE (mrt_srv + unit) :=
  let* '(r, events) := ffkq_wait (ms_kq s) 1 t in
  do* mrt_die (r <? 0) (bytes_of "mrt_run") 193 in
  match events with
  | ev :: _ => let* s := call_handler fuel s (ffkq_event_data ev) in Ret (inl s)
  | [] => Halt OutOfBounds
  end.
Definition mrt_run (fuel : nat) (s : mrt_srv) : prog unixE unit := loop fuel (run_step fuel (ffkq_time_set (u32 (-1)))) s.

Definition mrt_destroy (s : mrt_srv) : prog unixE unit :=
  do* ffsock_close (ms_lsk s) in ffkq_close (ms_kq s).

Definition main (fuel : nat) (argv : list (list Z)) : prog unixE Z :=
  let fn := bytes_of "main" in
  let! conf := ffmem_alloc sizeof_mrt_conf in
  let! srv := ffmem_alloc sizeof_mrt_srv in
  if srv =? 0 then Halt OutOfBounds else
  let s := MSrv conf 0 srv None FFKQ_NULL FFSOCK_NULL 0 [] ∅ in
  let* s := match argv with
            | [_; arg] =>
                do* mrt_die (bool_decide (ffstr_to_uint32 arg = None)) fn 216 in
                if conf =? 0 then Halt OutOfBounds else
                Ret (MSrv conf (default 0 (ffstr_to_uint32 arg)) srv None FFKQ_NULL FFSOCK_NULL 0 [] ∅)
            | _ => Ret s
            end in
  let* kq := ffkq_create in
  let s := MSrv (ms_conf s) (ms_lport s) srv None kq FFSOCK_NULL 0 [] ∅ in
  do* mrt_die (kq =? FFKQ_NULL) fn 219 in
  let* s := mrt_srv_listen s in
  do* mrt_run fuel s in
  do* mrt_destroy s in
  do! ffmem_free srv in Ret 0.
End router.

(** ** Properties *)

Class RmSwapLaws (R : RmSwap) : Prop := {
  rmswap_law l i : (i < length l)%nat → ffslice_rmswap l i 1 ≡ₚ delete i l }.
(** The vector, in the network's terms: memory that runs out is recorded there. *)
Abbreviation NetVecLaws := (VecLaws net_env n_mem but_nmem (λ s, n_oom s = true)).

(** Every message goes to every connection. *)
Definition to_all (ms : list Z) (_ : Z) : list Z := ms.

Section properties.
Context `{F : FmtLib, !FmtLaws F, V : VecLib unixE, NV : !NetVecLaws, R : RmSwap, !RmSwapLaws R}.
Context (uninit : ffsockaddr).

Definition socks (s : mrt_srv) : gmap Z Z := mc_sk <$> ms_heap s.
Definition sock_of (s : mrt_srv) (c : Z) : Z := default FFSOCK_NULL (socks s !! c).

(** The server serves: its list of connections is what the network has. *)
Definition good (s : mrt_srv) (n : net) : Prop :=
  world to_all (ms_conf s) (ms_ptr s) (ms_kq s) (ms_lsk s) (ms_vec s) (socks s) (map (sock_of s) (ms_conns s)) n ∧
  NoDup (ms_conns s) ∧ (∀ c, c ∈ ms_conns s ↔ is_Some (ms_heap s !! c)) ∧
  ms_handler s = Some H_mrt_srv_accept ∧ map_Forall (λ _ o, mc_handler o = Some H_mrt_conn_recv) (ms_heap s).

Abbreviation stop := (stopped to_all).

Lemma good_same s n n' : nsame n n' → good s n → good s n'.
Proof. intros Hn [Hw H]. split; [|done]. by eapply world_same. Qed.
Lemma good_serving s n : good s n → serving to_all (n_trace n).
Proof. intros [Hw _]. by eapply world_serving. Qed.

(** The message is offered to one client; nothing else changes. *)
Lemma send_one_wp s c o d n : ms_heap s !! c = Some o →
  wp net_env (mrt_conn_send s c d)
    (λ _ n', n_fds n' = n_fds n ∧ n_mem n' = n_mem n ∧ n_reg n' = n_reg n ∧ n_trace n' = n_trace n ++ [Offered (mc_sk o) d])
    (λ h n', h = Exited ∧ n_trace n' = n_trace n ++ [Offered (mc_sk o) d]) n.
Proof.
  intros Hc. unfold mrt_conn_send, deref. rewrite Hc. cbn -[fflog mrt_die].
  intros r n1 (F1 & R1 & M1 & _ & _ & T1).
  assert (∀ n2, nsame n1 n2 → n_fds n2 = n_fds n ∧ n_mem n2 = n_mem n ∧ n_reg n2 = n_reg n ∧
    n_trace n2 = n_trace n ++ [Offered (mc_sk o) d]) as HQ.
  { intros n2 (F2 & R2 & M2 & T2 & _). split_and!; congruence. }
  assert (∀ f args, wp net_env (fflog f args) (λ _ n', n_fds n' = n_fds n ∧ n_mem n' = n_mem n ∧
      n_reg n' = n_reg n ∧ n_trace n' = n_trace n ++ [Offered (mc_sk o) d])
      (λ h n', h = Exited ∧ n_trace n' = n_trace n ++ [Offered (mc_sk o) d]) n1) as HL.
  { intros f args. eapply wp_mono; [apply fflog_wp|intros []; apply HQ|done]. }
  destruct (r <? 0); cbn -[fflog mrt_die]; [|apply HL].
  intros e n2 [_ ->]. destruct (fferr_again e); [apply HL|]. cbn -[fflog]. intros e' n2 [_ ->].
  do 2 apply wp_bind. eapply wp_mono; [apply fflog_wp| |done]. intros [] n2 H2. cbn.
  intros _ n3 H3. split; [done|]. apply HQ. by eapply nsame_trans.
Qed.

(** The message is offered to the clients that are left. *)
Lemma send_all_wp s c o d l : ∀ done n n0,
  good s n0 → ms_heap s !! c = Some o → done ++ l = ms_conns s →
  n_fds n = n_fds n0 → n_mem n = n_mem n0 → n_reg n = n_reg n0 →
  n_trace n = n_trace n0 ++ Received (mc_sk o) d :: map (λ m, Offered m d) (map (sock_of s) done) →
  wp net_env (mrt_send_all s l d) (λ _ n', good s n') stop n.
Proof.
  induction l as [|c' l IH]; intros done n n0 Hg Hc El HF HM HR HT; cbn -[mrt_conn_send].
  - destruct Hg as [Hw H]. split; [|done]. rewrite app_nil_r in El. subst done.
    eapply world_message; [exact Hw| |done..|exact HT]. unfold socks. by rewrite lookup_fmap, Hc.
  - assert (is_Some (ms_heap s !! c')) as [o' Hc'].
    { destruct Hg as (_ & _ & Hin & _). apply Hin. rewrite <- El. set_solver. }
    assert (sock_of s c' = mc_sk o') as Es by (unfold sock_of, socks; by rewrite lookup_fmap, Hc').
    assert (∀ n', n_trace n' = n_trace n ++ [Offered (mc_sk o') d] → n_trace n' =
      n_trace n0 ++ Received (mc_sk o) d :: map (λ m, Offered m d) (map (sock_of s) (done ++ [c']))) as HT'.
    { intros n' ->. rewrite HT, <- app_assoc, !map_app. cbn. by rewrite Es. }
    apply wp_bind. eapply wp_mono; [by apply send_one_wp| |].
    + intros [] n1 (F1 & M1 & R1 & T1). eapply (IH (done ++ [c'])); try done; try congruence; [by rewrite <- app_assoc|auto].
    + intros h n1 [-> T1]. cbn. destruct Hg as [Hw _].
      eapply (serving_message _ _ _ _ _ _ _ _ _ c (mc_sk o) d (map (sock_of s) (done ++ [c'])) (map (sock_of s) l));
        [exact Hw|unfold socks; by rewrite lookup_fmap, Hc| |by apply HT'].
      unfold to_all. rewrite <- El, !map_app, <- app_assoc. done.
Qed.

Lemma unlink_spec s c : NoDup (ms_conns s) → c ∈ ms_conns s →
  ∃ l, mrt_srv_unlink_conn s c = with_conns s l (ms_heap s) ∧ ms_conns s ≡ₚ c :: l ∧ (c ∉ l).
Proof using R RmSwapLaws0.
  intros Hnd Hc. unfold mrt_srv_unlink_conn.
  destruct (list_find_elem_of (λ it, it = c) (ms_conns s) c Hc eq_refl) as [[i x] E]. rewrite E.
  apply list_find_Some in E as (Hi & -> & _). eexists. split; [done|].
  assert (ms_conns s ≡ₚ c :: ffslice_rmswap (ms_conns s) i 1) as HP.
  { rewrite rmswap_law by by eapply lookup_lt_Some. by apply delete_Permutation. }
  split; [done|]. rewrite HP in Hnd. by apply NoDup_cons in Hnd as [? _].
Qed.

(** The connection of a client that has closed it: everything of it is released. *)
Lemma conn_free_wp s c o n0 n :
  good s n0 → ms_heap s !! c = Some o →
  n_fds n = n_fds n0 → n_mem n = n_mem n0 → n_reg n = n_reg n0 → n_trace n = n_trace n0 ++ [Ended (mc_sk o)] →
  wp net_env (mrt_conn_free s c) good stop n.
Proof using R RmSwapLaws0.
  intros (Hw & Hnd & Hin & Hh & Hr) Hc HF HM HR HT.
  assert (c ∈ ms_conns s) as Hcin by (apply Hin; by eexists).
  destruct (unlink_spec s c Hnd Hcin) as (l & Eu & HP & Hnl).
  unfold mrt_conn_free. rewrite Eu. unfold deref, with_conns. cbn [ms_heap ms_vec ms_conns ms_conf ms_lport ms_ptr ms_handler ms_kq ms_lsk].
  rewrite Hc. assert (socks s !! c = Some (mc_sk o)) as Hsk by (unfold socks; by rewrite lookup_fmap, Hc).
  assert (sock_of s c = mc_sk o) as Es by (unfold sock_of; by rewrite Hsk).
  assert (map (sock_of s) (ms_conns s) ≡ₚ mc_sk o :: map (sock_of s) l) as Hms by (by rewrite HP; cbn; rewrite Es).
  assert (mc_sk o ≠ -1) as Hne.
  { pose proof (w_pos _ _ _ _ _ _ _ _ _ Hw) as Hp. rewrite Hms in Hp. apply Forall_cons in Hp as [? _]. lia. }
  unfold ffsock_close. rewrite (proj2 (Z.eqb_neq _ _)) by done. cbn.
  intros _ n1 (F1 & R1 & M1 & _ & T1) _ n2 (F2 & R2 & T2 & _ & M2).
  unfold good, with_conns. cbn [ms_heap ms_vec ms_conns ms_conf ms_lport ms_ptr ms_handler ms_kq ms_lsk].
  assert (map (sock_of (MSrv (ms_conf s) (ms_lport s) (ms_ptr s) (ms_handler s) (ms_kq s) (ms_lsk s) (ms_vec s) l (delete c (ms_heap s)))) l
    = map (sock_of s) l) as ->.
  { apply map_ext_in. intros x Hx%list_elem_of_In. unfold sock_of, socks. cbn [ms_heap].
    rewrite fmap_delete, lookup_delete_ne; [done|]. by intros <-. }
  split_and!.
  - unfold socks. cbn [ms_heap]. rewrite fmap_delete. eapply world_close; [exact Hw|exact Hsk|exact Hms|..].
    + by rewrite F2, F1, HF.
    + by rewrite R2, R1, HR.
    + by rewrite M2, M1, HM.
    + by rewrite T2, T1, HT, <- app_assoc.
  - rewrite HP in Hnd. by apply NoDup_cons in Hnd as [_ ?].
  - intros x. split.
    + intros Hx. rewrite lookup_delete_ne by (by intros <-). apply Hin. rewrite HP. by right.
    + intros [y [Hne' Hy]%lookup_delete_Some]. assert (x ∈ ms_conns s) as Hx by (apply Hin; by eexists).
      rewrite HP in Hx. apply elem_of_cons in Hx as [Hx|Hx]; [by subst|done].
  - done.
  - intros x y [_ Hy]%lookup_delete_Some. by eapply Hr.
Qed.

(** The handler of a connection: it stays in a good state, whatever is received. *)
Lemma conn_recv_wp fuel s c n : good s n → is_Some (ms_heap s !! c) →
  wp net_env (mrt_conn_recv fuel s c) good stop n.
Proof using F FmtLaws0 NV R RmSwapLaws0 V.
  intros Hg [o Hc]. unfold mrt_conn_recv.
  apply (wp_loop net_env (recv_step s c) (λ _ _ n, good s n)); [| |done].
  { intros w _ [Hw _]. cbn. by do 7 eexists. }
  clear n Hg. intros k [] n Hg. unfold recv_step, deref at 1. rewrite Hc.
  assert (socks s !! c = Some (mc_sk o)) as Hsk by (unfold socks; by rewrite lookup_fmap, Hc).
  cbn -[DBG mrt_die mrt_conn_free mrt_srv_send take Z.to_nat].
  intros [r buf] n1 (F1 & R1 & M1 & O1 & HT).
  destruct HT as [[[= -> ->] T1]|[[[= -> ->] T1]|(Hr & Hl & T1)]]; cbn -[DBG mrt_die mrt_conn_free mrt_srv_send take Z.to_nat].
  - assert (good s n1) as Hg1 by (eapply good_same; [|exact Hg]; unfold nsame; split_and!; congruence).
    intros e n2 [_ ->]. destruct (fferr_again e); [done|]. apply die_bind; [by eapply good_serving|done].
  - unfold DBG. apply fflog_bind. intros n2 (F2 & R2 & M2 & T2 & _). apply wp_bind.
    eapply wp_mono; [eapply conn_free_wp; [exact Hg|exact Hc|..]; congruence|done|done].
  - cbn in Hr, Hl. rewrite (proj2 (Z.ltb_ge r 0)), (proj2 (Z.eqb_neq r 0)) by lia. unfold DBG. apply fflog_bind.
    intros n2 (F2 & R2 & M2 & T2 & _). apply wp_bind. unfold mrt_srv_send.
    rewrite take_ge by lia. eapply wp_mono; [eapply (send_all_wp s c o buf _ [] n2 n); try done; try congruence|done|done].
    rewrite T2, T1. done.
Qed.

(** The new connection in the lists of the server. *)
Lemma good_accept s n sk n1 c n2 id :
  good s n → n_new_fd n sk n1 → sk ≠ -1 → n_trace n1 = n_trace n ++ [Accepted sk] →
  n_fds n2 = n_fds n1 → n_reg n2 = n_reg n1 → n_trace n2 = n_trace n1 → (c ∉ n_mem n1) → n_mem n2 = {[c]} ∪ n_mem n1 →
  good (with_conns s (ms_conns s ++ [c]) (<[c := MConn (Some H_mrt_conn_recv) sk id]> (ms_heap s))) n2.
Proof using Type.
  intros (Hw & Hnd & Hin & Hh & Hr) Hf Hsk T1 F2 R2 T2 Hc M2.
  assert (ms_heap s !! c = None) as Hn.
  { apply eq_None_not_Some. intros [o Ho]. apply Hc. destruct Hf as (_ & -> & _).
    destruct (w_mem _ _ _ _ _ _ _ _ _ Hw) as [-> _]. apply elem_of_union_r, elem_of_union_r, elem_of_dom. unfold socks. rewrite lookup_fmap, Ho. by eexists. }
  assert (c ∉ ms_conns s) as Hnc by (rewrite Hin, Hn; by intros [? ?]).
  unfold good, with_conns. cbn [ms_heap ms_vec ms_conns ms_conf ms_lport ms_ptr ms_handler ms_kq ms_lsk].
  assert (∀ l, c ∉ l → map (sock_of (MSrv (ms_conf s) (ms_lport s) (ms_ptr s) (ms_handler s) (ms_kq s) (ms_lsk s) (ms_vec s) (ms_conns s ++ [c])
    (<[c := MConn (Some H_mrt_conn_recv) sk id]> (ms_heap s)))) l = map (sock_of s) l) as Hmap.
  { intros l Hl. apply map_ext_in. intros x Hx%list_elem_of_In. unfold sock_of, socks. cbn [ms_heap].
    rewrite fmap_insert, lookup_insert_ne; [done|]. by intros <-. }
  split_and!.
  - rewrite map_app, Hmap by done. cbn [map]. unfold sock_of at 2, socks at 1 2. cbn [ms_heap].
    rewrite fmap_insert, lookup_insert_eq. cbn [mc_sk default]. by eapply world_accept.
  - apply NoDup_app. split_and!; [done| |apply NoDup_singleton]. by intros x Hx ->%list_elem_of_singleton.
  - intros x. rewrite elem_of_app, list_elem_of_singleton, Hin. split.
    + intros [[y Hy]| ->]; [|rewrite lookup_insert_eq; by eexists].
      rewrite lookup_insert_ne; [by eexists|]. intros <-. congruence.
    + intros [y [[-> _]|[_ Hy]]%lookup_insert_Some]; [by right|left; by eexists].
  - done.
  - apply map_Forall_insert_2; done.
Qed.

(** The vector has another block. *)
Lemma good_grow s n n' vp :
  good s n → but_nmem n n' → holds ({[ms_conf s; ms_ptr s]} ∪ dom (socks s)) vp (n_mem n') → good (with_vec s vp) n'.
Proof. intros (Hw & H) Hn Hm. split; [|done]. by eapply world_grow. Qed.

(** One connection is accepted and its data is passed on. *)
Lemma mrt_accept_wp fuel s n : good s n →
  wp net_env (mrt_srv_accept uninit fuel s) good stop n.
Proof using All.
  intros Hg. unfold mrt_srv_accept, mrt_srv_accept1. do 2 apply wp_bind.
  cbn -[ffkq_attach DBG mrt_die mrt_conn_recv ffsockaddr_ip_port].
  intros [csk [sz bytes]] n1 (Hf & T1 & Hb). cbn -[ffkq_attach DBG mrt_die mrt_conn_recv ffsockaddr_ip_port] in *.
  apply wp_bind. destruct (Z.eqb_spec csk FFSOCK_NULL) as [->|Hne].
  - assert (good s n1) as Hg1.
    { eapply good_same; [|exact Hg]. destruct Hf as (R1 & M1 & O1 & [[_ F1]|[? _]]); [|unfold FFSOCK_NULL in *; lia].
      rewrite app_nil_r in T1. unfold nsame. split_and!; congruence. }
    cbn -[mrt_die]. intros e n2 [_ ->]. destruct (fferr_again e); cbn -[mrt_die]; [done|].
    unfold mrt_die. apply die_bind; [by eapply good_serving|done].
  - rewrite (proj2 (Z.eqb_neq csk (-1))) in T1 by done.
    assert (serving to_all (n_trace n1)) as Hs1.
    { destruct Hg as [Hw _]. by eapply serving_accept. }
    cbn -[ffkq_attach DBG mrt_die mrt_conn_recv ffsockaddr_ip_port]. intros c n2 (F2 & R2 & T2 & HM).
    destruct HM as [(-> & _ & O2)|(Hc & Hni & M2 & O2)].
    { cbn. by rewrite T2. }
    rewrite (proj2 (Z.eqb_neq c 0)) by lia.
    assert (∀ id, good (with_conns s (ms_conns s ++ [c]) (<[c := MConn (Some H_mrt_conn_recv) csk id]> (ms_heap s))) n2) as Hg2.
    { intros id. by eapply good_accept. }
    destruct (Hg2 []) as [Hw2 _]. unfold conns_push. do 2 apply wp_bind.
    eapply wp_mono; [by apply grow_law, (w_mem _ _ _ _ _ _ _ _ _ Hw2)| |done].
    intros [vp ok] n3 (Hn3 & M3 & Hok). destruct ok; cbn [negb wp].
    2: { destruct Hn3 as (_ & _ & T3 & _). cbn. by rewrite T3, T2. }
    destruct (inet_ip uninit (Z.of_nat (length bytes)) bytes (Hb Hne)) as (b0 & b1 & b2 & b3 & Eip).
    destruct (ffsockaddr_ip_port _) as [ip port]. cbn in Eip. subst ip.
    set (s' := with_conns _ _ _).
    assert (good s' n3) as Hg3.
    { eapply (good_grow _ n2 n3 vp (Hg2 _)); [done|]. revert M3. unfold socks. cbn [ms_heap with_conns].
      by rewrite !fmap_insert. }
    unfold DBG. apply fflog_bind. intros n4 H4. pose proof (good_same _ _ _ H4 Hg3) as Hg4.
    cbn -[mrt_die mrt_conn_recv]. intros r n5 (F5 & M5 & T5 & O5 & R5). unfold mrt_die. apply die_bind.
    { rewrite T5. by eapply good_serving. }
    intros Hr. apply negb_false_iff in Hr. rewrite Hr in R5. apply wp_bind.
    eapply wp_mono; [apply conn_recv_wp| |done].
    + destruct Hg4 as [Hw4 H4']. split; [|done].
      eapply world_attach; [exact Hw4| |done..|exact R5]. unfold socks, s'. cbn. by rewrite lookup_fmap, lookup_insert_eq.
    + unfold s'. cbn. rewrite lookup_insert_eq. by eexists.
    + done.
Qed.

(** The handler of an event that the queue has reported. *)
Lemma call_handler_wp fuel s t n fd : good s n → n_reg n !! fd = Some t →
  wp net_env (call_handler uninit fuel s t) good stop n.
Proof using All.
  intros Hg Ht. destruct (Hg) as (Hw & _ & _ & Hh & Hr). unfold call_handler.
  destruct (w_reg _ _ _ _ _ _ _ _ _ Hw fd t Ht) as [[_ ->]|Hc].
  - rewrite Z.eqb_refl. cbn. rewrite Hh. by apply mrt_accept_wp.
  - assert (t ≠ ms_ptr s) as Hne.
    { intros ->. destruct (w_own _ _ _ _ _ _ _ _ _ Hw) as [_ Hno]. apply Hno. by apply elem_of_dom_2 in Hc. }
    rewrite (proj2 (Z.eqb_neq _ _)) by done. unfold socks in Hc. rewrite lookup_fmap in Hc.
    apply fmap_Some in Hc as (o & Ho & _). unfold deref. rewrite Ho. cbn. rewrite (Hr _ _ Ho).
    apply conn_recv_wp; [done|by eexists].
Qed.

Lemma mrt_run_wp fuel s n : good s n → wp net_env (mrt_run uninit fuel s) (λ _ _, False) stop n.
Proof using All.
  intros Hg. unfold mrt_run. apply (wp_loop net_env _ (λ _ s n, good s n)); [| |done].
  { intros w s' [Hw _]. cbn. by do 7 eexists. }
  clear s n Hg. intros k s n Hg. unfold run_step. apply wp_bind. unfold ffkq_wait. cbn -[mrt_die call_handler s32].
  intros [r evs] n1 [H1 He]. pose proof (good_same _ _ _ H1 Hg) as Hg1.
  unfold mrt_die. apply die_bind; [by eapply good_serving|]. intros Hr%Z.ltb_ge. cbn in He.
  change (s32 (ffkq_time_set (u32 (-1))) <? 0) with true in He. destruct He as [He|(He & Hl & Hev)]; [lia|].
  destruct evs as [|ev evs]; [cbn in *; lia|]. destruct (Hev ev) as [fd Hfd]; [left|].
  destruct H1 as (_ & E1 & _). rewrite <- E1 in Hfd. apply wp_bind.
  by eapply wp_mono; [eapply call_handler_wp| |].
Qed.

(** Before the socket is open. *)
Definition starting (s : mrt_srv) (n : net) : Prop :=
  ms_vec s = 0 ∧ ms_conns s = [] ∧ ms_heap s = ∅ ∧ n_fds n = {[ms_kq s]} ∧ n_reg n = ∅ ∧ n_trace n = [] ∧
  (ms_conf s = 0 → n_oom n = true) ∧ (ms_conf s ≠ 0 → n_mem n = {[ms_conf s; ms_ptr s]}).

Lemma listen_wp s n : starting s n → wp net_env (mrt_srv_listen uninit s) good stop n.
Proof using All.
  intros (Hv & Hc & Hh & Hf & Hr & Ht & Hm0 & Hm). unfold mrt_srv_listen. apply wp_bind.
  cbn -[ffkq_attach DBG mrt_die ffsock_bind ffsock_listen ffsock_localaddr ffsockaddr_ip_port ffsockaddr_set_ipv4].
  intros lsk n1 [(R1 & M1 & O1 & F1) T1]. unfold mrt_die. apply die_bind; [apply serving_nil; congruence|].
  intros Hl%Z.eqb_neq. destruct F1 as [[? _]|(_ & Hni & F1)]; [done|].
  cbn -[die DBG ffsock_bind ffsock_listen ffsock_localaddr ffsockaddr_ip_port ffsockaddr_set_ipv4].
  intros r n2 (F2 & M2 & T2 & O2 & R2). apply die_bind; [apply serving_nil; congruence|].
  intros Hr2%negb_false_iff. rewrite Hr2 in R2. destruct (Z.eqb_spec (ms_conf s) 0) as [E0|Hne].
  { cbn. split; [|apply serving_nil; congruence]. rewrite O2, O1. auto. }
  assert (∀ s', ms_conf s' = ms_conf s → ms_ptr s' = ms_ptr s → ms_handler s' = Some H_mrt_srv_accept → ms_kq s' = ms_kq s →
    ms_lsk s' = lsk → ms_vec s' = 0 → ms_conns s' = [] → ms_heap s' = ∅ → good s' n2) as Hg.
  { intros s' E1 E2 E3 E4 E5 E6 E7 E8. unfold good, socks. rewrite E1, E2, E3, E4, E5, E6, E7, E8, fmap_empty. rewrite Hf in Hni.
    split_and!; [|apply NoDup_nil_2| |done|apply map_Forall_empty].
    - apply world_start; [clear -Hni; set_solver|rewrite F2, F1, Hf; clear; set_solver| |congruence|].
      + rewrite M2, M1. by apply Hm.
      + by rewrite R2, R1, Hr, insert_empty.
    - intros c. rewrite lookup_empty. split; [by intros ?%elem_of_nil|by intros [? ?]]. }
  assert (∀ n', nsame n2 n' → serving to_all (n_trace n')) as Hsv.
  { intros n' (_ & _ & _ & T' & _). apply serving_nil. congruence. }
  cbn -[die DBG ffsock_localaddr ffsockaddr_ip_port ffsockaddr_set_ipv4]. intros _ n3 H3 r4 n4 H4.
  assert (nsame n2 n4) as H24 by eauto with ffos. apply die_bind; [by apply Hsv|]. intros _.
  cbn -[die DBG ffsockaddr_ip_port ffsockaddr_set_ipv4]. intros r5 n5 H5.
  assert (nsame n2 n5) as H25 by eauto with ffos. apply die_bind; [by apply Hsv|]. intros _.
  cbn -[die DBG ffsockaddr_ip_port ffsockaddr_set_ipv4]. intros [r6 [sz bs]] n6 H6.
  assert (nsame n2 n6) as H26 by eauto with ffos.
  destruct (_ || _); cbn -[die DBG ffsockaddr_ip_port ffsockaddr_set_ipv4];
    (apply die_bind; [by apply Hsv|]); [done|]. intros _. unfold DBG. apply fflog_bind. intros n7 H7.
  cbn. eapply good_same; [|by apply Hg]. eauto with ffos.
Qed.

(** C5: whatever clients connect, send and do, and whatever calls fail, what the router has done at any time is
    what the abstract server may do that offers each message received to every connection, the sender's
    included, one by one and before anything else is received.  Whenever it goes round its loop it has
    exactly the queue, the listening socket and one socket per connection open, and exactly its two
    objects, one object per connection and the array of its list allocated; no freed object is used.  It never ends but by a
    fatal error it reports, or by using the NULL that a failed allocation has returned. *)
Theorem router_serves fuel argv n :
  n_fds n = ∅ → n_reg n = ∅ → n_mem n = ∅ → n_trace n = [] →
  wp net_env (main uninit fuel argv) (λ _ _, False) (stopped to_all) n.
Proof using All.
  intros HF HR HM HT. unfold main. cbn -[ffkq_create mrt_srv_listen mrt_run mrt_destroy mrt_die bytes_of].
  intros conf n1 (F1 & R1 & T1 & M1) srv n2 (F2 & R2 & T2 & M2).
  assert (serving to_all (n_trace n2)) as Hs2 by (apply serving_nil; congruence).
  destruct M2 as [(-> & _ & O2)|(Hp & Hni & M2 & O2)]; [done|]. rewrite (proj2 (Z.eqb_neq srv 0)) by lia.
  assert ((conf = 0 → n_oom n2 = true) ∧ (conf ≠ 0 → n_mem n2 = {[conf; srv]})) as [HO HM2].
  { destruct M1 as [(-> & M1 & O1)|(? & _ & M1 & O1)]; split; intros; [congruence|done|lia|].
    rewrite M2, M1, HM. clear. set_solver. }
  assert (∀ lport n3, nsame n2 n3 → wp net_env
    (let* kq := ffkq_create in
     do* mrt_die (kq =? FFKQ_NULL) (bytes_of "main") 219 in
     let* s := mrt_srv_listen uninit (MSrv conf lport srv None kq FFSOCK_NULL 0 [] ∅) in
     do* mrt_run uninit fuel s in do* mrt_destroy s in do! ffmem_free srv in Ret 0)
    (λ _ _, False) (stopped to_all) n3) as Hk.
  { intros lport n3 (F3 & R3 & M3 & T3 & O3). cbn -[mrt_srv_listen mrt_run mrt_destroy mrt_die].
    intros kq n4 [(R4 & M4 & O4 & F4) T4]. unfold mrt_die. apply die_bind; [apply serving_nil; congruence|].
    intros Hkq%Z.eqb_neq. destruct F4 as [[? _]|(_ & _ & F4)]; [done|]. apply wp_bind.
    eapply wp_mono; [apply listen_wp| |done].
    - unfold starting. cbn. split_and!; try done; try congruence.
      + rewrite F4, F3, F2, F1, HF. clear. set_solver.
      + intros E. rewrite O4. auto.
      + intros E. rewrite M4, M3. auto.
    - intros s n5 Hg. apply wp_bind. eapply wp_mono; [by apply mrt_run_wp|done|done]. }
  destruct argv as [|a [|arg [|]]]; try (cbn [bind]; apply (Hk 0), nsame_refl).
  apply wp_bind. unfold mrt_die at 1. apply die_bind; [done|]. intros Harg. destruct (Z.eqb_spec conf 0) as [->|Hne]; cbn [wp].
  - cbn. auto.
  - apply (Hk _ n2), nsame_refl.
Qed.
End properties.

(** ** Instances and examples *)

#[export] Instance RefNetVecLaws : NetVecLaws.
Proof.
  apply ref_grow_laws.
  - intros s n r s' (F & R & T & HM). destruct HM as [(-> & M & O)|(? & ? & M & O)]; unfold but_nmem;
      split_and!; try done; try congruence; [by left|by right].
  - intros s p u s' (F & R & T & O & M). unfold but_nmem. split_and!; congruence.
  - unfold but_nmem. intros s1 s2 s3 (? & ? & ? & ?) (? & ? & ? & ?). split_and!; [congruence..|auto].
Qed.

#[export] Instance RefRmSwap : RmSwap := {|
  ffslice_rmswap l i n := match last l with Some x => <[i := x]> (take (length l - n) l) | None => l end |}.
#[export] Instance RefRmSwapLaws : RmSwapLaws RefRmSwap.
Proof.
  split. intros l i Hi. cbn. destruct l as [|x l _] using rev_ind; [cbn in Hi; lia|].
  rewrite last_snoc, length_app, Nat.add_sub, take_app_length. rewrite length_app in Hi. cbn in Hi.
  destruct (decide (i = length l)) as [->|Hne].
  - rewrite list_insert_ge by lia. rewrite delete_take_drop, take_app_length, drop_app_ge by lia.
    replace (S (length l) - length l)%nat with 1%nat by lia. by rewrite app_nil_r.
  - rewrite insert_take_drop by lia. rewrite delete_take_drop, take_app_le, drop_app_le by lia.
    rewrite app_assoc. rewrite <- Permutation_cons_append. by rewrite <- Permutation_middle.
Qed.

Lemma router_serves_witness : wp net_env (main (SockAddr 0 (replicate 28 0)) 5 []) (λ _ _, False) (stopped to_all) net0.
Proof. apply router_serves; reflexivity. Defined.

(** Two clients are waiting: the second is never accepted, because the [;] behind the condition of the
    loop makes [break] unconditional, and the queue reports waiting clients once. *)
Example router_loses_client :
  let '(r, s) := run demo_kernel (main (SockAddr 0 (replicate 28 0)) 9 []) (Demo 100 0 2 false) in
  r = Stopped Exited ∧ d_waiting s = 1%nat.
Proof. vm_compute. done. Qed.
