(* ===== verification/EchoServer.v ===== *)
(** * examples/tcp-echo-server.c: a server that sends back what it receives *)
From S2P Require Import Prelude Prog Ffbase Unix Socket Queue Std Process Server.

Inductive handler := H_ecs_accept | H_ecs_conn_recv.

Record ecs_conn := EConn { ec_handler : option handler; ec_sk : Z; ec_id : list Z }.
(** [conf] and [srv], and the connection objects that are allocated, by their addresses. *)
Record ecs_srv := ESrv {
  es_conf : Z; es_listen_port : Z; es_ptr : Z; es_handler : option handler; es_kq : Z; es_lsk : Z;
  es_heap : gmap Z ecs_conn }.

Definition sizeof_ecs_conf := 4.
Definition sizeof_ecs_srv := 16.
Definition sizeof_ecs_conn := 32.
Definition SOMAXCONN := 4096.

Section echo.
Context `{FmtLib}.
Context (uninit : ffsockaddr).

Definition ecs_die (ex : bool) (func : list Z) (line : Z) : prog unixE unit :=
  die (bytes_of "tcp-echo-server.c") ex func line.
Definition DBG (fmt : list Z) (args : list fmt_arg) : prog unixE unit := fflog (bytes_of "DBG : " ++ fmt) args.

Definition deref {A} (s : ecs_srv) (c : Z) (k : ecs_conn → prog unixE A) : prog unixE A :=
  match es_heap s !! c with Some o => k o | None => Halt OutOfBounds end.
Definition with_heap (s : ecs_srv) (h : gmap Z ecs_conn) : ecs_srv :=
  ESrv (es_conf s) (es_listen_port s) (es_ptr s) (es_handler s) (es_kq s) (es_lsk s) h.

Definition ecs_conn_send (s : ecs_srv) (c : Z) (data : list Z) : prog unixE unit :=
  deref s c (λ o,
    let* r := ffsock_send (ec_sk o) data 0 in
    do* ecs_die (r <? 0) (bytes_of "ecs_conn_send") 61 in
    DBG (bytes_of "%p: sent %L bytes") [FInt c; FInt (Z.of_nat (length data))]).

Definition recv_step (s : ecs_srv) (c : Z) (_ : unit) : prog unixE (unit + ecs_srv) :=
  deref s c (λ o,
    let* '(r, buf) := ffsock_recv (ec_sk o) 1024 0 in
    if r <? 0 then
      let! e := get_errno in
      if fferr_again e then Ret (inr s) else
      do* ecs_die true (bytes_of "ecs_conn_recv") 75 in Ret (inl tt)
    else if r =? 0 then
      do* DBG (bytes_of "%p: peer closed connection") [FInt c] in
      do* ffsock_close (ec_sk o) in
      do! ffmem_free c in
      Ret (inr (with_heap s (delete c (es_heap s))))
    else
      do* DBG (bytes_of "%p: received %L bytes") [FInt c; FInt r] in
      do* ecs_conn_send s c (take (Z.to_nat r) buf) in Ret (inl tt)).
Definition ecs_conn_recv (fuel : nat) (s : ecs_srv) (c : Z) : prog unixE ecs_srv := loop fuel (recv_step s c) tt.

Definition ecs_accept1 (fuel : nat) (s : ecs_srv) : prog unixE (Z * ecs_srv) :=
  let* '(csk, addr) := ffsock_accept Linux (es_lsk s) uninit (FFSOCK_NONBLOCK Linux) in
  let* again := if csk =? FFSOCK_NULL then
                  let! e := get_errno in
                  if fferr_again e then Ret true else do* ecs_die true (bytes_of "ecs_accept1") 96 in Ret false
                else Ret false in
  if again : bool then Ret (-1, s) else
  let! c := ffmem_alloc sizeof_ecs_conn in
  if c =? 0 then Halt OutOfBounds else
  let '(ip, port) := ffsockaddr_ip_port addr in
  match ip with
  | b0 :: b1 :: b2 :: b3 :: _ =>
      let id := ffs_format 16 (bytes_of "%u.%u.%u.%u%Z") [FInt b0; FInt b1; FInt b2; FInt b3] in
      let s := with_heap s (<[c := EConn (Some H_ecs_conn_recv) csk id]> (es_heap s)) in
      do* DBG (bytes_of "%p: accepted connection from %s:%u") [FInt c; FStr id; FInt (default 0 port)] in
      let* r := ffkq_attach (es_kq s) csk c FFKQ_READWRITE in
      do* ecs_die (negb (r =? 0)) (bytes_of "ecs_accept1") 111 in
      let* s := ecs_conn_recv fuel s c in Ret (0, s)
  | _ => Halt OutOfBounds
  end.

(** [if (0 != ecs_accept1()); break;]: the loop is left after its first turn. *)
Definition ecs_accept (fuel : nat) (s : ecs_srv) : prog unixE ecs_srv :=
  let* '(_, s) := ecs_accept1 fuel s in Ret s.

Definition ecs_listen (s : ecs_srv) : prog unixE ecs_srv :=
  let fn := bytes_of "ecs_listen" in
  let* lsk := ffsock_create_tcp Linux AF_INET (FFSOCK_NONBLOCK Linux) in
  do* ecs_die (lsk =? FFSOCK_NULL) fn 126 in
  let s := ESrv (es_conf s) (es_listen_port s) (es_ptr s) (Some H_ecs_accept) (es_kq s) lsk (es_heap s) in
  let* r := ffkq_attach (es_kq s) lsk (es_ptr s) FFKQ_READ in
  do* ecs_die (negb (r =? 0)) fn 129 in
  if es_conf s =? 0 then Halt OutOfBounds else
  let addr := ffsockaddr_set_ipv4 uninit None (es_listen_port s) in
  let* r := ffsock_bind lsk addr in
  do* ecs_die (negb (r =? 0)) fn 133 in
  let* r := ffsock_listen lsk SOMAXCONN in
  do* ecs_die (negb (r =? 0)) fn 134 in
  let* '(r, addr) := ffsock_localaddr lsk addr in
  do* ecs_die (negb (r =? 0)) fn 135 in
  let port := default (es_listen_port s) (ffsockaddr_ip_port addr).2 in
  do* DBG (bytes_of "listening on port %d") [FInt port] in
  Ret (ESrv (es_conf s) port (es_ptr s) (es_handler s) (es_kq s) lsk (es_heap s)).

Definition call_handler (fuel : nat) (s : ecs_srv) (t : Z) : prog unixE ecs_srv :=
  let* h := if t =? es_ptr s then Ret (es_handler s) else deref s t (λ o, Ret (ec_handler o)) in
  match h with
  | Some H_ecs_accept => ecs_accept fuel s
  | Some H_ecs_conn_recv => ecs_conn_recv fuel s t
  | None => Halt OutOfBounds
  end.

Definition run_step (fuel : nat) (t : Z) (s : ecs_srv) : prog unixE (ecs_srv + unit) :=
  let* '(r, events) := ffkq_wait (es_kq s) 1 t in
  do* ecs_die (r <? 0) (bytes_of "ecs_run") 147 in
  match events with
  | ev :: _ => let* s := call_handler fuel s (ffkq_event_data ev) in Ret (inl s)
  | [] => Halt OutOfBounds
  end.
Definition ecs_run (fuel : nat) (s : ecs_srv) : prog unixE unit := loop fuel (run_step fuel (ffkq_time_set (u32 (-1)))) s.

Definition ecs_init (s : ecs_srv) : prog unixE ecs_srv :=
  let* kq := ffkq_create in
  do* ecs_die (kq =? FFKQ_NULL) (bytes_of "ecs_init") 158 in
  Ret (ESrv (es_conf s) (es_listen_port s) (es_ptr s) (es_handler s) kq FFSOCK_NULL (es_heap s)).
Definition ecs_destroy (s : ecs_srv) : prog unixE unit :=
  do* ffsock_close (es_lsk s) in ffkq_close (es_kq s).

Definition main (fuel : nat) (argv : list (list Z)) : prog unixE Z :=
  let! conf := ffmem_alloc sizeof_ecs_conf in
  let! srv := ffmem_alloc sizeof_ecs_srv in
  if srv =? 0 then Halt OutOfBounds else
  let* s := ecs_init (ESrv conf 0 srv None FFKQ_NULL FFSOCK_NULL ∅) in
  let* s := match argv with
            | [_; arg] =>
                do* ecs_die (bool_decide (ffstr_to_uint32 arg = None)) (bytes_of "main") 176 in
                if conf =? 0 then Halt OutOfBounds else
                Ret (ESrv conf (default 0 (ffstr_to_uint32 arg)) srv None (es_kq s) FFSOCK_NULL ∅)
            | _ => Ret s
            end in
  let* s := ecs_listen s in
  do* ecs_run fuel s in
  do* ecs_destroy s in Ret 0.
End echo.

(** ** Properties *)

(** A message goes back to the connection it came from. *)
Definition to_sender (_ : list Z) (sk : Z) : list Z := [sk].

Section properties.
Context `{F : FmtLib, !FmtLaws F}.
Context (uninit : ffsockaddr).

Definition socks (s : ecs_srv) : gmap Z Z := ec_sk <$> es_heap s.

(** The server serves: its connection objects are what the network has. *)
Definition good (s : ecs_srv) (n : net) : Prop :=
  (∃ ms, world to_sender (es_conf s) (es_ptr s) (es_kq s) (es_lsk s) 0 (socks s) ms n) ∧
  es_handler s = Some H_ecs_accept ∧ map_Forall (λ _ o, ec_handler o = Some H_ecs_conn_recv) (es_heap s).

Abbreviation stop := (stopped to_sender).

Lemma egood_same s n n' : nsame n n' → good s n → good s n'.
Proof. intros Hn [[ms Hw] H]. split; [|done]. exists ms. by eapply world_same. Qed.
Lemma egood_serving s n : good s n → serving to_sender (n_trace n).
Proof. intros [[ms Hw] _]. by eapply world_serving. Qed.

Lemma conn_recv_good fuel s c n : good s n → is_Some (es_heap s !! c) →
  wp net_env (ecs_conn_recv fuel s c) good stop n.
Proof.
  intros Hg [o Hc]. unfold ecs_conn_recv.
  apply (wp_loop net_env (recv_step s c) (λ _ _ n, good s n)); [| |done].
  { intros w [] [[ms Hw] _]. cbn. by do 7 eexists. }
  clear n Hg. intros k [] n Hg. unfold recv_step, deref at 1. rewrite Hc.
  assert (socks s !! c = Some (ec_sk o)) as Hsk by (unfold socks; by rewrite lookup_fmap, Hc).
  cbn -[DBG ecs_die ecs_conn_send take Z.to_nat ffsock_close].
  intros [r buf] n1 (F1 & R1 & M1 & O1 & HT).
  destruct HT as [[[= -> ->] T1]|[[[= -> ->] T1]|(Hr & Hl & T1)]]; cbn -[DBG ecs_die ecs_conn_send take Z.to_nat ffsock_close].
  - assert (good s n1) as Hg1 by (eapply egood_same; [|exact Hg]; unfold nsame; split_and!; congruence).
    intros e n2 [_ ->]. destruct (fferr_again e); [done|]. apply die_bind; [by eapply egood_serving|done].
  - unfold DBG. apply fflog_bind. intros n2 (F2 & R2 & M2 & T2 & _). destruct Hg as [[ms Hw] [Hh Hr]].
    assert (ec_sk o ∈ ms) as Hin by (apply (w_socks _ _ _ _ _ _ _ _ _ Hw); by exists c).
    destruct (proj1 (elem_of_Permutation _ _) Hin) as [ms' Hms].
    assert (0 ≤ ec_sk o) as Hp by (by apply (proj1 (Forall_forall _ _) (w_pos _ _ _ _ _ _ _ _ _ Hw))).
    unfold ffsock_close. rewrite (proj2 (Z.eqb_neq (ec_sk o) _)) by (unfold FFSOCK_NULL; lia). cbn.
    intros _ n3 (F3 & R3 & M3 & _ & T3) _ n4 (F4 & R4 & T4 & _ & M4). split_and!; [|done|by apply map_Forall_delete].
    exists ms'. unfold socks. cbn. rewrite fmap_delete. eapply world_close; [exact Hw|exact Hsk|exact Hms|..].
    + by rewrite F4, F3, F2, F1.
    + by rewrite R4, R3, R2, R1.
    + by rewrite M4, M3, M2, M1.
    + by rewrite T4, T3, T2, T1, <- app_assoc.
  - cbn in Hr, Hl. rewrite (proj2 (Z.ltb_ge r 0)), (proj2 (Z.eqb_neq r 0)) by lia. unfold DBG at 1. apply fflog_bind.
    intros n2 (F2 & R2 & M2 & T2 & _). rewrite take_ge by lia. apply wp_bind. unfold ecs_conn_send, deref. rewrite Hc.
    cbn -[DBG ecs_die]. intros r3 n3 (F3 & R3 & M3 & _ & _ & T3).
    assert (good s n3) as Hg3.
    { destruct Hg as [[ms Hw] H]. split; [|done]. exists ms. eapply world_message; [exact Hw|exact Hsk|congruence..|].
      rewrite T3, T2, T1, <- app_assoc. done. }
    unfold ecs_die. apply die_bind; [by eapply egood_serving|]. intros _.
    eapply wp_mono; [apply fflog_wp| |done]. intros [] n4 H4. by eapply egood_same.
Qed.

(** The object of a new connection. *)
Lemma egood_accept s n sk n1 c n2 id :
  good s n → n_new_fd n sk n1 → sk ≠ -1 → n_trace n1 = n_trace n ++ [Accepted sk] →
  n_fds n2 = n_fds n1 → n_reg n2 = n_reg n1 → n_trace n2 = n_trace n1 → (c ∉ n_mem n1) → n_mem n2 = {[c]} ∪ n_mem n1 →
  good (with_heap s (<[c := EConn (Some H_ecs_conn_recv) sk id]> (es_heap s))) n2.
Proof using Type.
  intros [[ms Hw] [Hh Hr]] Hf Hsk T1 F2 R2 T2 Hc M2. split_and!; [|done|by apply map_Forall_insert_2].
  exists (ms ++ [sk]). unfold socks. cbn. rewrite fmap_insert. by eapply world_accept.
Qed.

Lemma accept_good fuel s n : good s n → wp net_env (ecs_accept uninit fuel s) good stop n.
Proof using All.
  intros Hg. unfold ecs_accept, ecs_accept1. do 2 apply wp_bind.
  cbn -[ffkq_attach DBG ecs_die ecs_conn_recv ffsockaddr_ip_port].
  intros [csk [sz bytes]] n1 (Hf & T1 & Hb). cbn -[ffkq_attach DBG ecs_die ecs_conn_recv ffsockaddr_ip_port] in *.
  apply wp_bind. destruct (Z.eqb_spec csk FFSOCK_NULL) as [->|Hne].
  - assert (good s n1) as Hg1.
    { eapply egood_same; [|exact Hg]. destruct Hf as (R1 & M1 & O1 & [[_ F1]|[? _]]); [|unfold FFSOCK_NULL in *; lia].
      rewrite app_nil_r in T1. unfold nsame. split_and!; congruence. }
    cbn -[ecs_die]. intros e n2 [_ ->]. destruct (fferr_again e); cbn -[ecs_die]; [done|].
    unfold ecs_die. apply die_bind; [by eapply egood_serving|done].
  - rewrite (proj2 (Z.eqb_neq csk (-1))) in T1 by done.
    assert (serving to_sender (n_trace n1)) as Hs1 by (destruct Hg as [[ms Hw] _]; by eapply serving_accept).
    cbn -[ffkq_attach DBG ecs_die ecs_conn_recv ffsockaddr_ip_port]. intros c n2 (F2 & R2 & T2 & HM).
    destruct HM as [(-> & _ & O2)|(Hc & Hni & M2 & O2)]; [cbn; by rewrite T2|].
    rewrite (proj2 (Z.eqb_neq c 0)) by lia.
    destruct (inet_ip uninit (Z.of_nat (length bytes)) bytes (Hb Hne)) as (b0 & b1 & b2 & b3 & Eip).
    destruct (ffsockaddr_ip_port _) as [ip port]. cbn in Eip. subst ip.
    set (s' := with_heap _ _).
    assert (good s' n2) as Hg2 by (eapply egood_accept; [exact Hg|exact Hf|exact Hne|exact T1|..]; congruence).
    unfold DBG. apply fflog_bind. intros n4 H4. pose proof (egood_same _ _ _ H4 Hg2) as Hg4.
    cbn -[ecs_die ecs_conn_recv]. intros r n5 (F5 & M5 & T5 & O5 & R5). unfold ecs_die. apply die_bind.
    { rewrite T5. by eapply egood_serving. }
    intros Hr. apply negb_false_iff in Hr. rewrite Hr in R5. apply wp_bind.
    eapply wp_mono; [apply conn_recv_good|done|done].
    + destruct Hg4 as [[ms Hw4] H4']. split; [|done]. exists ms.
      eapply world_attach; [exact Hw4| |done..|exact R5]. unfold socks, s'. cbn. by rewrite lookup_fmap, lookup_insert_eq.
    + unfold s'. cbn. rewrite lookup_insert_eq. by eexists.
Qed.

Lemma handler_good fuel s t n fd : good s n → n_reg n !! fd = Some t →
  wp net_env (call_handler uninit fuel s t) good stop n.
Proof using All.
  intros Hg Ht. destruct (Hg) as ([ms Hw] & Hh & Hr). unfold call_handler.
  destruct (w_reg _ _ _ _ _ _ _ _ _ Hw fd t Ht) as [[_ ->]|Hc].
  - rewrite Z.eqb_refl. cbn. rewrite Hh. by apply accept_good.
  - assert (t ≠ es_ptr s) as Hne.
    { intros ->. destruct (w_own _ _ _ _ _ _ _ _ _ Hw) as [_ Hno]. apply Hno. by apply elem_of_dom_2 in Hc. }
    rewrite (proj2 (Z.eqb_neq _ _)) by done. unfold socks in Hc. rewrite lookup_fmap in Hc.
    apply fmap_Some in Hc as (o & Ho & _). unfold deref. rewrite Ho. cbn. rewrite (Hr _ _ Ho).
    apply conn_recv_good; [done|by eexists].
Qed.

Lemma ecs_run_good fuel s n : good s n → wp net_env (ecs_run uninit fuel s) (λ _ _, False) stop n.
Proof using All.
  intros Hg. unfold ecs_run. apply (wp_loop net_env _ (λ _ s n, good s n)); [| |done].
  { intros w s' [[ms Hw] _]. cbn. by do 7 eexists. }
  clear s n Hg. intros k s n Hg. unfold run_step. apply wp_bind. unfold ffkq_wait. cbn -[ecs_die call_handler s32].
  intros [r evs] n1 [H1 He]. pose proof (egood_same _ _ _ H1 Hg) as Hg1.
  unfold ecs_die. apply die_bind; [by eapply egood_serving|]. intros Hr%Z.ltb_ge. cbn in He.
  change (s32 (ffkq_time_set (u32 (-1))) <? 0) with true in He. destruct He as [He|(He & Hl & Hev)]; [lia|].
  destruct evs as [|ev evs]; [cbn in *; lia|]. destruct (Hev ev) as [fd Hfd]; [left|].
  destruct H1 as (_ & E1 & _). rewrite <- E1 in Hfd. apply wp_bind.
  by eapply wp_mono; [eapply handler_good| |].
Qed.

(** Before the socket is open. *)
Definition starting (s : ecs_srv) (n : net) : Prop :=
  es_heap s = ∅ ∧ n_fds n = {[es_kq s]} ∧ n_reg n = ∅ ∧ n_trace n = [] ∧
  (es_conf s = 0 → n_oom n = true) ∧ (es_conf s ≠ 0 → n_mem n = {[es_conf s; es_ptr s]}).

Lemma listen_good s n : starting s n → wp net_env (ecs_listen uninit s) good stop n.
Proof using All.
  intros (Hh & Hf & Hr & Ht & Hm0 & Hm). unfold ecs_listen. apply wp_bind.
  cbn -[ffkq_attach DBG ecs_die ffsock_bind ffsock_listen ffsock_localaddr ffsockaddr_ip_port ffsockaddr_set_ipv4].
  intros lsk n1 [(R1 & M1 & O1 & F1) T1]. unfold ecs_die. apply die_bind; [apply serving_nil; congruence|].
  intros Hl%Z.eqb_neq. destruct F1 as [[? _]|(_ & Hni & F1)]; [done|].
  cbn -[die DBG ffsock_bind ffsock_listen ffsock_localaddr ffsockaddr_ip_port ffsockaddr_set_ipv4].
  intros r n2 (F2 & M2 & T2 & O2 & R2). apply die_bind; [apply serving_nil; congruence|].
  intros Hr2%negb_false_iff. rewrite Hr2 in R2. destruct (Z.eqb_spec (es_conf s) 0) as [E0|Hne].
  { cbn. split; [|apply serving_nil; congruence]. rewrite O2, O1. auto. }
  assert (∀ port, good (ESrv (es_conf s) port (es_ptr s) (Some H_ecs_accept) (es_kq s) lsk (es_heap s)) n2) as Hg.
  { intros port. unfold good, socks. cbn. rewrite Hh, fmap_empty. rewrite Hf in Hni.
    split_and!; [|done|apply map_Forall_empty]. exists [].
    apply world_start; [clear -Hni; set_solver|rewrite F2, F1, Hf; clear; set_solver| |congruence|].
    - rewrite M2, M1. by apply Hm.
    - by rewrite R2, R1, Hr, insert_empty. }
  assert (∀ n', nsame n2 n' → serving to_sender (n_trace n')) as Hsv.
  { intros n' (_ & _ & _ & T' & _). apply serving_nil. congruence. }
  cbn -[die DBG ffsock_localaddr ffsockaddr_ip_port ffsockaddr_set_ipv4]. intros _ n3 H3 r4 n4 H4.
  assert (nsame n2 n4) as H24 by eauto with ffos. apply die_bind; [by apply Hsv|]. intros _.
  cbn -[die DBG ffsockaddr_ip_port ffsockaddr_set_ipv4]. intros r5 n5 H5.
  assert (nsame n2 n5) as H25 by eauto with ffos. apply die_bind; [by apply Hsv|]. intros _.
  cbn -[die DBG ffsockaddr_ip_port ffsockaddr_set_ipv4]. intros [r6 [sz bs]] n6 H6.
  assert (nsame n2 n6) as H26 by eauto with ffos.
  destruct (_ || _); cbn -[die DBG ffsockaddr_ip_port ffsockaddr_set_ipv4];
    (apply die_bind; [by apply Hsv|]); [done|]. intros _. unfold DBG. apply fflog_bind. intros n7 H7.
  cbn. eapply egood_same; [|apply Hg]. eauto with ffos.
Qed.

(** C9: whatever clients connect, send and do, and whatever calls fail, what the echo server has done at any
    time is what the abstract server may do that offers each message back to the connection it was received
    from before anything else is received.  Whenever it goes round its loop it has exactly the queue,
    the listening socket and one socket per connection open, and exactly its two objects and one per
    connection allocated; no freed object is used.  It never ends but by a fatal error it reports,
    or by using the NULL that a failed allocation has returned. *)
Theorem echo_serves fuel argv n :
  n_fds n = ∅ → n_reg n = ∅ → n_mem n = ∅ → n_trace n = [] →
  wp net_env (main uninit fuel argv) (λ _ _, False) (stopped to_sender) n.
Proof using All.
  intros HF HR HM HT. unfold main. cbn -[ecs_init ecs_listen ecs_run ecs_destroy ecs_die bytes_of].
  intros conf n1 (F1 & R1 & T1 & M1) srv n2 (F2 & R2 & T2 & M2).
  assert (serving to_sender (n_trace n2)) as Hs2 by (apply serving_nil; congruence).
  destruct M2 as [(-> & _ & O2)|(Hp & Hni & M2 & O2)]; [done|]. rewrite (proj2 (Z.eqb_neq srv 0)) by lia.
  assert ((conf = 0 → n_oom n2 = true) ∧ (conf ≠ 0 → n_mem n2 = {[conf; srv]})) as [HO HM2].
  { destruct M1 as [(-> & M1 & O1)|(? & _ & M1 & O1)]; split; intros; [congruence|done|lia|].
    rewrite M2, M1, HM. clear. set_solver. }
  unfold ecs_init. apply wp_bind. apply wp_bind. cbn -[ecs_listen ecs_run ecs_destroy ecs_die bytes_of].
  intros kq n4 [(R4 & M4 & O4 & F4) T4]. unfold ecs_die at 1. apply die_bind; [apply serving_nil; congruence|].
  intros Hkq%Z.eqb_neq. destruct F4 as [[? _]|(_ & _ & F4)]; [done|]. cbn [wp].
  assert (∀ port, wp net_env
    (let* s := ecs_listen uninit (ESrv conf port srv None kq FFSOCK_NULL ∅) in
     do* ecs_run uninit fuel s in do* ecs_destroy s in Ret 0) (λ _ _, False) (stopped to_sender) n4) as Hk.
  { intros port. apply wp_bind. eapply wp_mono; [apply listen_good| |done].
    - unfold starting. cbn. split_and!; try done; try congruence.
      + rewrite F4, F2, F1, HF. clear. set_solver.
      + intros E. rewrite O4. auto.
      + intros E. rewrite M4. auto.
    - intros s n5 Hg. apply wp_bind. eapply wp_mono; [by apply ecs_run_good|done|done]. }
  destruct argv as [|a [|arg [|]]]; try (cbn [bind es_kq]; apply (Hk 0)).
  apply wp_bind. unfold ecs_die at 1. apply die_bind; [apply serving_nil; congruence|]. intros Harg.
  destruct (Z.eqb_spec conf 0) as [->|Hne]; cbn [wp].
  - cbn. split; [rewrite O4; auto|apply serving_nil; congruence].
  - apply Hk.
Qed.
End properties.

Lemma echo_serves_witness : wp net_env (main (SockAddr 0 (replicate 28 0)) 5 []) (λ _ _, False) (stopped to_sender) net0.
Proof. apply echo_serves; reflexivity. Defined.

Example echo_loses_client :
  let '(r, s) := run demo_kernel (main (SockAddr 0 (replicate 28 0)) 9 []) (Demo 100 0 2 false) in
  r = Stopped Exited ∧ d_waiting s = 1%nat.
Proof. vm_compute. done. Qed.
